(** * Sales metrics cache, duplicate-sale cleanup and expense validation

    A shallow embedding of three parts of the back office:
    - [app/routers/metricas.py]: the daily and monthly sales totals with
      their in-memory cache, one retry and cached fallback, and the
      inventory values;
    - [scripts/cleanup_duplicate_vendas.py]: [build_signature],
      [choose_to_keep] and the run of the script on a database;
    - [app/routers/despesas.py]: the expense endpoints and their
      validation.

    Conventions.  A Python [float] is a [pyfloat]: a canonical rational
    ([Qc]) standing for a finite double, an infinity, or NaN; the rounding
    of finite doubles is outside the model.  The numbers a SQL aggregate
    returns are rationals.  Python [str] is modelled as a string of 8-bit
    characters, the code points below 256; the built-ins below are those
    of CPython 3.11 on such texts.  Exceptions are explicit: a computation
    returns [Ret v] or [Raise e].  Coroutines are run to completion one
    after the other, so the cache lock is always free when it is taken. *)

From Stdlib Require Import ZArith QArith Qcanon Qround Ascii String List Lia.
From stdpp Require Import base option list gmap strings sorting numbers pretty.

#[local] Set Warnings "-clear-no-such-hyp".

Local Open Scope Z_scope.

(** ** Exceptions and the two monads *)

Inductive exn : Type :=
  | ValueError
  | TypeError
  | OverflowError
  | AttributeError
  | KeyError (key : string)
  | IndexError
  | DBAPIError
  | MultipleResultsFound
  | HTTPException (status_code : Z) (detail : string).

Inductive result (A : Type) : Type :=
  | Ret (a : A)
  | Raise (e : exn).
Arguments Ret {A} a.
Arguments Raise {A} e.

Global Instance result_ret : MRet result := @Ret.
Global Instance result_bind : MBind result := λ A B f m,
  match m with Ret a => f a | Raise e => Raise e end.

Global Instance result_fmap : FMap result := λ A B f m,
  match m with Ret a => Ret (f a) | Raise e => Raise e end.

(** [try: m except Exception: h] for code without side effects. *)
Definition try_except {A} (m : result A) (h : result A) : result A :=
  match m with Ret a => Ret a | Raise _ => h end.

Definition is_Ret {A} (r : result A) : Prop :=
  match r with Ret _ => True | Raise _ => False end.

(** Code that reads or writes a world [W].  A raised exception keeps the
    side effects made before it. *)
Definition M (W A : Type) : Type := W → result A * W.

Global Instance M_ret W : MRet (M W) := λ A a w, (Ret a, w).
Global Instance M_bind W : MBind (M W) := λ A B f m w,
  match m w with
  | (Ret a, w') => f a w'
  | (Raise e, w') => (Raise e, w')
  end.

Global Instance M_fmap W : FMap (M W) := λ A B f m w,
  match m w with
  | (Ret a, w') => (Ret (f a), w')
  | (Raise e, w') => (Raise e, w')
  end.

Definition raise {W A} (e : exn) : M W A := λ w, (Raise e, w).
Definition lift {W A} (r : result A) : M W A := λ w, (r, w).
Definition gets {W A} (f : W → A) : M W A := λ w, (Ret (f w), w).
Definition modify {W} (f : W → W) : M W unit := λ w, (Ret tt, f w).

(** [try: m except Exception: h]. *)
Definition try_catch {W A} (m : M W A) (h : M W A) : M W A := λ w,
  match m w with
  | (Ret a, w') => (Ret a, w')
  | (Raise _, w') => h w'
  end.

(** ** Python values and built-ins *)

Module Py.

(** JSON-like values: what a request body or a response holds.  A float
    is [PFloat q] when it is finite, else [PInf] or [PNaN]. *)
#[warnings="-register-all"]
Inductive pyval : Type :=
  | PNone
  | PBool (b : bool)
  | PInt (n : Z)
  | PFloat (q : Qc)
  | PInf (negative : bool)
  | PNaN
  | PStr (s : string)
  | PList (l : list pyval)
  | PDict (d : gmap string pyval).

(** Truth value of [x] in [if x] and [x or y]. *)
Definition truthy (v : pyval) : bool :=
  match v with
  | PNone => false
  | PBool b => b
  | PInt n => negb (n =? 0)
  | PFloat q => negb (bool_decide (q = 0%Qc))
  | PInf _ | PNaN => true
  | PStr s => negb (String.eqb s "")
  | PList l => match l with [] => false | _ => true end
  | PDict d => negb (bool_decide (size d = 0%nat))
  end.

(** [x or y] *)
Definition por (x y : pyval) : pyval := if truthy x then x else y.

(** [d.get(k)]: [None] when the key is absent. *)
Definition dict_get (d : gmap string pyval) (k : string) : pyval :=
  default PNone (d !! k).

(** *** Characters *)

Definition is_digit (c : ascii) : bool :=
  let n := N_of_ascii c in ((48 <=? n) && (n <=? 57))%N.

Definition digit_val (c : ascii) : Z := Z.of_N (N_of_ascii c) - 48.

(** White space of [str.strip()]: the code points below 256 that
    [str.isspace] accepts. *)
Definition is_space (c : ascii) : bool :=
  let n := N_of_ascii c in
  (((9 <=? n) && (n <=? 13)) || ((28 <=? n) && (n <=? 32))
   || (n =? 133) || (n =? 160))%N.

(** White space that [int()] and [float()] skip around a number: the
    separators U+001C to U+001F are not part of it. *)
Definition is_number_space (c : ascii) : bool :=
  let n := N_of_ascii c in
  (((9 <=? n) && (n <=? 13)) || (n =? 32) || (n =? 133) || (n =? 160))%N.

Fixpoint lstrip (l : list ascii) : list ascii :=
  match l with
  | c :: l' => if is_space c then lstrip l' else l
  | [] => []
  end.

Definition strip_chars (l : list ascii) : list ascii :=
  rev (lstrip (rev (lstrip l))).

(** [s.strip()] *)
Definition strip (s : string) : string :=
  string_of_list_ascii (strip_chars (list_ascii_of_string s)).

Fixpoint lstrip_number (l : list ascii) : list ascii :=
  match l with
  | c :: l' => if is_number_space c then lstrip_number l' else l
  | [] => []
  end.

(** The text of a number without the white space around it. *)
Definition strip_number (l : list ascii) : list ascii :=
  rev (lstrip_number (rev (lstrip_number l))).

(** [s.split(sep)] for a one-character separator. *)
Fixpoint split_on (sep : ascii) (cur : list ascii) (l : list ascii)
  : list (list ascii) :=
  match l with
  | [] => [rev cur]
  | c :: l' =>
      if Ascii.eqb c sep then rev cur :: split_on sep [] l'
      else split_on sep (c :: cur) l'
  end.

Definition split (s : string) (sep : ascii) : list string :=
  string_of_list_ascii <$> split_on sep [] (list_ascii_of_string s).

(** *** [int(s)] in base 10 *)

Inductive digit_state := AtStart | AfterDigit | AfterUnderscore.

(** Digits with single underscores between them. *)
Fixpoint int_digits (st : digit_state) (acc : Z) (l : list ascii)
  : result Z :=
  match l with
  | [] => match st with AfterDigit => Ret acc | _ => Raise ValueError end
  | c :: l' =>
      if is_digit c then int_digits AfterDigit (10 * acc + digit_val c) l'
      else if Ascii.eqb c "_" then
        match st with
        | AfterDigit => int_digits AfterUnderscore acc l'
        | _ => Raise ValueError
        end
      else Raise ValueError
  end.

(** [sys.get_int_max_str_digits()]: a decimal text of more digits is
    refused. *)
Definition max_str_digits : Z := 4300.

Definition int_body (l : list ascii) : result Z :=
  if max_str_digits <? Z.of_nat (length (List.filter is_digit l))
  then Raise ValueError
  else int_digits AtStart 0 l.

(** [int(s)] *)
Definition int (s : string) : result Z :=
  match strip_number (list_ascii_of_string s) with
  | c :: l' =>
      if Ascii.eqb c "+" then int_body l'
      else if Ascii.eqb c "-" then Z.opp <$> int_body l'
      else int_body (c :: l')
  | [] => Raise ValueError
  end.

(** *** [datetime.date] *)

Record date : Type := mkdate { year : Z; month : Z; day : Z }.

Global Instance date_eq_dec : EqDecision date.
Proof. solve_decision. Defined.

Definition MINYEAR : Z := 1.
Definition MAXYEAR : Z := 9999.

Definition is_leap (y : Z) : bool :=
  (y mod 4 =? 0) && (negb (y mod 100 =? 0) || (y mod 400 =? 0)).

Definition days_in_month (y m : Z) : Z :=
  if m =? 2 then (if is_leap y then 29 else 28)
  else if (m =? 4) || (m =? 6) || (m =? 9) || (m =? 11) then 30
  else 31.

Definition date_valid (y m d : Z) : bool :=
  (MINYEAR <=? y) && (y <=? MAXYEAR) && (1 <=? m) && (m <=? 12)
  && (1 <=? d) && (d <=? days_in_month y m).

(** [date(y, m, d)]: [ValueError] outside the calendar. *)
Definition date_new (y m d : Z) : result date :=
  if date_valid y m d then Ret (mkdate y m d) else Raise ValueError.

Definition valid (d : date) : Prop := date_valid (year d) (month d) (day d) = true.

(** Tuples and dates compare component by component, left to right. *)
Definition lex (c : comparison) (d : comparison) : comparison :=
  match c with Eq => d | _ => c end.

Definition date_compare (a b : date) : comparison :=
  lex (year a ?= year b) (lex (month a ?= month b) (day a ?= day b)).

(** The last [width] decimal digits of [n]: ["%0<width>d" % n] when
    [0 <= n < 10 ^ width]. *)
Definition digit_char (n : Z) : ascii := ascii_of_N (Z.to_N (48 + n mod 10)).

Fixpoint zero_padded (width : nat) (n : Z) : list ascii :=
  match width with
  | O => []
  | S w => zero_padded w (n / 10) ++ [digit_char n]
  end.

(** [str(d)], that is [d.isoformat()]: [YYYY-MM-DD]. *)
Definition isoformat (d : date) : string :=
  string_of_list_ascii
    (zero_padded 4 (year d) ++ ["-"%char] ++ zero_padded 2 (month d)
     ++ ["-"%char] ++ zero_padded 2 (day d)).

(** [d.strftime("%Y-%m")]: the C library writes the year without padding
    and the month on two digits. *)
Definition strftime_Y_m (d : date) : string :=
  (pretty (year d) ++ "-" ++ string_of_list_ascii (zero_padded 2 (month d)))%string.

(** **** The calendar arithmetic of the [datetime] module *)

Definition days_before_month (y m : Z) : Z :=
  nth (Z.to_nat (m - 1)) [0; 31; 59; 90; 120; 151; 181; 212; 243; 273; 304; 334] 0
  + (if (2 <? m) && is_leap y then 1 else 0).

Definition days_before_year (y : Z) : Z :=
  let y := y - 1 in y * 365 + y / 4 - y / 100 + y / 400.

(** The number of the day, the first of January of the year 1 being
    day 1. *)
Definition ymd_to_ord (y m d : Z) : Z :=
  days_before_year y + days_before_month y m + d.

(** Monday is 0. *)
Definition weekday (y m d : Z) : Z := (ymd_to_ord y m d + 6) mod 7.

(** The day number of the Monday that starts the ISO week 1 of [y]. *)
Definition iso_week1_monday (y : Z) : Z :=
  let first_day := ymd_to_ord y 1 1 in
  let first_weekday := (first_day + 6) mod 7 in
  let week1_monday := first_day - first_weekday in
  if 3 <? first_weekday then week1_monday + 7 else week1_monday.

Definition ord_to_ymd (ordinal : Z) : Z * Z * Z :=
  let ordinal := ordinal - 1 in
  let n400 := ordinal / 146097 in
  let n := ordinal mod 146097 in
  let n100 := n / 36524 in
  let n := n mod 36524 in
  let n4 := n / 1461 in
  let n := n mod 1461 in
  let n1 := n / 365 in
  let n := n mod 365 in
  let y := n400 * 400 + 1 + n100 * 100 + n4 * 4 + n1 in
  if (n1 =? 4) || (n100 =? 4) then (y - 1, 12, 31)
  else
    let leapyear := (n1 =? 3) && (negb (n4 =? 24) || (n100 =? 3)) in
    let m := (n + 50) / 32 in
    let preceding :=
      nth (Z.to_nat (m - 1)) [0; 31; 59; 90; 120; 151; 181; 212; 243; 273; 304; 334] 0
      + (if (2 <? m) && leapyear then 1 else 0) in
    if n <? preceding
    then (y, m - 1, n - (preceding - days_in_month y (m - 1)) + 1)
    else (y, m, n - preceding + 1).

(** The date of the day [d] of the ISO week [w] of the year [y].  Week
    53 exists in the years that start on a Thursday, and in the leap years
    that start on a Wednesday.  No week of the year 0 gives a date. *)
Definition iso_to_ymd (y w d : Z) : result (Z * Z * Z) :=
  if y <? MINYEAR then Raise ValueError else
  let first_weekday := weekday y 1 1 in
  if negb (((1 <=? w) && (w <=? 52))
           || ((w =? 53)
               && ((first_weekday =? 3)
                   || ((first_weekday =? 2) && is_leap y))))
  then Raise ValueError
  else if negb ((1 <=? d) && (d <=? 7)) then Raise ValueError
  else Ret (ord_to_ymd (iso_week1_monday y + (w - 1) * 7 + d - 1)).

(** **** [date.fromisoformat(s)] *)

(** The bytes of a text in UTF-8, which the parser reads. *)
Definition utf8 (l : list ascii) : list ascii :=
  l ≫= λ c,
    let n := N_of_ascii c in
    if (n <? 128)%N then [c]
    else [ascii_of_N (192 + n / 64); ascii_of_N (128 + n mod 64)].

(** Exactly [n] digits. *)
Fixpoint parse_digits (n : nat) (acc : Z) (l : list ascii)
  : option (Z * list ascii) :=
  match n with
  | O => Some (acc, l)
  | S n' =>
      match l with
      | c :: l' =>
          if is_digit c then parse_digits n' (10 * acc + digit_val c) l'
          else None
      | [] => None
      end
  end.

Definition starts_with (c : ascii) (l : list ascii) : bool :=
  match l with c' :: _ => Ascii.eqb c' c | [] => false end.

Definition iso_date (y w d : Z) : result date :=
  '(y', m', d') ← iso_to_ymd y w d; date_new y' m' d'.

(** [date.fromisoformat(s)]: the text must take 7, 8 or 10 bytes; it is
    [YYYY-MM-DD] or [YYYYMMDD], or a week date, [YYYY-Www], [YYYYWww],
    [YYYY-Www-D] or [YYYYWwwD]; bytes left after a complete date are not
    looked at. *)
Definition fromisoformat (s : string) : result date :=
  let b := utf8 (list_ascii_of_string s) in
  let n := length b in
  if negb ((n =? 7) || (n =? 8) || (n =? 10))%nat then Raise ValueError else
  match parse_digits 4 0 b with
  | None => Raise ValueError
  | Some (y, p) =>
      let uses_separator := starts_with "-" p in
      let p := if uses_separator then tail p else p in
      if starts_with "W" p then
        match parse_digits 2 0 (tail p) with
        | None => Raise ValueError
        | Some (w, p) =>
            match p with
            | [] => iso_date y w 1
            | _ :: _ =>
                if uses_separator && negb (starts_with "-" p)
                then Raise ValueError
                else
                  match parse_digits 1 0 (if uses_separator then tail p else p) with
                  | Some (d, _) => iso_date y w d
                  | None => Raise ValueError
                  end
            end
        end
      else
        match parse_digits 2 0 p with
        | None => Raise ValueError
        | Some (m, p) =>
            if uses_separator && negb (starts_with "-" p)
            then Raise ValueError
            else
              match parse_digits 2 0 (if uses_separator then tail p else p) with
              | Some (d, _) => date_new y m d
              | None => Raise ValueError
              end
        end
  end.

(** [datetime]: a date and the microseconds since midnight. *)
Record datetime : Type := mkdatetime { dt_date : date; dt_us : N }.

Definition datetime_compare (a b : datetime) : comparison :=
  lex (date_compare (dt_date a) (dt_date b)) (dt_us a ?= dt_us b)%N.

Definition datetime_le (a b : datetime) : Prop := datetime_compare a b ≠ Gt.

(** What makes a three-way comparison a total order. *)
Record compare_ok {A} (c : A → A → comparison) : Prop := {
  c_eq : ∀ x y, c x y = Eq → x = y;
  c_refl : ∀ x, c x x = Eq;
  c_antisym : ∀ x y, c y x = CompOpp (c x y);
  c_trans : ∀ x y z, c x y = Lt → c y z = Lt → c x z = Lt;
}.

(** A date compared with a timestamp stands for its midnight. *)
Definition midnight (d : date) : datetime := mkdatetime d 0.

(** *** [uuid.UUID(s)] *)

Definition hex_val (c : ascii) : option Z :=
  let n := Z.of_N (N_of_ascii c) in
  if (48 <=? n) && (n <=? 57) then Some (n - 48)
  else if (97 <=? n) && (n <=? 102) then Some (n - 87)
  else if (65 <=? n) && (n <=? 70) then Some (n - 55)
  else None.

Fixpoint is_prefix (p l : list ascii) : bool :=
  match p, l with
  | [], _ => true
  | a :: p', b :: l' => Ascii.eqb a b && is_prefix p' l'
  | _ :: _, [] => false
  end.

(** [s.replace(pat, '')] for a non-empty [pat], left to right. *)
Fixpoint remove_all (pat : list ascii) (skip : nat) (l : list ascii)
  : list ascii :=
  match l with
  | [] => []
  | c :: l' =>
      match skip with
      | S k => remove_all pat k l'
      | O =>
          if is_prefix pat l then remove_all pat (length pat - 1) l'
          else c :: remove_all pat 0 l'
      end
  end.

Definition is_brace (c : ascii) : bool := Ascii.eqb c "{" || Ascii.eqb c "}".

Fixpoint lstrip_braces (l : list ascii) : list ascii :=
  match l with
  | c :: l' => if is_brace c then lstrip_braces l' else l
  | [] => []
  end.

(** Base 16 digits with single underscores between them. *)
Fixpoint hex_digits (st : digit_state) (acc : Z) (l : list ascii)
  : result Z :=
  match l with
  | [] => match st with AfterDigit => Ret acc | _ => Raise ValueError end
  | c :: l' =>
      match hex_val c with
      | Some v => hex_digits AfterDigit (16 * acc + v) l'
      | None =>
          if Ascii.eqb c "_" then
            match st with
            | AfterDigit => hex_digits AfterUnderscore acc l'
            | _ => Raise ValueError
            end
          else Raise ValueError
      end
  end.

(** [int(s, 16)] on a text without a minus sign. *)
Definition int16 (l : list ascii) : result Z :=
  let l := strip_number l in
  let l := match l with c :: l' => if Ascii.eqb c "+" then l' else l | [] => l end in
  match l with
  | z :: x :: l' =>
      if Ascii.eqb z "0" && (Ascii.eqb x "x" || Ascii.eqb x "X") then
        match l' with
        | u :: l'' => if Ascii.eqb u "_" then hex_digits AtStart 0 l''
                      else hex_digits AtStart 0 l'
        | [] => Raise ValueError
        end
      else hex_digits AtStart 0 l
  | _ => hex_digits AtStart 0 l
  end.

(** A UUID is its 128-bit number. *)
Definition uuid : Type := Z.

(** [uuid.UUID(s)]: drop [urn:] and [uuid:], braces and hyphens; what is
    left must be 32 characters that [int(_, 16)] reads. *)
Definition UUID (s : string) : result uuid :=
  let l := list_ascii_of_string s in
  let l := remove_all (list_ascii_of_string "urn:") 0 l in
  let l := remove_all (list_ascii_of_string "uuid:") 0 l in
  let l := rev (lstrip_braces (rev (lstrip_braces l))) in
  let l := remove_all ["-"%char] 0 l in
  if bool_decide (length l = 32%nat) then int16 l else Raise ValueError.

(** *** Floats *)

(** A Python [float]. *)
Inductive pyfloat : Type :=
  | Fin (q : Qc)
  | Inf (negative : bool)
  | NaN.

Global Instance pyfloat_eq_dec : EqDecision pyfloat.
Proof. solve_decision. Defined.

(** A float as a JSON-like value. *)
Definition float_value (x : pyfloat) : pyval :=
  match x with
  | Fin q => PFloat q
  | Inf s => PInf s
  | NaN => PNaN
  end.

(** [x == y] on floats: NaN equals nothing, itself included. *)
Definition float_eqb (x y : pyfloat) : bool :=
  match x, y with
  | Fin a, Fin b => bool_decide (a = b)
  | Inf s, Inf t => Bool.eqb s t
  | _, _ => false
  end.

(** [x < y] on floats: false as soon as one is NaN. *)
Definition float_ltb (x y : pyfloat) : bool :=
  match x, y with
  | Fin a, Fin b => bool_decide (a < b)%Qc
  | Inf true, Fin _ | Inf true, Inf false | Fin _, Inf false => true
  | _, _ => false
  end.

Definition is_nan (x : pyfloat) : bool :=
  match x with NaN => true | _ => false end.

(** The least magnitude that rounds to an infinity: [2^1024 - 2^970],
    half-way between the largest double and [2^1024]. *)
Definition float_overflow : Z := 2 ^ 1024 - 2 ^ 970.

Fixpoint span_digits (l : list ascii) : list ascii * list ascii :=
  match l with
  | c :: l' =>
      if is_digit c then let '(ds, r) := span_digits l' in (c :: ds, r)
      else ([], l)
  | [] => ([], [])
  end.

Definition digits_value (ds : list ascii) : Z :=
  fold_left (λ acc c, 10 * acc + digit_val c) ds 0.

Definition take_sign (l : list ascii) : bool * list ascii :=
  match l with
  | c :: l' =>
      if Ascii.eqb c "-" then (true, l')
      else if Ascii.eqb c "+" then (false, l')
      else (false, l)
  | [] => (false, [])
  end.

Definition pow10 (e : Z) : Qc :=
  if 0 <=? e then Qc_of_Z (10 ^ e)
  else (/ Qc_of_Z (10 ^ (- e)))%Qc.

(** The underscores of a numeric text are dropped; each must stand
    between two digits.  [prev] is the character before [l]. *)
Fixpoint drop_underscores (prev : option ascii) (l : list ascii)
  : result (list ascii) :=
  match l with
  | [] =>
      match prev with
      | Some p => if Ascii.eqb p "_" then Raise ValueError else Ret []
      | None => Ret []
      end
  | c :: l' =>
      if Ascii.eqb c "_" then
        match prev with
        | Some p =>
            if is_digit p then drop_underscores (Some c) l'
            else Raise ValueError
        | None => Raise ValueError
        end
      else
        match prev with
        | Some p =>
            if Ascii.eqb p "_" && negb (is_digit c) then Raise ValueError
            else cons c <$> drop_underscores (Some c) l'
        | None => cons c <$> drop_underscores (Some c) l'
        end
  end.

Definition ascii_lower (c : ascii) : ascii :=
  let n := N_of_ascii c in
  if ((65 <=? n) && (n <=? 90))%N then ascii_of_N (n + 32) else c.

Definition is_word (word : string) (l : list ascii) : bool :=
  bool_decide (ascii_lower <$> l = list_ascii_of_string word).

(** The value of a decimal text: digits, an optional fraction and an
    optional exponent; a magnitude too large for a double is an
    infinity. *)
Definition decimal (neg : bool) (l : list ascii) : result pyfloat :=
  let '(ip, l) := span_digits l in
  let '(fp, l) :=
    match l with
    | c :: l' => if Ascii.eqb c "." then span_digits l' else ([], l)
    | [] => ([], [])
    end in
  if bool_decide (ip ++ fp = []) then Raise ValueError else
  let mant := digits_value (ip ++ fp) in
  let exp : result Z :=
    match l with
    | [] => Ret 0
    | c :: l' =>
        if Ascii.eqb c "e" || Ascii.eqb c "E" then
          let '(eneg, l'') := take_sign l' in
          let '(ed, rest) := span_digits l'' in
          match ed, rest with
          | _ :: _, [] => Ret (if eneg then - digits_value ed else digits_value ed)
          | _, _ => Raise ValueError
          end
        else Raise ValueError
    end in
  e ← exp;
  let v := (Qc_of_Z mant * pow10 (e - Z.of_nat (length fp)))%Qc in
  if bool_decide (Qc_of_Z float_overflow ≤ v)%Qc then Ret (Inf neg)
  else Ret (Fin (if neg then (- v)%Qc else v)).

(** [float(s)] for a text: white space around it is skipped; then come a
    sign and [inf], [infinity] or [nan] in any case of the letters, or a
    decimal number. *)
Definition float_of_string (s : string) : result pyfloat :=
  l ← drop_underscores None (strip_number (list_ascii_of_string s));
  let '(neg, l) := take_sign l in
  if is_word "inf" l || is_word "infinity" l then Ret (Inf neg)
  else if is_word "nan" l then Ret NaN
  else decimal neg l.

(** [float(x)] *)
Definition float (x : pyval) : result pyfloat :=
  match x with
  | PNone => Raise TypeError
  | PBool b => Ret (Fin (if b then 1%Qc else 0%Qc))
  | PInt n =>
      if float_overflow <=? Z.abs n then Raise OverflowError
      else Ret (Fin (Qc_of_Z n))
  | PFloat q => Ret (Fin q)
  | PInf s => Ret (Inf s)
  | PNaN => Ret NaN
  | PStr s => float_of_string s
  | PList _ | PDict _ => Raise TypeError
  end.

(** [x or 0] for a nullable float, as a float. *)
Definition float_or_0 (x : option pyfloat) : pyfloat := default (Fin 0%Qc) x.

(** [d[k]] on a dict value, [None] standing for a missing key. *)
Definition item (v : pyval) (k : string) : option pyval :=
  match v with PDict d => d !! k | _ => None end.

End Py.

Import Py.

(** ** The metrics router: [app/routers/metricas.py] *)

Module Metricas.

(** Modelled from the spec: the columns of a sale ([app/db/models.py] is
    not among the sources).  A sale has a total, a discount, a cancelled
    flag and a creation timestamp; the query coalesces the two amounts, so
    they are nullable. *)
Record Venda : Type := mkVenda {
  total : option Qc;
  desconto : option Qc;
  cancelada : bool;
  created_at : datetime;
}.

(** *** The SQL expressions the router builds *)

Inductive column := Venda_total | Venda_desconto.

Inductive scalar : Type :=
  | Col (c : column)
  | Lit (q : Qc)
  | coalesce (e d : scalar)
  | Minus (a b : scalar).

Inductive condition : Type :=
  | Cancelada_eq_False
  | Date_created_at_eq (d : date)
  | Created_at_ge (d : date)
  | Created_at_lt (d : date).

Inductive aggregate : Type :=
  | sum (e : scalar)
  | coalesce_agg (a : aggregate) (d : Qc).

Record select : Type := mkselect { what : aggregate; where_ : list condition }.

Definition col_value (v : Venda) (c : column) : option Qc :=
  match c with Venda_total => total v | Venda_desconto => desconto v end.

(** A row-level expression; [None] is SQL [NULL]. *)
Fixpoint eval_scalar (v : Venda) (e : scalar) : option Qc :=
  match e with
  | Col c => col_value v c
  | Lit q => Some q
  | coalesce e d =>
      match eval_scalar v e with Some x => Some x | None => eval_scalar v d end
  | Minus a b =>
      match eval_scalar v a, eval_scalar v b with
      | Some x, Some y => Some (x - y)%Qc
      | _, _ => None
      end
  end.

Definition holds (v : Venda) (c : condition) : bool :=
  match c with
  | Cancelada_eq_False => negb (cancelada v)
  | Date_created_at_eq d => bool_decide (dt_date (created_at v) = d)
  | Created_at_ge d =>
      match datetime_compare (created_at v) (midnight d) with
      | Lt => false | _ => true end
  | Created_at_lt d =>
      match datetime_compare (created_at v) (midnight d) with
      | Lt => true | _ => false end
  end.

Definition selected (conds : list condition) (v : Venda) : bool :=
  forallb (holds v) conds.

Definition sum_Qc (l : list Qc) : Qc := foldr Qcplus 0%Qc l.

(** [SUM] skips [NULL]s and is [NULL] over no value at all. *)
Definition sql_sum (l : list (option Qc)) : option Qc :=
  match omap id l with
  | [] => None
  | xs => Some (sum_Qc xs)
  end.

Fixpoint eval_aggregate (rows : list Venda) (a : aggregate) : option Qc :=
  match a with
  | sum e => sql_sum ((λ v, eval_scalar v e) <$> rows)
  | coalesce_agg a d =>
      match eval_aggregate rows a with Some x => Some x | None => Some d end
  end.

(** The result set of an aggregate query: one row with one column. *)
Definition run_select (table : list Venda) (stmt : select)
  : list (option Qc) :=
  [eval_aggregate (List.filter (selected (where_ stmt)) table) (what stmt)].

(** [result.scalar()] *)
Definition scalar_of (rows : list (option Qc)) : option Qc :=
  match rows with r :: _ => r | [] => None end.

(** *** The process state and its environment *)

Record CacheEntry : Type := mkentry { value : option Qc; ts : Qc }.

(** What the server's clock shows at one reading: [date.today()],
    the date of [datetime.utcnow()] and its [timestamp()]. *)
Record Clock : Type := mkclock { today : date; utc_date : date; utc_ts : Qc }.

Record World : Type := mkworld {
  _metrics_cache : gmap string CacheEntry;
  vendas : list Venda;
  (** whether the n-th statement sent to the database fails *)
  db_fault : nat → bool;
  (** the statements sent so far *)
  executed : list select;
  (** the clock, one reading after the other *)
  clock : nat → Clock;
  tick : nat;
}.

Definition set_cache (f : gmap string CacheEntry → gmap string CacheEntry)
  (w : World) : World :=
  mkworld (f (_metrics_cache w)) (vendas w) (db_fault w) (executed w)
          (clock w) (tick w).

Definition advance (w : World) : World :=
  mkworld (_metrics_cache w) (vendas w) (db_fault w) (executed w)
          (clock w) (S (tick w)).

Definition log_statement (stmt : select) (w : World) : World :=
  mkworld (_metrics_cache w) (vendas w) (db_fault w) (executed w ++ [stmt])
          (clock w) (tick w).

Definition read_clock {A} (f : Clock → A) : M World A := λ w,
  (Ret (f (clock w (tick w))), advance w).

Definition _cache_ttl_seconds : Qc := Qc_of_Z 15.

(** [_now_ts()] *)
Definition _now_ts : M World Qc := read_clock utc_ts.

(** [date.today()] *)
Definition date_today : M World date := read_clock today.

(** [datetime.utcnow()], of which the router uses the date. *)
Definition utcnow : M World date := read_clock utc_date.

(** [await asyncio.sleep(0.2)]: time passes. *)
Definition sleep : M World unit := modify advance.

(** [async with _cache_lock: m].  Requests run one after the other here,
    so the lock is free and taking it changes nothing. *)
Definition with_cache_lock {A} (m : M World A) : M World A := m.

(** [_metrics_cache[k]] *)
Definition cache_item (k : string) : M World CacheEntry := λ w,
  match _metrics_cache w !! k with
  | Some e => (Ret e, w)
  | None => (Raise (KeyError k), w)
  end.

(** [await db.execute(stmt)] *)
Definition execute (stmt : select) : M World (list (option Qc)) := λ w,
  let w' := log_statement stmt w in
  if db_fault w (length (executed w)) then (Raise DBAPIError, w')
  else (Ret (run_select (vendas w) stmt), w').

(** [float(x or 0.0)] for a nullable number [x]. *)
Definition float_or_zero (x : option Qc) : Qc :=
  match x with
  | Some v => if bool_decide (v = 0%Qc) then 0%Qc else v
  | None => 0%Qc
  end.

(** The test guarding the cached answer:
    [cache[k]["value"] is not None and (_now_ts() - cache[k]["ts"]) < ttl];
    the clock is read only when a value is there.  Gives the value to
    serve, if any. *)
Definition fresh_value (k : string) : M World (option Qc) :=
  e ← cache_item k;
  match value e with
  | None => mret None
  | Some v =>
      now ← _now_ts;
      if bool_decide (now - ts e < _cache_ttl_seconds)%Qc then mret (Some v)
      else mret None
  end.

(** [for attempt in range(2): try: ... except Exception: ...], the loop
    both endpoints run; [label] is the echoed period, [("data", str(alvo))]
    or [("ano_mes", ...)].  Falling out of the loop would return [None]. *)
Fixpoint attempts (k : string) (label : string * string) (stmt : select)
  (range : list Z) : M World pyval :=
  match range with
  | [] => mret PNone
  | attempt :: rest =>
      try_catch
        (result ← execute stmt;
         let total := float_or_zero (scalar_of result) in
         with_cache_lock
           (now ← _now_ts;
            modify (set_cache <[k := mkentry (Some total) now]>));;
         mret (PDict {[ label.1 := PStr label.2; "total" := PFloat total ]}))
        (if attempt =? 0 then
           sleep;; attempts k label stmt rest
         else
           cached ← with_cache_lock (value <$> cache_item k);
           mret (PDict {[ label.1 := PStr label.2;
                          "total" := PFloat (float_or_zero cached);
                          "warning" := PStr "cached" ]}))
  end.

Definition daily_stmt (alvo : date) : select :=
  mkselect
    (coalesce_agg
       (sum (Minus (coalesce (Col Venda_total) (Lit 0%Qc))
                   (coalesce (Col Venda_desconto) (Lit 0%Qc))))
       0%Qc)
    [Cancelada_eq_False; Date_created_at_eq alvo].

Definition nonempty (s : option string) : option string :=
  match s with
  | Some x => if String.eqb x "" then None else Some x
  | None => None
  end.

(** [GET /api/metricas/vendas-dia] *)
Definition vendas_dia (data : option string) : M World pyval :=
  alvo ← try_catch
            (match nonempty data with
             | Some s => lift (fromisoformat s)
             | None => date_today
             end)
            date_today;
  hit ← with_cache_lock (fresh_value "vendas_dia");
  match hit with
  | Some v => mret (PDict {[ "data" := PStr (isoformat alvo); "total" := PFloat v ]})
  | None =>
      attempts "vendas_dia" ("data", isoformat alvo)%string (daily_stmt alvo) [0; 1]
  end.

Definition monthly_stmt (primeiro_dia proximo_mes : date) : select :=
  mkselect
    (coalesce_agg
       (sum (Minus (coalesce (Col Venda_total) (Lit 0%Qc))
                   (coalesce (Col Venda_desconto) (Lit 0%Qc))))
       0%Qc)
    [Cancelada_eq_False; Created_at_ge primeiro_dia; Created_at_lt proximo_mes].

(** [ano, mes = map(int, ano_mes.split("-")); date(ano, mes, 1)] *)
Definition parse_ano_mes (ano_mes : string) : result date :=
  match split ano_mes "-" with
  | [a; b] => ano ← int a; mes ← int b; date_new ano mes 1
  | _ => Raise ValueError
  end.

(** [dnow = datetime.utcnow(); date(dnow.year, dnow.month, 1)] *)
Definition first_of_current_month : M World date :=
  dnow ← utcnow; lift (date_new (year dnow) (month dnow) 1).

(** [GET /api/metricas/vendas-mes] *)
Definition vendas_mes (ano_mes : option string) : M World pyval :=
  try_catch
    (primeiro_dia ←
       match nonempty ano_mes with
       | Some s => try_catch (lift (parse_ano_mes s)) first_of_current_month
       | None => first_of_current_month
       end;
     proximo_mes ←
       lift (date_new
               (year primeiro_dia + (if month primeiro_dia =? 12 then 1 else 0))
               (if month primeiro_dia =? 12 then 1 else month primeiro_dia + 1)
               1);
     let stmt := monthly_stmt primeiro_dia proximo_mes in
     hit ← with_cache_lock (fresh_value "vendas_mes");
     match hit with
     | Some v =>
         mret (PDict {[ "ano_mes" := PStr (strftime_Y_m primeiro_dia);
                        "total" := PFloat v ]})
     | None =>
         attempts "vendas_mes" ("ano_mes", strftime_Y_m primeiro_dia)%string
                  stmt [0; 1]
     end)
    (cached ← with_cache_lock (value <$> cache_item "vendas_mes");
     dnow ← utcnow;
     mret (PDict {[ "ano_mes" := PStr (strftime_Y_m dnow);
                    "total" := PFloat (float_or_zero cached);
                    "warning" := PStr "cached" ]})).

(** The cache as the module creates it. *)
Definition initial_cache : gmap string CacheEntry :=
  {[ "vendas_dia" := mkentry None 0%Qc; "vendas_mes" := mkentry None 0%Qc ]}.

(** *** What the properties below speak of *)

(** The part the two endpoints have in common once the period is known:
    serve the fresh cached value, else run the attempts. *)
Definition serve (k : string) (label : string * string) (stmt : select)
  : M World pyval :=
  hit ← with_cache_lock (fresh_value k);
  match hit with
  | Some v => mret (PDict {[ label.1 := PStr label.2; "total" := PFloat v ]})
  | None => attempts k label stmt [0; 1]
  end.

(** The world [w] with another cache, more statements sent and a later
    clock reading. *)
Definition moved (c : gmap string CacheEntry) (l : list select) (t : nat)
  (w : World) : World :=
  mkworld c (vendas w) (db_fault w) (executed w ++ l) (clock w) t.

(** The test that lets the cached value through. *)
Definition hit_at (e : CacheEntry) (w : World) : Prop :=
  ∃ v, value e = Some v
       ∧ (utc_ts (clock w (tick w)) - ts e < _cache_ttl_seconds)%Qc.

(** What a successful query for [stmt] makes of the total. *)
Definition fetched (w : World) (stmt : select) : Qc :=
  float_or_zero (scalar_of (run_select (vendas w) stmt)).

(** Both entries exist. *)
Definition cache_ok (w : World) : Prop :=
  is_Some (_metrics_cache w !! "vendas_dia")
  ∧ is_Some (_metrics_cache w !! "vendas_mes").

(** The [value] field of the entry [k]. *)
Definition cached (k : string) (w : World) : option Qc :=
  e ← _metrics_cache w !! k; value e.

(** The statements a call sent: those logged by [w'] after those of [w]. *)
Definition sent (w w' : World) : list select :=
  drop (length (executed w)) (executed w').

(** The clock reading number [n] after the current one. *)
Definition reading (w : World) (n : nat) : Clock := clock w (tick w + n)%nat.

(** The entry [k] holds a value younger than the TTL at each of the two
    clock readings a call can make before it tests the cache. *)
Definition fresh (k : string) (w : World) : Prop :=
  ∃ e v, _metrics_cache w !! k = Some e ∧ value e = Some v ∧
         ∀ n, (n ≤ 1)%nat →
              (utc_ts (reading w n) - ts e < _cache_ttl_seconds)%Qc.

(** The entry [k] holds no value younger than the TTL at either of those
    two readings: the call goes to the database. *)
Definition stale (k : string) (w : World) : Prop :=
  ∀ e v n, _metrics_cache w !! k = Some e → value e = Some v →
           (n ≤ 1)%nat →
           ¬ (utc_ts (reading w n) - ts e < _cache_ttl_seconds)%Qc.

(** The net amount of a sale, a missing amount counting as zero. *)
Definition net (v : Venda) : Qc :=
  (default 0 (total v) - default 0 (desconto v))%Qc.

(** The daily figure in the words of the specification: the sum of total
    minus discount over the sales that are not cancelled and were created
    on the day. *)
Definition daily_sales_total (table : list Venda) (d : date) : Qc :=
  sum_Qc (net <$> filter (λ v, cancelada v = false
                               ∧ dt_date (created_at v) = d) table).

(** The half-open interval of timestamps [[a, b)] between two midnights. *)
Definition in_interval (a b : date) (t : datetime) : Prop :=
  datetime_le (midnight a) t ∧ datetime_compare t (midnight b) = Lt.

Global Instance in_interval_dec a b t : Decision (in_interval a b t).
Proof. unfold in_interval, datetime_le. solve_decision. Defined.

(** The monthly figure in the words of the specification. *)
Definition monthly_sales_total (table : list Venda) (a b : date) : Qc :=
  sum_Qc (net <$> filter (λ v, cancelada v = false
                               ∧ in_interval a b (created_at v)) table).

(** The first day of the month after the month of [d], as the calendar has
    it (no upper bound on the year). *)
Definition first_of_next_month (d : date) : date :=
  if month d =? 12 then mkdate (year d + 1) 1 1
  else mkdate (year d) (month d + 1) 1.

(** The target day of a daily request: the day the client names, or the
    server's current day when it names none or none that parses. *)
Definition target_day (data : option string) (w : World) : date :=
  match nonempty data with
  | Some s =>
      match fromisoformat s with
      | Ret d => d
      | Raise _ => today (clock w (tick w))
      end
  | None => today (clock w (tick w))
  end.

(** A client-supplied text that is absent, empty or not a date. *)
Definition bad_date (data : option string) : Prop :=
  match nonempty data with
  | Some s => ¬ is_Ret (fromisoformat s)
  | None => True
  end.

Definition bad_month (ano_mes : option string) : Prop :=
  match nonempty ano_mes with
  | Some s => ¬ is_Ret (parse_ano_mes s)
  | None => True
  end.

(** How a call that reached the cache test at [w1], having started at
    [w], can end: with the cached value; with a fetched total, at the first
    attempt or at the retry, written to the cache; or, both attempts having
    failed, with the cached-or-zero fallback.  [c'] is the cache and [l]
    the statements sent when it ends. *)
Definition outcome (k : string) (stmt : select) (e : CacheEntry)
  (w1 w : World) (resp : pyval) (c' : gmap string CacheEntry)
  (l : list select) : Prop :=
  let n := length (executed w) in
  (∃ v, value e = Some v ∧ hit_at e w1 ∧
        item resp "total" = Some (PFloat v) ∧
        item resp "warning" = None ∧
        c' = _metrics_cache w ∧ l = [])
  ∨ (¬ hit_at e w1 ∧
     (db_fault w n = false ∧ l = [stmt]
      ∨ db_fault w n = true ∧ db_fault w (S n) = false ∧ l = [stmt; stmt]) ∧
     item resp "total" = Some (PFloat (fetched w stmt)) ∧
     item resp "warning" = None ∧
     ∃ now, c' = <[k := mkentry (Some (fetched w stmt)) now]>
                   (_metrics_cache w))
  ∨ (¬ hit_at e w1 ∧
     db_fault w n = true ∧ db_fault w (S n) = true ∧ l = [stmt; stmt] ∧
     item resp "total" = Some (PFloat (float_or_zero (value e))) ∧
     item resp "warning" = Some (PStr "cached") ∧
     c' = _metrics_cache w).

(** The server's clock shows a month of the calendar that has a next
    month in it. *)
Definition clock_in_calendar (w : World) : Prop :=
  let dnow := utc_date (clock w (tick w)) in
  date_valid (year dnow) (month dnow) 1 = true
  ∧ ¬ (year dnow = MAXYEAR ∧ month dnow = 12).

(** The first day of the server's current month. *)
Definition current_month (w : World) : date :=
  let dnow := utc_date (clock w (tick w)) in
  mkdate (year dnow) (month dnow) 1.

(** What can happen to the process: a request to one of the two
    endpoints, or a change of its environment (sales written by other
    parts of the service, the database going down or up, another clock). *)
Inductive event : Type :=
  | Request_vendas_dia (data : option string)
  | Request_vendas_mes (ano_mes : option string)
  | Environment (table : list Venda) (fault : nat → bool)
                (clk : nat → Clock) (t : nat).

Definition step (w : World) (ev : event) : World :=
  match ev with
  | Request_vendas_dia data => (vendas_dia data w).2
  | Request_vendas_mes ano_mes => (vendas_mes ano_mes w).2
  | Environment table fault clk t =>
      mkworld (_metrics_cache w) table fault (executed w) clk t
  end.

Definition run (w : World) (evs : list event) : World := foldl step w evs.

(** The cache key a request works on. *)
Definition key_of_event (ev : event) : option string :=
  match ev with
  | Request_vendas_dia _ => Some "vendas_dia"%string
  | Request_vendas_mes _ => Some "vendas_mes"%string
  | Environment _ _ _ _ => None
  end.

(** *** Sample data *)

Definition day_10 : date := mkdate 2025 3 10.
Definition day_11 : date := mkdate 2025 3 11.

Definition sample_clock (n : nat) : Clock :=
  mkclock day_10 day_10 (Qc_of_Z (100 + Z.of_nat n)).

(** One sale of 1000 with a discount of 50 on the 10th, a cancelled one
    the same day, and a sale of 7 on the 11th. *)
Definition sample_vendas : list Venda :=
  [ mkVenda (Some (Qc_of_Z 1000)) (Some (Qc_of_Z 50)) false (mkdatetime day_10 5);
    mkVenda (Some (Qc_of_Z 70)) None true (mkdatetime day_10 6);
    mkVenda (Some (Qc_of_Z 7)) None false (mkdatetime day_11 0) ].

(** A process that has just started, with a healthy database. *)
Definition world_up : World :=
  mkworld initial_cache sample_vendas (λ _, false) [] sample_clock 0.

(** The same with the database down. *)
Definition world_down : World :=
  mkworld initial_cache sample_vendas (λ _, true) [] sample_clock 0.

(** A process that has just started, with no sale on record. *)
Definition world_empty : World :=
  mkworld initial_cache [] (λ _, false) [] sample_clock 0.

(** A process whose two entries were filled at the time 100, the clock
    showing 100 and then 101. *)
Definition world_cached : World :=
  mkworld {[ "vendas_dia" := mkentry (Some (Qc_of_Z 950)) (Qc_of_Z 100);
             "vendas_mes" := mkentry (Some (Qc_of_Z 957)) (Qc_of_Z 100) ]}
          sample_vendas (λ _, false) [] sample_clock 0.

(** A process whose two entries were filled at the time 50, long before
    the clock readings, with the database down. *)
Definition world_down_stale : World :=
  mkworld {[ "vendas_dia" := mkentry (Some (Qc_of_Z 950)) (Qc_of_Z 50);
             "vendas_mes" := mkentry (Some (Qc_of_Z 957)) (Qc_of_Z 50) ]}
          sample_vendas (λ _, true) [] sample_clock 0.

End Metricas.

(** ** Duplicate sales: [scripts/cleanup_duplicate_vendas.py] *)

Module Cleanup.

(** A [datetime] of the script.  The database driver gives a naive one
    for a column without time zone and an aware one for a column with
    time zone; [instant] is the wall-clock time of a naive value and the
    UTC time of an aware one. *)
Record timestamp : Type := mktimestamp { instant : datetime; aware : bool }.

(** One line of a sale, as [fetch_vendas_and_itens] builds it; [None] is
    what [dict.get] gives for a missing or null entry. *)
Record Item : Type := mkItem {
  produto_id : option string;
  quantidade : option Z;
  peso_kg : option pyfloat;
  preco_unitario : option pyfloat;
  subtotal : option pyfloat;
}.

Record Venda : Type := mkVenda {
  id : string;
  usuario_id : option string;
  total : option pyfloat;
  desconto : option pyfloat;
  forma_pagamento : option string;
  created_at : option timestamp;
  itens : option (list Item);
}.

(** The nearest integer, halves to the even one. *)
Definition round_half_even (q : Q) : Z :=
  let f := Qfloor q in
  match Qcompare (q - inject_Z f) (1 # 2) with
  | Lt => f
  | Gt => f + 1
  | Eq => if Z.even f then f else f + 1
  end.

(** [round(x, 6)]: an infinity and NaN are left as they are. *)
Definition round6 (x : pyfloat) : pyfloat :=
  match x with
  | Fin q => Fin (Q2Qc (round_half_even (q * inject_Z 1000000) # 1000000))
  | _ => x
  end.

(** [float(x or 0)], [int(x or 0)] and [str(x or "")] for a nullable
    number or text. *)
Definition or_zero (x : option pyfloat) : pyfloat := float_or_0 x.
Definition or_zero_int (x : option Z) : Z :=
  match x with Some v => if v =? 0 then 0 else v | None => 0 end.
Definition or_empty (x : option string) : string :=
  match x with
  | Some s => if String.eqb s "" then ""%string else s
  | None => ""%string
  end.

(** The tuple kept for one line of a sale. *)
Definition item_key : Type := string * Z * pyfloat * pyfloat * pyfloat.

Definition key_of (it : Item) : item_key :=
  (or_empty (produto_id it),
   or_zero_int (quantidade it),
   round6 (or_zero (peso_kg it)),
   round6 (or_zero (preco_unitario it)),
   round6 (or_zero (subtotal it))).

(** [a == b] on two such tuples: every component equal.  A NaN makes it
    false ([round] gives a new object each time, so that no two tuples
    share one). *)
Definition key_eqb (a b : item_key) : bool :=
  let '(p1, q1, w1, u1, s1) := a in
  let '(p2, q2, w2, u2, s2) := b in
  String.eqb p1 p2 && (q1 =? q2) && float_eqb w1 w2 && float_eqb u1 u2
  && float_eqb s1 s2.

(** [a < b] on two such tuples: decided by the first component on which
    they are not equal. *)
Definition key_ltb (a b : item_key) : bool :=
  let '(p1, q1, w1, u1, s1) := a in
  let '(p2, q2, w2, u2, s2) := b in
  if negb (String.eqb p1 p2) then String.ltb p1 p2
  else if negb (q1 =? q2) then q1 <? q2
  else if negb (float_eqb w1 w2) then float_ltb w1 w2
  else if negb (float_eqb u1 u2) then float_ltb u1 u2
  else if negb (float_eqb s1 s2) then float_ltb s1 s2
  else false.

(** A stable sort by insertion from the right: [x] goes before the first
    [y] with [leb (f x) (f y)], so that equal keys keep their order. *)
Fixpoint insert_by {A K} (leb : K → K → bool) (f : A → K) (x : A)
  (l : list A) : list A :=
  match l with
  | [] => [x]
  | y :: l' =>
      if leb (f x) (f y) then x :: y :: l' else y :: insert_by leb f x l'
  end.

Definition sorted_by {A K} (leb : K → K → bool) (f : A → K) (l : list A)
  : list A :=
  foldr (insert_by leb f) [] l.

(** [l.sort()] on a list of tuples: [x] stays before [y] unless
    [y < x].  (With a NaN among the tuples [<] is no order and the
    outcome of a sort depends on its algorithm; nothing below relies on
    it then.) *)
Definition sort (l : list item_key) : list item_key :=
  sorted_by (λ a b, negb (key_ltb b a)) (λ k, k) l.

Definition signature : Type := pyfloat * string * list item_key.

(** [build_signature(v)] *)
Definition build_signature (v : Venda) : signature :=
  let total := round6 (or_zero (total v)) in
  let forma := or_empty (forma_pagamento v) in
  let itens := default [] (itens v) in
  let key_items := key_of <$> itens in
  (total, forma, sort key_items).

(** [s == t] on two signatures, the test that puts two sales in one
    group. *)
Fixpoint keys_eqb (l l' : list item_key) : bool :=
  match l, l' with
  | [], [] => true
  | a :: l, b :: l' => key_eqb a b && keys_eqb l l'
  | _, _ => false
  end.

Definition signature_eqb (s t : signature) : bool :=
  float_eqb s.1.1 t.1.1 && String.eqb s.1.2 t.1.2 && keys_eqb s.2 t.2.

(** The sale [v] with its lines replaced by [l]. *)
Definition with_itens (l : list Item) (v : Venda) : Venda :=
  mkVenda (id v) (usuario_id v) (total v) (desconto v) (forma_pagamento v)
          (created_at v) (Some l).

(** No amount that enters the signature of [v] is NaN. *)
Definition amounts_are_numbers (v : Venda) : Prop :=
  or_zero (total v) ≠ NaN ∧
  ∀ it, it ∈ default [] (itens v) →
    or_zero (peso_kg it) ≠ NaN ∧ or_zero (preco_unitario it) ≠ NaN
    ∧ or_zero (subtotal it) ≠ NaN.

(** [rank(v)]: operator present first, then the creation time;
    [datetime.now(timezone.utc)], an aware time, stands in for a missing
    one. *)
Definition rank (now : datetime) (v : Venda) : Z * timestamp :=
  ((match usuario_id v with
    | Some u => if String.eqb u "" then 1 else 0
    | None => 1
    end),
   default (mktimestamp now true) (created_at v)).

(** [a < b] on two [datetime]s: a naive and an aware one do not
    compare. *)
Definition timestamp_lt (a b : timestamp) : result bool :=
  if Bool.eqb (aware a) (aware b) then
    Ret (match datetime_compare (instant a) (instant b) with
         | Lt => true
         | _ => false
         end)
  else Raise TypeError.

(** [a < b] on two ranks: the times are looked at when the first
    components are equal. *)
Definition rank_lt (a b : Z * timestamp) : result bool :=
  if a.1 =? b.1 then timestamp_lt a.2 b.2 else Ret (a.1 <? b.1).

(** [sorted(l, key=f)] with a comparison that can fail: the stable sort
    above, an exception of [lt] ending it. *)
Fixpoint insert_lt {A K} (lt : K → K → result bool) (f : A → K) (x : A)
  (l : list A) : result (list A) :=
  match l with
  | [] => Ret [x]
  | y :: l' =>
      b ← lt (f y) (f x);
      if b : bool then cons y <$> insert_lt lt f x l' else Ret (x :: y :: l')
  end.

Fixpoint sorted {A K} (lt : K → K → result bool) (f : A → K) (l : list A)
  : result (list A) :=
  match l with
  | [] => Ret []
  | x :: l' => s ← sorted lt f l'; insert_lt lt f x s
  end.

(** [choose_to_keep(group)]: [sorted(group, key=rank)[0]]. *)
Definition choose_to_keep (now : datetime) (group : list Venda)
  : result Venda :=
  s ← sorted rank_lt (rank now) group;
  match s with
  | v :: _ => Ret v
  | [] => Raise IndexError
  end.

(** *** What the properties below speak of *)

(** An order of all floats that agrees with [<] and [==] on numbers; it
    puts NaN first. *)
Definition float_class (x : pyfloat) : Z :=
  match x with NaN => 0 | Inf true => 1 | Fin _ => 2 | Inf false => 3 end.

Definition float_number (x : pyfloat) : Qc :=
  match x with Fin q => q | _ => 0%Qc end.

Definition float_compare (x y : pyfloat) : comparison :=
  lex (float_class x ?= float_class y) (float_number x ?= float_number y)%Qc.

(** The order of the tuples of lines that hold no NaN. *)
Definition key_compare (a b : item_key) : comparison :=
  let '(p1, q1, w1, u1, s1) := a in
  let '(p2, q2, w2, u2, s2) := b in
  lex (String.compare p1 p2)
    (lex (q1 ?= q2)
      (lex (float_compare w1 w2)
        (lex (float_compare u1 u2) (float_compare s1 s2)))).

Definition key_leb (a b : item_key) : bool :=
  match key_compare a b with Gt => false | _ => true end.

Definition key_is_number (k : item_key) : Prop :=
  let '(_, _, w, u, s) := k in w ≠ NaN ∧ u ≠ NaN ∧ s ≠ NaN.

(** The order of the ranks when the times compare. *)
Definition time_compare (a b : Z * datetime) : comparison :=
  lex (a.1 ?= b.1) (datetime_compare a.2 b.2).

Definition rank_time (r : Z * timestamp) : Z * datetime := (r.1, instant r.2).

Definition rank_compare (a b : Z * timestamp) : comparison :=
  time_compare (rank_time a) (rank_time b).

Definition rank_leb (a b : Z * timestamp) : bool :=
  match rank_compare a b with Gt => false | _ => true end.

(** The creation time that ranks [v]. *)
Definition ranked_at (now : datetime) (v : Venda) : timestamp :=
  (rank now v).2.

(** The times of a group compare: no two sales of one class, with or
    without operator, have one an aware and the other a naive time. *)
Definition comparable (now : datetime) (group : list Venda) : Prop :=
  ∀ a b, a ∈ group → b ∈ group → (rank now a).1 = (rank now b).1 →
         aware (ranked_at now a) = aware (ranked_at now b).

(** *** Sample data *)

Definition item_a : Item :=
  mkItem (Some "p1"%string) (Some 2) None (Some (Fin (Q2Qc (5 # 2))))
         (Some (Fin (Qc_of_Z 5))).
Definition item_b : Item :=
  mkItem (Some "p0"%string) (Some 1) (Some (Fin (Q2Qc (3 # 2))))
         (Some (Fin (Qc_of_Z 4))) (Some (Fin (Qc_of_Z 6))).

(** A line whose subtotal is NaN. *)
Definition item_nan : Item :=
  mkItem (Some "p2"%string) (Some 1) None (Some (Fin (Qc_of_Z 4))) (Some NaN).

(** Two sales of the same content: the first one older and without
    operator, the second one with an operator. *)
Definition sale_a : Venda :=
  mkVenda "a" None (Some (Fin (Qc_of_Z 11))) None (Some "cash"%string)
          (Some (mktimestamp (mkdatetime (mkdate 2025 3 10) 5) false))
          (Some [item_a; item_b]).
Definition sale_b : Venda :=
  mkVenda "b" (Some "7f0c3e1a-0000-4000-8000-000000000001"%string)
          (Some (Fin (Qc_of_Z 11))) None (Some "cash"%string)
          (Some (mktimestamp (mkdatetime (mkdate 2025 3 10) 9) false))
          (Some [item_b; item_a]).

(** The sale [sale_a] a second time, its creation time missing. *)
Definition sale_c : Venda :=
  mkVenda "c" None (Some (Fin (Qc_of_Z 11))) None (Some "cash"%string)
          None (Some [item_a; item_b]).

End Cleanup.

(** ** The expense router: [app/routers/despesas.py] *)

Module Despesas.

(** Modelled from the spec: the rows of the expense and category tables
    ([app/db/models.py] is not among the sources).  The spec has them as
    UUID-keyed resources; the fields are those the router's constructor
    call and [_serialize_despesa] name.  The identifier and the two
    timestamps, which the database fills in, are taken from the world when
    a row is added. *)
Record DespesaRecorrente : Type := mkDespesa {
  id : uuid;
  tipo : string;
  categoria : string;
  descricao : string;
  valor : option pyfloat;
  status : pyval;
  data_pagamento : option date;
  data_vencimento : option date;
  usuario_id : option uuid;
  fechada : bool;
  created_at : option datetime;
  updated_at : option datetime;
}.

Record CategoriaDespesa : Type := mkCategoria { cat_id : uuid; nome : string }.

Record World : Type := mkworld {
  despesas : list DespesaRecorrente;
  categorias : list CategoriaDespesa;
  (** the identifier the database gives to the next new row *)
  next_uuid : uuid;
  (** [date.today()] and the database's [now()] *)
  today : date;
  now : datetime;
}.

(** *** Text of identifiers and timestamps *)

Definition hex_char (n : Z) : ascii :=
  let d := n mod 16 in
  ascii_of_N (Z.to_N (if d <? 10 then 48 + d else 87 + d)).

Fixpoint hex_padded (width : nat) (n : Z) : list ascii :=
  match width with
  | O => []
  | S w => hex_padded w (n / 16) ++ [hex_char n]
  end.

(** [str(u)] for a UUID: 8-4-4-4-12 hexadecimal digits. *)
Definition uuid_str (u : uuid) : string :=
  let h := hex_padded 32 u in
  string_of_list_ascii
    (take 8 h ++ ["-"%char] ++ take 4 (drop 8 h) ++ ["-"%char]
     ++ take 4 (drop 12 h) ++ ["-"%char] ++ take 4 (drop 16 h)
     ++ ["-"%char] ++ drop 20 h).

(** [t.isoformat()] for a timestamp. *)
Definition datetime_isoformat (t : datetime) : string :=
  let us := Z.of_N (dt_us t) in
  let s := us / 1000000 in
  let frac := us mod 1000000 in
  (isoformat (dt_date t) ++ "T"
   ++ string_of_list_ascii
        (zero_padded 2 (s / 3600) ++ [":"%char]
         ++ zero_padded 2 ((s / 60) mod 60) ++ [":"%char]
         ++ zero_padded 2 (s mod 60)
         ++ (if Z.eqb frac 0 then [] else "."%char :: zero_padded 6 frac)))%string.

Definition opt_str {A} (f : A → string) (x : option A) : pyval :=
  match x with Some a => PStr (f a) | None => PNone end.

(** [_serialize_despesa(d)] *)
Definition _serialize_despesa (d : DespesaRecorrente) : pyval :=
  PDict {[
    "id" := PStr (uuid_str (id d));
    "tipo" := PStr (tipo d);
    "categoria" := PStr (categoria d);
    "descricao" := PStr (descricao d);
    "valor" := float_value (float_or_0 (valor d));
    "status" := status d;
    "data_pagamento" := opt_str isoformat (data_pagamento d);
    "data_vencimento" := opt_str isoformat (data_vencimento d);
    "usuario_id" := opt_str uuid_str (usuario_id d);
    "fechada" := PBool (fechada d);
    "created_at" := opt_str datetime_isoformat (created_at d);
    "updated_at" := opt_str datetime_isoformat (updated_at d)
  ]}.

(** *** Validation helpers *)

Definition bad_request (detail : string) : exn := HTTPException 400 detail.

(** [_parse_date(value, field)] *)
Definition _parse_date (value : pyval) (field : string) : result (option date) :=
  match value with
  | PNone => Ret None
  | PStr s =>
      if String.eqb s "" then Ret None
      else try_except (Some <$> fromisoformat s)
                      (Raise (bad_request (field ++ " inválida")))
  | _ => Raise (bad_request (field ++ " inválida"))
  end.

(** [(x or "").strip()]: a non-empty value that is not text has no
    [strip]. *)
Definition or_empty_strip (x : pyval) : result string :=
  match por x (PStr "") with
  | PStr s => Ret (strip s)
  | _ => Raise AttributeError
  end.

(** [uuid.UUID(str(x))].  The text of [None], a boolean, a float, a list
    or a dict never has the 32 hexadecimal digits of a UUID. *)
Definition uuid_of_value (x : pyval) : result uuid :=
  match x with
  | PStr s => UUID s
  | PInt n => UUID (pretty n)
  | _ => Raise ValueError
  end.

(** *** The database session *)

(** [db.add(obj); await db.commit(); await db.refresh(obj)] for a new
    expense: the database gives the identifier and the timestamps. *)
Definition add_despesa (d : DespesaRecorrente) : M World DespesaRecorrente :=
  λ w,
    let obj := mkDespesa (next_uuid w) (tipo d) (categoria d) (descricao d)
                 (valor d) (status d) (data_pagamento d) (data_vencimento d)
                 (usuario_id d) (fechada d) (Some (now w)) (Some (now w)) in
    (Ret obj,
     mkworld (despesas w ++ [obj]) (categorias w) (next_uuid w + 1)
             (today w) (now w)).

(** [scalar_one_or_none()] of the select by identifier. *)
Definition find_despesa (did : uuid) : M World (option DespesaRecorrente) :=
  gets (λ w, List.find (λ d, id d =? did) (despesas w)).

(** [await db.commit(); await db.refresh(obj)] after a change of [obj]. *)
Definition commit_despesa (obj : DespesaRecorrente) : M World unit :=
  modify (λ w,
    mkworld ((λ d, if id d =? id obj then obj else d) <$> despesas w)
            (categorias w) (next_uuid w) (today w) (now w)).

(** [await db.delete(obj); await db.commit()] *)
Definition delete_despesa (obj : DespesaRecorrente) : M World unit :=
  modify (λ w,
    mkworld (List.filter (λ d, negb (id d =? id obj)) (despesas w))
            (categorias w) (next_uuid w) (today w) (now w)).

(** *** The endpoints *)

(** [POST /api/despesas/] *)
Definition criar_despesa (payload : gmap string pyval) : M World pyval :=
  tipo ← lift (or_empty_strip (dict_get payload "tipo"));
  categoria ← lift (or_empty_strip (dict_get payload "categoria"));
  descricao ← lift (or_empty_strip (dict_get payload "descricao"));
  let valor := dict_get payload "valor" in
  if String.eqb tipo "" then raise (bad_request "tipo é obrigatório") else
  if String.eqb categoria "" then raise (bad_request "categoria é obrigatório") else
  if String.eqb descricao "" then raise (bad_request "descricao é obrigatório") else
  valor_f ← lift (try_except (float valor) (Raise (bad_request "valor inválido")));
  data_pagamento ← lift (_parse_date (dict_get payload "data_pagamento") "data_pagamento");
  data_vencimento ← lift (_parse_date (dict_get payload "data_vencimento") "data_vencimento");
  today ← gets today;
  let data_pagamento := default today data_pagamento in
  let data_vencimento := default data_pagamento data_vencimento in
  let usuario_id_raw := dict_get payload "usuario_id" in
  let usuario_uuid :=
    if truthy usuario_id_raw then
      match uuid_of_value usuario_id_raw with
      | Ret u => Some u
      | Raise _ => None
      end
    else None in
  obj ← add_despesa
          (mkDespesa 0 tipo categoria descricao (Some valor_f)
             (por (dict_get payload "status") (PStr "Pago"))
             (Some data_pagamento) (Some data_vencimento) usuario_uuid
             (truthy (por (dict_get payload "fechada") (PBool false)))
             None None);
  mret (_serialize_despesa obj).

Section Update.

(** [str(x)] for a float, a list or a dict, as Python prints them; the
    update stores that text and nothing below depends on it. *)
Variable repr : pyval → string.

(** [str(x)] *)
Definition str (x : pyval) : string :=
  match x with
  | PStr s => s
  | PNone => "None"
  | PBool b => if b then "True" else "False"
  | PInt n => pretty n
  | _ => repr x
  end.

(** [k in payload and payload[k] is not None] *)
Definition given (payload : gmap string pyval) (k : string) : option pyval :=
  match payload !! k with
  | Some PNone => None
  | o => o
  end.

(** [PUT /api/despesas/{despesa_id}] *)
Definition atualizar_despesa (despesa_id : string)
  (payload : gmap string pyval) : M World pyval :=
  did ← lift (try_except (UUID despesa_id) (Raise (bad_request "id inválido")));
  found ← find_despesa did;
  match found with
  | None => raise (HTTPException 404 "Despesa não encontrada")
  | Some obj =>
      let tipo' := match given payload "tipo" with
                   | Some v => strip (str v) | None => tipo obj end in
      let categoria' := match given payload "categoria" with
                        | Some v => strip (str v) | None => categoria obj end in
      let descricao' := match given payload "descricao" with
                        | Some v => strip (str v) | None => descricao obj end in
      valor' ← match given payload "valor" with
               | Some v => lift (try_except (Some <$> float v)
                                   (Raise (bad_request "valor inválido")))
               | None => mret (valor obj)
               end;
      let status' := match given payload "status" with
                     | Some v => PStr (strip (str v)) | None => status obj end in
      data_pagamento' ←
        match payload !! "data_pagamento" with
        | Some v => lift (_parse_date v "data_pagamento")
        | None => mret (data_pagamento obj)
        end;
      data_vencimento' ←
        match payload !! "data_vencimento" with
        | Some v => lift (_parse_date v "data_vencimento")
        | None => mret (data_vencimento obj)
        end;
      let fechada' := match payload !! "fechada" with
                      | Some v => truthy v | None => fechada obj end in
      let obj' := mkDespesa (id obj) tipo' categoria' descricao' valor'
                    status' data_pagamento' data_vencimento'
                    (usuario_id obj) fechada' (created_at obj)
                    (updated_at obj) in
      commit_despesa obj';;
      mret (_serialize_despesa obj')
  end.

End Update.

(** [DELETE /api/despesas/{despesa_id}] *)
Definition excluir_despesa (despesa_id : string) : M World pyval :=
  did ← lift (try_except (UUID despesa_id) (Raise (bad_request "id inválido")));
  found ← find_despesa did;
  match found with
  | None => raise (HTTPException 404 "Despesa não encontrada")
  | Some obj =>
      delete_despesa obj;;
      mret (PDict {[ "ok" := PBool true ]})
  end.

Definition lower_char (c : ascii) : ascii :=
  let n := N_of_ascii c in
  if ((65 <=? n) && (n <=? 90))%N then ascii_of_N (n + 32) else c.

(** SQL [lower] on plain letters. *)
Definition lower (s : string) : string :=
  string_of_list_ascii (lower_char <$> list_ascii_of_string s).

(** [res.scalar_one_or_none()]: the row of the result, [None] when it
    has none, an error when it has two or more. *)
Definition scalar_one_or_none {A} (rows : list A) : result (option A) :=
  match rows with
  | [] => Ret None
  | [r] => Ret (Some r)
  | _ :: _ :: _ => Raise MultipleResultsFound
  end.

(** The categories whose name is [nome] but for the case of the
    letters. *)
Definition same_name (nome : string) (w : World) : list CategoriaDespesa :=
  List.filter (λ c, String.eqb (lower (Despesas.nome c)) (lower nome))
              (categorias w).

(** [POST /api/despesas/categorias] *)
Definition criar_categoria (payload : gmap string pyval) : M World pyval :=
  nome ← lift (or_empty_strip (dict_get payload "nome"));
  if String.eqb nome "" then raise (bad_request "nome é obrigatório") else
  existing ← (λ w, (scalar_one_or_none (same_name nome w), w));
  match existing with
  | Some c => mret (PDict {[ "id" := PStr (uuid_str (cat_id c));
                             "nome" := PStr (Despesas.nome c) ]})
  | None =>
      λ w,
        let obj := mkCategoria (next_uuid w) nome in
        (Ret (PDict {[ "id" := PStr (uuid_str (cat_id obj));
                       "nome" := PStr (Despesas.nome obj) ]}),
         mkworld (despesas w) (categorias w ++ [obj]) (next_uuid w + 1)
                 (today w) (now w))
  end.

(** *** Sample data *)

Definition sample_world : World :=
  mkworld [] [] 0x12345678123456781234567812345678
          (mkdate 2025 3 10) (mkdatetime (mkdate 2025 3 10) 3723000001).

(** A well-formed expense, but for the operator. *)
Definition sample_payload : gmap string pyval :=
  {[ "tipo" := PStr " Fixa "; "categoria" := PStr "Luz";
     "descricao" := PStr "Conta"; "valor" := PStr "12.5";
     "usuario_id" := PStr "not-a-uuid" ]}.

End Despesas.

(** ** The inventory figures: [metricas_estoque] in [app/routers/metricas.py] *)

Module Estoque.

(** Modelled from the spec: the columns of a product ([app/db/models.py]
    is not among the sources): a stock quantity, a cost price, a sale
    price and an active flag.  The amounts are nullable, as in a sale. *)
Record Produto : Type := mkProduto {
  estoque : option Qc;
  preco_custo : option Qc;
  preco_venda : option Qc;
  ativo : bool;
}.

Inductive column := Produto_estoque | Produto_preco_custo | Produto_preco_venda.

Inductive scalar : Type :=
  | Col (c : column)
  | Times (a b : scalar).

Inductive condition : Type := Ativo_eq_True.

Inductive aggregate : Type :=
  | sum (e : scalar)
  | coalesce_agg (a : aggregate) (d : Qc).

Record select : Type := mkselect { what : aggregate; where_ : list condition }.

Definition col_value (p : Produto) (c : column) : option Qc :=
  match c with
  | Produto_estoque => estoque p
  | Produto_preco_custo => preco_custo p
  | Produto_preco_venda => preco_venda p
  end.

(** A row-level expression; a product with a [NULL] factor is [NULL]. *)
Fixpoint eval_scalar (p : Produto) (e : scalar) : option Qc :=
  match e with
  | Col c => col_value p c
  | Times a b =>
      match eval_scalar p a, eval_scalar p b with
      | Some x, Some y => Some (x * y)%Qc
      | _, _ => None
      end
  end.

Definition holds (p : Produto) (c : condition) : bool :=
  match c with Ativo_eq_True => ativo p end.

Definition selected (conds : list condition) (p : Produto) : bool :=
  forallb (holds p) conds.

Fixpoint eval_aggregate (rows : list Produto) (a : aggregate) : option Qc :=
  match a with
  | sum e => Metricas.sql_sum ((λ p, eval_scalar p e) <$> rows)
  | coalesce_agg a d =>
      match eval_aggregate rows a with Some x => Some x | None => Some d end
  end.

Definition run_select (table : list Produto) (stmt : select)
  : list (option Qc) :=
  [eval_aggregate (List.filter (selected (where_ stmt)) table) (what stmt)].

Record World : Type := mkworld {
  produtos : list Produto;
  (** the text of the exception the n-th statement ends in, if it fails *)
  db_error : nat → option string;
  (** the statements sent so far *)
  executed : list select;
}.

(** [await db.execute(stmt)] *)
Definition execute (stmt : select) : M World (list (option Qc)) := λ w,
  let w' := mkworld (produtos w) (db_error w) (executed w ++ [stmt]) in
  match db_error w (length (executed w)) with
  | Some _ => (Raise DBAPIError, w')
  | None => (Ret (run_select (produtos w) stmt), w')
  end.

(** [str(e)] in the handler: only a statement can fail in the body, so
    [e] is the exception of the last statement sent. *)
Definition str_e : M World string :=
  gets (λ w, default ""%string
               (db_error w (Nat.pred (length (executed w))))).

Definition stmt_custo : select :=
  mkselect
    (coalesce_agg (sum (Times (Col Produto_estoque) (Col Produto_preco_custo)))
                  0%Qc)
    [Ativo_eq_True].

Definition stmt_venda : select :=
  mkselect
    (coalesce_agg (sum (Times (Col Produto_estoque) (Col Produto_preco_venda)))
                  0%Qc)
    [Ativo_eq_True].

(** [GET /api/metricas/estoque] *)
Definition metricas_estoque : M World pyval :=
  try_catch
    (result_custo ← execute stmt_custo;
     result_venda ← execute stmt_venda;
     let valor_estoque :=
       Metricas.float_or_zero (Metricas.scalar_of result_custo) in
     let valor_potencial :=
       Metricas.float_or_zero (Metricas.scalar_of result_venda) in
     let lucro_potencial := (valor_potencial - valor_estoque)%Qc in
     mret (PDict {[ "valor_estoque" := PFloat valor_estoque;
                    "valor_potencial" := PFloat valor_potencial;
                    "lucro_potencial" := PFloat lucro_potencial ]}))
    (warning ← str_e;
     mret (PDict {[ "valor_estoque" := PFloat 0%Qc;
                    "valor_potencial" := PFloat 0%Qc;
                    "lucro_potencial" := PFloat 0%Qc;
                    "warning" := PStr warning ]})).

(** *** What the properties below speak of *)

(** The worth of one product at a price: stock times price, nothing when
    the product is inactive or one of the two is unknown. *)
Definition worth (price : Produto → option Qc) (p : Produto) : option Qc :=
  if ativo p then
    match estoque p, price p with
    | Some e, Some x => Some (e * x)%Qc
    | _, _ => None
    end
  else None.

Definition stock_value (ps : list Produto) : Qc :=
  Metricas.sum_Qc (omap (worth preco_custo) ps).

Definition potential_value (ps : list Produto) : Qc :=
  Metricas.sum_Qc (omap (worth preco_venda) ps).

(** The statements a call sent. *)
Definition sent (w w' : World) : list select :=
  drop (length (executed w)) (executed w').

(** *** Sample data *)

Definition sample_produtos : list Produto :=
  [ mkProduto (Some (Qc_of_Z 10)) (Some (Qc_of_Z 3)) (Some (Qc_of_Z 5)) true;
    mkProduto (Some (Qc_of_Z 100)) (Some (Qc_of_Z 1)) (Some (Qc_of_Z 9)) false;
    mkProduto (Some (Qc_of_Z 2)) (Some (Qc_of_Z 7)) (Some (Qc_of_Z 8)) true ].

Definition shop_up : World := mkworld sample_produtos (λ _, None) [].

Definition shop_down : World :=
  mkworld sample_produtos (λ _, Some "connection refused"%string) [].

End Estoque.

(** ** More sample data for the sales metrics *)

Module MetricasSamples.
Import Metricas.

(** A process whose two entries were filled at the time 85, the clock
    showing 100 and then 101: the daily entry is exactly 15 seconds old at
    the first reading. *)
Definition world_stale : World :=
  mkworld {[ "vendas_dia" := mkentry (Some (Qc_of_Z 1)) (Qc_of_Z 85);
             "vendas_mes" := mkentry (Some (Qc_of_Z 2)) (Qc_of_Z 85) ]}
          sample_vendas (λ _, false) [] sample_clock 0.

End MetricasSamples.

(** ** The characters of an identifier *)

Module UuidChars.
Import Despesas.

(** A hexadecimal digit as [uuid_str] writes it. *)
Definition hexish (c : ascii) : Prop := ∃ n, c = hex_char n.

(** A character of the text of an identifier: a digit or a hyphen. *)
Definition plain (c : ascii) : Prop := hexish c ∨ c = "-"%char.

End UuidChars.

(** ** The expense router: listings and totals *)

Module Consultas.
Import Despesas.

(** A query parameter declared [Optional[str] = Query(None)], as the value
    the function receives. *)
Definition param (x : option string) : pyval :=
  match x with Some s => PStr s | None => PNone end.

(** [if x:] on such a parameter. *)
Definition if_text (x : option string) : option string :=
  match x with
  | Some s => if String.eqb s "" then None else Some s
  | None => None
  end.

(** The clauses the router puts in a [where]. *)
Inductive condition : Type :=
  | Fechada_eq (b : bool)
  | Categoria_eq (s : string)
  | Tipo_eq (s : string)
  | Data_pagamento_ge (d : date)
  | Data_pagamento_le (d : date).

(** [select(DespesaRecorrente)] with its clauses, [order_by(desc(created_at))]
    and [limit]. *)
Record select : Type := mkselect {
  where_ : list condition;
  order_by_desc_created_at : bool;
  limit_ : option Z;
}.

Definition select_despesas : select := mkselect [] false None.

Definition where' (c : condition) (q : select) : select :=
  mkselect (where_ q ++ [c]) (order_by_desc_created_at q) (limit_ q).

Definition order_by_desc (q : select) : select :=
  mkselect (where_ q) true (limit_ q).

Definition limit (n : Z) (q : select) : select :=
  mkselect (where_ q) (order_by_desc_created_at q) (Some n).

(** A comparison with [NULL] selects no row. *)
Definition holds (d : DespesaRecorrente) (c : condition) : bool :=
  match c with
  | Fechada_eq b => Bool.eqb (fechada d) b
  | Categoria_eq s => String.eqb (categoria d) s
  | Tipo_eq s => String.eqb (tipo d) s
  | Data_pagamento_ge x =>
      match data_pagamento d with
      | Some p => match date_compare p x with Lt => false | _ => true end
      | None => false
      end
  | Data_pagamento_le x =>
      match data_pagamento d with
      | Some p => match date_compare p x with Gt => false | _ => true end
      | None => false
      end
  end.

(** The order of [created_at] in the database, [NULL] above every
    timestamp. *)
Definition created_compare (a b : option datetime) : comparison :=
  match a, b with
  | Some x, Some y => datetime_compare x y
  | Some _, None => Lt
  | None, Some _ => Gt
  | None, None => Eq
  end.

(** [a] may come before [b] in the descending order. *)
Definition desc_leb (a b : option datetime) : bool :=
  match created_compare a b with Lt => false | _ => true end.

(** The rows a statement gives.  Rows of equal [created_at] come in the
    order of the table; the database promises no order among them, and
    nothing below depends on it. *)
Definition rows_of (q : select) (table : list DespesaRecorrente)
  : list DespesaRecorrente :=
  let rows := List.filter (λ d, forallb (holds d) (where_ q)) table in
  let rows :=
    if order_by_desc_created_at q
    then Cleanup.sorted_by desc_leb created_at rows else rows in
  match limit_ q with
  | Some n => take (Z.to_nat n) rows
  | None => rows
  end.

(** [(await db.execute(q)).scalars().all()] *)
Definition execute (q : select) : M World (list DespesaRecorrente) :=
  gets (λ w, rows_of q (despesas w)).

(** The statement [q] that [listar_despesas] builds from its filters. *)
Definition listing_query (fechada : Z) (categoria tipo : option string)
  (di df : option date) : select :=
  let q := select_despesas in
  let q := where' (Fechada_eq (fechada =? 1)) q in
  let q := match if_text categoria with
           | Some c => where' (Categoria_eq c) q | None => q end in
  let q := match if_text tipo with
           | Some t => where' (Tipo_eq t) q | None => q end in
  let q := match di with
           | Some d => where' (Data_pagamento_ge d) q | None => q end in
  let q := match df with
           | Some d => where' (Data_pagamento_le d) q | None => q end in
  order_by_desc q.

(** [GET /api/despesas/] *)
Definition listar_despesas (fechada : Z)
  (categoria tipo data_inicio data_fim : option string) : M World pyval :=
  di ← lift (_parse_date (param data_inicio) "data_inicio");
  df ← lift (_parse_date (param data_fim) "data_fim");
  rows ← execute (listing_query fechada categoria tipo di df);
  mret (PList (_serialize_despesa <$> rows)).

(** [x + y] on floats: NaN stays, and two opposite infinities give NaN. *)
Definition float_add (x y : pyfloat) : pyfloat :=
  match x, y with
  | NaN, _ | _, NaN => NaN
  | Inf s, Inf t => if Bool.eqb s t then Inf s else NaN
  | Inf s, Fin _ | Fin _, Inf s => Inf s
  | Fin a, Fin b => Fin (a + b)%Qc
  end.

(** [SUM] over a column of amounts: [NULL]s are skipped, and the sum of
    no value at all is [NULL]. *)
Definition sql_sum (l : list (option pyfloat)) : option pyfloat :=
  match omap (λ x, x) l with
  | [] => None
  | x :: xs => Some (foldl float_add x xs)
  end.

(** [GET /api/despesas/total]:
    [select(coalesce(sum(valor), 0.0)).where(fechada == (fechada == 1))] *)
Definition total_despesas (fechada : Z) : M World pyval :=
  res ← gets (λ w,
    let rows := List.filter (λ d, holds d (Fechada_eq (fechada =? 1)))
                            (despesas w) in
    match sql_sum (valor <$> rows) with
    | Some x => Some x
    | None => Some (Fin 0%Qc)
    end);
  let total := float_or_0 res in
  mret (PDict {[ "total" := float_value total ]}).

(** [GET /api/despesas/historico]; the framework lets the function run
    only for [1 <= limit <= 2000]. *)
Definition historico_despesas (limit_n : Z) : M World pyval :=
  rows ← execute (limit limit_n (order_by_desc select_despesas));
  mret (PList (_serialize_despesa <$> rows)).

(** *** Sample data *)

Definition luz : DespesaRecorrente :=
  mkDespesa 1 "Fixa" "Luz" "Conta de luz" (Some (Fin (Qc_of_Z 120)))
            (PStr "Pago") (Some (mkdate 2025 3 5)) (Some (mkdate 2025 3 5))
            None false (Some (mkdatetime (mkdate 2025 3 5) 10))
            (Some (mkdatetime (mkdate 2025 3 5) 10)).
Definition agua : DespesaRecorrente :=
  mkDespesa 2 "Fixa" "Agua" "Conta de agua" (Some (Fin (Qc_of_Z 80)))
            (PStr "Pago") (Some (mkdate 2025 3 7)) (Some (mkdate 2025 3 9))
            None true (Some (mkdatetime (mkdate 2025 3 7) 20))
            (Some (mkdatetime (mkdate 2025 3 7) 20)).
Definition frete : DespesaRecorrente :=
  mkDespesa 3 "Variavel" "Transporte" "Frete" None
            (PStr "Pendente") None (Some (mkdate 2025 3 20))
            None false (Some (mkdatetime (mkdate 2025 3 8) 30))
            (Some (mkdatetime (mkdate 2025 3 8) 30)).

Definition livro : World :=
  mkworld [luz; agua; frete] [mkCategoria 10 "Luz"; mkCategoria 11 "Agua"] 4
          (mkdate 2025 3 10) (mkdatetime (mkdate 2025 3 10) 0).

End Consultas.

(** ** The clean-up script: reading the sales and removing duplicates *)

(** [try: m finally: f] *)
Definition try_finally {W A} (m : M W A) (f : M W unit) : M W A := λ w,
  match m w with
  | (r, w') =>
      match f w' with
      | (Ret _, w'') => (r, w'')
      | (Raise e, w'') => (Raise e, w'')
      end
  end.

Module Limpeza.
Import Cleanup.

(** The columns the script's statements name: [vendas v] and
    [itens_venda i], with the values the driver gives for them.
    Identifiers are in their text form ([::text]); an amount is a number,
    NaN included, or [NULL]; a creation time is a naive [datetime] when
    the column has no time zone and an aware one when it has, or
    [NULL]. *)
Record VendaRow : Type := mkVendaRow {
  v_id : string;
  v_usuario_id : option string;
  v_total : option pyfloat;
  v_desconto : option pyfloat;
  v_forma_pagamento : option string;
  v_created_at : option timestamp;
  v_cancelada : bool;
}.

Record ItemRow : Type := mkItemRow {
  i_venda_id : string;
  i_produto_id : option string;
  i_quantidade : option Z;
  i_peso_kg : option pyfloat;
  i_preco_unitario : option pyfloat;
  i_subtotal : option pyfloat;
}.

Record DB : Type := mkDB {
  vendas : list VendaRow;
  itens_venda : list ItemRow;
}.

(** A connection: what is committed in the database, and what the open
    transaction of the connection sees. *)
Record Conn : Type := mkConn { committed : DB; session : DB }.

(** [psycopg2.connect(url)] *)
Definition connect (db : DB) : Conn := mkConn db db.

(** [conn.commit()] *)
Definition commit : M Conn unit :=
  modify (λ c, mkConn (session c) (session c)).

(** [conn.close()]: what was not committed is lost. *)
Definition close : M Conn unit :=
  modify (λ c, mkConn (committed c) (committed c)).

(** One row of the [SELECT] of [fetch_vendas_and_itens]. *)
Record Row : Type := mkRow {
  r_venda_id : string;
  r_usuario_id : option string;
  r_total : option pyfloat;
  r_desconto : option pyfloat;
  r_forma_pagamento : option string;
  r_created_at : option timestamp;
  r_cancelada : bool;
  r_produto_id : option string;
  r_quantidade : option Z;
  r_peso_kg : option pyfloat;
  r_preco_unitario : option pyfloat;
  r_subtotal : option pyfloat;
}.

(** A sale joined with one of its lines, or with [NULL]s when it has
    none. *)
Definition join_row (v : VendaRow) (i : option ItemRow) : Row :=
  mkRow (v_id v) (v_usuario_id v) (v_total v) (v_desconto v)
        (v_forma_pagamento v) (v_created_at v) (v_cancelada v)
        (i ≫= i_produto_id) (i ≫= i_quantidade) (i ≫= i_peso_kg)
        (i ≫= i_preco_unitario) (i ≫= i_subtotal).

(** The rows of one sale in the result of the [SELECT]. *)
Definition rows_of_sale (db : DB) (v : VendaRow) : list Row :=
  match List.filter (λ i, String.eqb (i_venda_id i) (v_id v))
                    (itens_venda db) with
  | [] => [join_row v None]
  | its => (λ i, join_row v (Some i)) <$> its
  end.

(** [ORDER BY v.created_at ASC], [NULL] last. *)
Definition asc_leb (a b : option datetime) : bool :=
  match Consultas.created_compare a b with Gt => false | _ => true end.

(** [FROM vendas v LEFT JOIN itens_venda i ON i.venda_id = v.id
    WHERE v.cancelada = false ORDER BY v.created_at ASC].  Sales of equal
    [created_at], and the lines of one sale, come in the order of their
    tables; the database promises no order among them. *)
Definition active (db : DB) : list VendaRow :=
  sorted_by asc_leb (λ v, instant <$> v_created_at v)
    (List.filter (λ v, negb (v_cancelada v)) (vendas db)).

Definition sql_rows (db : DB) : list Row := active db ≫= rows_of_sale db.

(** The dict made for a sale at its first row. *)
Definition new_venda (r : Row) : Venda :=
  mkVenda (r_venda_id r) (r_usuario_id r)
          (Some (or_zero (r_total r))) (Some (or_zero (r_desconto r)))
          (r_forma_pagamento r) (r_created_at r) (Some []).

(** The dict made for a line. *)
Definition item_of (r : Row) : Item :=
  mkItem (r_produto_id r) (Some (or_zero_int (r_quantidade r)))
         (Some (or_zero (r_peso_kg r))) (Some (or_zero (r_preco_unitario r)))
         (Some (or_zero (r_subtotal r))).

(** [if r["produto_id"]:] *)
Definition truthy_text (x : option string) : bool :=
  match x with Some s => negb (String.eqb s "") | None => false end.

(** [vid in vendas], the dict being kept as the list of its values in the
    order of insertion. *)
Definition has_key (vid : string) (vendas : list Venda) : bool :=
  existsb (λ v, String.eqb (id v) vid) vendas.

(** [vendas[vid]["itens"].append(it)] *)
Fixpoint append_item (vid : string) (it : Item) (vendas : list Venda)
  : list Venda :=
  match vendas with
  | [] => []
  | v :: rest =>
      if String.eqb (id v) vid
      then with_itens (default [] (itens v) ++ [it]) v :: rest
      else v :: append_item vid it rest
  end.

(** The body of [for r in rows:]. *)
Definition fetch_step (vendas : list Venda) (r : Row) : list Venda :=
  let vid := r_venda_id r in
  let vendas :=
    if has_key vid vendas then vendas else vendas ++ [new_venda r] in
  if truthy_text (r_produto_id r)
  then append_item vid (item_of r) vendas
  else vendas.

(** The loop of [fetch_vendas_and_itens] and its [list(vendas.values())]. *)
Definition gather (rows : list Row) : list Venda :=
  fold_left fetch_step rows [].

(** The rows that add a line to the sale [vid]. *)
Definition adds_line (vid : string) (r : Row) : bool :=
  String.eqb (r_venda_id r) vid && truthy_text (r_produto_id r).

(** The dict of the sale [v] before any line is added, and the dict of
    the line [i]. *)
Definition sale_of (v : VendaRow) : Venda := new_venda (join_row v None).
Definition line_of (i : ItemRow) : Item :=
  mkItem (i_produto_id i) (Some (or_zero_int (i_quantidade i)))
         (Some (or_zero (i_peso_kg i))) (Some (or_zero (i_preco_unitario i)))
         (Some (or_zero (i_subtotal i))).

(** The lines of the sale [vid] that have a product. *)
Definition is_line_of (vid : string) (i : ItemRow) : bool :=
  String.eqb (i_venda_id i) vid && truthy_text (i_produto_id i).

(** [fetch_vendas_and_itens(conn)] *)
Definition fetch_vendas_and_itens : M Conn (list Venda) :=
  gets (λ c, gather (sql_rows (session c))).

(** [delete_venda(conn, venda_id)]: the lines first, then the sale. *)
Definition delete_venda (venda_id : string) : M Conn unit :=
  modify (λ c,
    mkConn (committed c)
      (mkDB (vendas (session c))
            (List.filter (λ i, negb (String.eqb (i_venda_id i) venda_id))
                         (itens_venda (session c)))));;
  modify (λ c,
    mkConn (committed c)
      (mkDB (List.filter (λ v, negb (String.eqb (v_id v) venda_id))
                         (vendas (session c)))
            (itens_venda (session c)))).

(** [groups[k].append(v)] on a [defaultdict(list)], kept as the list of
    its items in the order of insertion; [eqb] is the [==] of the keys. *)
Fixpoint append_to {K A} (eqb : K → K → bool) (k : K) (v : A)
  (groups : list (K * list A)) : list (K * list A) :=
  match groups with
  | [] => [(k, [v])]
  | (k', lst) :: rest =>
      if eqb k' k then (k', lst ++ [v]) :: rest
      else (k', lst) :: append_to eqb k v rest
  end.

(** [for v in l: groups[key(v)].append(v)] *)
Definition grouped {K A} (eqb : K → K → bool) (key : A → K) (l : list A)
  : list (K * list A) :=
  fold_left (λ groups v, append_to eqb (key v) v groups) l [].

Definition group_by_signature (vendas : list Venda)
  : list (signature * list Venda) :=
  grouped signature_eqb build_signature vendas.

(** [for v in to_remove: delete_venda(conn, v["id"]); total_removed += 1] *)
Fixpoint delete_each (to_remove : list Venda) (total_removed : nat)
  : M Conn nat :=
  match to_remove with
  | [] => mret total_removed
  | v :: rest => delete_venda (id v);; delete_each rest (S total_removed)
  end.

(** [[v for v in lst if v["id"] != keep["id"]]] *)
Definition others (keep : Venda) (lst : list Venda) : list Venda :=
  List.filter (λ v, negb (String.eqb (id v) (id keep))) lst.

(** [for sig, lst in dups.items(): ...] *)
Fixpoint remove_groups (now : datetime)
  (dups : list (signature * list Venda)) (total_removed : nat)
  : M Conn nat :=
  match dups with
  | [] => mret total_removed
  | (_, lst) :: rest =>
      keep ← lift (choose_to_keep now lst);
      let to_remove := others keep lst in
      total_removed ← delete_each to_remove total_removed;
      remove_groups now rest total_removed
  end.

(** What the script prints at its end. *)
Inductive report : Type :=
  | Nenhuma_duplicada
  | Removidas (total_removed : nat).

(** [main()], from the connection on; [now] is the time of the run. *)
Definition main (now : datetime) : M Conn report :=
  try_finally
    (vendas ← fetch_vendas_and_itens;
     let groups := group_by_signature vendas in
     let dups :=
       List.filter (λ g, bool_decide (1 < length g.2)%nat) groups in
     match dups with
     | [] => mret Nenhuma_duplicada
     | _ :: _ =>
         total_removed ← remove_groups now dups 0%nat;
         commit;;
         mret (Removidas total_removed)
     end)
    close.

(** *** What the properties below speak of *)

(** The groups of more than one sale. *)
Definition duplicates (vendas : list Venda) : list (signature * list Venda) :=
  List.filter (λ g, bool_decide (1 < length g.2)%nat)
              (group_by_signature vendas).

(** The sales [main] removes: in each group of more than one sale, all
    but the one [choose_to_keep] gives. *)
Definition to_remove_of (now : datetime) (lst : list Venda) : list Venda :=
  match choose_to_keep now lst with
  | Ret keep => others keep lst
  | Raise _ => []
  end.

Definition removed (now : datetime) (vendas : list Venda) : list Venda :=
  duplicates vendas ≫= (λ g, to_remove_of now g.2).

(** Two sales that [==] on signatures puts in one group. *)
Definition same_signature (a b : Venda) : Prop :=
  signature_eqb (build_signature a) (build_signature b) = true.

(** A sale whose signature is equal to itself: one without NaN. *)
Definition has_signature (v : Venda) : bool :=
  signature_eqb (build_signature v) (build_signature v).

(** In every group of duplicates the times compare. *)
Definition times_compare (now : datetime) (vendas : list Venda) : Prop :=
  ∀ g, g ∈ duplicates vendas → comparable now g.2.

Global Instance signature_eq_dec : EqDecision signature.
Proof. unfold signature, item_key. apply _. Defined.

(** Whether [choose_to_keep] gives a sale in every group of duplicates. *)
Definition keeps_all (now : datetime) (vendas : list Venda) : bool :=
  forallb (λ g, match choose_to_keep now g.2 with
                | Ret _ => true
                | Raise _ => false
                end) (duplicates vendas).

(** The classes of a key under equality, each in the order of the list
    and all in the order of their first member. *)
Fixpoint class_append {K A} `{EqDecision K} (k : K) (v : A)
  (groups : list (K * list A)) : list (K * list A) :=
  match groups with
  | [] => [(k, [v])]
  | (k', lst) :: rest =>
      if decide (k' = k) then (k', lst ++ [v]) :: rest
      else (k', lst) :: class_append k v rest
  end.

Definition classes {K A} `{EqDecision K} (key : A → K) (l : list A)
  : list (K * list A) :=
  fold_left (λ groups v, class_append (key v) v groups) l [].

(** The database without the sales [ids] and their lines. *)
Definition without (ids : list string) (db : DB) : DB :=
  mkDB (List.filter (λ v, bool_decide (v_id v ∉ ids)) (vendas db))
       (List.filter (λ i, bool_decide (i_venda_id i ∉ ids)) (itens_venda db)).

(** *** Sample data *)

Definition loja : DB :=
  mkDB
    [ mkVendaRow "a" None (Some (Fin (Qc_of_Z 11))) None (Some "cash"%string)
                 (Some (mktimestamp (mkdatetime (mkdate 2025 3 10) 5) false)) false;
      mkVendaRow "b" (Some "u1"%string) (Some (Fin (Qc_of_Z 11))) None
                 (Some "cash"%string)
                 (Some (mktimestamp (mkdatetime (mkdate 2025 3 10) 9) false)) false;
      mkVendaRow "c" (Some "u1"%string) (Some (Fin (Qc_of_Z 7))) None
                 (Some "card"%string)
                 (Some (mktimestamp (mkdatetime (mkdate 2025 3 10) 7) false)) false;
      mkVendaRow "d" None (Some (Fin (Qc_of_Z 11))) None (Some "cash"%string)
                 (Some (mktimestamp (mkdatetime (mkdate 2025 3 10) 1) false)) true ]
    [ mkItemRow "a" (Some "p1"%string) (Some 2) None (Some (Fin (Q2Qc (5 # 2))))
                (Some (Fin (Qc_of_Z 5)));
      mkItemRow "b" (Some "p0"%string) (Some 1) None (Some (Fin (Qc_of_Z 6)))
                (Some (Fin (Qc_of_Z 6)));
      mkItemRow "a" (Some "p0"%string) (Some 1) None (Some (Fin (Qc_of_Z 6)))
                (Some (Fin (Qc_of_Z 6)));
      mkItemRow "b" (Some "p1"%string) (Some 2) None (Some (Fin (Q2Qc (5 # 2))))
                (Some (Fin (Qc_of_Z 5)));
      mkItemRow "c" (Some "p2"%string) (Some 1) None (Some (Fin (Qc_of_Z 7)))
                (Some (Fin (Qc_of_Z 7)));
      mkItemRow "d" (Some "p1"%string) (Some 2) None (Some (Fin (Q2Qc (5 # 2))))
                (Some (Fin (Qc_of_Z 5))) ].

Definition run_time : datetime := mkdatetime (mkdate 2025 4 1) 0.

(** The same shop with two more sales, duplicates of each other: one has
    no creation time. *)
Definition loja_sem_data : DB :=
  mkDB
    (vendas loja ++
     [ mkVendaRow "e" None (Some (Fin (Qc_of_Z 3))) None (Some "pix"%string)
                  (Some (mktimestamp (mkdatetime (mkdate 2025 3 11) 0) false))
                  false;
       mkVendaRow "f" None (Some (Fin (Qc_of_Z 3))) None (Some "pix"%string)
                  None false ])
    (itens_venda loja).

(** The same shop with two more sales that would be duplicates but for a
    total that is NaN. *)
Definition loja_nan : DB :=
  mkDB
    (vendas loja ++
     [ mkVendaRow "g" None (Some NaN) None (Some "pix"%string)
                  (Some (mktimestamp (mkdatetime (mkdate 2025 3 11) 0) false))
                  false;
       mkVendaRow "h" None (Some NaN) None (Some "pix"%string)
                  (Some (mktimestamp (mkdatetime (mkdate 2025 3 11) 1) false))
                  false ])
    (itens_venda loja).

End Limpeza.

(** ** The clean-up script: finding the database *)

Module Conexao.

(** What [get_db_url] reads: the environment of the process and, for each
    of the three [.env] candidates in turn, the lines of the file, or
    [None] when it does not exist or cannot be read. *)
Record Env : Type := mkEnv {
  environ : gmap string string;
  candidates : list (option (list string));
}.

(** How [get_db_url] ends: it returns a URL or calls [sys.exit]. *)
Inductive outcome : Type :=
  | Return (url : string)
  | SystemExit (code : Z).

(** [if url:] and [x or y] on a text that may be [None]. *)
Definition some_text (x : option string) : bool :=
  match x with Some s => negb (String.eqb s "") | None => false end.

Definition or_text (x y : option string) : option string :=
  if some_text x then x else y.

(** [s.startswith(p)] *)
Definition startswith (s p : string) : bool :=
  is_prefix (list_ascii_of_string p) (list_ascii_of_string s).

(** [s.strip(c)] for one character [c]. *)
Fixpoint lstrip_char (c : ascii) (l : list ascii) : list ascii :=
  match l with
  | x :: l' => if Ascii.eqb x c then lstrip_char c l' else l
  | [] => []
  end.

Definition strip_char (c : ascii) (s : string) : string :=
  string_of_list_ascii
    (rev (lstrip_char c (rev (lstrip_char c (list_ascii_of_string s))))).

(** [s.split(sep, 1)[1]]: what follows the first [sep]. *)
Fixpoint after_first (sep : ascii) (l : list ascii) : result (list ascii) :=
  match l with
  | [] => Raise IndexError
  | c :: l' => if Ascii.eqb c sep then Ret l' else after_first sep l'
  end.

(** [s.replace(pat, rep)] for a non-empty [pat], left to right. *)
Fixpoint replace (pat rep : list ascii) (skip : nat) (l : list ascii)
  : list ascii :=
  match l with
  | [] => []
  | c :: l' =>
      match skip with
      | S k => replace pat rep k l'
      | O =>
          if is_prefix pat l then rep ++ replace pat rep (length pat - 1) l'
          else c :: replace pat rep 0 l'
      end
  end.

(** The double quote and the apostrophe. *)
Definition double_quote : ascii := ascii_of_nat 34.
Definition apostrophe : ascii := ascii_of_nat 39.

(** The value of a line: what follows its first equals sign, stripped of
    white space, then of double quotes, then of apostrophes. *)
Definition value_of (line : string) : result string :=
  v ← after_first "=" (list_ascii_of_string line);
  mret (strip_char apostrophe
          (strip_char double_quote (strip (string_of_list_ascii v)))).

(** [for line in f:], up to its [break]: the new [url], if a line sets
    it. *)
Fixpoint scan_lines (lines : list string) : result (option string) :=
  match lines with
  | [] => Ret None
  | line :: rest =>
      let line := strip line in
      if String.eqb line "" || startswith line "#" then scan_lines rest
      else if startswith line "DATABASE_URL=" then Some <$> value_of line
      else if startswith line "DATABASE_PUBLIC_URL=" then
        Some <$> value_of line
      else scan_lines rest
  end.

(** [for p in candidates:]; an exception leaves [url] as it is and goes
    on with the next candidate. *)
Fixpoint scan_candidates (url : option string)
  (files : list (option (list string))) : option string :=
  match files with
  | [] => url
  | f :: rest =>
      let url :=
        match f with
        | Some lines =>
            match scan_lines lines with
            | Ret (Some u) => Some u
            | _ => url
            end
        | None => url
        end in
      if some_text url then url else scan_candidates url rest
  end.

Definition asyncpg : string := "postgresql+asyncpg://".

(** [get_db_url()] *)
Definition get_db_url (e : Env) : outcome :=
  let url := or_text (environ e !! "DATABASE_PUBLIC_URL")
                     (environ e !! "DATABASE_URL") in
  let url :=
    if some_text url then url else scan_candidates url (candidates e) in
  match url with
  | Some u =>
      if String.eqb u "" then SystemExit 1
      else if startswith u asyncpg then
        Return (string_of_list_ascii
                  (replace (list_ascii_of_string asyncpg)
                           (list_ascii_of_string "postgresql://") 0
                           (list_ascii_of_string u)))
      else Return u
  | None => SystemExit 1
  end.

(** *** Sample data *)

Definition dotenv : list string :=
  [ "# local settings"; "";
    "DATABASE_URL='postgresql+asyncpg://u:p@db/loja'";
    "DATABASE_PUBLIC_URL=postgresql://public/loja" ]%string.

Definition env_files_only : Env := mkEnv ∅ [None; Some dotenv; None].

Definition env_both : Env :=
  mkEnv {[ "DATABASE_URL" := "postgresql://internal/loja"%string;
           "DATABASE_PUBLIC_URL" := "postgresql+asyncpg://public/loja"%string ]}
        [Some dotenv].

End Conexao.

(** * Properties *)

(** ** The built-ins on examples *)

Example int_2024 : int "2024" = Ret 2024.
Proof. reflexivity. Qed.
Example int_blank_sign : int " +1_2 " = Ret 12.
Proof. reflexivity. Qed.
Example int_bad : int "12a" = Raise ValueError.
Proof. reflexivity. Qed.
Example split_ym : split "2024-12" "-" = ["2024"; "12"]%string.
Proof. reflexivity. Qed.
Example split_minus : split "-2024-12" "-" = [""; "2024"; "12"]%string.
Proof. reflexivity. Qed.
Example fromiso_ok : fromisoformat "2025-03-10" = Ret (mkdate 2025 3 10).
Proof. reflexivity. Qed.
Example fromiso_feb30 : fromisoformat "2025-02-30" = Raise ValueError.
Proof. reflexivity. Qed.
Example fromiso_basic : fromisoformat "20250311" = Ret (mkdate 2025 3 11).
Proof. reflexivity. Qed.
Example fromiso_week : fromisoformat "2025-W11-2" = Ret (mkdate 2025 3 11).
Proof. reflexivity. Qed.
Example fromiso_week_53 : fromisoformat "2020-W53-7" = Ret (mkdate 2021 1 3).
Proof. reflexivity. Qed.
Example fromiso_no_week_53 : fromisoformat "2025-W53-1" = Raise ValueError.
Proof. reflexivity. Qed.
Example fromiso_short : fromisoformat "2025-3-11" = Raise ValueError.
Proof. reflexivity. Qed.
Example iso_ok : isoformat (mkdate 2025 3 10) = "2025-03-10"%string.
Proof. reflexivity. Qed.
Example strftime_ok : strftime_Y_m (mkdate 2025 3 10) = "2025-03"%string.
Proof. reflexivity. Qed.
Example strftime_short_year : strftime_Y_m (mkdate 999 5 1) = "999-05"%string.
Proof. reflexivity. Qed.
Example uuid_ok :
  UUID "12345678-1234-5678-1234-567812345678"
  = Ret 0x12345678123456781234567812345678.
Proof. reflexivity. Qed.
Example uuid_bad : UUID "not-a-uuid" = Raise ValueError.
Proof. reflexivity. Qed.
Example float_ok : float (PStr "12.50") = Ret (Fin (Q2Qc (25 # 2))).
Proof. vm_compute. do 2 f_equal. apply Qc_is_canon. reflexivity. Qed.
Example float_bad : float (PStr "abc") = Raise ValueError.
Proof. reflexivity. Qed.
Example float_grouped : float (PStr "1_000") = Ret (Fin (Qc_of_Z 1000)).
Proof. vm_compute. do 2 f_equal. apply Qc_is_canon. reflexivity. Qed.
Example float_nan : float (PStr "nan") = Ret NaN.
Proof. reflexivity. Qed.
Example float_inf : float (PStr "-Infinity") = Ret (Inf true).
Proof. reflexivity. Qed.
Example float_huge : float (PStr "1e400") = Ret (Inf false).
Proof. vm_compute. reflexivity. Qed.
Example float_none : float PNone = Raise TypeError.
Proof. reflexivity. Qed.

(** ** Dates and their text *)

Lemma digit_char_cases x :
  ∃ r, 0 ≤ r < 10 ∧ x mod 10 = r
       ∧ digit_char x = ascii_of_N (Z.to_N (48 + r)).
Proof.
  exists (x mod 10). split; [apply Z.mod_pos_bound; lia|done].
Qed.

Lemma digit_char_spec x :
  is_digit (digit_char x) = true ∧ digit_val (digit_char x) = x mod 10.
Proof.
  destruct (digit_char_cases x) as (r & Hr & Hm & Hc).
  rewrite Hc, Hm. clear Hc Hm.
  assert (H : r = 0 ∨ r = 1 ∨ r = 2 ∨ r = 3 ∨ r = 4 ∨ r = 5 ∨ r = 6
              ∨ r = 7 ∨ r = 8 ∨ r = 9) by lia.
  repeat (destruct H as [->|H]; [done|]). by subst.
Qed.

Lemma digit_char_not x c :
  is_digit c = false → Ascii.eqb (digit_char x) c = false.
Proof.
  intros Hc. destruct (Ascii.eqb_spec (digit_char x) c) as [<-|]; [|done].
  by rewrite (proj1 (digit_char_spec x)) in Hc.
Qed.

Lemma utf8_cons c l :
  (N_of_ascii c <? 128)%N = true → utf8 (c :: l) = c :: utf8 l.
Proof. intros H. unfold utf8. cbn [mbind list_bind]. by rewrite H. Qed.

Lemma digit_char_low x : (N_of_ascii (digit_char x) <? 128)%N = true.
Proof.
  destruct (digit_char_cases x) as (r & Hr & Hm & Hc).
  rewrite Hc. clear Hc Hm.
  assert (H : r = 0 ∨ r = 1 ∨ r = 2 ∨ r = 3 ∨ r = 4 ∨ r = 5 ∨ r = 6
              ∨ r = 7 ∨ r = 8 ∨ r = 9) by lia.
  repeat (destruct H as [->|H]; [done|]). by subst.
Qed.

Lemma parse_digits_cons n acc x l :
  parse_digits (S n) acc (digit_char x :: l)
  = parse_digits n (10 * acc + x mod 10) l.
Proof.
  simpl. destruct (digit_char_spec x) as [-> ->]. done.
Qed.

Lemma parse_digits_padded_4 n l :
  0 ≤ n < 10000 → parse_digits 4 0 (zero_padded 4 n ++ l) = Some (n, l).
Proof.
  intros Hn. cbn [zero_padded app]. rewrite !parse_digits_cons.
  cbn [parse_digits]. do 2 f_equal.
  Z.to_euclidean_division_equations. lia.
Qed.

Lemma parse_digits_padded_2 n l :
  0 ≤ n < 100 → parse_digits 2 0 (zero_padded 2 n ++ l) = Some (n, l).
Proof.
  intros Hn. cbn [zero_padded app]. rewrite !parse_digits_cons.
  cbn [parse_digits]. do 2 f_equal.
  Z.to_euclidean_division_equations. lia.
Qed.

Lemma valid_bounds d :
  valid d → 0 ≤ year d < 10000 ∧ 0 ≤ month d < 100 ∧ 0 ≤ day d < 100.
Proof.
  unfold valid, date_valid, MINYEAR, MAXYEAR.
  rewrite !andb_true_iff, !Z.leb_le. intros (((((?&?)&?)&?)&?)&Hd).
  assert (days_in_month (year d) (month d) ≤ 31).
  { unfold days_in_month.
    repeat match goal with |- context [if ?b then _ else _] => destruct b end;
      lia. }
  lia.
Qed.

(** The text of a date, as bytes. *)
Lemma utf8_isoformat d :
  utf8 (list_ascii_of_string (isoformat d))
  = zero_padded 4 (year d) ++ ["-"%char] ++ zero_padded 2 (month d)
    ++ ["-"%char] ++ zero_padded 2 (day d).
Proof.
  unfold isoformat. rewrite list_ascii_of_string_of_list_ascii.
  cbn [zero_padded app].
  repeat (rewrite utf8_cons by (first [apply digit_char_low | done])).
  done.
Qed.

Lemma fromisoformat_isoformat d :
  valid d → fromisoformat (isoformat d) = Ret d.
Proof.
  intros Hv. destruct (valid_bounds d Hv) as (Hy & Hm & Hd).
  unfold fromisoformat. rewrite utf8_isoformat.
  assert (Hlen : length (zero_padded 4 (year d) ++ ["-"%char]
                         ++ zero_padded 2 (month d) ++ ["-"%char]
                         ++ zero_padded 2 (day d)) = 10%nat) by done.
  rewrite Hlen. cbn [Nat.eqb orb negb].
  rewrite (parse_digits_padded_4 (year d) _ Hy).
  cbn [app starts_with tail]. cbn [Ascii.eqb Bool.eqb].
  assert (HW : starts_with "W" (zero_padded 2 (month d) ++ "-"%char
                                  :: zero_padded 2 (day d)) = false).
  { cbn [zero_padded app starts_with]. by apply digit_char_not. }
  rewrite HW.
  rewrite (parse_digits_padded_2 (month d) _ Hm).
  cbn [starts_with tail andb negb]. cbn [Ascii.eqb Bool.eqb].
  rewrite <- (app_nil_r (zero_padded 2 (day d))).
  rewrite (parse_digits_padded_2 (day d) _ Hd).
  unfold date_new. unfold valid in Hv. rewrite Hv. by destruct d.
Qed.

(** What [date.fromisoformat] returns is a date of the calendar. *)
Lemma fromisoformat_valid s d : fromisoformat s = Ret d → valid d.
Proof.
  assert (Hnew : ∀ y m x, date_new y m x = Ret d → valid d).
  { intros y m x. unfold date_new, valid.
    destruct (date_valid y m x) eqn:E; [|done]. by intros [= <-]. }
  assert (Hiso : ∀ y w x, iso_date y w x = Ret d → valid d).
  { intros y w x. unfold iso_date.
    destruct (iso_to_ymd y w x) as [[[y' m'] d']|]; [|done]. apply Hnew. }
  unfold fromisoformat.
  repeat match goal with
         | |- (if ?b then _ else _) = _ → _ => destruct b
         | |- match ?x with _ => _ end = _ → _ =>
             first [ destruct x as [[? ?]|] | destruct x ]
         end;
    try done; eauto.
Qed.

(** ** Orders *)

Lemma lex_Eq c d : lex c d = Eq ↔ c = Eq ∧ d = Eq.
Proof. destruct c; simpl; intuition congruence. Qed.

Lemma lex_Lt c d : lex c d = Lt ↔ c = Lt ∨ (c = Eq ∧ d = Lt).
Proof. destruct c; simpl; intuition congruence. Qed.

Lemma lex_CompOpp c d : CompOpp (lex c d) = lex (CompOpp c) (CompOpp d).
Proof. by destruct c. Qed.

(** Two total orders, read off a value by two projections that determine
    it, combine into a total order. *)
Lemma lex_ok {A B C} (pa : C → A) (pb : C → B) ca cb :
  compare_ok ca → compare_ok cb →
  (∀ x y, pa x = pa y → pb x = pb y → x = y) →
  compare_ok (λ x y, lex (ca (pa x) (pa y)) (cb (pb x) (pb y))).
Proof.
  intros Ha Hb Hinj. split.
  - intros x y [H1 H2]%lex_Eq.
    apply Hinj; [by apply (c_eq _ Ha) | by apply (c_eq _ Hb)].
  - intros x. by rewrite (c_refl _ Ha), (c_refl _ Hb).
  - intros x y. rewrite lex_CompOpp.
    by rewrite <- (c_antisym _ Ha), <- (c_antisym _ Hb).
  - intros x y z [H1 | [H1 H1']]%lex_Lt [H2 | [H2 H2']]%lex_Lt; apply lex_Lt.
    + left. by apply (c_trans _ Ha _ (pa y)).
    + left. apply (c_eq _ Ha) in H2. by rewrite <- H2.
    + left. apply (c_eq _ Ha) in H1. by rewrite H1.
    + right. apply (c_eq _ Ha) in H1, H2. split.
      * rewrite H1, H2. apply (c_refl _ Ha).
      * by apply (c_trans _ Hb _ (pb y)).
Qed.

Lemma compare_ok_le_trans {A} (c : A → A → comparison) x y z :
  compare_ok c → c x y ≠ Gt → c y z ≠ Gt → c x z ≠ Gt.
Proof.
  intros Hc Hxy Hyz.
  destruct (c x y) eqn:E1; [| |done].
  - apply (c_eq _ Hc) in E1. by subst.
  - destruct (c y z) eqn:E2; [| |done].
    + apply (c_eq _ Hc) in E2. subst. by rewrite E1.
    + by rewrite (c_trans _ Hc x y z).
Qed.

Lemma compare_ok_le_total {A} (c : A → A → comparison) x y :
  compare_ok c → c x y ≠ Gt ∨ c y x ≠ Gt.
Proof.
  intros Hc. rewrite (c_antisym _ Hc x y).
  destruct (c x y); simpl; auto.
Qed.

Lemma compare_ok_le_antisym {A} (c : A → A → comparison) x y :
  compare_ok c → c x y ≠ Gt → c y x ≠ Gt → x = y.
Proof.
  intros Hc H1 H2. rewrite (c_antisym _ Hc x y) in H2.
  destruct (c x y) eqn:E; simpl in *; try done.
  by apply (c_eq _ Hc).
Qed.

Lemma Z_compare_ok : compare_ok Z.compare.
Proof.
  split.
  - apply Z.compare_eq.
  - apply Z.compare_refl.
  - intros x y. by rewrite <- Z.compare_antisym.
  - intros x y z. rewrite !Z.compare_lt_iff. lia.
Qed.

Lemma N_compare_ok : compare_ok N.compare.
Proof.
  split.
  - apply N.compare_eq.
  - apply N.compare_refl.
  - intros x y. by rewrite <- N.compare_antisym.
  - intros x y z. rewrite !N.compare_lt_iff. lia.
Qed.

Lemma Qc_compare_ok : compare_ok Qccompare.
Proof.
  split.
  - intros x y. by rewrite <- Qceq_alt.
  - intros x. by apply Qceq_alt.
  - intros x y. unfold Qccompare. by rewrite <- Qcompare_antisym.
  - intros x y z. rewrite <- !Qclt_alt. apply Qclt_trans.
Qed.

Lemma ascii_compare_ok : compare_ok Ascii.compare.
Proof.
  split.
  - apply Ascii.compare_eq_iff.
  - intros x. unfold Ascii.compare. apply N.compare_refl.
  - intros x y. apply Ascii.compare_antisym.
  - intros x y z. unfold Ascii.compare. apply (c_trans _ N_compare_ok).
Qed.

Lemma string_compare_ok : compare_ok String.compare.
Proof.
  split.
  - apply String.compare_eq_iff.
  - intros x. induction x as [|a x IH]; simpl; [done|].
    by rewrite (c_refl _ ascii_compare_ok).
  - intros x y. apply String.compare_antisym.
  - intros x. induction x as [|a x IH]; intros [|b y] [|c z]; simpl; try done.
    destruct (Ascii.compare a b) eqn:Eab; [| |done];
      destruct (Ascii.compare b c) eqn:Ebc; try done.
    + apply Ascii.compare_eq_iff in Eab, Ebc. subst.
      rewrite (c_refl _ ascii_compare_ok). apply IH.
    + apply Ascii.compare_eq_iff in Eab. subst. by rewrite Ebc.
    + apply Ascii.compare_eq_iff in Ebc. subst. by rewrite Eab.
    + by rewrite (c_trans _ ascii_compare_ok a b c).
Qed.

Lemma date_compare_ok : compare_ok date_compare.
Proof.
  unfold date_compare.
  apply (lex_ok year (λ d, (month d, day d)) Z.compare
           (λ a b, lex (a.1 ?= b.1) (a.2 ?= b.2))).
  - apply Z_compare_ok.
  - apply (lex_ok fst snd); [apply Z_compare_ok..|].
    intros [] [] ??; simpl in *; by subst.
  - intros [] [] ? [=]; simpl in *; by subst.
Qed.

Lemma datetime_compare_ok : compare_ok datetime_compare.
Proof.
  apply (lex_ok dt_date dt_us); [apply date_compare_ok|apply N_compare_ok|].
  by intros [] [] ??; simpl in *; subst.
Qed.

Lemma compare_ok_ext {A} (c c' : A → A → comparison) :
  (∀ x y, c' x y = c x y) → compare_ok c → compare_ok c'.
Proof.
  intros E Hc. split.
  - intros x y. rewrite E. apply (c_eq _ Hc).
  - intros x. rewrite E. apply (c_refl _ Hc).
  - intros x y. rewrite !E. apply (c_antisym _ Hc).
  - intros x y z. rewrite !E. apply (c_trans _ Hc).
Qed.

(** ** Sorting by a key *)

Lemma insert_by_elem_of {A K} (leb : K → K → bool) (f : A → K) x y l :
  y ∈ Cleanup.insert_by leb f x l ↔ y = x ∨ y ∈ l.
Proof.
  induction l as [|z l IH]; simpl.
  - set_solver.
  - destruct (leb (f x) (f z)); [set_solver|].
    rewrite !elem_of_cons, IH. naive_solver.
Qed.

Lemma sorted_by_elem_of {A K} (leb : K → K → bool) (f : A → K) y l :
  y ∈ Cleanup.sorted_by leb f l ↔ y ∈ l.
Proof.
  induction l as [|z l IH]; simpl; [done|].
  rewrite insert_by_elem_of, IH. set_solver.
Qed.

(** The sort looks at the order of the elements of its list only. *)
Lemma insert_by_ext {A K} (leb leb' : K → K → bool) (f : A → K) x l :
  (∀ y, y ∈ l → leb (f x) (f y) = leb' (f x) (f y)) →
  Cleanup.insert_by leb f x l = Cleanup.insert_by leb' f x l.
Proof.
  induction l as [|y l IH]; intros H; simpl; [done|].
  rewrite (H y) by set_solver.
  destruct (leb' (f x) (f y)); [done|]. f_equal. apply IH.
  intros z Hz. apply H. set_solver.
Qed.

Lemma sorted_by_ext {A K} (leb leb' : K → K → bool) (f : A → K) l :
  (∀ x y, x ∈ l → y ∈ l → leb (f x) (f y) = leb' (f x) (f y)) →
  Cleanup.sorted_by leb f l = Cleanup.sorted_by leb' f l.
Proof.
  induction l as [|x l IH]; intros H; simpl; [done|].
  rewrite IH by (intros; apply H; set_solver).
  apply insert_by_ext. intros y Hy%sorted_by_elem_of.
  apply H; set_solver.
Qed.

Section sorted_by.
Context {A K : Type} (leb : K → K → bool) (f : A → K).

Lemma insert_by_Permutation (x : A) (l : list A) :
  Cleanup.insert_by leb f x l ≡ₚ x :: l.
Proof.
  induction l as [|y l IH]; [done|]. simpl.
  destruct (leb (f x) (f y)); [done|].
  rewrite IH. apply Permutation_swap.
Qed.

Lemma sorted_by_Permutation (l : list A) : Cleanup.sorted_by leb f l ≡ₚ l.
Proof.
  induction l as [|x l IH]; [done|]. simpl.
  by rewrite insert_by_Permutation, IH.
Qed.

Hypothesis leb_total : ∀ a b, leb a b = true ∨ leb b a = true.
Hypothesis leb_trans :
  ∀ a b c, leb a b = true → leb b c = true → leb a c = true.

Lemma insert_by_StronglySorted (x : A) (l : list A) :
  StronglySorted (λ a b, leb (f a) (f b) = true) l →
  StronglySorted (λ a b, leb (f a) (f b) = true) (Cleanup.insert_by leb f x l).
Proof.
  induction 1 as [|y l Hs IH Hy]; simpl.
  - repeat constructor.
  - destruct (leb (f x) (f y)) eqn:E.
    + constructor; [by constructor|].
      constructor; [done|].
      eapply Forall_impl; [exact Hy|]. intros z Hz. by eapply leb_trans.
    + constructor; [done|].
      apply Forall_forall. intros z Hz.
      apply insert_by_elem_of in Hz as [->|Hz].
      * destruct (leb_total (f x) (f y)); congruence.
      * by apply (proj1 (Forall_forall _ _) Hy).
Qed.

Lemma sorted_by_StronglySorted (l : list A) :
  StronglySorted (λ a b, leb (f a) (f b) = true) (Cleanup.sorted_by leb f l).
Proof.
  induction l as [|x l IH]; simpl; [constructor|].
  by apply insert_by_StronglySorted.
Qed.

End sorted_by.

Lemma StronglySorted_weaken {A} (R R' : A → A → Prop) (l : list A) :
  (∀ a b, R a b → R' a b) → StronglySorted R l → StronglySorted R' l.
Proof.
  intros H. induction 1 as [|x l Hl IH Hx]; constructor; [done|].
  eapply Forall_impl; [exact Hx|]. intros y. apply H.
Qed.

(** Two sorted lists with the same elements are the same list, when the
    order is total. *)
Lemma StronglySorted_unique_by {A} (c : A → A → comparison) (l l' : list A) :
  compare_ok c →
  StronglySorted (λ a b, c a b ≠ Gt) l →
  StronglySorted (λ a b, c a b ≠ Gt) l' →
  l ≡ₚ l' → l = l'.
Proof.
  intros Hc Hl. revert l'.
  induction Hl as [|x l Hl IH Hx]; intros l' Hl' Hp.
  - by apply Permutation_nil_l in Hp.
  - destruct Hl' as [|y l' Hl' Hy].
    + by apply Permutation_nil_r in Hp.
    + assert (x = y) as <-.
      { assert (Hxy : x ∈ y :: l') by (rewrite <- Hp; set_solver).
        assert (Hyx : y ∈ x :: l) by (rewrite Hp; set_solver).
        apply elem_of_cons in Hxy as [->|Hxy]; [done|].
        apply elem_of_cons in Hyx as [->|Hyx]; [done|].
        apply (compare_ok_le_antisym c); [done| |].
        - by apply (proj1 (Forall_forall _ _) Hx).
        - by apply (proj1 (Forall_forall _ _) Hy). }
      f_equal. apply IH; [done|]. by apply (inj (cons x)).
Qed.

(** ** Duplicate sales *)

Module CleanupTheory.
Import Cleanup.

(** *** The order of the tuples *)

Lemma float_compare_ok : compare_ok float_compare.
Proof.
  apply (lex_ok float_class float_number); [apply Z_compare_ok|apply Qc_compare_ok|].
  intros [a|[]|] [b|[]|]; simpl; try done. by intros _ ->.
Qed.

Lemma float_eqb_compare x y :
  x ≠ NaN → float_eqb x y = true ↔ float_compare x y = Eq.
Proof.
  intros Hx. destruct x as [a|[]|], y as [b|[]|]; simpl; try done.
  unfold float_compare. simpl. rewrite bool_decide_eq_true.
  apply Qceq_alt.
Qed.

Lemma float_ltb_compare x y :
  x ≠ NaN → y ≠ NaN → float_ltb x y = true ↔ float_compare x y = Lt.
Proof.
  intros Hx Hy. destruct x as [a|[]|], y as [b|[]|]; simpl; try done.
  unfold float_compare. simpl. rewrite bool_decide_eq_true.
  apply Qclt_alt.
Qed.

Lemma round6_number x : x ≠ NaN → round6 x ≠ NaN.
Proof. by destruct x. Qed.

Lemma key_compare_ok : compare_ok key_compare.
Proof.
  pose (F := pyfloat).
  pose (c2 := λ a b : F * F, lex (float_compare a.1 b.1) (float_compare a.2 b.2)).
  pose (c3 := λ a b : F * (F * F), lex (float_compare a.1 b.1) (c2 a.2 b.2)).
  pose (c4 := λ a b : Z * (F * (F * F)), lex (a.1 ?= b.1) (c3 a.2 b.2)).
  assert (H2 : compare_ok c2).
  { apply (lex_ok fst snd); [apply float_compare_ok..|].
    intros [] [] ??; simpl in *; by subst. }
  assert (H3 : compare_ok c3).
  { apply (lex_ok fst snd); [apply float_compare_ok|apply H2|].
    intros [] [] ??; simpl in *; by subst. }
  assert (H4 : compare_ok c4).
  { apply (lex_ok fst snd); [apply Z_compare_ok|apply H3|].
    intros [] [] ??; simpl in *; by subst. }
  apply (compare_ok_ext
           (λ a b : item_key,
              lex (String.compare a.1.1.1.1 b.1.1.1.1)
                  (c4 (a.1.1.1.2, (a.1.1.2, (a.1.2, a.2)))
                      (b.1.1.1.2, (b.1.1.2, (b.1.2, b.2)))))).
  - by intros [[[[??]?]?]?] [[[[??]?]?]?].
  - apply (lex_ok (λ a : item_key, a.1.1.1.1)
             (λ a : item_key, (a.1.1.1.2, (a.1.1.2, (a.1.2, a.2)))));
      [apply string_compare_ok|apply H4|].
    intros [[[[??]?]?]?] [[[[??]?]?]?] ? [=]; simpl in *; by subst.
Qed.

Lemma string_eqb_compare s t : String.eqb s t = true ↔ String.compare s t = Eq.
Proof.
  rewrite String.eqb_eq. split.
  - intros ->. apply (c_refl _ string_compare_ok).
  - apply (c_eq _ string_compare_ok).
Qed.

Lemma string_ltb_compare s t : String.ltb s t = true ↔ String.compare s t = Lt.
Proof. unfold String.ltb. by destruct (String.compare s t). Qed.

(** On tuples without NaN, [<] is the order above. *)
Lemma key_ltb_compare a b :
  key_is_number a → key_is_number b →
  key_ltb a b = true ↔ key_compare a b = Lt.
Proof.
  destruct a as [[[[p1 q1] w1] u1] s1], b as [[[[p2 q2] w2] u2] s2].
  intros (Hw1 & Hu1 & Hs1) (Hw2 & Hu2 & Hs2).
  unfold key_ltb, key_compare.
  pose proof (string_eqb_compare p1 p2) as Ep.
  pose proof (string_ltb_compare p1 p2) as Lp.
  pose proof (Z.eqb_eq q1 q2) as Eq1. rewrite <- Z.compare_eq_iff in Eq1.
  pose proof (Z.ltb_lt q1 q2) as Lq. rewrite <- Z.compare_lt_iff in Lq.
  pose proof (float_eqb_compare w1 w2 Hw1) as Ew.
  pose proof (float_ltb_compare w1 w2 Hw1 Hw2) as Lw.
  pose proof (float_eqb_compare u1 u2 Hu1) as Eu.
  pose proof (float_ltb_compare u1 u2 Hu1 Hu2) as Lu.
  pose proof (float_eqb_compare s1 s2 Hs1) as Es.
  pose proof (float_ltb_compare s1 s2 Hs1 Hs2) as Ls.
  destruct (String.eqb p1 p2), (String.compare p1 p2); simpl;
    try (by intuition congruence);
  destruct (q1 =? q2), (q1 ?= q2); simpl;
    try (by intuition congruence);
  destruct (float_eqb w1 w2), (float_compare w1 w2); simpl;
    try (by intuition congruence);
  destruct (float_eqb u1 u2), (float_compare u1 u2); simpl;
    try (by intuition congruence);
  destruct (float_eqb s1 s2), (float_compare s1 s2); simpl;
    by intuition congruence.
Qed.

(** On tuples without NaN, [==] is equality. *)
Lemma key_eqb_eq a b : key_is_number a → key_eqb a b = true ↔ a = b.
Proof.
  destruct a as [[[[p1 q1] w1] u1] s1], b as [[[[p2 q2] w2] u2] s2].
  intros (Hw1 & Hu1 & Hs1). unfold key_eqb.
  rewrite !andb_true_iff, String.eqb_eq, Z.eqb_eq.
  rewrite (float_eqb_compare w1 w2 Hw1), (float_eqb_compare u1 u2 Hu1),
    (float_eqb_compare s1 s2 Hs1).
  split.
  - intros ((((-> & ->) & ->%(c_eq _ float_compare_ok))
             & ->%(c_eq _ float_compare_ok)) & ->%(c_eq _ float_compare_ok)).
    done.
  - intros [= -> -> -> -> ->].
    by rewrite !(c_refl _ float_compare_ok).
Qed.

Lemma keys_eqb_refl l : Forall key_is_number l → keys_eqb l l = true.
Proof.
  induction 1 as [|k l Hk _ IH]; [done|]. simpl.
  rewrite IH, andb_true_r. by apply key_eqb_eq.
Qed.

Lemma key_of_number it :
  or_zero (peso_kg it) ≠ NaN → or_zero (preco_unitario it) ≠ NaN →
  or_zero (subtotal it) ≠ NaN → key_is_number (key_of it).
Proof.
  intros H1 H2 H3. unfold key_of, key_is_number.
  split; [|split]; by apply round6_number.
Qed.

Lemma key_leb_total a b : key_leb a b = true ∨ key_leb b a = true.
Proof.
  unfold key_leb. rewrite (c_antisym _ key_compare_ok a b).
  destruct (key_compare a b); simpl; auto.
Qed.

Lemma key_leb_le a b : key_leb a b = true ↔ key_compare a b ≠ Gt.
Proof. unfold key_leb. destruct (key_compare a b); naive_solver. Qed.

Lemma key_leb_trans a b c :
  key_leb a b = true → key_leb b c = true → key_leb a c = true.
Proof.
  rewrite !key_leb_le. apply compare_ok_le_trans, key_compare_ok.
Qed.

(** Without NaN, [list.sort] sorts by that order. *)
Lemma sort_by_compare (l : list item_key) :
  Forall key_is_number l → sort l = sorted_by key_leb (λ k, k) l.
Proof.
  intros Hl. unfold sort. apply sorted_by_ext. intros x y Hx Hy.
  pose proof (proj1 (Forall_forall _ _) Hl x Hx) as Nx.
  pose proof (proj1 (Forall_forall _ _) Hl y Hy) as Ny.
  pose proof (key_ltb_compare y x Ny Nx) as H.
  unfold key_leb. rewrite (c_antisym _ key_compare_ok y x).
  destruct (key_ltb y x), (key_compare y x); simpl; try done;
    intuition congruence.
Qed.

(** The sorted list of keys depends on the lines as a multiset only. *)
Lemma sorted_keys_permutation (l l' : list item_key) :
  Forall key_is_number l → l ≡ₚ l' → sort l = sort l'.
Proof.
  intros Hl Hp.
  assert (Hl' : Forall key_is_number l') by (by rewrite <- Hp).
  rewrite !sort_by_compare by done.
  apply (StronglySorted_unique_by key_compare); [apply key_compare_ok| | |].
  - eapply StronglySorted_weaken;
      [|apply (sorted_by_StronglySorted key_leb (λ k, k));
        [apply key_leb_total|apply key_leb_trans]].
    intros a b. apply key_leb_le.
  - eapply StronglySorted_weaken;
      [|apply (sorted_by_StronglySorted key_leb (λ k, k));
        [apply key_leb_total|apply key_leb_trans]].
    intros a b. apply key_leb_le.
  - by rewrite !sorted_by_Permutation.
Qed.

Lemma sort_number l : Forall key_is_number l → Forall key_is_number (sort l).
Proof. intros H. unfold sort. by rewrite sorted_by_Permutation. Qed.

Lemma signature_keys v :
  amounts_are_numbers v →
  Forall key_is_number (key_of <$> default [] (itens v)).
Proof.
  intros [_ H]. apply Forall_fmap, Forall_forall. intros it Hit.
  destruct (H it Hit) as (? & ? & ?). by apply key_of_number.
Qed.

(** [==] on the signature of a sale without NaN with itself. *)
Lemma signature_eqb_refl v :
  amounts_are_numbers v →
  signature_eqb (build_signature v) (build_signature v) = true.
Proof.
  intros Hv. unfold signature_eqb, build_signature. simpl.
  rewrite String.eqb_refl, andb_true_r.
  rewrite keys_eqb_refl by (by apply sort_number, signature_keys).
  rewrite andb_true_r. apply float_eqb_compare.
  - apply round6_number, Hv.
  - apply (c_refl _ float_compare_ok).
Qed.

(** C8, counterexample.  The sale [sale_a] with a line whose subtotal is
    NaN: its two lines written in one order and in the other give
    signatures that [==] tells apart, and the signature of either is not
    even equal to itself computed a second time. *)
Lemma nan_signature_is_never_equal :
  [item_nan; item_b] ≡ₚ [item_b; item_nan] ∧
  signature_eqb (build_signature (with_itens [item_nan; item_b] sale_a))
                (build_signature (with_itens [item_b; item_nan] sale_a))
  = false ∧
  signature_eqb (build_signature (with_itens [item_nan; item_b] sale_a))
                (build_signature (with_itens [item_nan; item_b] sale_a))
  = false.
Proof. split; [apply perm_swap|]. split; vm_compute; reflexivity. Qed.

(** C8, as the code has it.  The signature of a sale whose amounts are
    numbers, none of them NaN, does not depend on the order of its lines:
    two such sales that differ only by a permutation of their list of
    lines have the same signature, and [==] finds the two equal. *)
Theorem build_signature_permutation (v : Venda) (l l' : list Item) :
  l ≡ₚ l' →
  amounts_are_numbers (with_itens l v) →
  build_signature (with_itens l v) = build_signature (with_itens l' v) ∧
  signature_eqb (build_signature (with_itens l v))
                (build_signature (with_itens l' v)) = true.
Proof.
  intros Hp Hv.
  assert (E : build_signature (with_itens l v)
              = build_signature (with_itens l' v)).
  { unfold build_signature, with_itens. simpl. f_equal.
    apply sorted_keys_permutation; [|by apply fmap_Permutation].
    exact (signature_keys _ Hv). }
  split; [exact E|]. rewrite <- E. by apply signature_eqb_refl.
Qed.

(** *** The sale kept *)

Lemma time_compare_ok : compare_ok time_compare.
Proof.
  apply (lex_ok fst snd); [apply Z_compare_ok|apply datetime_compare_ok|].
  intros [] [] ??; simpl in *; by subst.
Qed.

Lemma rank_leb_le a b : rank_leb a b = true ↔ rank_compare a b ≠ Gt.
Proof. unfold rank_leb. destruct (rank_compare a b); naive_solver. Qed.

Lemma rank_compare_eq a b :
  rank_compare a b
  = lex (a.1 ?= b.1) (datetime_compare (instant a.2) (instant b.2)).
Proof. done. Qed.

Lemma rank_compare_refl a : rank_compare a a = Eq.
Proof. apply (c_refl _ time_compare_ok). Qed.

Lemma rank_le_trans a b c :
  rank_compare a b ≠ Gt → rank_compare b c ≠ Gt → rank_compare a c ≠ Gt.
Proof.
  apply (compare_ok_le_trans time_compare (rank_time a) (rank_time b)
           (rank_time c) time_compare_ok).
Qed.

Lemma rank_le_total a b : rank_compare a b ≠ Gt ∨ rank_compare b a ≠ Gt.
Proof.
  apply (compare_ok_le_total time_compare (rank_time a) (rank_time b)
           time_compare_ok).
Qed.

(** The head of a group sorted by rank is a member of the group whose
    rank is below or equal to every other rank. *)
Lemma sorted_by_rank_head now (group : list Venda) :
  group ≠ [] →
  ∃ keep rest,
    sorted_by rank_leb (rank now) group = keep :: rest ∧
    keep ∈ group ∧
    ∀ v, v ∈ group → rank_compare (rank now keep) (rank now v) ≠ Gt.
Proof.
  induction group as [|a l IH]; [done|]. intros _.
  destruct l as [|b l'].
  - exists a, []. split; [done|]. split; [set_solver|].
    intros v ->%list_elem_of_singleton.
    by rewrite rank_compare_refl.
  - destruct IH as (x & rest & Hs & Hx & Hmin); [done|].
    change (sorted_by rank_leb (rank now) (a :: b :: l'))
      with (insert_by rank_leb (rank now) a
              (sorted_by rank_leb (rank now) (b :: l'))).
    rewrite Hs. simpl.
    destruct (rank_leb (rank now a) (rank now x)) eqn:E.
    + exists a, (x :: rest). split; [done|]. split; [set_solver|].
      apply rank_leb_le in E.
      intros v [->|Hv]%elem_of_cons.
      * by rewrite rank_compare_refl.
      * eapply rank_le_trans; [exact E|]. by apply Hmin.
    + exists x, (insert_by rank_leb (rank now) a rest).
      split; [done|]. split; [set_solver|].
      intros v [->|Hv]%elem_of_cons; [|by apply Hmin].
      destruct (rank_le_total (rank now a) (rank now x)) as [H|H]; [|done].
      apply rank_leb_le in H. congruence.
Qed.

(** A comparison of two ranks fails when they are of one class and one
    time is aware, the other naive; else it is the order above. *)
Lemma rank_lt_cases a b :
  rank_lt a b
  = if (a.1 =? b.1) && negb (Bool.eqb (aware a.2) (aware b.2))
    then Raise TypeError
    else Ret (negb (rank_leb b a)).
Proof.
  unfold rank_lt, timestamp_lt, rank_leb, rank_compare, time_compare,
    rank_time. simpl.
  rewrite (c_antisym _ Z_compare_ok a.1 b.1).
  rewrite (c_antisym _ datetime_compare_ok (instant a.2) (instant b.2)).
  destruct (Z.eqb_spec a.1 b.1) as [E|E]; simpl.
  - rewrite E, Z.compare_refl. simpl.
    destruct (Bool.eqb (aware a.2) (aware b.2)); simpl; [|done].
    by destruct (datetime_compare (instant a.2) (instant b.2)).
  - destruct (Z.ltb_spec a.1 b.1) as [L|L].
    + apply Z.compare_lt_iff in L. by rewrite L.
    + assert (L' : b.1 < a.1) by lia.
      apply Z.compare_gt_iff in L'. by rewrite L'.
Qed.

(** When the times of a list compare, sorting it does not fail. *)
Lemma insert_lt_comparable now (x : Venda) (l : list Venda) :
  (∀ y, y ∈ l → (rank now y).1 = (rank now x).1 →
        aware (rank now y).2 = aware (rank now x).2) →
  insert_lt rank_lt (rank now) x l = Ret (insert_by rank_leb (rank now) x l).
Proof.
  induction l as [|y l IH]; intros H; [done|].
  cbn [insert_lt insert_by]. rewrite rank_lt_cases.
  assert (Hy : (((rank now y).1 =? (rank now x).1)
                && negb (Bool.eqb (aware (rank now y).2) (aware (rank now x).2)))
               = false).
  { destruct (Z.eqb_spec (rank now y).1 (rank now x).1) as [E|E]; [|done].
    cbn [andb]. rewrite (H y) by (done || set_solver).
    by destruct (aware (rank now x).2). }
  rewrite Hy. cbn [mbind result_bind].
  destruct (rank_leb (rank now x) (rank now y)); simpl; [done|].
  rewrite IH by (intros; apply H; set_solver). done.
Qed.

Lemma sorted_comparable now (group : list Venda) :
  comparable now group →
  sorted rank_lt (rank now) group = Ret (sorted_by rank_leb (rank now) group).
Proof.
  induction group as [|x l IH]; intros H; simpl; [done|].
  rewrite IH by (intros a b ??; apply H; set_solver).
  cbn [mbind result_bind]. apply insert_lt_comparable.
  intros y Hy%sorted_by_elem_of E. apply H; set_solver.
Qed.

(** The keep rule where the times compare.  In a group of sales whose
    operator, when there is one, is a non-empty text (the text of a UUID)
    and whose times compare, the sale kept has an operator whenever some
    sale of the group has one, whatever the creation times; and among the
    sales that have an operator exactly when the kept one has, none was
    created before it (a missing creation time counts as the time of the
    run). *)
Lemma keep_rule (now : datetime) (group : list Venda) :
  group ≠ [] →
  (∀ v, v ∈ group → usuario_id v ≠ Some ""%string) →
  comparable now group →
  ∃ keep,
    choose_to_keep now group = Ret keep ∧
    keep ∈ group ∧
    (∀ v, v ∈ group → usuario_id v ≠ None → usuario_id keep ≠ None) ∧
    (∀ v, v ∈ group →
       (usuario_id v = None ↔ usuario_id keep = None) →
       datetime_le (instant (ranked_at now keep))
                   (instant (ranked_at now v))).
Proof.
  intros Hne Huuid Hcmp.
  destruct (sorted_by_rank_head now group Hne) as (keep & rest & Hs & Hk & Hmin).
  exists keep. unfold choose_to_keep.
  rewrite (sorted_comparable now group Hcmp), Hs.
  split; [done|]. split; [done|].
  assert (Hfst : ∀ v, v ∈ group →
            (rank now v).1 = if usuario_id v is Some _ then 0 else 1).
  { intros v Hv. unfold rank. simpl. specialize (Huuid v Hv).
    destruct (usuario_id v) as [u|]; [|done].
    destruct (String.eqb_spec u ""); [by subst|done]. }
  split.
  - intros v Hv Hop. specialize (Hmin v Hv).
    rewrite rank_compare_eq, (Hfst v Hv), (Hfst keep Hk) in Hmin.
    destruct (usuario_id v); [|done]. by destruct (usuario_id keep).
  - intros v Hv Hsame. specialize (Hmin v Hv).
    rewrite rank_compare_eq, (Hfst v Hv), (Hfst keep Hk) in Hmin.
    unfold datetime_le, ranked_at.
    destruct (usuario_id v), (usuario_id keep); simpl in *;
      try done; naive_solver.
Qed.

(** C9.  The keep rule fails on a group that holds, without operator, a
    sale whose creation time is a naive [datetime] and a sale whose
    creation time is missing: the time that stands in for the missing one
    is aware of its zone, the two do not compare, and [choose_to_keep]
    ends in a [TypeError] where the older sale was to be kept.  With the
    creation time there, the older sale is kept. *)
Theorem choose_to_keep_missing_time (now : datetime) :
  usuario_id sale_a = None ∧ usuario_id sale_c = None ∧
  created_at sale_c = None ∧
  build_signature sale_a = build_signature sale_c ∧
  choose_to_keep now [sale_a; sale_c] = Raise TypeError ∧
  choose_to_keep now [sale_c; sale_a] = Raise TypeError ∧
  choose_to_keep now
    [sale_a; with_itens [item_a; item_b]
               (mkVenda "c" None (total sale_c) None (forma_pagamento sale_c)
                  (Some (mktimestamp (mkdatetime (mkdate 2025 3 11) 0) false))
                  None)]
  = Ret sale_a.
Proof. repeat split. Qed.

Lemma build_signature_permutation_witness :
  [item_a; item_b] ≡ₚ [item_b; item_a] ∧
  amounts_are_numbers (with_itens [item_a; item_b] sale_a) ∧
  signature_eqb (build_signature (with_itens [item_a; item_b] sale_a))
                (build_signature (with_itens [item_b; item_a] sale_a)) = true.
Proof.
  assert (Hn : amounts_are_numbers (with_itens [item_a; item_b] sale_a)).
  { split; [done|]. intros it Hit. simpl in Hit.
    apply elem_of_cons in Hit as [->|Hit]; [done|].
    apply list_elem_of_singleton in Hit as ->. done. }
  split; [apply perm_swap|]. split; [exact Hn|].
  exact (proj2 (build_signature_permutation sale_a [item_a; item_b]
                  [item_b; item_a] (perm_swap _ _ _) Hn)).
Defined.

(** The signature in full for the sample sale: the lines come out sorted
    by product. *)
Example build_signature_sale_a :
  (build_signature sale_a).2 = [key_of item_b; key_of item_a].
Proof. vm_compute. reflexivity. Qed.

(** The younger sale with an operator is kept, not the older one
    without. *)
Example choose_to_keep_sample :
  id <$> choose_to_keep (mkdatetime (mkdate 2025 3 12) 0) [sale_a; sale_b]
  = Ret "b"%string.
Proof. reflexivity. Qed.

End CleanupTheory.

(** ** The metrics router *)

Module MetricasTheory.
Import Metricas.

(** *** Running the pieces *)

Lemma moved_id w : moved (_metrics_cache w) [] (tick w) w = w.
Proof. destruct w. unfold moved. simpl. by rewrite app_nil_r. Qed.

Lemma fresh_value_eq k w e :
  _metrics_cache w !! k = Some e →
  fresh_value k w =
    match value e with
    | None => (Ret None, w)
    | Some v =>
        (Ret (if bool_decide (utc_ts (clock w (tick w)) - ts e
                              < _cache_ttl_seconds)%Qc
              then Some v else None),
         moved (_metrics_cache w) [] (S (tick w)) w)
    end.
Proof.
  intros He. destruct w as [c v f ex clk t]. simpl in *.
  unfold fresh_value, mbind, M_bind, cache_item. simpl. rewrite He.
  destruct (value e) as [x|]; [|done].
  unfold _now_ts, read_clock, advance, moved. simpl. rewrite app_nil_r.
  by case_bool_decide.
Qed.

Lemma attempts_eq k label stmt w e :
  _metrics_cache w !! k = Some e →
  attempts k label stmt [0; 1] w =
    let n := length (executed w) in
    let t := tick w in
    let T := fetched w stmt in
    if db_fault w n then
      if db_fault w (S n) then
        (Ret (PDict {[ label.1 := PStr label.2;
                       "total" := PFloat (float_or_zero (value e));
                       "warning" := PStr "cached" ]}),
         moved (_metrics_cache w) [stmt; stmt] (S t) w)
      else
        (Ret (PDict {[ label.1 := PStr label.2; "total" := PFloat T ]}),
         moved (<[k := mkentry (Some T) (utc_ts (clock w (S t)))]>
                  (_metrics_cache w)) [stmt; stmt] (S (S t)) w)
    else
      (Ret (PDict {[ label.1 := PStr label.2; "total" := PFloat T ]}),
       moved (<[k := mkentry (Some T) (utc_ts (clock w t))]>
                (_metrics_cache w)) [stmt] (S t) w).
Proof.
  intros He. destruct w as [c v f ex clk t]. simpl in *.
  unfold attempts, try_catch, mbind, M_bind, execute, fetched. simpl.
  destruct (f (length ex)) eqn:F1; simpl.
  - rewrite length_app. simpl. rewrite Nat.add_1_r.
    destruct (f (S (length ex))) eqn:F2; simpl.
    + unfold fmap, M_fmap, with_cache_lock, cache_item. simpl. rewrite He.
      unfold mret, M_ret, moved, log_statement, advance. simpl.
      by rewrite <- app_assoc.
    + unfold mret, M_ret, moved, log_statement, advance, set_cache. simpl.
      by rewrite <- app_assoc.
  - done.
Qed.

Lemma serve_eq k label stmt w e :
  _metrics_cache w !! k = Some e →
  serve k label stmt w =
    match value e with
    | None => attempts k label stmt [0; 1] w
    | Some v =>
        let w1 := moved (_metrics_cache w) [] (S (tick w)) w in
        if bool_decide (utc_ts (clock w (tick w)) - ts e
                        < _cache_ttl_seconds)%Qc
        then (Ret (PDict {[ label.1 := PStr label.2; "total" := PFloat v ]}),
              w1)
        else attempts k label stmt [0; 1] w1
    end.
Proof.
  intros He. unfold serve, mbind, M_bind, with_cache_lock.
  rewrite (fresh_value_eq k w e He).
  destruct (value e) as [x|]; [|done].
  by case_bool_decide.
Qed.

Lemma moved_moved c1 l1 t1 c2 l2 t2 w :
  moved c2 l2 t2 (moved c1 l1 t1 w) = moved c2 (l1 ++ l2) t2 w.
Proof. unfold moved. simpl. by rewrite app_assoc. Qed.

Lemma sent_moved c l t w : sent w (moved c l t w) = l.
Proof. unfold sent, moved. simpl. by rewrite drop_app_length. Qed.

Lemma float_or_zero_default x : float_or_zero x = default 0%Qc x.
Proof. destruct x as [v|]; simpl; [|done]. by case_bool_decide. Qed.

Ltac solve_item :=
  unfold item;
  repeat (rewrite lookup_insert_ne by done);
  first [ apply lookup_insert_eq
        | apply lookup_singleton_eq
        | by apply lookup_singleton_ne ].

(** The three ways [serve] ends: the cached value, a fetched total (at the
    first or the second attempt), or the cached-or-zero fallback. *)
Lemma serve_cases k label stmt w e :
  _metrics_cache w !! k = Some e →
  label.1 ≠ "total"%string → label.1 ≠ "warning"%string →
  let n := length (executed w) in
  ∃ resp c' l t',
    serve k label stmt w = (Ret resp, moved c' l t' w) ∧
    item resp label.1 = Some (PStr label.2) ∧
    ( (∃ v, value e = Some v ∧ hit_at e w ∧
            item resp "total" = Some (PFloat v) ∧
            item resp "warning" = None ∧
            c' = _metrics_cache w ∧ l = [])
    ∨ (¬ hit_at e w ∧
       (db_fault w n = false ∧ l = [stmt]
        ∨ db_fault w n = true ∧ db_fault w (S n) = false ∧ l = [stmt; stmt]) ∧
       item resp "total" = Some (PFloat (fetched w stmt)) ∧
       item resp "warning" = None ∧
       ∃ now, c' = <[k := mkentry (Some (fetched w stmt)) now]>
                     (_metrics_cache w))
    ∨ (¬ hit_at e w ∧
       db_fault w n = true ∧ db_fault w (S n) = true ∧ l = [stmt; stmt] ∧
       item resp "total" = Some (PFloat (float_or_zero (value e))) ∧
       item resp "warning" = Some (PStr "cached") ∧
       c' = _metrics_cache w) ).
Proof.
  intros He Hl1 Hl2 n. rewrite (serve_eq k label stmt w e He).
  assert (Hatt : ∀ t, ¬ hit_at e w →
    ∃ resp c' l t',
      attempts k label stmt [0; 1] (moved (_metrics_cache w) [] t w)
      = (Ret resp, moved c' l t' w) ∧
      item resp label.1 = Some (PStr label.2) ∧
      ( (¬ hit_at e w ∧
         (db_fault w n = false ∧ l = [stmt]
          ∨ db_fault w n = true ∧ db_fault w (S n) = false
            ∧ l = [stmt; stmt]) ∧
         item resp "total" = Some (PFloat (fetched w stmt)) ∧
         item resp "warning" = None ∧
         ∃ now, c' = <[k := mkentry (Some (fetched w stmt)) now]>
                       (_metrics_cache w))
      ∨ (¬ hit_at e w ∧
         db_fault w n = true ∧ db_fault w (S n) = true ∧ l = [stmt; stmt] ∧
         item resp "total" = Some (PFloat (float_or_zero (value e))) ∧
         item resp "warning" = Some (PStr "cached") ∧
         c' = _metrics_cache w) )).
  { intros t Hmiss.
    rewrite (attempts_eq k label stmt _ e) by done.
    cbn zeta. unfold fetched. simpl. rewrite app_nil_r. fold n.
    destruct (db_fault w n) eqn:F1; [destruct (db_fault w (S n)) eqn:F2|].
    - eexists _, _, _, _. rewrite moved_moved. simpl.
      split; [done|]. split; [solve_item|]. right.
      repeat split; try done.
      + solve_item.
      + solve_item.
    - eexists _, _, _, _. rewrite moved_moved. simpl.
      split; [done|]. split; [solve_item|]. left.
      repeat split; try done.
      + right. done.
      + solve_item.
      + solve_item.
      + by eexists.
    - eexists _, _, _, _. rewrite moved_moved. simpl.
      split; [done|]. split; [solve_item|]. left.
      repeat split; try done.
      + left. done.
      + solve_item.
      + solve_item.
      + by eexists. }
  destruct (value e) as [v|] eqn:Hv.
  - cbn zeta. case_bool_decide as Hage.
    + eexists _, _, _, _. split; [done|].
      split; [solve_item|]. left. exists v.
      repeat split; try done.
      * by exists v.
      * solve_item.
      * solve_item.
    + assert (Hmiss : ¬ hit_at e w).
      { intros (v' & Hv' & Hlt). done. }
      destruct (Hatt (S (tick w)) Hmiss) as (resp & c' & l & t' & Hrun & Hlab & Hc).
      exists resp, c', l, t'. split; [done|]. split; [done|]. by right.
  - assert (Hmiss : ¬ hit_at e w).
    { intros (v' & Hv' & Hlt). congruence. }
    destruct (Hatt (tick w) Hmiss) as (resp & c' & l & t' & Hrun & Hlab & Hc).
    exists resp, c', l, t'. rewrite (moved_id w) in Hrun.
    split; [done|]. split; [done|]. by right.
Qed.

(** *** The two endpoints, reduced to [serve] *)

Lemma vendas_dia_serve data w :
  ∃ alvo k,
    (k ≤ 1)%nat ∧
    vendas_dia data w
    = serve "vendas_dia" ("data", isoformat alvo)%string (daily_stmt alvo)
        (moved (_metrics_cache w) [] (tick w + k) w) ∧
    alvo = target_day data w ∧
    (bad_date data → alvo = today (clock w (tick w))) ∧
    (∀ s d, nonempty data = Some s → fromisoformat s = Ret d → alvo = d).
Proof.
  unfold bad_date, target_day.
  destruct (nonempty data) as [s|] eqn:Hd;
    [destruct (fromisoformat s) as [d|err] eqn:Hp|].
  - exists d, 0%nat. split; [lia|].
    rewrite Nat.add_0_r, moved_id. split; [|split; [done|split]].
    + unfold vendas_dia. rewrite Hd.
      unfold mbind at 1. unfold M_bind, try_catch, lift. by rewrite Hp.
    + intros H. by destruct H.
    + intros s0 d0 [= <-] Hp'. congruence.
  - exists (today (clock w (tick w))), 1%nat. split; [lia|].
    rewrite Nat.add_1_r. split; [|split; [done|split; [done|]]].
    + unfold vendas_dia. rewrite Hd.
      unfold mbind at 1. unfold M_bind, try_catch, lift. rewrite Hp.
      unfold date_today, read_clock, advance, moved. simpl.
      by rewrite app_nil_r.
    + intros s0 d0 [= <-] Hp'. congruence.
  - exists (today (clock w (tick w))), 1%nat. split; [lia|].
    rewrite Nat.add_1_r. split; [|split; [done|split; [done|done]]].
    unfold vendas_dia. rewrite Hd.
    unfold mbind at 1. unfold M_bind, try_catch.
    unfold date_today, read_clock, advance, moved. simpl.
    by rewrite app_nil_r.
Qed.

Lemma date_new_Ret y m d x :
  date_new y m d = Ret x → x = mkdate y m d ∧ date_valid y m d = true.
Proof. unfold date_new. destruct (date_valid y m d); naive_solver. Qed.

Lemma parse_ano_mes_Ret s d :
  parse_ano_mes s = Ret d →
  date_valid (year d) (month d) 1 = true ∧ day d = 1.
Proof.
  unfold parse_ano_mes.
  destruct (split s "-") as [|a [|b [|??]]]; try done.
  unfold mbind, result_bind.
  destruct (int a) as [y|]; [|done]. destruct (int b) as [m|]; [|done].
  intros [-> ?]%date_new_Ret. done.
Qed.

(** The month after a month of the calendar is in the calendar, December
    of the last year apart. *)
Lemma next_month_new (d : date) :
  date_valid (year d) (month d) 1 = true →
  date_new (year d + (if month d =? 12 then 1 else 0))
           (if month d =? 12 then 1 else month d + 1) 1
  = if bool_decide (year d = MAXYEAR ∧ month d = 12) then Raise ValueError
    else Ret (first_of_next_month d).
Proof.
  unfold date_new, first_of_next_month. intros H.
  assert (Hr : 1 ≤ year d ≤ 9999 ∧ 1 ≤ month d ≤ 12).
  { unfold date_valid, MINYEAR, MAXYEAR in H.
    rewrite !andb_true_iff, !Z.leb_le in H. lia. }
  case_bool_decide as Hd.
  - destruct Hd as [-> ->]. done.
  - assert (Hv : date_valid (year d + (if month d =? 12 then 1 else 0))
                   (if month d =? 12 then 1 else month d + 1) 1 = true).
    { unfold date_valid, MINYEAR, MAXYEAR in *.
      rewrite !andb_true_iff, !Z.leb_le.
      assert (year d = 9999 → month d ≠ 12) by naive_solver.
      destruct (Z.eqb_spec (month d) 12) as [E|E];
        repeat split; try lia;
        unfold days_in_month;
        repeat match goal with
               | |- context [if ?b then _ else _] => destruct b
               end; lia. }
    rewrite Hv. destruct (month d =? 12); simpl; [done|by rewrite Z.add_0_r].
Qed.

Lemma monthly_fallback w e :
  _metrics_cache w !! "vendas_mes" = Some e →
  ∃ resp,
    (cached ← with_cache_lock (value <$> cache_item "vendas_mes");
     dnow ← utcnow;
     mret (PDict {[ "ano_mes" := PStr (strftime_Y_m dnow);
                    "total" := PFloat (float_or_zero cached);
                    "warning" := PStr "cached" ]})) w
    = (Ret resp, moved (_metrics_cache w) [] (S (tick w)) w) ∧
    item resp "total" = Some (PFloat (float_or_zero (value e))) ∧
    item resp "warning" = Some (PStr "cached").
Proof.
  intros He. eexists. split; [|split].
  - unfold mbind, M_bind, with_cache_lock, fmap, M_fmap, cache_item.
    rewrite He. unfold utcnow, read_clock, mret, M_ret, advance, moved.
    simpl. by rewrite app_nil_r.
  - solve_item.
  - solve_item.
Qed.

Lemma try_catch_Ret {A} (m h : M World A) w a w' :
  m w = (Ret a, w') → try_catch m h w = (Ret a, w').
Proof. unfold try_catch. by intros ->. Qed.

Lemma try_catch_Raise {A} (m h : M World A) w err w' :
  m w = (Raise err, w') → try_catch m h w = h w'.
Proof. unfold try_catch. by intros ->. Qed.

Lemma bind_Ret {A B} (m : M World A) (f : A → M World B) w a w' :
  m w = (Ret a, w') → (m ≫= f) w = f a w'.
Proof. unfold mbind, M_bind. by intros ->. Qed.

Lemma bind_Raise {A B} (m : M World A) (f : A → M World B) w err w' :
  m w = (Raise err, w') → (m ≫= f) w = (Raise err, w').
Proof. unfold mbind, M_bind. by intros ->. Qed.

(** The monthly endpoint once the first day of the month is settled, or
    could not be. *)
Lemma monthly_tail (P : M World date) (h : M World pyval) w w1 r e :
  _metrics_cache w1 !! "vendas_mes" = Some e →
  P w = (r, w1) →
  (∀ first, r = Ret first → date_valid (year first) (month first) 1 = true) →
  try_catch
    (primeiro_dia ← P;
     proximo_mes ←
       lift (date_new
               (year primeiro_dia
                + (if month primeiro_dia =? 12 then 1 else 0))
               (if month primeiro_dia =? 12 then 1
                else month primeiro_dia + 1) 1);
     serve "vendas_mes" ("ano_mes", strftime_Y_m primeiro_dia)%string
           (monthly_stmt primeiro_dia proximo_mes)) h w
  = match r with
    | Ret first =>
        if bool_decide (year first = MAXYEAR ∧ month first = 12) then h w1
        else serve "vendas_mes" ("ano_mes", strftime_Y_m first)%string
               (monthly_stmt first (first_of_next_month first)) w1
    | Raise _ => h w1
    end.
Proof.
  intros He HP Hvalid. destruct r as [first|err].
  - pose proof (next_month_new first (Hvalid _ eq_refl)) as Hnext.
    case_bool_decide as Hov.
    + eapply try_catch_Raise. erewrite bind_Ret by exact HP.
      eapply bind_Raise. unfold lift. by rewrite Hnext.
    + destruct (serve_cases "vendas_mes" ("ano_mes", strftime_Y_m first)%string
                  (monthly_stmt first (first_of_next_month first)) w1 e He)
        as (resp & c' & l & t' & Hrun & _); [done|done|].
      rewrite Hrun. eapply try_catch_Ret. erewrite bind_Ret by exact HP.
      erewrite bind_Ret; [exact Hrun|]. unfold lift. by rewrite Hnext.
  - eapply try_catch_Raise. eapply bind_Raise. exact HP.
Qed.

Lemma vendas_mes_cases ano_mes w e :
  _metrics_cache w !! "vendas_mes" = Some e →
  ∃ k, (k ≤ 1)%nat ∧
    ( (∃ first,
         vendas_mes ano_mes w
         = serve "vendas_mes" ("ano_mes", strftime_Y_m first)%string
             (monthly_stmt first (first_of_next_month first))
             (moved (_metrics_cache w) [] (tick w + k) w) ∧
         date_valid (year first) (month first) 1 = true ∧
         ¬ (year first = MAXYEAR ∧ month first = 12) ∧
         (bad_month ano_mes → first = current_month w) ∧
         (∀ s d, nonempty ano_mes = Some s → parse_ano_mes s = Ret d →
                 first = d))
    ∨ (∃ resp,
         vendas_mes ano_mes w
         = (Ret resp, moved (_metrics_cache w) [] (S (tick w + k)) w) ∧
         item resp "total" = Some (PFloat (float_or_zero (value e))) ∧
         item resp "warning" = Some (PStr "cached") ∧
         (bad_month ano_mes → ¬ clock_in_calendar w) ∧
         (∀ s d, nonempty ano_mes = Some s → parse_ano_mes s = Ret d →
                 year d = MAXYEAR ∧ month d = 12)) ).
Proof.
  intros He.
  set (h := (cached ← with_cache_lock (value <$> cache_item "vendas_mes");
             dnow ← utcnow;
             mret (PDict {[ "ano_mes" := PStr (strftime_Y_m dnow);
                            "total" := PFloat (float_or_zero cached);
                            "warning" := PStr "cached" ]})) : M World pyval).
  set (P := match nonempty ano_mes with
            | Some s => try_catch (lift (parse_ano_mes s)) first_of_current_month
            | None => first_of_current_month
            end).
  (* the first day of the month and the clock readings it takes *)
  assert (HP : ∃ k r,
    (k ≤ 1)%nat ∧
    P w = (r, moved (_metrics_cache w) [] (tick w + k) w) ∧
    (∀ first, r = Ret first →
       date_valid (year first) (month first) 1 = true ∧
       (bad_month ano_mes → first = current_month w) ∧
       (∀ s d, nonempty ano_mes = Some s → parse_ano_mes s = Ret d →
               first = d)) ∧
    (∀ err, r = Raise err →
       (bad_month ano_mes ∧
        date_valid (year (current_month w)) (month (current_month w)) 1
        = false))).
  { assert (Hnow : first_of_current_month w
        = (date_new (year (current_month w)) (month (current_month w)) 1,
           moved (_metrics_cache w) [] (tick w + 1) w)).
    { unfold first_of_current_month, utcnow, read_clock, mbind, M_bind, lift,
        advance, moved, current_month. simpl.
      by rewrite app_nil_r, Nat.add_1_r. }
    subst P. unfold bad_month in *.
    destruct (nonempty ano_mes) as [s|] eqn:Hs;
      [destruct (parse_ano_mes s) as [d|err] eqn:Hp|].
    - exists 0%nat, (Ret d). rewrite Nat.add_0_r, moved_id.
      split; [lia|]. split; [done|].
      split; [|done]. intros first [= <-].
      split; [exact (proj1 (parse_ano_mes_Ret s d Hp))|].
      split; [intros Hb; by destruct Hb|]. intros ?? [= <-]. congruence.
    - exists 1%nat, (date_new (year (current_month w)) (month (current_month w)) 1).
      split; [lia|].
      split; [unfold try_catch, lift; by rewrite Hnow|].
      split.
      + intros first [-> Hv]%date_new_Ret. split; [done|].
        split; [done|]. intros ?? [= <-]. congruence.
      + intros err' Herr. split; [by intros []|].
        unfold date_new in Herr. by destruct (date_valid _ _ _).
    - exists 1%nat, (date_new (year (current_month w)) (month (current_month w)) 1).
      split; [lia|]. split; [done|]. split.
      + intros first [-> Hv]%date_new_Ret. done.
      + intros err' Herr. split; [done|].
        unfold date_new in Herr. by destruct (date_valid _ _ _). }
  destruct HP as (k & r & Hk & HP & Hok & Herr).
  exists k. split; [done|].
  assert (Hrun : vendas_mes ano_mes w
    = match r with
      | Ret first =>
          if bool_decide (year first = MAXYEAR ∧ month first = 12)
          then h (moved (_metrics_cache w) [] (tick w + k) w)
          else serve "vendas_mes" ("ano_mes", strftime_Y_m first)%string
                 (monthly_stmt first (first_of_next_month first))
                 (moved (_metrics_cache w) [] (tick w + k) w)
      | Raise _ => h (moved (_metrics_cache w) [] (tick w + k) w)
      end).
  { exact (monthly_tail P h w (moved (_metrics_cache w) [] (tick w + k) w)
             r e He HP (λ first Hr, proj1 (Hok first Hr))). }
  destruct (monthly_fallback (moved (_metrics_cache w) [] (tick w + k) w) e He)
    as (resp & Hh & Ht & Hw).
  fold h in Hh. rewrite moved_moved in Hh. simpl in Hh.
  destruct r as [first|err].
  - destruct (Hok first eq_refl) as (Hv & Hb & Hs).
    case_bool_decide as Hov.
    + right. exists resp. rewrite Hrun. split; [done|]. split; [done|].
      split; [done|]. split.
      * intros Hbad Hcal. destruct Hcal as [_ Hcal]. apply Hcal.
        rewrite (Hb Hbad) in Hov. done.
      * intros s d Hs1 Hs2. by rewrite <- (Hs s d Hs1 Hs2).
    + left. exists first. done.
  - right. exists resp. rewrite Hrun. split; [done|]. split; [done|].
    split; [done|]. destruct (Herr err eq_refl) as [Hbad Hinv]. split.
    + intros _ [Hcal _]. unfold current_month in Hinv. simpl in Hinv.
      congruence.
    + intros s d Hs1 Hs2. exfalso. unfold bad_month in Hbad.
      rewrite Hs1, Hs2 in Hbad. by apply Hbad.
Qed.

Lemma serve_outcome k label stmt w t e :
  _metrics_cache w !! k = Some e →
  label.1 ≠ "total"%string → label.1 ≠ "warning"%string →
  let w1 := moved (_metrics_cache w) [] t w in
  ∃ resp c' l t',
    serve k label stmt w1 = (Ret resp, moved c' l t' w) ∧
    item resp label.1 = Some (PStr label.2) ∧
    outcome k stmt e w1 w resp c' l.
Proof.
  intros He Hl1 Hl2 w1.
  destruct (serve_cases k label stmt w1 e He Hl1 Hl2)
    as (resp & c' & l & t' & Hrun & Hlab & Hc).
  exists resp, c', l, t'. subst w1. rewrite moved_moved in Hrun.
  split; [done|]. split; [done|].
  unfold outcome. simpl in Hc. rewrite app_nil_r in Hc. exact Hc.
Qed.

Lemma vendas_dia_cases data w e :
  _metrics_cache w !! "vendas_dia" = Some e →
  ∃ alvo k resp c' l t',
    (k ≤ 1)%nat ∧
    vendas_dia data w = (Ret resp, moved c' l t' w) ∧
    item resp "data" = Some (PStr (isoformat alvo)) ∧
    (bad_date data → alvo = today (clock w (tick w))) ∧
    (∀ s d, nonempty data = Some s → fromisoformat s = Ret d → alvo = d) ∧
    outcome "vendas_dia" (daily_stmt alvo) e
      (moved (_metrics_cache w) [] (tick w + k) w) w resp c' l ∧
    alvo = target_day data w.
Proof.
  intros He.
  destruct (vendas_dia_serve data w)
    as (alvo & k & Hk & Hdia & Htarget & Hbad & Hgood).
  destruct (serve_outcome "vendas_dia" ("data", isoformat alvo)%string
              (daily_stmt alvo) w (tick w + k) e He)
    as (resp & c' & l & t' & Hrun & Hlab & Hout); [done|done|].
  exists alvo, k, resp, c', l, t'. rewrite Hdia. done.
Qed.

Lemma vendas_mes_outcome ano_mes w e :
  _metrics_cache w !! "vendas_mes" = Some e →
  ∃ k, (k ≤ 1)%nat ∧
    ( (∃ first resp c' l t',
         vendas_mes ano_mes w = (Ret resp, moved c' l t' w) ∧
         item resp "ano_mes" = Some (PStr (strftime_Y_m first)) ∧
         date_valid (year first) (month first) 1 = true ∧
         ¬ (year first = MAXYEAR ∧ month first = 12) ∧
         (bad_month ano_mes → first = current_month w) ∧
         (∀ s d, nonempty ano_mes = Some s → parse_ano_mes s = Ret d →
                 first = d) ∧
         outcome "vendas_mes"
           (monthly_stmt first (first_of_next_month first)) e
           (moved (_metrics_cache w) [] (tick w + k) w) w resp c' l)
    ∨ (∃ resp t',
         vendas_mes ano_mes w = (Ret resp, moved (_metrics_cache w) [] t' w) ∧
         item resp "total" = Some (PFloat (float_or_zero (value e))) ∧
         item resp "warning" = Some (PStr "cached") ∧
         (bad_month ano_mes → ¬ clock_in_calendar w) ∧
         (∀ s d, nonempty ano_mes = Some s → parse_ano_mes s = Ret d →
                 year d = MAXYEAR ∧ month d = 12)) ).
Proof.
  intros He.
  destruct (vendas_mes_cases ano_mes w e He) as (k & Hk & [Hn|Hf]).
  - destruct Hn as (first & Hrun & Hv & Hov & Hbad & Hgood).
    destruct (serve_outcome "vendas_mes" ("ano_mes", strftime_Y_m first)%string
                (monthly_stmt first (first_of_next_month first))
                w (tick w + k) e He)
      as (resp & c' & l & t' & Hrun' & Hlab & Hout); [done|done|].
    exists k. split; [done|]. left.
    exists first, resp, c', l, t'. rewrite Hrun. done.
  - destruct Hf as (resp & Hrun & Ht & Hw & Hbad & Hgood).
    exists k. split; [done|]. right. exists resp, (S (tick w + k)). done.
Qed.

(** *** What the database answers *)

Lemma filter_bool_Prop {A} (f : A → bool) (P : A → Prop)
  `{∀ x, Decision (P x)} (l : list A) :
  (∀ x, f x = true ↔ P x) → List.filter f l = filter P l.
Proof.
  intros Hf. induction l as [|x l IH]; [done|].
  simpl. rewrite filter_cons, IH.
  destruct (f x) eqn:E; case_decide as HP; try done.
  - apply Hf in E. done.
  - apply Hf in HP. congruence.
Qed.

(** The summed expression is never [NULL]: it is the net amount. *)
Lemma eval_net v :
  eval_scalar v (Minus (coalesce (Col Venda_total) (Lit 0%Qc))
                       (coalesce (Col Venda_desconto) (Lit 0%Qc)))
  = Some (net v).
Proof. unfold net. simpl. by destruct (total v), (desconto v). Qed.

Lemma sum_of_nets (rows : list Venda) :
  float_or_zero
    (default (Some 0%Qc)
       (Some <$> sql_sum ((λ v, eval_scalar v
          (Minus (coalesce (Col Venda_total) (Lit 0%Qc))
                 (coalesce (Col Venda_desconto) (Lit 0%Qc)))) <$> rows)))
  = sum_Qc (net <$> rows).
Proof.
  assert (Hm : omap id ((λ v, eval_scalar v
          (Minus (coalesce (Col Venda_total) (Lit 0%Qc))
                 (coalesce (Col Venda_desconto) (Lit 0%Qc)))) <$> rows)
          = net <$> rows).
  { induction rows as [|v rows IH]; [done|].
    rewrite !fmap_cons. cbn [omap list_omap]. rewrite eval_net. simpl.
    f_equal. exact IH. }
  unfold sql_sum. rewrite Hm.
  destruct (net <$> rows) as [|x xs] eqn:E; simpl.
  - done.
  - by case_bool_decide.
Qed.

Lemma daily_selected d v :
  selected (where_ (daily_stmt d)) v = true
  ↔ cancelada v = false ∧ dt_date (created_at v) = d.
Proof.
  unfold selected. simpl.
  rewrite !andb_true_iff, negb_true_iff, bool_decide_eq_true. tauto.
Qed.

Lemma monthly_selected a b v :
  selected (where_ (monthly_stmt a b)) v = true
  ↔ cancelada v = false ∧ in_interval a b (created_at v).
Proof.
  unfold selected, in_interval, datetime_le. simpl.
  rewrite !andb_true_iff, negb_true_iff.
  rewrite (c_antisym _ datetime_compare_ok (created_at v) (midnight a)).
  destruct (datetime_compare (created_at v) (midnight a));
    destruct (datetime_compare (created_at v) (midnight b));
    simpl; naive_solver.
Qed.

(** A successful daily query gives the daily figure of the
    specification. *)
Lemma fetched_daily w d :
  fetched w (daily_stmt d) = daily_sales_total (vendas w) d.
Proof.
  unfold fetched, run_select, daily_sales_total. simpl scalar_of.
  rewrite (filter_bool_Prop _ _ _ (daily_selected d)).
  set (rows := filter _ (vendas w)).
  rewrite <- (sum_of_nets rows). simpl.
  by destruct (sql_sum _).
Qed.

Lemma fetched_monthly w a b :
  fetched w (monthly_stmt a b) = monthly_sales_total (vendas w) a b.
Proof.
  unfold fetched, run_select, monthly_sales_total. simpl scalar_of.
  rewrite (filter_bool_Prop _ _ _ (monthly_selected a b)).
  set (rows := filter _ (vendas w)).
  rewrite <- (sum_of_nets rows). simpl.
  by destruct (sql_sum _).
Qed.

(** *** The endpoints, property by property *)

Lemma cached_lookup k w e :
  _metrics_cache w !! k = Some e → cached k w = value e.
Proof. unfold cached. by intros ->. Qed.

Lemma stale_miss k w e j :
  stale k w → _metrics_cache w !! k = Some e → (j ≤ 1)%nat →
  ¬ hit_at e (moved (_metrics_cache w) [] (tick w + j) w).
Proof.
  intros Hst He Hj (v & Hv & Hlt). exact (Hst e v j He Hv Hj Hlt).
Qed.

(** C1.  When the entry of its key holds no value young enough to be
    served and the first attempt and the retry both fail, the daily and
    the monthly endpoint answer with the value last cached for their key,
    or zero if there is none, marked ["warning": "cached"], and leave the
    cache as it was; the daily endpoint has then sent the statement of its
    target day twice.  No call ends in an exception. *)
Theorem fallback_when_both_attempts_fail
  (w : World) (data ano_mes : option string) :
  cache_ok w →
  db_fault w (length (executed w)) = true →
  db_fault w (S (length (executed w))) = true →
  (stale "vendas_dia" w →
   ∃ resp,
     (vendas_dia data w).1 = Ret resp ∧
     item resp "total"
     = Some (PFloat (default 0%Qc (cached "vendas_dia" w))) ∧
     item resp "warning" = Some (PStr "cached") ∧
     sent w (vendas_dia data w).2
     = [daily_stmt (target_day data w); daily_stmt (target_day data w)] ∧
     _metrics_cache (vendas_dia data w).2 = _metrics_cache w) ∧
  (stale "vendas_mes" w →
   ∃ resp,
     (vendas_mes ano_mes w).1 = Ret resp ∧
     item resp "total"
     = Some (PFloat (default 0%Qc (cached "vendas_mes" w))) ∧
     item resp "warning" = Some (PStr "cached") ∧
     _metrics_cache (vendas_mes ano_mes w).2 = _metrics_cache w) ∧
  is_Ret (vendas_dia data w).1 ∧ is_Ret (vendas_mes ano_mes w).1.
Proof.
  intros [[e1 H1] [e2 H2]] F1 F2.
  destruct (vendas_dia_cases data w e1 H1)
    as (alvo & k & r1 & c1 & l1 & t1 & Hk & Hrun1 & _ & _ & _ & Hout1 & Ha).
  destruct (vendas_mes_outcome ano_mes w e2 H2) as (k2 & Hk2 & Hmes).
  split; [|split; [|split]].
  - intros Hst. exists r1. rewrite Hrun1. cbn [fst snd]. rewrite sent_moved.
    rewrite (cached_lookup _ _ _ H1), <- float_or_zero_default.
    destruct Hout1 as [(v & _ & Hhit & _)
                      |[(_ & Hl & _)|(_ & _ & _ & -> & Ht & Hw & ->)]].
    + destruct (stale_miss _ _ _ k Hst H1 Hk Hhit).
    + destruct Hl as [[F _]|(_ & F & _)]; congruence.
    + by subst alvo.
  - intros Hst. rewrite (cached_lookup _ _ _ H2), <- float_or_zero_default.
    destruct Hmes as [(first & r2 & c2 & l2 & t2 & Hrun2 & _ & _ & _ & _ & _ & Hout2)
                     |(r2 & t2 & Hrun2 & Ht & Hw & _)].
    + exists r2. rewrite Hrun2. cbn [fst snd].
      destruct Hout2 as [(v & _ & Hhit & _)
                        |[(_ & Hl & _)|(_ & _ & _ & -> & Ht & Hw & ->)]].
      * destruct (stale_miss _ _ _ k2 Hst H2 Hk2 Hhit).
      * destruct Hl as [[F _]|(_ & F & _)]; congruence.
      * done.
    + exists r2. rewrite Hrun2. done.
  - by rewrite Hrun1.
  - destruct Hmes as [(first & r2 & c2 & l2 & t2 & Hrun2 & _)
                     |(r2 & t2 & Hrun2 & _)]; by rewrite Hrun2.
Qed.

Lemma fresh_hit k w e j :
  fresh k w → _metrics_cache w !! k = Some e → (j ≤ 1)%nat →
  ∃ v, value e = Some v ∧
       hit_at e (moved (_metrics_cache w) [] (tick w + j) w).
Proof.
  intros (e' & v & He' & Hv & Hage) He Hj.
  rewrite He in He'. injection He' as <-.
  exists v. split; [done|]. exists v. split; [done|]. by apply Hage.
Qed.

(** C2.  A call made while the entry of its key holds a value younger
    than the TTL answers with that value and sends nothing to the
    database, for the daily and for the monthly endpoint alike. *)
Theorem fresh_entry_is_served (w : World) (data ano_mes : option string) :
  cache_ok w →
  (fresh "vendas_dia" w →
   ∃ resp v,
     cached "vendas_dia" w = Some v ∧
     (vendas_dia data w).1 = Ret resp ∧
     item resp "total" = Some (PFloat v) ∧
     sent w (vendas_dia data w).2 = [] ∧
     _metrics_cache (vendas_dia data w).2 = _metrics_cache w) ∧
  (fresh "vendas_mes" w →
   ∃ resp v,
     cached "vendas_mes" w = Some v ∧
     (vendas_mes ano_mes w).1 = Ret resp ∧
     item resp "total" = Some (PFloat v) ∧
     sent w (vendas_mes ano_mes w).2 = [] ∧
     _metrics_cache (vendas_mes ano_mes w).2 = _metrics_cache w).
Proof.
  intros [[e1 H1] [e2 H2]]. split.
  - intros Hfresh.
    destruct (vendas_dia_cases data w e1 H1)
      as (alvo & k & resp & c' & l & t' & Hk & Hrun & _ & _ & _ & Hout & _).
    destruct (fresh_hit _ _ _ k Hfresh H1 Hk) as (v & Hv & Hhit).
    exists resp, v. rewrite Hrun. cbn [fst snd].
    rewrite sent_moved, (cached_lookup _ _ _ H1). simpl.
    destruct Hout as [(v' & Hv' & _ & Ht & _ & -> & ->)|[[? _]|[? _]]];
      [|done|done].
    split; [done|]. split; [done|]. split; [congruence|done].
  - intros Hfresh.
    destruct (vendas_mes_outcome ano_mes w e2 H2) as (k & Hk & [Hn|Hf]).
    + destruct Hn as (first & resp & c' & l & t' & Hrun & _ & _ & _ & _ & _ & Hout).
      destruct (fresh_hit _ _ _ k Hfresh H2 Hk) as (v & Hv & Hhit).
      exists resp, v. rewrite Hrun. cbn [fst snd].
      rewrite sent_moved, (cached_lookup _ _ _ H2). simpl.
      destruct Hout as [(v' & Hv' & _ & Ht & _ & -> & ->)|[[? _]|[? _]]];
        [|done|done].
      split; [done|]. split; [done|]. split; [congruence|done].
    + destruct Hf as (resp & t' & Hrun & Ht & _).
      destruct (fresh_hit _ _ _ 0%nat Hfresh H2) as (v & Hv & _); [lia|].
      exists resp, v. rewrite Hrun. cbn [fst snd].
      rewrite sent_moved, (cached_lookup _ _ _ H2). simpl.
      split; [done|]. split; [done|]. split; [|done].
      rewrite Ht, Hv, float_or_zero_default. done.
Qed.

(** Every day of the calendar is the target day of some request: the one
    that names it. *)
Lemma every_day_is_a_target d w :
  valid d → target_day (Some (isoformat d)) w = d.
Proof.
  intros Hv. unfold target_day.
  assert (nonempty (Some (isoformat d)) = Some (isoformat d)) as ->.
  { unfold nonempty, isoformat. cbn [zero_padded app]. done. }
  by rewrite fromisoformat_isoformat.
Qed.

(** C4.  On a cache miss with a query that succeeds, at the first attempt
    or at the retry, the daily endpoint answers, whatever the target day
    (the day asked for, or the server's day), with the sum of total minus
    discount over the sales of that day that are not cancelled; the total
    is a number, and it is zero when no such sale exists. *)
Theorem daily_total_on_miss (w : World) (data : option string) :
  cache_ok w →
  sent w (vendas_dia data w).2 ≠ [] →
  (db_fault w (length (executed w)) = false
   ∨ db_fault w (S (length (executed w))) = false) →
  let alvo := target_day data w in
  ∃ resp,
    (vendas_dia data w).1 = Ret resp ∧
    item resp "data" = Some (PStr (isoformat alvo)) ∧
    item resp "total" = Some (PFloat (daily_sales_total (vendas w) alvo)) ∧
    item resp "warning" = None ∧
    ((∀ v, v ∈ vendas w →
           cancelada v = true ∨ dt_date (created_at v) ≠ alvo) →
     item resp "total" = Some (PFloat 0%Qc)).
Proof.
  intros [[e1 H1] _] Hsent Hdb alvo.
  destruct (vendas_dia_cases data w e1 H1)
    as (alvo' & k & resp & c' & l & t' & Hk & Hrun & Hlab & _ & _ & Hout & Ha).
  fold alvo in Ha. subst alvo'.
  rewrite Hrun in *. cbn [fst snd] in *. rewrite sent_moved in Hsent.
  exists resp. split; [done|]. split; [done|].
  assert (Ht : item resp "total"
               = Some (PFloat (daily_sales_total (vendas w) alvo))
               ∧ item resp "warning" = None).
  { rewrite <- fetched_daily.
    destruct Hout as [(v' & _ & _ & _ & _ & _ & ->)
                     |[(_ & _ & ? & ? & _)|(_ & F1 & F2 & _)]];
      [done|done|]. destruct Hdb; congruence. }
  destruct Ht as [Ht Hw]. split; [done|]. split; [done|].
  intros Hnone. rewrite Ht. do 2 f_equal.
  unfold daily_sales_total.
  destruct (filter _ (vendas w)) as [|v rows] eqn:E; [done|].
  assert (Hv : v ∈ filter (λ v, cancelada v = false
                                ∧ dt_date (created_at v) = alvo) (vendas w)).
  { rewrite E. set_solver. }
  apply list_elem_of_filter in Hv as [[Hc Hd] Hin].
  destruct (Hnone v Hin); congruence.
Qed.

(** What an outcome says of the statements sent. *)
Lemma outcome_sent k stmt e w1 w resp c' l :
  outcome k stmt e w1 w resp c' l →
  (l = [] ∨ l = [stmt] ∨ l = [stmt; stmt]) ∧
  (value e = None → l ≠ []) ∧
  (l ≠ [] →
   (db_fault w (length (executed w)) = false
    ∨ db_fault w (S (length (executed w))) = false) →
   item resp "total" = Some (PFloat (fetched w stmt)) ∧
   item resp "warning" = None ∧
   ∃ now, c' = <[k := mkentry (Some (fetched w stmt)) now]>
                 (_metrics_cache w)).
Proof.
  intros [(v & Hv & _ & _ & _ & _ & ->)
         |[(_ & Hl & Ht & Hw & Hc)|(_ & F1 & F2 & -> & _)]].
  - split; [by left|]. split; [congruence|done].
  - split; [destruct Hl as [[_ ->]|(_ & _ & ->)]; auto|].
    split; [destruct Hl as [[_ ->]|(_ & _ & ->)]; done|done].
  - split; [auto|]. split; [done|]. intros _ [?|?]; congruence.
Qed.

(** C3.  The cache entry is looked up by the name of the metric alone.
    After a daily request for the day [d1] has fetched its total and put
    it in the cache, a request for any day [d2], a different one included,
    made while that entry is fresh is answered with the total of [d1]
    under the date [d2], without a query; likewise a fresh monthly entry
    filled for one month is served for every month asked. *)
Theorem cache_ignores_requested_period
  (w w2 : World) (data1 data2 : option string) (s1 s2 : string)
  (d1 d2 : date) (ano_mes1 ano_mes2 : option string) (sm : string)
  (m1 : date) :
  cache_ok w →
  (db_fault w (length (executed w)) = false
   ∨ db_fault w (S (length (executed w))) = false) →
  (nonempty data1 = Some s1 → fromisoformat s1 = Ret d1 →
   nonempty data2 = Some s2 → fromisoformat s2 = Ret d2 →
   sent w (vendas_dia data1 w).2 ≠ [] →
   _metrics_cache w2 = _metrics_cache (vendas_dia data1 w).2 →
   fresh "vendas_dia" w2 →
   ∃ resp,
     (vendas_dia data2 w2).1 = Ret resp ∧
     item resp "data" = Some (PStr (isoformat d2)) ∧
     item resp "total" = Some (PFloat (daily_sales_total (vendas w) d1)) ∧
     sent w2 (vendas_dia data2 w2).2 = []) ∧
  (nonempty ano_mes1 = Some sm → parse_ano_mes sm = Ret m1 →
   sent w (vendas_mes ano_mes1 w).2 ≠ [] →
   _metrics_cache w2 = _metrics_cache (vendas_mes ano_mes1 w).2 →
   fresh "vendas_mes" w2 →
   ∃ resp,
     (vendas_mes ano_mes2 w2).1 = Ret resp ∧
     item resp "total"
     = Some (PFloat (monthly_sales_total (vendas w) m1
                       (first_of_next_month m1))) ∧
     sent w2 (vendas_mes ano_mes2 w2).2 = []).
Proof.
  intros [[e1 H1] [e2 H2]] Hdb. split.
  - intros Hs1 Hp1 Hs2 Hp2 Hsent Hcache Hfresh.
    destruct (vendas_dia_cases data1 w e1 H1)
      as (a1 & k & r1 & c' & l & t' & Hk & Hrun & _ & _ & Hgood & Hout & _).
    rewrite (Hgood s1 d1 Hs1 Hp1) in *. clear Hgood.
    rewrite Hrun in *. cbn [fst snd] in *. rewrite sent_moved in Hsent.
    apply outcome_sent in Hout as (_ & _ & Hout).
    destruct (Hout Hsent Hdb) as (_ & _ & now & ->).
    rewrite fetched_daily in Hcache. simpl in Hcache.
    assert (He : _metrics_cache w2 !! "vendas_dia"
                 = Some (mkentry (Some (daily_sales_total (vendas w) d1)) now)).
    { rewrite Hcache. apply lookup_insert_eq. }
    destruct (vendas_dia_cases data2 w2 _ He)
      as (a2 & k2 & r2 & c2 & l2 & t2 & Hk2 & Hrun2 & Hlab2 & _ & Hgood2 & Hout2 & _).
    rewrite (Hgood2 s2 d2 Hs2 Hp2) in *.
    destruct (fresh_hit _ _ _ k2 Hfresh He Hk2) as (v & Hv & Hhit).
    exists r2. rewrite Hrun2. cbn [fst snd]. rewrite sent_moved.
    destruct Hout2 as [(v' & Hv' & _ & Ht & _ & _ & ->)|[[? _]|[? _]]];
      [|done|done].
    simpl in Hv'. injection Hv' as <-. done.
  - intros Hs1 Hp1 Hsent Hcache Hfresh.
    destruct (vendas_mes_outcome ano_mes1 w e2 H2) as (k & Hk & [Hn|Hf]).
    + destruct Hn as (first & r1 & c' & l & t' & Hrun & _ & _ & _ & _ & Hgood & Hout).
      rewrite (Hgood sm m1 Hs1 Hp1) in *. clear Hgood.
      rewrite Hrun in *. cbn [fst snd] in *. rewrite sent_moved in Hsent.
      apply outcome_sent in Hout as (_ & _ & Hout).
      destruct (Hout Hsent Hdb) as (_ & _ & now & ->).
      rewrite fetched_monthly in Hcache. simpl in Hcache.
      set (T := monthly_sales_total (vendas w) m1 (first_of_next_month m1)) in *.
      assert (He : _metrics_cache w2 !! "vendas_mes"
                   = Some (mkentry (Some T) now)).
      { rewrite Hcache. apply lookup_insert_eq. }
      destruct (vendas_mes_outcome ano_mes2 w2 _ He) as (k2 & Hk2 & [Hn2|Hf2]).
      * destruct Hn2 as (f2 & r2 & c2 & l2 & t2 & Hrun2 & _ & _ & _ & _ & _ & Hout2).
        destruct (fresh_hit _ _ _ k2 Hfresh He Hk2) as (v & Hv & Hhit).
        exists r2. rewrite Hrun2. cbn [fst snd]. rewrite sent_moved.
        destruct Hout2 as [(v' & Hv' & _ & Ht & _ & _ & ->)|[[? _]|[? _]]];
          [|done|done].
        simpl in Hv'. injection Hv' as <-. done.
      * destruct Hf2 as (r2 & t2 & Hrun2 & Ht & _).
        exists r2. rewrite Hrun2. cbn [fst snd]. rewrite sent_moved.
        split; [done|]. split; [|done].
        rewrite Ht. simpl. by case_bool_decide as E; [rewrite E|].
    + destruct Hf as (r1 & t' & Hrun & _).
      rewrite Hrun in Hsent. cbn [fst snd] in Hsent.
      by rewrite sent_moved in Hsent.
Qed.

(** The sales selected by the monthly statement are those not cancelled
    and created in the half-open interval, and the request for 2024-12 has
    the interval from 2024-12-01 to 2025-01-01. *)
Lemma december_2024 :
  parse_ano_mes "2024-12" = Ret (mkdate 2024 12 1)
  ∧ first_of_next_month (mkdate 2024 12 1) = mkdate 2025 1 1.
Proof. done. Qed.

(** C5, as the code has it.  For every month selector that parses, the
    last month of the calendar (December 9999) apart, every statement the
    monthly endpoint sends selects the sales that are not cancelled and
    were created from the first day of that month on and before the first
    day of the next month; on an empty cache it sends one, and a
    successful one gives the total of that interval.  December rolls over
    to January of the next year: 2024-12 gives 2024-12-01 to
    2025-01-01. *)
Theorem monthly_interval
  (w : World) (ano_mes : option string) (s : string) (first : date) :
  cache_ok w →
  nonempty ano_mes = Some s → parse_ano_mes s = Ret first →
  ¬ (year first = MAXYEAR ∧ month first = 12) →
  let next := first_of_next_month first in
  let stmt := monthly_stmt first next in
  let l := sent w (vendas_mes ano_mes w).2 in
  day first = 1 ∧
  (∀ v, selected (where_ stmt) v = true
        ↔ cancelada v = false ∧ in_interval first next (created_at v)) ∧
  (l = [] ∨ l = [stmt] ∨ l = [stmt; stmt]) ∧
  (cached "vendas_mes" w = None → l ≠ []) ∧
  (l ≠ [] →
   (db_fault w (length (executed w)) = false
    ∨ db_fault w (S (length (executed w))) = false) →
   ∃ resp,
     (vendas_mes ano_mes w).1 = Ret resp ∧
     item resp "total"
     = Some (PFloat (monthly_sales_total (vendas w) first next))) ∧
  (parse_ano_mes "2024-12" = Ret (mkdate 2024 12 1)
   ∧ first_of_next_month (mkdate 2024 12 1) = mkdate 2025 1 1).
Proof.
  intros [_ [e2 H2]] Hs Hp Hov next stmt l.
  split; [exact (proj2 (parse_ano_mes_Ret s first Hp))|].
  split; [apply monthly_selected|].
  destruct (vendas_mes_outcome ano_mes w e2 H2) as (k & Hk & [Hn|Hf]).
  - destruct Hn as (f & resp & c' & l' & t' & Hrun & _ & _ & _ & _ & Hgood & Hout).
    rewrite (Hgood s first Hs Hp) in *. clear Hgood.
    subst l. rewrite Hrun. cbn [fst snd]. rewrite sent_moved.
    apply outcome_sent in Hout as (Hl & Hnone & Hok).
    split; [exact Hl|]. split; [|split; [|exact december_2024]].
    + intros Hc. apply Hnone. by rewrite <- (cached_lookup _ _ _ H2).
    + intros Hne Hdb. exists resp. split; [done|].
      destruct (Hok Hne Hdb) as (Ht & _). by rewrite <- fetched_monthly.
  - destruct Hf as (resp & t' & _ & _ & _ & _ & Hbad).
    destruct Hov. exact (Hbad s first Hs Hp).
Qed.

(** C6.  A date that is missing, empty or malformed makes the daily
    endpoint work for the server's current day, and a month that is
    missing, empty or malformed makes the monthly endpoint work for the
    first day of the server's current month (the clock showing a month of
    the calendar that has a next one): the answer is a response, never an
    error, it names that period, every statement sent is the one of that
    period, one is sent when nothing is cached, and a successful one gives
    the total of that period. *)
Theorem bad_period_falls_back (w : World) (data ano_mes : option string) :
  cache_ok w →
  (bad_date data →
   let hoje := today (clock w (tick w)) in
   let stmt := daily_stmt hoje in
   let l := sent w (vendas_dia data w).2 in
   ∃ resp,
     (vendas_dia data w).1 = Ret resp ∧
     item resp "data" = Some (PStr (isoformat hoje)) ∧
     (l = [] ∨ l = [stmt] ∨ l = [stmt; stmt]) ∧
     (cached "vendas_dia" w = None → l ≠ []) ∧
     (l ≠ [] →
      (db_fault w (length (executed w)) = false
       ∨ db_fault w (S (length (executed w))) = false) →
      item resp "total"
      = Some (PFloat (daily_sales_total (vendas w) hoje)))) ∧
  (bad_month ano_mes →
   is_Ret (vendas_mes ano_mes w).1 ∧
   (clock_in_calendar w →
    let first := current_month w in
    let stmt := monthly_stmt first (first_of_next_month first) in
    let l := sent w (vendas_mes ano_mes w).2 in
    ∃ resp,
      (vendas_mes ano_mes w).1 = Ret resp ∧
      item resp "ano_mes" = Some (PStr (strftime_Y_m first)) ∧
      (l = [] ∨ l = [stmt] ∨ l = [stmt; stmt]) ∧
      (cached "vendas_mes" w = None → l ≠ []) ∧
      (l ≠ [] →
       (db_fault w (length (executed w)) = false
        ∨ db_fault w (S (length (executed w))) = false) →
       item resp "total"
       = Some (PFloat (monthly_sales_total (vendas w) first
                         (first_of_next_month first)))))).
Proof.
  intros [[e1 H1] [e2 H2]]. split.
  - intros Hbad hoje stmt l.
    destruct (vendas_dia_cases data w e1 H1)
      as (alvo & k & resp & c' & l' & t' & Hk & Hrun & Hlab & Htoday & _ & Hout & _).
    rewrite (Htoday Hbad) in *. clear Htoday.
    subst l. rewrite Hrun. cbn [fst snd]. rewrite sent_moved.
    apply outcome_sent in Hout as (Hl & Hnone & Hok).
    exists resp. split; [done|]. split; [done|]. split; [exact Hl|]. split.
    + intros Hc. apply Hnone. by rewrite <- (cached_lookup _ _ _ H1).
    + intros Hne Hdb. destruct (Hok Hne Hdb) as (Ht & _).
      by rewrite <- fetched_daily.
  - intros Hbad.
    destruct (vendas_mes_outcome ano_mes w e2 H2) as (k & Hk & [Hn|Hf]).
    + destruct Hn as (f & resp & c' & l' & t' & Hrun & Hlab & _ & _ & Hcur & _ & Hout).
      rewrite (Hcur Hbad) in *. clear Hcur.
      split; [by rewrite Hrun|].
      intros _ first stmt l. subst l first stmt.
      rewrite Hrun. cbn [fst snd]. rewrite sent_moved.
      apply outcome_sent in Hout as (Hl & Hnone & Hok).
      exists resp. split; [done|]. split; [done|]. split; [exact Hl|]. split.
      * intros Hc. apply Hnone. by rewrite <- (cached_lookup _ _ _ H2).
      * intros Hne Hdb. destruct (Hok Hne Hdb) as (Ht & _).
        by rewrite <- fetched_monthly.
    + destruct Hf as (resp & t' & Hrun & _ & _ & Hcal & _).
      split; [by rewrite Hrun|].
      intros Hc. destruct (Hcal Hbad Hc).
Qed.

(** *** The cache over the life of the process *)

(** A request leaves the cache as it is or puts under its key a value
    that a statement sent without failure gave. *)
Lemma request_effect (w : World) (ev : event) (k : string) :
  cache_ok w → key_of_event ev = Some k →
  ∃ c' l t',
    step w ev = moved c' l t' w ∧
    (c' = _metrics_cache w
     ∨ ∃ v now i,
         c' = <[k := mkentry (Some v) now]> (_metrics_cache w) ∧
         (length (executed w) ≤ i < length (executed w) + length l)%nat ∧
         db_fault w i = false) ∧
    (l ≠ [] →
     (db_fault w (length (executed w)) = false
      ∨ db_fault w (S (length (executed w))) = false) →
     ∃ v now, c' = <[k := mkentry (Some v) now]> (_metrics_cache w)).
Proof.
  intros [[e1 H1] [e2 H2]] Hk.
  assert (Hout : ∀ stmt e w1 resp c' l,
    outcome k stmt e w1 w resp c' l →
    (c' = _metrics_cache w
     ∨ ∃ v now i,
         c' = <[k := mkentry (Some v) now]> (_metrics_cache w) ∧
         (length (executed w) ≤ i < length (executed w) + length l)%nat ∧
         db_fault w i = false) ∧
    (l ≠ [] →
     (db_fault w (length (executed w)) = false
      ∨ db_fault w (S (length (executed w))) = false) →
     ∃ v now, c' = <[k := mkentry (Some v) now]> (_metrics_cache w))).
  { intros stmt e w1 resp c' l Hout. split.
    - destruct Hout as [(v & _ & _ & _ & _ & -> & _)
                       |[(_ & Hl & _ & _ & now & ->)|(_ & _ & _ & _ & _ & _ & ->)]];
        [by left| |by left].
      right. exists (fetched w stmt), now.
      destruct Hl as [[F ->]|(_ & F & ->)].
      + exists (length (executed w)). simpl. split; [done|]. split; [lia|done].
      + exists (S (length (executed w))). simpl. split; [done|]. split; [lia|done].
    - intros Hne Hdb. apply outcome_sent in Hout as (_ & _ & Hok).
      destruct (Hok Hne Hdb) as (_ & _ & now & ->). by eexists _, _. }
  destruct ev as [data|ano_mes|]; simpl in Hk; [| |done];
    injection Hk as <-; simpl.
  - destruct (vendas_dia_cases data w e1 H1)
      as (alvo & j & resp & c' & l & t' & _ & Hrun & _ & _ & _ & Ho & _).
    exists c', l, t'. rewrite Hrun. split; [done|]. by eapply Hout.
  - destruct (vendas_mes_outcome ano_mes w e2 H2) as (j & _ & [Hn|Hf]).
    + destruct Hn as (f & resp & c' & l & t' & Hrun & _ & _ & _ & _ & _ & Ho).
      exists c', l, t'. rewrite Hrun. split; [done|]. by eapply Hout.
    + destruct Hf as (resp & t' & Hrun & _).
      exists (_metrics_cache w), [], t'. rewrite Hrun.
      split; [done|]. split; [by left|done].
Qed.

Lemma step_cache_ok w ev : cache_ok w → cache_ok (step w ev).
Proof.
  intros Hok. destruct (key_of_event ev) as [k|] eqn:Hk.
  - destruct (request_effect w ev k Hok Hk) as (c' & l & t' & -> & [->|Hc] & _);
      [done|].
    destruct Hc as (v & now & i & -> & _). destruct Hok as [Hd Hm].
    unfold cache_ok. simpl. rewrite !lookup_insert_is_Some'. by split; right.
  - by destruct ev.
Qed.

Lemma run_cache_ok w evs : cache_ok w → cache_ok (run w evs).
Proof.
  revert w. induction evs as [|ev evs IH]; intros w Hok; [done|].
  simpl. apply IH. by apply step_cache_ok.
Qed.

Lemma initial_cache_ok w : _metrics_cache w = initial_cache → cache_ok w.
Proof. intros H. unfold cache_ok. rewrite H. split; by eexists. Qed.

(** C7.  From the start of the process on, through any sequence of
    requests and changes of the environment: the two values are null at
    the start; both entries stay in place; a value that is set is still set
    after the next event, whether that event succeeds or fails; an entry
    changes only by receiving a non-null value that a statement sent
    without failure gave; and a request that sends a statement which
    succeeds leaves a value under its key. *)
Theorem cache_value_never_cleared
  (w0 : World) (evs : list event) (ev : event) (k : string) :
  _metrics_cache w0 = initial_cache →
  k = "vendas_dia"%string ∨ k = "vendas_mes"%string →
  let w := run w0 evs in
  let w' := step w ev in
  cached k w0 = None ∧
  is_Some (_metrics_cache w' !! k) ∧
  (is_Some (cached k w) → is_Some (cached k w')) ∧
  (_metrics_cache w' !! k ≠ _metrics_cache w !! k →
   (∃ v t, _metrics_cache w' !! k = Some (mkentry (Some v) t)) ∧
   key_of_event ev = Some k ∧
   ∃ i, (length (executed w) ≤ i < length (executed w'))%nat
        ∧ db_fault w i = false) ∧
  (key_of_event ev = Some k →
   sent w w' ≠ [] →
   (db_fault w (length (executed w)) = false
    ∨ db_fault w (S (length (executed w))) = false) →
   is_Some (cached k w')).
Proof.
  intros Hinit Hk w w'.
  assert (Hok : cache_ok w) by by apply run_cache_ok, initial_cache_ok.
  assert (Hok' : cache_ok w') by by apply step_cache_ok.
  split; [unfold cached; rewrite Hinit; by destruct Hk as [->| ->]|].
  split; [destruct Hok' as [??]; by destruct Hk as [->| ->]|].
  destruct (key_of_event ev) as [k0|] eqn:Hk0.
  - destruct (request_effect w ev k0 Hok Hk0) as (c' & l & t' & Hstep & Hc & Hw).
    subst w'. rewrite Hstep. unfold cached at 2 3. simpl.
    rewrite sent_moved, length_app.
    destruct Hc as [->|(v & now & i & -> & Hi & Hf)].
    + split; [done|]. split; [done|].
      intros [= <-] Hne Hdb. destruct (Hw Hne Hdb) as (v & now & Hc).
      rewrite Hc at 1. rewrite lookup_insert_eq. by eexists.
    + destruct (decide (k0 = k)) as [->|Hneq].
      * rewrite lookup_insert_eq. simpl.
        split; [by eexists|]. split; [|by eexists].
        intros _. split; [by eexists _, _|]. split; [done|]. by exists i.
      * rewrite lookup_insert_ne by done.
        split; [done|]. split; [done|]. by intros [= ?].
  - by destruct ev.
Qed.

(** *** The theorems on the sample data *)

Lemma world_up_ok : cache_ok world_up.
Proof. by apply initial_cache_ok. Qed.

Lemma world_down_ok : cache_ok world_down.
Proof. by apply initial_cache_ok. Qed.

Lemma world_cached_ok : cache_ok world_cached.
Proof. split; by eexists. Qed.

Lemma world_cached_fresh k :
  k = "vendas_dia"%string ∨ k = "vendas_mes"%string → fresh k world_cached.
Proof.
  intros [->| ->].
  - exists (mkentry (Some (Qc_of_Z 950)) (Qc_of_Z 100)), (Qc_of_Z 950).
    split; [done|]. split; [done|].
    intros [|[|n]] Hn; [done|done|lia].
  - exists (mkentry (Some (Qc_of_Z 957)) (Qc_of_Z 100)), (Qc_of_Z 957).
    split; [done|]. split; [done|].
    intros [|[|n]] Hn; [done|done|lia].
Qed.

(** The scenario of the specification: a sale of 1000 with a discount of
    50 on 2025-03-10 gives 950 for that day. *)
Example daily_total_sample :
  daily_sales_total sample_vendas day_10 = Qc_of_Z 950.
Proof. apply Qc_is_canon. reflexivity. Qed.

(** The two scenarios of the specification, end to end: the request for
    2025-03-10 with that sale on record, and with no sale at all. *)
Example vendas_dia_scenario :
  (vendas_dia (Some "2025-03-10"%string) world_up).1
  = Ret (PDict {[ "data" := PStr "2025-03-10";
                  "total" := PFloat (Q2Qc 950) ]}).
Proof. vm_compute. reflexivity. Qed.

Example vendas_dia_scenario_empty :
  (vendas_dia (Some "2025-03-10"%string) world_empty).1
  = Ret (PDict {[ "data" := PStr "2025-03-10"; "total" := PFloat 0%Qc ]}).
Proof. vm_compute. reflexivity. Qed.

Lemma world_down_stale_ok : cache_ok world_down_stale.
Proof. split; by eexists. Qed.

Lemma world_down_stale_stale k : stale k world_down_stale.
Proof.
  intros e v n He Hv Hn.
  assert (Hts : ts e = Qc_of_Z 50).
  { unfold world_down_stale in He. simpl in He.
    destruct (decide (k = "vendas_dia"%string)) as [->|Hk1].
    - rewrite lookup_insert_eq in He. by injection He as <-.
    - rewrite lookup_insert_ne in He by done.
      apply lookup_singleton_Some in He as [_ <-]. done. }
  rewrite Hts. destruct n as [|[|n]]; [| |lia]; by vm_compute.
Qed.

Lemma fallback_when_both_attempts_fail_witness :
  cache_ok world_down_stale ∧
  db_fault world_down_stale (length (executed world_down_stale)) = true ∧
  db_fault world_down_stale (S (length (executed world_down_stale))) = true ∧
  stale "vendas_dia" world_down_stale ∧
  stale "vendas_mes" world_down_stale ∧
  (∃ resp,
     (vendas_dia (Some "2025-03-11"%string) world_down_stale).1 = Ret resp ∧
     item resp "total" = Some (PFloat (Qc_of_Z 950)) ∧
     item resp "warning" = Some (PStr "cached") ∧
     sent world_down_stale
       (vendas_dia (Some "2025-03-11"%string) world_down_stale).2
     = [daily_stmt day_11; daily_stmt day_11]) ∧
  (∃ resp,
     (vendas_mes (Some "2025-03"%string) world_down_stale).1 = Ret resp ∧
     item resp "total" = Some (PFloat (Qc_of_Z 957)) ∧
     item resp "warning" = Some (PStr "cached")).
Proof.
  split; [exact world_down_stale_ok|]. split; [reflexivity|].
  split; [reflexivity|].
  split; [apply world_down_stale_stale|].
  split; [apply world_down_stale_stale|].
  destruct (fallback_when_both_attempts_fail world_down_stale
              (Some "2025-03-11"%string) (Some "2025-03"%string)
              world_down_stale_ok eq_refl eq_refl) as (Hd & Hm & _).
  split.
  - destruct (Hd (world_down_stale_stale _)) as (resp & Hr & Ht & Hw & Hs & _).
    exists resp. split; [exact Hr|]. split; [exact Ht|].
    split; [exact Hw|exact Hs].
  - destruct (Hm (world_down_stale_stale _)) as (resp & Hr & Ht & Hw & _).
    exists resp. split; [exact Hr|]. split; [exact Ht|exact Hw].
Defined.

(** With nothing cached and the database down, both endpoints answer
    zero. *)
Example fallback_to_zero :
  (vendas_dia (Some "2025-03-10"%string) world_down).1
  = Ret (PDict {[ "data" := PStr "2025-03-10"; "total" := PFloat 0%Qc;
                  "warning" := PStr "cached" ]}) ∧
  (vendas_mes (Some "2025-03"%string) world_down).1
  = Ret (PDict {[ "ano_mes" := PStr "2025-03"; "total" := PFloat 0%Qc;
                  "warning" := PStr "cached" ]}).
Proof. split; vm_compute; reflexivity. Qed.

Lemma fresh_entry_is_served_witness :
  cache_ok world_cached ∧
  fresh "vendas_dia" world_cached ∧
  ∃ resp,
    (vendas_dia (Some "2025-03-11"%string) world_cached).1 = Ret resp ∧
    item resp "total" = Some (PFloat (Qc_of_Z 950)) ∧
    sent world_cached (vendas_dia (Some "2025-03-11"%string) world_cached).2
    = [].
Proof.
  split; [exact world_cached_ok|].
  split; [apply world_cached_fresh; by left|].
  destruct (fresh_entry_is_served world_cached (Some "2025-03-11"%string)
              (Some "2025-04"%string) world_cached_ok) as [Hd _].
  destruct (Hd (world_cached_fresh _ (or_introl eq_refl)))
    as (resp & v & Hc & Hr & Ht & Hs & _).
  exists resp. split; [exact Hr|]. split; [|exact Hs].
  rewrite Ht. vm_compute in Hc. injection Hc as <-. reflexivity.
Defined.

Lemma cache_ignores_requested_period_witness :
  cache_ok world_up ∧
  (db_fault world_up (length (executed world_up)) = false
   ∨ db_fault world_up (S (length (executed world_up))) = false) ∧
  fromisoformat "2025-03-10" = Ret day_10 ∧
  fromisoformat "2025-03-11" = Ret day_11 ∧
  sent world_up (vendas_dia (Some "2025-03-10"%string) world_up).2 ≠ [] ∧
  fresh "vendas_dia" (vendas_dia (Some "2025-03-10"%string) world_up).2 ∧
  ∃ resp,
    (vendas_dia (Some "2025-03-11"%string)
       (vendas_dia (Some "2025-03-10"%string) world_up).2).1 = Ret resp ∧
    item resp "data" = Some (PStr "2025-03-11") ∧
    item resp "total"
    = Some (PFloat (daily_sales_total (vendas world_up) day_10)).
Proof.
  assert (Hs : sent world_up
                 (vendas_dia (Some "2025-03-10"%string) world_up).2 ≠ []).
  { vm_compute. discriminate. }
  assert (Hf : fresh "vendas_dia"
                 (vendas_dia (Some "2025-03-10"%string) world_up).2).
  { unfold fresh. eexists _, _. split; [vm_compute; reflexivity|].
    split; [reflexivity|].
    intros [|[|n]] Hn; [vm_compute; reflexivity|vm_compute; reflexivity|lia]. }
  split; [exact world_up_ok|]. split; [by left|].
  split; [reflexivity|]. split; [reflexivity|].
  split; [exact Hs|]. split; [exact Hf|].
  destruct (cache_ignores_requested_period world_up
              (vendas_dia (Some "2025-03-10"%string) world_up).2
              (Some "2025-03-10"%string) (Some "2025-03-11"%string)
              "2025-03-10" "2025-03-11" day_10 day_11
              None None "" day_10 world_up_ok (or_introl eq_refl))
    as [Hd _].
  destruct (Hd eq_refl eq_refl eq_refl eq_refl Hs eq_refl Hf)
    as (resp & Hr & Hdata & Ht & _).
  exists resp. split; [exact Hr|]. split; [exact Hdata|exact Ht].
Defined.

(** The total served under 2025-03-11 is the 950 of 2025-03-10, not the 7
    of the day asked for. *)
Example other_day_total :
  daily_sales_total sample_vendas day_11 = Qc_of_Z 7
  ∧ daily_sales_total sample_vendas day_10 ≠ daily_sales_total sample_vendas day_11.
Proof. split; [apply Qc_is_canon; reflexivity|]. intros [=]. Qed.

Lemma daily_total_on_miss_witness :
  cache_ok world_up ∧
  sent world_up (vendas_dia (Some "2025-03-11"%string) world_up).2 ≠ [] ∧
  (db_fault world_up (length (executed world_up)) = false
   ∨ db_fault world_up (S (length (executed world_up))) = false) ∧
  today (clock world_up (tick world_up)) = day_10 ∧
  target_day (Some "2025-03-11"%string) world_up = day_11 ∧
  ∃ resp,
    (vendas_dia (Some "2025-03-11"%string) world_up).1 = Ret resp ∧
    item resp "data" = Some (PStr "2025-03-11") ∧
    item resp "total" = Some (PFloat (Qc_of_Z 7)).
Proof.
  assert (Hs : sent world_up
                 (vendas_dia (Some "2025-03-11"%string) world_up).2 ≠ []).
  { vm_compute. discriminate. }
  split; [exact world_up_ok|]. split; [exact Hs|]. split; [by left|].
  split; [reflexivity|]. split; [reflexivity|].
  destruct (daily_total_on_miss world_up (Some "2025-03-11"%string)
              world_up_ok Hs (or_introl eq_refl))
    as (resp & Hr & Hdata & Ht & _).
  exists resp. split; [exact Hr|]. split; [exact Hdata|].
  rewrite Ht. do 2 f_equal. apply (proj1 other_day_total).
Defined.

(** The day can be named in the basic format and as a day of an ISO week:
    both texts below name 2025-03-11, whose total is 7, and not the
    server's day. *)
Example daily_total_other_formats :
  target_day (Some "20250311"%string) world_up = day_11 ∧
  target_day (Some "2025-W11-2"%string) world_up = day_11 ∧
  (vendas_dia (Some "20250311"%string) world_up).1
  = Ret (PDict {[ "data" := PStr "2025-03-11"; "total" := PFloat (Q2Qc 7) ]}) ∧
  (vendas_dia (Some "2025-W11-2"%string) world_up).1
  = Ret (PDict {[ "data" := PStr "2025-03-11"; "total" := PFloat (Q2Qc 7) ]}).
Proof. repeat split; vm_compute; reflexivity. Qed.

(** C5, counterexample.  The selector 9999-12 parses, to the first of
    December 9999; with nothing cached and the database up, the monthly
    endpoint sends no statement at all and answers with the fallback. *)
Lemma december_9999_sends_no_query :
  parse_ano_mes "9999-12" = Ret (mkdate 9999 12 1) ∧
  cached "vendas_mes" world_up = None ∧
  db_fault world_up 0 = false ∧
  executed (vendas_mes (Some "9999-12"%string) world_up).2 = [] ∧
  ∃ resp,
    (vendas_mes (Some "9999-12"%string) world_up).1 = Ret resp ∧
    item resp "warning" = Some (PStr "cached").
Proof.
  split; [reflexivity|]. split; [reflexivity|]. split; [reflexivity|].
  split; [reflexivity|].
  eexists. split; [vm_compute; reflexivity|]. reflexivity.
Qed.

Lemma monthly_interval_witness :
  cache_ok world_up ∧
  nonempty (Some "2024-12"%string) = Some "2024-12"%string ∧
  parse_ano_mes "2024-12" = Ret (mkdate 2024 12 1) ∧
  ¬ (year (mkdate 2024 12 1) = MAXYEAR ∧ month (mkdate 2024 12 1) = 12) ∧
  sent world_up (vendas_mes (Some "2024-12"%string) world_up).2
  = [monthly_stmt (mkdate 2024 12 1) (mkdate 2025 1 1)].
Proof.
  assert (Hov : ¬ (year (mkdate 2024 12 1) = MAXYEAR
                   ∧ month (mkdate 2024 12 1) = 12)).
  { intros [H _]. discriminate H. }
  split; [exact world_up_ok|]. split; [reflexivity|]. split; [reflexivity|].
  split; [exact Hov|].
  destruct (monthly_interval world_up (Some "2024-12"%string) "2024-12"
              (mkdate 2024 12 1) world_up_ok eq_refl eq_refl Hov)
    as (_ & _ & Hl & Hnone & _).
  destruct Hl as [Hl|[Hl|Hl]].
  - destruct (Hnone eq_refl Hl).
  - exact Hl.
  - vm_compute in Hl. discriminate Hl.
Defined.

Lemma bad_period_falls_back_witness :
  cache_ok world_up ∧
  bad_date (Some "10/03/2025"%string) ∧
  bad_month (Some "2025-13"%string) ∧
  clock_in_calendar world_up ∧
  (∃ resp,
     (vendas_dia (Some "10/03/2025"%string) world_up).1 = Ret resp ∧
     item resp "data"
     = Some (PStr (isoformat (today (clock world_up (tick world_up)))))) ∧
  (∃ resp,
     (vendas_mes (Some "2025-13"%string) world_up).1 = Ret resp ∧
     item resp "ano_mes" = Some (PStr (strftime_Y_m (current_month world_up))) ∧
     item resp "total"
     = Some (PFloat (monthly_sales_total (vendas world_up)
                       (current_month world_up)
                       (first_of_next_month (current_month world_up))))).
Proof.
  assert (Hb : bad_date (Some "10/03/2025"%string)).
  { intros H. exact H. }
  assert (Hbm : bad_month (Some "2025-13"%string)).
  { intros H. exact H. }
  assert (Hc : clock_in_calendar world_up).
  { split; [reflexivity|]. intros [H _]. discriminate H. }
  split; [exact world_up_ok|]. split; [exact Hb|]. split; [exact Hbm|].
  split; [exact Hc|].
  destruct (bad_period_falls_back world_up (Some "10/03/2025"%string)
              (Some "2025-13"%string) world_up_ok) as [Hd Hm].
  split.
  - destruct (Hd Hb) as (resp & Hr & Hdata & _).
    exists resp. split; [exact Hr|exact Hdata].
  - destruct (Hm Hbm) as [_ Hm'].
    destruct (Hm' Hc) as (resp & Hr & Hl & _ & Hn & Ht).
    exists resp. split; [exact Hr|]. split; [exact Hl|].
    apply Ht; [apply Hn; reflexivity|left; reflexivity].
Defined.

(** The month served for the selector 2025-13 is the server's March
    2025. *)
Example current_month_sample :
  current_month world_up = mkdate 2025 3 1
  ∧ first_of_next_month (current_month world_up) = mkdate 2025 4 1.
Proof. done. Qed.

Lemma cache_value_never_cleared_witness :
  _metrics_cache world_up = initial_cache ∧
  ("vendas_dia"%string = "vendas_dia"%string
   ∨ "vendas_dia"%string = "vendas_mes"%string) ∧
  is_Some (cached "vendas_dia" (run world_up [Request_vendas_dia None])) ∧
  is_Some (cached "vendas_dia"
             (step (run world_up [Request_vendas_dia None])
                   (Environment [] (λ _, true) sample_clock 50))).
Proof.
  assert (Hset : is_Some (cached "vendas_dia"
                            (run world_up [Request_vendas_dia None]))).
  { eexists. vm_compute. reflexivity. }
  split; [reflexivity|]. split; [by left|]. split; [exact Hset|].
  destruct (cache_value_never_cleared world_up [Request_vendas_dia None]
              (Environment [] (λ _, true) sample_clock 50) "vendas_dia"
              eq_refl (or_introl eq_refl)) as (_ & _ & Hkeep & _).
  exact (Hkeep Hset).
Defined.

End MetricasTheory.

(** ** The expense router *)

Module DespesasTheory.
Import Despesas.

Lemma try_except_bad {A} (r : result A) (e : exn) :
  ¬ is_Ret r → try_except r (Raise e) = Raise e.
Proof. destruct r; simpl; [intros H; by destruct H|done]. Qed.

Lemma try_except_good {A} (r : result A) (e : exn) a :
  r = Ret a → try_except r (Raise e) = Ret a.
Proof. by intros ->. Qed.

(** C10, counterexample.  Two ways in which a request that is not valid
    gets no 4xx answer.  An expense sent with the operator ["not-a-uuid"]
    is created all the same: the answer is the stored expense, with a null
    operator, and no error.  And a request for a new expense that lacks
    [tipo] and has a number as category or as description, or lacks the
    category and has a number as [tipo], ends in an [AttributeError]
    before any field is checked, which is no answer of the router. *)
Lemma malformed_usuario_id_is_dropped :
  dict_get sample_payload "usuario_id" = PStr "not-a-uuid" ∧
  UUID "not-a-uuid" = Raise ValueError ∧
  (∃ resp w',
     criar_despesa sample_payload sample_world = (Ret resp, w') ∧
     item resp "usuario_id" = Some PNone ∧
     usuario_id <$> despesas w' = [None]) ∧
  criar_despesa {[ "categoria" := PInt 5 ]} sample_world
  = (Raise AttributeError, sample_world) ∧
  criar_despesa {[ "descricao" := PInt 5 ]} sample_world
  = (Raise AttributeError, sample_world) ∧
  criar_despesa {[ "tipo" := PInt 5 ]} sample_world
  = (Raise AttributeError, sample_world).
Proof.
  split; [done|]. split; [done|]. split; [|done].
  eexists _, _. split; [vm_compute; reflexivity|]. split; reflexivity.
Qed.

(** C10, as the code has it.  In the expense router: a malformed expense
    identifier is answered 400 ["id inválido"] by update and delete,
    whatever the payload; when [tipo], [categoria] and [descricao] are
    text or missing, a missing or blank one is answered 400 with the
    field's own message by create, and an amount that [float] rejects is
    answered 400 ["valor inválido"]; a missing or blank [nome] is answered
    400 by the creation of a category; an amount that [float] rejects is
    answered 400 ["valor inválido"] by the update of an expense; nothing
    is stored in any of these cases.  The operator of a new expense is the
    exception: when it is not a UUID the expense is stored without
    operator and no error is reported. *)
Theorem validation_errors_are_reported
  (repr : pyval → string) (w : World) (payload : gmap string pyval)
  (despesa_id : string) :
  (¬ is_Ret (UUID despesa_id) →
   atualizar_despesa repr despesa_id payload w
   = (Raise (HTTPException 400 "id inválido"), w) ∧
   excluir_despesa despesa_id w
   = (Raise (HTTPException 400 "id inválido"), w)) ∧
  (∀ t c d,
     or_empty_strip (dict_get payload "tipo") = Ret t →
     or_empty_strip (dict_get payload "categoria") = Ret c →
     or_empty_strip (dict_get payload "descricao") = Ret d →
     (t = ""%string →
      criar_despesa payload w
      = (Raise (HTTPException 400 "tipo é obrigatório"), w)) ∧
     (t ≠ ""%string → c = ""%string →
      criar_despesa payload w
      = (Raise (HTTPException 400 "categoria é obrigatório"), w)) ∧
     (t ≠ ""%string → c ≠ ""%string → d = ""%string →
      criar_despesa payload w
      = (Raise (HTTPException 400 "descricao é obrigatório"), w)) ∧
     (t ≠ ""%string → c ≠ ""%string → d ≠ ""%string →
      ¬ is_Ret (float (dict_get payload "valor")) →
      criar_despesa payload w
      = (Raise (HTTPException 400 "valor inválido"), w)) ∧
     (t ≠ ""%string → c ≠ ""%string → d ≠ ""%string →
      is_Ret (float (dict_get payload "valor")) →
      is_Ret (_parse_date (dict_get payload "data_pagamento") "data_pagamento") →
      is_Ret (_parse_date (dict_get payload "data_vencimento") "data_vencimento") →
      truthy (dict_get payload "usuario_id") = true →
      ¬ is_Ret (uuid_of_value (dict_get payload "usuario_id")) →
      ∃ resp w',
        criar_despesa payload w = (Ret resp, w') ∧
        item resp "usuario_id" = Some PNone ∧
        length (despesas w') = S (length (despesas w)))) ∧
  (∀ n, or_empty_strip (dict_get payload "nome") = Ret n → n = ""%string →
   criar_categoria payload w
   = (Raise (HTTPException 400 "nome é obrigatório"), w)) ∧
  (∀ did obj v,
     UUID despesa_id = Ret did →
     List.find (λ x, id x =? did) (despesas w) = Some obj →
     given payload "valor" = Some v → ¬ is_Ret (float v) →
     atualizar_despesa repr despesa_id payload w
     = (Raise (HTTPException 400 "valor inválido"), w)).
Proof.
  split; [|split; [|split]].
  - intros Hid. split.
    + unfold atualizar_despesa, mbind, M_bind, lift.
      by rewrite (try_except_bad _ _ Hid).
    + unfold excluir_despesa, mbind, M_bind, lift.
      by rewrite (try_except_bad _ _ Hid).
  - intros t c d Ht Hc Hd.
    assert (Hcreate : criar_despesa payload w
      = (if String.eqb t "" then raise (bad_request "tipo é obrigatório") else
         if String.eqb c "" then raise (bad_request "categoria é obrigatório") else
         if String.eqb d "" then raise (bad_request "descricao é obrigatório") else
         valor_f ← lift (try_except (float (dict_get payload "valor"))
                           (Raise (bad_request "valor inválido")));
         data_pagamento ← lift (_parse_date (dict_get payload "data_pagamento")
                                  "data_pagamento");
         data_vencimento ← lift (_parse_date (dict_get payload "data_vencimento")
                                   "data_vencimento");
         today ← gets today;
         let data_pagamento := default today data_pagamento in
         let data_vencimento := default data_pagamento data_vencimento in
         let usuario_id_raw := dict_get payload "usuario_id" in
         let usuario_uuid :=
           if truthy usuario_id_raw then
             match uuid_of_value usuario_id_raw with
             | Ret u => Some u
             | Raise _ => None
             end
           else None in
         obj ← add_despesa
                 (mkDespesa 0 t c d (Some valor_f)
                    (por (dict_get payload "status") (PStr "Pago"))
                    (Some data_pagamento) (Some data_vencimento) usuario_uuid
                    (truthy (por (dict_get payload "fechada") (PBool false)))
                    None None);
         mret (_serialize_despesa obj)) w).
    { unfold criar_despesa.
      unfold mbind at 1. unfold M_bind at 1. unfold lift at 1. rewrite Ht.
      unfold mbind at 1. unfold M_bind at 1. unfold lift at 1. rewrite Hc.
      unfold mbind at 1. unfold M_bind at 1. unfold lift at 1. rewrite Hd.
      done. }
    split; [|split; [|split; [|split]]].
    + intros ->. by rewrite Hcreate.
    + intros Hne ->. rewrite Hcreate.
      by destruct (String.eqb_spec t "").
    + intros Hne1 Hne2 ->. rewrite Hcreate.
      destruct (String.eqb_spec t ""); [done|].
      by destruct (String.eqb_spec c "").
    + intros Hne1 Hne2 Hne3 Hv. rewrite Hcreate.
      destruct (String.eqb_spec t ""); [done|].
      destruct (String.eqb_spec c ""); [done|].
      destruct (String.eqb_spec d ""); [done|].
      unfold mbind, M_bind, lift. by rewrite (try_except_bad _ _ Hv).
    + intros Hne1 Hne2 Hne3 Hv Hp1 Hp2 Htruthy Huuid. rewrite Hcreate.
      destruct (String.eqb_spec t ""); [done|].
      destruct (String.eqb_spec c ""); [done|].
      destruct (String.eqb_spec d ""); [done|].
      destruct (float (dict_get payload "valor")) as [vf|]; [|done].
      destruct (_parse_date (dict_get payload "data_pagamento") _) as [dp|];
        [|done].
      destruct (_parse_date (dict_get payload "data_vencimento") _) as [dv|];
        [|done].
      unfold mbind, M_bind, lift, gets, try_except, add_despesa, mret, M_ret.
      cbn beta iota zeta. rewrite Htruthy.
      destruct (uuid_of_value (dict_get payload "usuario_id")) as [u|];
        [by destruct Huuid|].
      eexists _, _. split; [reflexivity|]. split.
      * unfold _serialize_despesa. simpl usuario_id. simpl opt_str.
        unfold item. by simplify_map_eq.
      * simpl. rewrite length_app. simpl. lia.
  - intros n Hn ->. unfold criar_categoria, mbind, M_bind, lift.
    by rewrite Hn.
  - intros did obj v Hdid Hfind Hgiven Hv.
    unfold atualizar_despesa.
    unfold mbind at 1. unfold M_bind at 1. unfold lift at 1.
    rewrite (try_except_good _ _ _ Hdid).
    unfold mbind at 1. unfold M_bind at 1. unfold find_despesa, gets.
    rewrite Hfind.
    unfold mbind at 1. unfold M_bind at 1. rewrite Hgiven. unfold lift.
    rewrite try_except_bad; [done|]. by destruct (float v).
Qed.

Lemma validation_errors_are_reported_witness :
  ¬ is_Ret (UUID "zzz") ∧
  or_empty_strip (dict_get {[ "categoria" := PStr "Luz" ]} "tipo") = Ret ""%string ∧
  or_empty_strip (dict_get {[ "categoria" := PStr "Luz" ]} "categoria")
  = Ret "Luz"%string ∧
  or_empty_strip (dict_get {[ "categoria" := PStr "Luz" ]} "descricao")
  = Ret ""%string ∧
  atualizar_despesa (λ _, ""%string) "zzz" {[ "categoria" := PStr "Luz" ]}
    sample_world
  = (Raise (HTTPException 400 "id inválido"), sample_world) ∧
  excluir_despesa "zzz" sample_world
  = (Raise (HTTPException 400 "id inválido"), sample_world) ∧
  criar_despesa {[ "categoria" := PStr "Luz" ]} sample_world
  = (Raise (HTTPException 400 "tipo é obrigatório"), sample_world) ∧
  criar_categoria {[ "categoria" := PStr "Luz" ]} sample_world
  = (Raise (HTTPException 400 "nome é obrigatório"), sample_world).
Proof.
  assert (H0 : ¬ is_Ret (UUID "zzz")) by (intros H; exact H).
  assert (H1 : or_empty_strip (dict_get {[ "categoria" := PStr "Luz" ]} "tipo")
               = Ret ""%string) by reflexivity.
  assert (H2 : or_empty_strip
                 (dict_get {[ "categoria" := PStr "Luz" ]} "categoria")
               = Ret "Luz"%string) by reflexivity.
  assert (H3 : or_empty_strip
                 (dict_get {[ "categoria" := PStr "Luz" ]} "descricao")
               = Ret ""%string) by reflexivity.
  split; [exact H0|]. split; [exact H1|]. split; [exact H2|].
  split; [exact H3|].
  destruct (validation_errors_are_reported (λ _, ""%string) sample_world
              {[ "categoria" := PStr "Luz" ]} "zzz")
    as (Hid & Hcreate & Hnome & _).
  destruct (Hid H0) as [Hput Hdel].
  destruct (Hcreate "" "Luz" "" H1 H2 H3) as (Htipo & _).
  split; [exact Hput|]. split; [exact Hdel|].
  split; [exact (Htipo eq_refl)|].
  exact (Hnome "" eq_refl eq_refl).
Defined.

(** What [float] reads is stored: digits grouped by underscores, and the
    texts [nan] and [inf], are amounts for the router. *)
Example criar_despesa_reads_like_float :
  float (PStr "1_000") = Ret (Fin (Q2Qc 1000)) ∧
  (∃ resp w',
     criar_despesa (<[ "valor" := PStr "nan" ]> sample_payload) sample_world
     = (Ret resp, w') ∧
     item resp "valor" = Some PNaN ∧ valor <$> despesas w' = [Some NaN]) ∧
  criar_despesa (<[ "valor" := PStr "12,5" ]> sample_payload) sample_world
  = (Raise (HTTPException 400 "valor inválido"), sample_world) ∧
  criar_despesa (<[ "valor" := PInt (10 ^ 400) ]> sample_payload) sample_world
  = (Raise (HTTPException 400 "valor inválido"), sample_world).
Proof.
  split; [vm_compute; reflexivity|]. split; [|split; vm_compute; reflexivity].
  eexists _, _. split; [vm_compute; reflexivity|]. split; reflexivity.
Qed.

End DespesasTheory.

(** * Further properties *)

(** ** Running monadic code *)

Lemma run_bind_Ret {W A B} (m : M W A) (f : A → M W B) w a w' :
  m w = (Ret a, w') → (m ≫= f) w = f a w'.
Proof. unfold mbind, M_bind. by intros ->. Qed.

Lemma run_bind_Raise {W A B} (m : M W A) (f : A → M W B) w err w' :
  m w = (Raise err, w') → (m ≫= f) w = (Raise err, w').
Proof. unfold mbind, M_bind. by intros ->. Qed.

Lemma run_try_Ret {W A} (m h : M W A) w a w' :
  m w = (Ret a, w') → try_catch m h w = (Ret a, w').
Proof. unfold try_catch. by intros ->. Qed.

Lemma run_try_Raise {W A} (m h : M W A) w err w' :
  m w = (Raise err, w') → try_catch m h w = h w'.
Proof. unfold try_catch. by intros ->. Qed.

(** ** The inventory figures *)

Module EstoqueTheory.
Import Estoque.

Lemma execute_ok stmt w :
  db_error w (length (executed w)) = None →
  execute stmt w
  = (Ret (run_select (produtos w) stmt),
     mkworld (produtos w) (db_error w) (executed w ++ [stmt])).
Proof. unfold execute. by intros ->. Qed.

Lemma execute_fail stmt w msg :
  db_error w (length (executed w)) = Some msg →
  execute stmt w
  = (Raise DBAPIError,
     mkworld (produtos w) (db_error w) (executed w ++ [stmt])).
Proof. unfold execute. by intros ->. Qed.

Lemma omap_worth (price : column) (f : Produto → option Qc) ps :
  (∀ p, col_value p price = f p) →
  omap id ((λ p, eval_scalar p (Times (Col Produto_estoque) (Col price)))
           <$> List.filter (selected [Ativo_eq_True]) ps)
  = omap (worth f) ps.
Proof.
  intros Hf. induction ps as [|p ps IH]; [done|].
  assert (Hp : eval_scalar p (Times (Col Produto_estoque) (Col price))
               = match estoque p, f p with
                 | Some e, Some x => Some (e * x)%Qc
                 | _, _ => None
                 end).
  { cbn [eval_scalar col_value]. by rewrite Hf. }
  cbn [List.filter]. unfold selected at 1. cbn [forallb holds].
  rewrite andb_true_r.
  cbn [omap list_omap]. unfold worth at 1.
  destruct (ativo p).
  - rewrite fmap_cons. cbn [omap list_omap]. rewrite IH.
    unfold id at 1. by rewrite Hp.
  - exact IH.
Qed.

(** What a statement that does not fail gives, read as a number. *)
Lemma fetched_value (price : column) (f : Produto → option Qc) ps :
  (∀ p, col_value p price = f p) →
  Metricas.float_or_zero
    (Metricas.scalar_of
       (run_select ps
          (mkselect (coalesce_agg
                       (sum (Times (Col Produto_estoque) (Col price))) 0%Qc)
                    [Ativo_eq_True])))
  = Metricas.sum_Qc (omap (worth f) ps).
Proof.
  intros Hf. unfold run_select.
  cbn [Metricas.scalar_of what where_ eval_aggregate].
  unfold Metricas.sql_sum. rewrite (omap_worth price f ps Hf).
  destruct (omap (worth f) ps) as [|x xs]; simpl; [done|].
  by case_bool_decide.
Qed.

Lemma sent_app w l pr er : sent w (mkworld pr er (executed w ++ l)) = l.
Proof. unfold sent. simpl. by rewrite drop_app_length. Qed.

(** The endpoint, case by case. *)
Lemma estoque_run (w : World) :
  let n := length (executed w) in
  let zeros msg :=
    PDict {[ "valor_estoque" := PFloat 0%Qc;
             "valor_potencial" := PFloat 0%Qc;
             "lucro_potencial" := PFloat 0%Qc;
             "warning" := PStr msg ]} in
  metricas_estoque w
  = match db_error w n with
    | Some msg =>
        (Ret (zeros msg),
         mkworld (produtos w) (db_error w) (executed w ++ [stmt_custo]))
    | None =>
        match db_error w (S n) with
        | Some msg =>
            (Ret (zeros msg),
             mkworld (produtos w) (db_error w)
                     (executed w ++ [stmt_custo; stmt_venda]))
        | None =>
            (Ret (PDict {[ "valor_estoque" := PFloat (stock_value (produtos w));
                           "valor_potencial"
                           := PFloat (potential_value (produtos w));
                           "lucro_potencial"
                           := PFloat (potential_value (produtos w)
                                      - stock_value (produtos w))%Qc ]}),
             mkworld (produtos w) (db_error w)
                     (executed w ++ [stmt_custo; stmt_venda]))
        end
    end.
Proof.
  intros n zeros. unfold metricas_estoque.
  destruct (db_error w n) as [msg|] eqn:F1;
    [|destruct (db_error w (S n)) as [msg|] eqn:F2].
  - erewrite run_try_Raise;
      [|eapply run_bind_Raise; by apply (execute_fail _ _ msg)].
    unfold mbind, M_bind, str_e, gets, mret, M_ret. cbn [fst snd executed].
    rewrite length_app. cbn [length]. rewrite Nat.add_1_r. cbn [Nat.pred].
    cbn [db_error]. fold n. rewrite F1. reflexivity.
  - erewrite run_try_Raise.
    2:{ erewrite run_bind_Ret by by apply execute_ok.
        eapply run_bind_Raise. apply (execute_fail _ _ msg).
        cbn [executed db_error]. rewrite length_app. cbn [length].
        by rewrite Nat.add_1_r. }
    unfold mbind, M_bind, str_e, gets, mret, M_ret. cbn [fst snd executed].
    rewrite !length_app. cbn [length]. rewrite Nat.add_1_r.
    cbn [Nat.add]. rewrite Nat.add_1_r. cbn [Nat.pred db_error].
    fold n. rewrite F2. by rewrite <- app_assoc.
  - erewrite run_try_Ret; [reflexivity|].
    erewrite run_bind_Ret by by apply execute_ok.
    erewrite run_bind_Ret.
    2:{ apply execute_ok. cbn [executed db_error]. rewrite length_app.
        cbn [length]. by rewrite Nat.add_1_r. }
    cbn [produtos executed db_error]. unfold stmt_custo, stmt_venda.
    rewrite (fetched_value Produto_preco_custo preco_custo)
      by (intros; reflexivity).
    rewrite (fetched_value Produto_preco_venda preco_venda)
      by (intros; reflexivity).
    by rewrite <- app_assoc.
Qed.

(** X1.  The inventory endpoint never ends in an exception.  When the
    first statement fails the second one is not sent; when either fails
    the three figures are zero and the warning is the text of the
    exception. *)
Theorem estoque_failure_gives_zeros (w : World) (msg : string) :
  let n := length (executed w) in
  (db_error w n = Some msg
   ∨ db_error w n = None ∧ db_error w (S n) = Some msg) →
  ∃ resp,
    (metricas_estoque w).1 = Ret resp ∧
    item resp "valor_estoque" = Some (PFloat 0%Qc) ∧
    item resp "valor_potencial" = Some (PFloat 0%Qc) ∧
    item resp "lucro_potencial" = Some (PFloat 0%Qc) ∧
    item resp "warning" = Some (PStr msg) ∧
    sent w (metricas_estoque w).2
    = (match db_error w n with
       | Some _ => [stmt_custo]
       | None => [stmt_custo; stmt_venda]
       end) ∧
    produtos (metricas_estoque w).2 = produtos w.
Proof.
  intros n Hfail. rewrite (estoque_run w). cbn zeta. fold n.
  destruct Hfail as [F1|[F1 F2]]; rewrite F1; [|rewrite F2];
    (eexists; split; [reflexivity|]); cbn [fst snd];
    rewrite sent_app; done.
Qed.

Lemma estoque_failure_gives_zeros_witness :
  (db_error shop_down (length (executed shop_down))
   = Some "connection refused"%string
   ∨ db_error shop_down (length (executed shop_down)) = None
     ∧ db_error shop_down (S (length (executed shop_down)))
       = Some "connection refused"%string) ∧
  ∃ resp,
    (metricas_estoque shop_down).1 = Ret resp ∧
    item resp "valor_estoque" = Some (PFloat 0%Qc) ∧
    item resp "warning" = Some (PStr "connection refused").
Proof.
  split; [left; reflexivity|].
  destruct (estoque_failure_gives_zeros shop_down "connection refused"
              (or_introl eq_refl)) as (resp & Hr & H1 & _ & _ & Hw & _).
  exists resp. split; [exact Hr|]. split; [exact H1|exact Hw].
Defined.

(** X2.  With a database that answers, the inventory endpoint sends its
    two statements and returns the stock value (stock times cost price
    over the active products), the potential value (stock times sale
    price over the active products) and their difference as potential
    profit, without warning; a product with a missing stock or price
    counts for nothing in the sum it misses. *)
Theorem estoque_values (w : World) :
  let n := length (executed w) in
  db_error w n = None → db_error w (S n) = None →
  ∃ resp,
    (metricas_estoque w).1 = Ret resp ∧
    item resp "valor_estoque" = Some (PFloat (stock_value (produtos w))) ∧
    item resp "valor_potencial"
    = Some (PFloat (potential_value (produtos w))) ∧
    item resp "lucro_potencial"
    = Some (PFloat (potential_value (produtos w)
                    - stock_value (produtos w))%Qc) ∧
    item resp "warning" = None ∧
    sent w (metricas_estoque w).2 = [stmt_custo; stmt_venda].
Proof.
  intros n F1 F2. rewrite (estoque_run w). cbn zeta. fold n.
  rewrite F1, F2. eexists. split; [reflexivity|]. cbn [fst snd].
  rewrite sent_app. done.
Qed.

Lemma estoque_values_witness :
  db_error shop_up (length (executed shop_up)) = None ∧
  db_error shop_up (S (length (executed shop_up))) = None ∧
  ∃ resp,
    (metricas_estoque shop_up).1 = Ret resp ∧
    item resp "valor_estoque"
    = Some (PFloat (stock_value (produtos shop_up))) ∧
    item resp "lucro_potencial"
    = Some (PFloat (potential_value (produtos shop_up)
                    - stock_value (produtos shop_up))%Qc).
Proof.
  split; [reflexivity|]. split; [reflexivity|].
  destruct (estoque_values shop_up eq_refl eq_refl)
    as (resp & Hr & H1 & _ & H3 & _).
  exists resp. split; [exact Hr|]. split; [exact H1|exact H3].
Defined.

(** The sample shop: 10 x 3 + 2 x 7 = 44 at cost, 10 x 5 + 2 x 8 = 66 at
    sale price; the inactive product is not counted. *)
Example sample_stock_value :
  stock_value sample_produtos = Qc_of_Z 44
  ∧ potential_value sample_produtos = Qc_of_Z 66.
Proof. split; apply Qc_is_canon; reflexivity. Qed.

Lemma worth_app f l1 l2 :
  omap (worth f) (l1 ++ l2) = omap (worth f) l1 ++ omap (worth f) l2.
Proof.
  induction l1 as [|p l1 IH]; [done|].
  cbn [app omap list_omap]. destruct (worth f p); by rewrite IH.
Qed.

(** X3.  An inactive product counts for nothing, whatever its stock and
    prices: with or without it in the table, the answer of the inventory
    endpoint is the same. *)
Theorem estoque_ignores_inactive (w : World) (l1 l2 : list Produto)
  (p : Produto) :
  ativo p = false →
  produtos w = l1 ++ p :: l2 →
  (metricas_estoque w).1
  = (metricas_estoque (mkworld (l1 ++ l2) (db_error w) (executed w))).1.
Proof.
  intros Hp Hw.
  assert (Hsame : ∀ f, omap (worth f) (l1 ++ p :: l2)
                       = omap (worth f) (l1 ++ l2)).
  { intros f. rewrite !worth_app. cbn [omap list_omap].
    unfold worth at 2. by rewrite Hp. }
  rewrite !estoque_run. cbn zeta. cbn [executed db_error produtos].
  unfold stock_value, potential_value. rewrite Hw, !Hsame.
  destruct (db_error w (length (executed w))); [done|].
  by destruct (db_error w (S (length (executed w)))).
Qed.

Lemma estoque_ignores_inactive_witness :
  ativo (mkProduto (Some (Qc_of_Z 100)) (Some (Qc_of_Z 1))
                   (Some (Qc_of_Z 9)) false) = false ∧
  (metricas_estoque shop_up).1
  = (metricas_estoque
       (mkworld
          [ mkProduto (Some (Qc_of_Z 10)) (Some (Qc_of_Z 3))
                      (Some (Qc_of_Z 5)) true;
            mkProduto (Some (Qc_of_Z 2)) (Some (Qc_of_Z 7))
                      (Some (Qc_of_Z 8)) true ]
          (db_error shop_up) (executed shop_up))).1.
Proof.
  split; [reflexivity|].
  exact (estoque_ignores_inactive shop_up
           [mkProduto (Some (Qc_of_Z 10)) (Some (Qc_of_Z 3))
                      (Some (Qc_of_Z 5)) true]
           [mkProduto (Some (Qc_of_Z 2)) (Some (Qc_of_Z 7))
                      (Some (Qc_of_Z 8)) true]
           (mkProduto (Some (Qc_of_Z 100)) (Some (Qc_of_Z 1))
                      (Some (Qc_of_Z 9)) false)
           eq_refl eq_refl).
Defined.

End EstoqueTheory.

(** ** More on the sales metrics *)

Module MetricasMore.
Import Metricas MetricasTheory MetricasSamples.

(** X5.  A request works on the entry of its own metric only: it leaves
    the entry of the other metric as it is, and the cache keeps the same
    keys. *)
Theorem request_keeps_other_entry (w : World) (ev : event) (k k' : string) :
  cache_ok w → key_of_event ev = Some k → k' ≠ k →
  _metrics_cache (step w ev) !! k' = _metrics_cache w !! k'
  ∧ dom (_metrics_cache (step w ev)) = dom (_metrics_cache w).
Proof.
  intros Hok Hk Hne.
  destruct (request_effect w ev k Hok Hk) as (c' & l & t' & -> & Hc & _).
  simpl. destruct Hc as [->|(v & now & i & -> & _)]; [done|].
  split; [by apply lookup_insert_ne|].
  rewrite dom_insert_L.
  assert (k ∈ dom (_metrics_cache w)); [|set_solver].
  apply elem_of_dom. destruct Hok as [Hd Hm].
  destruct ev; simpl in Hk; try discriminate Hk;
    injection Hk as <-; done.
Qed.

Lemma request_keeps_other_entry_witness :
  cache_ok world_up ∧
  key_of_event (Request_vendas_dia (Some "2025-03-10"%string))
  = Some "vendas_dia"%string ∧
  "vendas_mes"%string ≠ "vendas_dia"%string ∧
  _metrics_cache (step world_up (Request_vendas_dia (Some "2025-03-10"%string)))
    !! "vendas_mes"
  = _metrics_cache world_up !! "vendas_mes".
Proof.
  assert (Hne : "vendas_mes"%string ≠ "vendas_dia"%string) by discriminate.
  split; [exact world_up_ok|]. split; [reflexivity|]. split; [exact Hne|].
  exact (proj1 (request_keeps_other_entry world_up
                  (Request_vendas_dia (Some "2025-03-10"%string))
                  "vendas_dia" "vendas_mes" world_up_ok eq_refl Hne)).
Defined.

(** X6.  An entry as old as the TTL or older is not served: with a value
    whose age is 15 seconds or more at the clock readings of the call, the
    daily endpoint sends its statement, and when the database answers it
    returns the total of the target day and puts it in the cache. *)
Theorem stale_entry_is_refetched
  (w : World) (data : option string) (e : CacheEntry) :
  cache_ok w →
  _metrics_cache w !! "vendas_dia" = Some e →
  (∀ n, (n ≤ 1)%nat →
        (_cache_ttl_seconds ≤ utc_ts (reading w n) - ts e)%Qc) →
  let alvo := target_day data w in
  let w' := (vendas_dia data w).2 in
  (sent w w' = [daily_stmt alvo] ∨ sent w w' = [daily_stmt alvo; daily_stmt alvo])
  ∧ (db_fault w (length (executed w)) = false →
     ∃ resp,
       (vendas_dia data w).1 = Ret resp ∧
       item resp "total"
       = Some (PFloat (daily_sales_total (vendas w) alvo)) ∧
       cached "vendas_dia" w' = Some (daily_sales_total (vendas w) alvo)).
Proof.
  intros _ He Hold alvo w'.
  destruct (vendas_dia_cases data w e He)
    as (alvo' & k & resp & c' & l & t' & Hk & Hrun & _ & _ & _ & Hout & Ha).
  fold alvo in Ha. subst alvo' w'. rewrite Hrun. cbn [fst snd].
  rewrite sent_moved.
  assert (Hmiss : ¬ hit_at e (moved (_metrics_cache w) [] (tick w + k) w)).
  { intros (v & _ & Hlt). simpl in Hlt.
    apply (Qclt_not_le _ _ Hlt). apply (Hold k Hk). }
  destruct Hout as [(v & _ & Hhit & _)|[Hf|Hd]]; [done| |].
  - destruct Hf as (_ & Hl & Ht & _ & now & ->). split.
    + destruct Hl as [[_ ->]|(_ & _ & ->)]; auto.
    + intros F. exists resp. rewrite fetched_daily in Ht.
      split; [done|]. split; [done|].
      unfold cached. simpl. rewrite lookup_insert_eq. simpl.
      by rewrite fetched_daily.
  - destruct Hd as (_ & F1 & _ & -> & _). split; [auto|]. congruence.
Qed.

Lemma stale_entry_is_refetched_witness :
  cache_ok world_stale ∧
  _metrics_cache world_stale !! "vendas_dia"
  = Some (mkentry (Some (Qc_of_Z 1)) (Qc_of_Z 85)) ∧
  (_cache_ttl_seconds
   ≤ utc_ts (reading world_stale 0) - Qc_of_Z 85)%Qc ∧
  today (clock world_stale (tick world_stale)) = day_10 ∧
  target_day (Some "2025-03-11"%string) world_stale = day_11 ∧
  sent world_stale (vendas_dia (Some "2025-03-11"%string) world_stale).2
  = [daily_stmt day_11] ∧
  ∃ resp,
    (vendas_dia (Some "2025-03-11"%string) world_stale).1 = Ret resp ∧
    item resp "total" = Some (PFloat (Qc_of_Z 7)).
Proof.
  assert (Hok : cache_ok world_stale) by (split; by eexists).
  assert (Hold : ∀ n, (n ≤ 1)%nat →
            (_cache_ttl_seconds
             ≤ utc_ts (reading world_stale n)
               - ts (mkentry (Some (Qc_of_Z 1)) (Qc_of_Z 85)))%Qc).
  { intros [|[|n]] Hn; [discriminate|discriminate|lia]. }
  split; [exact Hok|]. split; [reflexivity|].
  split; [exact (Hold 0%nat (Nat.le_0_l 1))|].
  split; [reflexivity|]. split; [reflexivity|].
  destruct (stale_entry_is_refetched world_stale (Some "2025-03-11"%string)
              _ Hok eq_refl Hold) as [Hl Hr]. split.
  - destruct Hl as [Hl|Hl]; [exact Hl|]. vm_compute in Hl. discriminate Hl.
  - destruct (Hr eq_refl) as (resp & Hrun & Ht & _).
    exists resp. split; [exact Hrun|].
    rewrite Ht. do 2 f_equal. apply (proj1 other_day_total).
Defined.

(** X7.  The daily endpoint sends at most two statements, and its answer
    carries the warning exactly when it sent two and both failed; in every
    other case there is no warning field. *)
Theorem daily_warning_iff_both_failed (w : World) (data : option string) :
  cache_ok w →
  let l := sent w (vendas_dia data w).2 in
  ∃ resp,
    (vendas_dia data w).1 = Ret resp ∧
    (length l ≤ 2)%nat ∧
    (item resp "warning" = Some (PStr "cached")
     ↔ length l = 2%nat
       ∧ db_fault w (length (executed w)) = true
       ∧ db_fault w (S (length (executed w))) = true) ∧
    (item resp "warning" ≠ Some (PStr "cached") →
     item resp "warning" = None).
Proof.
  intros [[e He] _] l.
  destruct (vendas_dia_cases data w e He)
    as (alvo & k & resp & c' & l' & t' & _ & Hrun & _ & _ & _ & Hout & _).
  subst l. rewrite Hrun. cbn [fst snd]. rewrite sent_moved.
  exists resp. split; [done|].
  destruct Hout as [(v & _ & _ & _ & Hw & _ & ->)
                   |[(_ & Hl & _ & Hw & _)|(_ & F1 & F2 & -> & _ & Hw & _)]].
  - rewrite Hw. simpl. split; [lia|]. split; [|done].
    split; [done|]. intros [? _]. lia.
  - rewrite Hw. destruct Hl as [[F ->]|(F1 & F2 & ->)]; simpl.
    + split; [lia|]. split; [|done]. split; [done|]. intros [? _]. lia.
    + split; [lia|]. split; [|done]. split; [done|].
      intros (_ & _ & ?). congruence.
  - rewrite Hw. simpl. split; [lia|]. split; [|done]. done.
Qed.

Lemma daily_warning_iff_both_failed_witness :
  cache_ok world_down ∧
  ∃ resp,
    (vendas_dia None world_down).1 = Ret resp ∧
    (item resp "warning" = Some (PStr "cached")
     ↔ length (sent world_down (vendas_dia None world_down).2) = 2%nat
       ∧ db_fault world_down (length (executed world_down)) = true
       ∧ db_fault world_down (S (length (executed world_down))) = true).
Proof.
  split; [exact world_down_ok|].
  destruct (daily_warning_iff_both_failed world_down None world_down_ok)
    as (resp & Hr & _ & Hiff & _).
  exists resp. split; [exact Hr|exact Hiff].
Defined.

End MetricasMore.
(** ** Sorted lists *)

Lemma StronglySorted_lookup {A} (R : A → A → Prop) (l : list A) i j a b :
  StronglySorted R l → (i < j)%nat → l !! i = Some a → l !! j = Some b →
  R a b.
Proof.
  intros Hs. revert i j. induction Hs as [|x l Hs IH Hx]; intros i j Hij Ha Hb.
  - done.
  - destruct j as [|j]; [lia|]. destruct i as [|i]; simpl in *.
    + injection Ha as <-. apply (proj1 (Forall_forall _ _) Hx).
      by eapply list_elem_of_lookup_2.
    + apply (IH i j); [lia|done..].
Qed.


(** ** More on the expense router *)

Module DespesasMore.
Import Despesas Consultas.

Lemma criar_despesa_cases (p : gmap string pyval) (w : World) :
  (∃ e, criar_despesa p w = (Raise e, w)) ∨
  (∃ t c d vf dp dv,
     or_empty_strip (dict_get p "tipo") = Ret t ∧ t ≠ ""%string ∧
     or_empty_strip (dict_get p "categoria") = Ret c ∧ c ≠ ""%string ∧
     or_empty_strip (dict_get p "descricao") = Ret d ∧ d ≠ ""%string ∧
     float (dict_get p "valor") = Ret vf ∧
     _parse_date (dict_get p "data_pagamento") "data_pagamento" = Ret dp ∧
     _parse_date (dict_get p "data_vencimento") "data_vencimento" = Ret dv ∧
     let obj :=
       mkDespesa (next_uuid w) t c d (Some vf)
         (por (dict_get p "status") (PStr "Pago"))
         (Some (default (today w) dp))
         (Some (default (default (today w) dp) dv))
         (if truthy (dict_get p "usuario_id") then
            match uuid_of_value (dict_get p "usuario_id") with
            | Ret u => Some u
            | Raise _ => None
            end
          else None)
         (truthy (por (dict_get p "fechada") (PBool false)))
         (Some (now w)) (Some (now w)) in
     criar_despesa p w
     = (Ret (_serialize_despesa obj),
        mkworld (despesas w ++ [obj]) (categorias w) (next_uuid w + 1)
                (today w) (now w))).
Proof.
  unfold criar_despesa, mbind, M_bind, lift, raise, gets, add_despesa,
    mret, M_ret.
  destruct (or_empty_strip (dict_get p "tipo")) as [t|] eqn:Ht;
    [|left; eauto].
  destruct (or_empty_strip (dict_get p "categoria")) as [c|] eqn:Hc;
    [|left; eauto].
  destruct (or_empty_strip (dict_get p "descricao")) as [d|] eqn:Hd;
    [|left; eauto].
  destruct (String.eqb_spec t ""); [left; eauto|].
  destruct (String.eqb_spec c ""); [left; eauto|].
  destruct (String.eqb_spec d ""); [left; eauto|].
  destruct (float (dict_get p "valor")) as [vf|] eqn:Hv;
    [|left; eauto].
  cbv beta iota delta [try_except].
  destruct (_parse_date (dict_get p "data_pagamento") _) as [dp|] eqn:Hp;
    [|left; eauto].
  destruct (_parse_date (dict_get p "data_vencimento") _) as [dv|] eqn:Hq;
    [|left; eauto].
  right. exists t, c, d, vf, dp, dv. by repeat split.
Qed.

(** X8.  Creating an expense is all or nothing: an error leaves the
    store as it was; a success adds one row at the end, with the identifier
    the database gave, answers with the serialization of that row, and
    changes no other row and no category. *)
Theorem criar_despesa_all_or_nothing (p : gmap string pyval) (w : World) :
  match criar_despesa p w with
  | (Raise _, w') => w' = w
  | (Ret resp, w') =>
      ∃ obj,
        despesas w' = despesas w ++ [obj] ∧
        id obj = next_uuid w ∧
        resp = _serialize_despesa obj ∧
        categorias w' = categorias w ∧
        next_uuid w' = next_uuid w + 1
  end.
Proof.
  destruct (criar_despesa_cases p w) as [[e ->]|H]; [done|].
  destruct H as (t & c & d & vf & dp & dv & _ & _ & _ & _ & _ & _ & _ & _ & _ & H).
  cbv zeta in H. rewrite H. by eexists.
Qed.

(** X9.  A row stored by the creation endpoint is complete: its type,
    category and description are the stripped texts sent and are not
    empty, its amount is what [float] reads in the amount sent, and it has
    a payment date and a due date. *)
Theorem criar_despesa_row_is_complete
  (p : gmap string pyval) (w w' : World) (resp : pyval) :
  criar_despesa p w = (Ret resp, w') →
  ∃ obj,
    last (despesas w') = Some obj ∧
    or_empty_strip (dict_get p "tipo") = Ret (tipo obj) ∧
    or_empty_strip (dict_get p "categoria") = Ret (categoria obj) ∧
    or_empty_strip (dict_get p "descricao") = Ret (descricao obj) ∧
    tipo obj ≠ ""%string ∧ categoria obj ≠ ""%string ∧
    descricao obj ≠ ""%string ∧
    (Some <$> float (dict_get p "valor")) = Ret (valor obj) ∧
    is_Some (data_pagamento obj) ∧ is_Some (data_vencimento obj).
Proof.
  intros Hrun.
  destruct (criar_despesa_cases p w) as [[e He]|H]; [congruence|].
  destruct H as (t & c & d & vf & dp & dv & Ht & Hnt & Hc & Hnc & Hd & Hnd
                 & Hv & _ & _ & H).
  cbv zeta in H. rewrite H in Hrun. injection Hrun as <- <-.
  eexists. split; [apply last_snoc|]. cbn [tipo categoria descricao valor
    data_pagamento data_vencimento].
  rewrite Hv. by repeat split.
Qed.

Lemma criar_despesa_row_is_complete_witness :
  ∃ resp w',
    criar_despesa sample_payload sample_world = (Ret resp, w') ∧
    ∃ obj, last (despesas w') = Some obj ∧ tipo obj = "Fixa"%string.
Proof.
  destruct (criar_despesa sample_payload sample_world) as [r w'] eqn:Hrun.
  assert (Hr : ∃ resp, r = Ret resp).
  { assert (is_Ret r); [|destruct r; [by eexists|done]].
    replace r with (criar_despesa sample_payload sample_world).1
      by (by rewrite Hrun).
    by vm_compute. }
  destruct Hr as [resp ->]. exists resp, w'. split; [reflexivity|].
  destruct (criar_despesa_row_is_complete _ _ _ _ Hrun)
    as (obj & Hlast & Ht & _).
  exists obj. split; [exact Hlast|].
  assert (Hs : or_empty_strip (dict_get sample_payload "tipo")
               = Ret "Fixa"%string) by reflexivity.
  rewrite Hs in Ht. by injection Ht.
Defined.

(** X10.  What creation fills in: without a payment date the row is paid
    today; without a due date it is due on its payment date; without a
    status it is ["Pago"]; without the closed flag it is open; without an
    operator it has none. *)
Theorem criar_despesa_defaults
  (p : gmap string pyval) (w w' : World) (resp : pyval) :
  criar_despesa p w = (Ret resp, w') →
  ∃ obj,
    last (despesas w') = Some obj ∧
    (truthy (dict_get p "data_pagamento") = false →
     data_pagamento obj = Some (today w)) ∧
    (truthy (dict_get p "data_vencimento") = false →
     data_vencimento obj = data_pagamento obj) ∧
    (truthy (dict_get p "status") = false → status obj = PStr "Pago") ∧
    (truthy (dict_get p "fechada") = false → fechada obj = false) ∧
    (truthy (dict_get p "usuario_id") = false → usuario_id obj = None).
Proof.
  intros Hrun.
  destruct (criar_despesa_cases p w) as [[e He]|H]; [congruence|].
  destruct H as (t & c & d & vf & dp & dv & _ & _ & _ & _ & _ & _
                 & _ & Hp & Hq & H).
  cbv zeta in H. rewrite H in Hrun. injection Hrun as <- <-.
  assert (Hnone : ∀ v f r, _parse_date v f = Ret r → truthy v = false →
                           r = None).
  { intros v f r Hr Hf. destruct v; simpl in Hr, Hf; try done.
    - by injection Hr.
    - destruct (String.eqb s ""); [by injection Hr|done]. }
  eexists. split; [apply last_snoc|].
  cbn [data_pagamento data_vencimento status fechada usuario_id].
  split; [|split; [|split; [|split]]].
  - intros Hf. by rewrite (Hnone _ _ _ Hp Hf).
  - intros Hf. by rewrite (Hnone _ _ _ Hq Hf).
  - intros Hf. unfold por. by rewrite Hf.
  - intros Hf. unfold por. by rewrite Hf.
  - intros Hf. by rewrite Hf.
Qed.

Lemma criar_despesa_defaults_witness :
  ∃ resp w',
    criar_despesa sample_payload sample_world = (Ret resp, w') ∧
    ∃ obj, last (despesas w') = Some obj ∧
           data_pagamento obj = Some (today sample_world) ∧
           data_vencimento obj = data_pagamento obj ∧
           status obj = PStr "Pago".
Proof.
  destruct (criar_despesa sample_payload sample_world) as [r w'] eqn:Hrun.
  assert (Hr : ∃ resp, r = Ret resp).
  { assert (is_Ret r); [|destruct r; [by eexists|done]].
    replace r with (criar_despesa sample_payload sample_world).1
      by (by rewrite Hrun).
    by vm_compute. }
  destruct Hr as [resp ->]. exists resp, w'. split; [reflexivity|].
  destruct (criar_despesa_defaults _ _ _ _ Hrun)
    as (obj & Hlast & H1 & H2 & H3 & _).
  exists obj. split; [exact Hlast|].
  split; [exact (H1 eq_refl)|]. split; [exact (H2 eq_refl)|exact (H3 eq_refl)].
Defined.

(** *** Update *)

Lemma atualizar_despesa_cases (repr : pyval → string) (despesa_id : string)
  (p : gmap string pyval) (w : World) :
  (∃ e, atualizar_despesa repr despesa_id p w = (Raise e, w)) ∨
  (∃ did obj v' dp' dv',
     UUID despesa_id = Ret did ∧
     List.find (λ d, id d =? did) (despesas w) = Some obj ∧
     match given p "valor" with
     | Some v => Some <$> float v
     | None => Ret (valor obj)
     end = Ret v' ∧
     match p !! "data_pagamento" with
     | Some v => _parse_date v "data_pagamento"
     | None => Ret (data_pagamento obj)
     end = Ret dp' ∧
     match p !! "data_vencimento" with
     | Some v => _parse_date v "data_vencimento"
     | None => Ret (data_vencimento obj)
     end = Ret dv' ∧
     let obj' :=
       mkDespesa (id obj)
         (match given p "tipo" with
          | Some v => strip (str repr v) | None => tipo obj end)
         (match given p "categoria" with
          | Some v => strip (str repr v) | None => categoria obj end)
         (match given p "descricao" with
          | Some v => strip (str repr v) | None => descricao obj end)
         v'
         (match given p "status" with
          | Some v => PStr (strip (str repr v)) | None => status obj end)
         dp' dv' (usuario_id obj)
         (match p !! "fechada" with
          | Some v => truthy v | None => fechada obj end)
         (created_at obj) (updated_at obj) in
     atualizar_despesa repr despesa_id p w
     = (Ret (_serialize_despesa obj'),
        mkworld ((λ d, if id d =? id obj then obj' else d) <$> despesas w)
                (categorias w) (next_uuid w) (today w) (now w))).
Proof.
  unfold atualizar_despesa, find_despesa, commit_despesa, mbind, M_bind, lift,
    raise, gets, modify, mret, M_ret.
  destruct (UUID despesa_id) as [did|] eqn:Hid; [|left; eauto].
  cbv beta iota delta [try_except].
  destruct (List.find _ (despesas w)) as [obj|] eqn:Hfind; [|left; eauto].
  destruct (given p "valor") as [v|] eqn:Hgv.
  - destruct (float v) as [vf|] eqn:Hv; [|left; eauto].
    cbv beta iota delta [try_except fmap result_fmap].
    destruct (p !! "data_pagamento") as [x|] eqn:Hx.
    + destruct (_parse_date x _) as [dp'|] eqn:Hp; [|left; eauto].
      destruct (p !! "data_vencimento") as [y|] eqn:Hy.
      * destruct (_parse_date y _) as [dv'|] eqn:Hq; [|left; eauto].
        right. exists did, obj, (Some vf), dp', dv'. by repeat split.
      * right. exists did, obj, (Some vf), dp', (data_vencimento obj).
        by repeat split.
    + destruct (p !! "data_vencimento") as [y|] eqn:Hy.
      * destruct (_parse_date y _) as [dv'|] eqn:Hq; [|left; eauto].
        right. exists did, obj, (Some vf), (data_pagamento obj), dv'.
        by repeat split.
      * right.
        exists did, obj, (Some vf), (data_pagamento obj), (data_vencimento obj).
        by repeat split.
  - destruct (p !! "data_pagamento") as [x|] eqn:Hx.
    + destruct (_parse_date x _) as [dp'|] eqn:Hp; [|left; eauto].
      destruct (p !! "data_vencimento") as [y|] eqn:Hy.
      * destruct (_parse_date y _) as [dv'|] eqn:Hq; [|left; eauto].
        right. exists did, obj, (valor obj), dp', dv'. by repeat split.
      * right. exists did, obj, (valor obj), dp', (data_vencimento obj).
        by repeat split.
    + destruct (p !! "data_vencimento") as [y|] eqn:Hy.
      * destruct (_parse_date y _) as [dv'|] eqn:Hq; [|left; eauto].
        right. exists did, obj, (valor obj), (data_pagamento obj), dv'.
        by repeat split.
      * right.
        exists did, obj, (valor obj), (data_pagamento obj),
               (data_vencimento obj).
        by repeat split.
Qed.

Lemma find_id_eq (did : uuid) (l : list DespesaRecorrente) obj :
  List.find (λ d, id d =? did) l = Some obj → id obj = did.
Proof. intros H. apply find_some in H as [_ H]. by apply Z.eqb_eq. Qed.

(** After the rows of identifier [did] have been replaced by a row of the
    same identifier, that row is the one found. *)
Lemma find_replaced (did : uuid) (l : list DespesaRecorrente) obj obj' :
  List.find (λ d, id d =? did) l = Some obj → id obj' = did →
  List.find (λ d, id d =? did)
            ((λ d, if id d =? did then obj' else d) <$> l) = Some obj'.
Proof.
  intros Hf Hid. induction l as [|x l IH]; [done|].
  simpl in *. destruct (id x =? did) eqn:Hx.
  - by rewrite Hid, Z.eqb_refl.
  - rewrite Hx. by apply IH.
Qed.

(** X11.  An update is all or nothing and touches one expense: an error
    leaves the store as it was; a success keeps the number, the order and
    the identifiers of the rows, changes no row of another identifier, and
    keeps the operator and the creation time of the row it changes. *)
Theorem atualizar_despesa_touches_one_row (repr : pyval → string)
  (despesa_id : string) (p : gmap string pyval) (w : World) :
  match atualizar_despesa repr despesa_id p w with
  | (Raise _, w') => w' = w
  | (Ret resp, w') =>
      ∃ did obj obj',
        UUID despesa_id = Ret did ∧
        List.find (λ d, id d =? did) (despesas w) = Some obj ∧
        List.find (λ d, id d =? did) (despesas w') = Some obj' ∧
        resp = _serialize_despesa obj' ∧
        id obj' = did ∧
        usuario_id obj' = usuario_id obj ∧
        created_at obj' = created_at obj ∧
        id <$> despesas w' = id <$> despesas w ∧
        (∀ i d, despesas w !! i = Some d → id d ≠ did →
                despesas w' !! i = Some d) ∧
        categorias w' = categorias w ∧ next_uuid w' = next_uuid w
  end.
Proof.
  destruct (atualizar_despesa_cases repr despesa_id p w) as [[e ->]|H];
    [done|].
  destruct H as (did & obj & v' & dp' & dv' & Hid & Hfind & _ & _ & _ & H).
  cbv zeta in H. rewrite H. clear H.
  pose proof (find_id_eq _ _ _ Hfind) as Hobj. rewrite Hobj.
  eexists did, obj, _. split; [done|]. split; [done|].
  cbn [despesas categorias next_uuid].
  split; [by apply (find_replaced _ _ obj)|].
  split; [done|]. split; [done|]. split; [done|]. split; [done|].
  split; [|split; [|done]].
  - rewrite <- list_fmap_compose. apply list_fmap_ext. intros i d _. simpl.
    destruct (Z.eqb_spec (id d) did); simpl; congruence.
  - intros i d Hd Hne. rewrite list_lookup_fmap, Hd. simpl.
    by destruct (Z.eqb_spec (id d) did).
Qed.

(** X12.  An update changes only what the payload names: a field whose key
    is absent keeps its value, and so do the type, category, description,
    amount and status when the payload gives them as null. *)
Theorem atualizar_despesa_keeps_absent_fields (repr : pyval → string)
  (despesa_id : string) (p : gmap string pyval) (w w' : World)
  (resp : pyval) (did : uuid) (obj : DespesaRecorrente) :
  UUID despesa_id = Ret did →
  List.find (λ d, id d =? did) (despesas w) = Some obj →
  atualizar_despesa repr despesa_id p w = (Ret resp, w') →
  ∃ obj',
    List.find (λ d, id d =? did) (despesas w') = Some obj' ∧
    resp = _serialize_despesa obj' ∧
    (given p "tipo" = None → tipo obj' = tipo obj) ∧
    (given p "categoria" = None → categoria obj' = categoria obj) ∧
    (given p "descricao" = None → descricao obj' = descricao obj) ∧
    (given p "valor" = None → valor obj' = valor obj) ∧
    (given p "status" = None → status obj' = status obj) ∧
    (p !! "data_pagamento" = None → data_pagamento obj' = data_pagamento obj) ∧
    (p !! "data_vencimento" = None →
     data_vencimento obj' = data_vencimento obj) ∧
    (p !! "fechada" = None → fechada obj' = fechada obj).
Proof.
  intros Hid Hfind Hrun.
  destruct (atualizar_despesa_cases repr despesa_id p w) as [[e He]|H];
    [congruence|].
  destruct H as (did' & obj0 & v' & dp' & dv' & Hid' & Hfind' & Hv & Hp & Hq
                 & H).
  cbv zeta in H. rewrite H in Hrun. clear H. injection Hrun as <- <-.
  assert (did' = did) as -> by congruence.
  assert (obj0 = obj) as -> by congruence.
  pose proof (find_id_eq _ _ _ Hfind) as Hobj.
  eexists. cbn [despesas]. rewrite Hobj.
  split; [by apply (find_replaced _ _ obj)|].
  rewrite <- Hobj. split; [done|].
  cbn [tipo categoria descricao valor status data_pagamento data_vencimento
       fechada].
  repeat split; intros Hk; rewrite Hk in *; simplify_eq; done.
Qed.

Lemma atualizar_despesa_keeps_absent_fields_witness :
  ∃ resp w',
    atualizar_despesa (λ _, ""%string) "00000000-0000-0000-0000-000000000001"
      {[ "valor" := PStr "99.5"; "tipo" := PNone ]} livro = (Ret resp, w') ∧
    ∃ obj', List.find (λ d, id d =? 1) (despesas w') = Some obj' ∧
            tipo obj' = "Fixa"%string ∧
            data_pagamento obj' = Some (mkdate 2025 3 5).
Proof.
  destruct (atualizar_despesa (λ _, ""%string)
              "00000000-0000-0000-0000-000000000001"
              {[ "valor" := PStr "99.5"; "tipo" := PNone ]} livro)
    as [r w'] eqn:Hrun.
  assert (Hr : ∃ resp, r = Ret resp).
  { assert (is_Ret r); [|destruct r; [by eexists|done]].
    replace r with (atualizar_despesa (λ _, ""%string)
              "00000000-0000-0000-0000-000000000001"
              {[ "valor" := PStr "99.5"; "tipo" := PNone ]} livro).1
      by (by rewrite Hrun).
    by vm_compute. }
  destruct Hr as [resp ->]. exists resp, w'. split; [reflexivity|].
  assert (Hu : UUID "00000000-0000-0000-0000-000000000001" = Ret 1)
    by (vm_compute; reflexivity).
  assert (Hl : List.find (λ d, id d =? 1) (despesas livro) = Some luz)
    by reflexivity.
  destruct (atualizar_despesa_keeps_absent_fields _ _ _ _ _ _ 1 luz
              Hu Hl Hrun)
    as (obj' & Hf & _ & Ht & _ & _ & _ & _ & Hp & _).
  exists obj'. split; [exact Hf|].
  split; [exact (Ht eq_refl)|exact (Hp eq_refl)].
Defined.

(** X13.  A null is not treated alike by every field of an update: a null
    or empty payment or due date clears the date of the row, and a null
    closed flag opens the expense. *)
Theorem atualizar_despesa_null_clears (repr : pyval → string)
  (despesa_id : string) (p : gmap string pyval) (w w' : World)
  (resp : pyval) (did : uuid) :
  UUID despesa_id = Ret did →
  atualizar_despesa repr despesa_id p w = (Ret resp, w') →
  ∃ obj',
    List.find (λ d, id d =? did) (despesas w') = Some obj' ∧
    (p !! "data_pagamento" = Some PNone ∨ p !! "data_pagamento" = Some (PStr "") →
     data_pagamento obj' = None ∧ item resp "data_pagamento" = Some PNone) ∧
    (p !! "data_vencimento" = Some PNone ∨ p !! "data_vencimento" = Some (PStr "") →
     data_vencimento obj' = None ∧ item resp "data_vencimento" = Some PNone) ∧
    (p !! "fechada" = Some PNone → fechada obj' = false).
Proof.
  intros Hid Hrun.
  destruct (atualizar_despesa_cases repr despesa_id p w) as [[e He]|H];
    [congruence|].
  destruct H as (did' & obj & v' & dp' & dv' & Hid' & Hfind & Hv & Hp & Hq
                 & H).
  cbv zeta in H. rewrite H in Hrun. clear H. injection Hrun as <- <-.
  assert (did' = did) as -> by congruence.
  pose proof (find_id_eq _ _ _ Hfind) as Hobj.
  eexists. cbn [despesas]. rewrite Hobj.
  split; [by apply (find_replaced _ _ obj)|].
  cbn [data_pagamento data_vencimento fechada].
  split; [|split].
  - intros [Hk|Hk]; rewrite Hk in Hp; simpl in Hp; injection Hp as <-; done.
  - intros [Hk|Hk]; rewrite Hk in Hq; simpl in Hq; injection Hq as <-; done.
  - intros Hk. by rewrite Hk.
Qed.

Lemma atualizar_despesa_null_clears_witness :
  ∃ resp w',
    atualizar_despesa (λ _, ""%string) "00000000-0000-0000-0000-000000000001"
      {[ "data_pagamento" := PNone ]} livro = (Ret resp, w') ∧
    ∃ obj', List.find (λ d, id d =? 1) (despesas w') = Some obj' ∧
            data_pagamento obj' = None.
Proof.
  destruct (atualizar_despesa (λ _, ""%string)
              "00000000-0000-0000-0000-000000000001"
              {[ "data_pagamento" := PNone ]} livro)
    as [r w'] eqn:Hrun.
  assert (Hr : ∃ resp, r = Ret resp).
  { assert (is_Ret r); [|destruct r; [by eexists|done]].
    replace r with (atualizar_despesa (λ _, ""%string)
              "00000000-0000-0000-0000-000000000001"
              {[ "data_pagamento" := PNone ]} livro).1
      by (by rewrite Hrun).
    by vm_compute. }
  destruct Hr as [resp ->]. exists resp, w'. split; [reflexivity|].
  assert (Hu : UUID "00000000-0000-0000-0000-000000000001" = Ret 1)
    by (vm_compute; reflexivity).
  destruct (atualizar_despesa_null_clears _ _ _ _ _ _ 1 Hu Hrun)
    as (obj' & Hf & Hp & _).
  exists obj'. split; [exact Hf|].
  exact (proj1 (Hp (or_introl eq_refl))).
Defined.

(** *** Delete *)

Lemma find_filter_out (did : uuid) (l : list DespesaRecorrente) :
  List.find (λ d, id d =? did) (List.filter (λ d, negb (id d =? did)) l)
  = None.
Proof.
  induction l as [|x l IH]; [done|]. simpl.
  destruct (id x =? did) eqn:Hx; simpl; [done|]. by rewrite Hx.
Qed.

Lemma excluir_despesa_run (despesa_id : string) (w : World) :
  match UUID despesa_id with
  | Raise _ =>
      excluir_despesa despesa_id w
      = (Raise (HTTPException 400 "id inválido"), w)
  | Ret did =>
      match List.find (λ d, id d =? did) (despesas w) with
      | None =>
          excluir_despesa despesa_id w
          = (Raise (HTTPException 404 "Despesa não encontrada"), w)
      | Some _ =>
          ∃ w',
            excluir_despesa despesa_id w
            = (Ret (PDict {[ "ok" := PBool true ]}), w') ∧
            despesas w'
            = List.filter (λ d, negb (id d =? did)) (despesas w) ∧
            categorias w' = categorias w ∧ next_uuid w' = next_uuid w
      end
  end.
Proof.
  unfold excluir_despesa, find_despesa, delete_despesa, mbind, M_bind, lift,
    raise, gets, modify, mret, M_ret.
  destruct (UUID despesa_id) as [did|]; [|done].
  cbv beta iota delta [try_except].
  destruct (List.find _ (despesas w)) as [obj|] eqn:Hfind; [|done].
  rewrite (find_id_eq _ _ _ Hfind). by eexists.
Qed.

(** X14.  Deleting an expense either fails and changes nothing, with 400
    for a text that is no identifier and 404 for an identifier that no row
    has, or it answers [{"ok": True}] and removes the rows of that
    identifier and no other. *)
Theorem excluir_despesa_effect (despesa_id : string) (w : World) :
  match excluir_despesa despesa_id w with
  | (Raise e, w') =>
      w' = w ∧
      (e = HTTPException 400 "id inválido" ∧ ¬ is_Ret (UUID despesa_id)
       ∨ e = HTTPException 404 "Despesa não encontrada" ∧
         ∃ did, UUID despesa_id = Ret did ∧
                ∀ d, d ∈ despesas w → id d ≠ did)
  | (Ret resp, w') =>
      resp = PDict {[ "ok" := PBool true ]} ∧
      ∃ did, UUID despesa_id = Ret did ∧
             (∃ d, d ∈ despesas w ∧ id d = did) ∧
             (∀ d, d ∈ despesas w' ↔ d ∈ despesas w ∧ id d ≠ did) ∧
             categorias w' = categorias w
  end.
Proof.
  pose proof (excluir_despesa_run despesa_id w) as H.
  destruct (UUID despesa_id) as [did|] eqn:Hid.
  - destruct (List.find _ (despesas w)) as [obj|] eqn:Hfind.
    + destruct H as (w' & -> & Hd & Hc & _). split; [done|].
      exists did. split; [done|]. split; [|split; [|done]].
      * exists obj. apply find_some in Hfind as [Hin Hobj].
        split; [by apply list_elem_of_In|by apply Z.eqb_eq].
      * intros d. rewrite Hd, !list_elem_of_In, filter_In.
        rewrite negb_true_iff, Z.eqb_neq. done.
    + rewrite H. split; [done|]. right. split; [done|].
      exists did. split; [done|]. intros d Hin.
      apply list_elem_of_In in Hin.
      pose proof (find_none _ _ Hfind d Hin) as Hno. simpl in Hno.
      by apply Z.eqb_neq.
  - rewrite H. split; [done|]. left. split; [done|]. by intros [].
Qed.

(** X15.  A deleted expense is gone: after a successful delete, the same
    request is answered 404 and an update of that expense is answered 404,
    both leaving the store as it is. *)
Theorem excluir_despesa_twice (repr : pyval → string) (despesa_id : string)
  (p : gmap string pyval) (w w' : World) (resp : pyval) :
  excluir_despesa despesa_id w = (Ret resp, w') →
  excluir_despesa despesa_id w'
  = (Raise (HTTPException 404 "Despesa não encontrada"), w') ∧
  atualizar_despesa repr despesa_id p w'
  = (Raise (HTTPException 404 "Despesa não encontrada"), w').
Proof.
  intros Hrun. pose proof (excluir_despesa_run despesa_id w) as H.
  destruct (UUID despesa_id) as [did|] eqn:Hid; [|congruence].
  destruct (List.find _ (despesas w)) as [obj|] eqn:Hfind; [|congruence].
  destruct H as (w'' & H & Hd & _). rewrite H in Hrun. injection Hrun as _ ->.
  assert (Hgone : List.find (λ d, id d =? did) (despesas w') = None).
  { rewrite Hd. apply find_filter_out. }
  split.
  - unfold excluir_despesa, find_despesa, mbind, M_bind, lift, raise, gets.
    rewrite Hid. cbv beta iota delta [try_except]. by rewrite Hgone.
  - unfold atualizar_despesa, find_despesa, mbind, M_bind, lift, raise, gets.
    rewrite Hid. cbv beta iota delta [try_except]. by rewrite Hgone.
Qed.

Lemma excluir_despesa_twice_witness :
  ∃ resp w',
    excluir_despesa "00000000-0000-0000-0000-000000000002" livro
    = (Ret resp, w') ∧
    excluir_despesa "00000000-0000-0000-0000-000000000002" w'
    = (Raise (HTTPException 404 "Despesa não encontrada"), w').
Proof.
  destruct (excluir_despesa "00000000-0000-0000-0000-000000000002" livro)
    as [r w'] eqn:Hrun.
  assert (Hr : ∃ resp, r = Ret resp).
  { assert (is_Ret r); [|destruct r; [by eexists|done]].
    replace r with
      (excluir_despesa "00000000-0000-0000-0000-000000000002" livro).1
      by (by rewrite Hrun).
    by vm_compute. }
  destruct Hr as [resp ->]. exists resp, w'. split; [reflexivity|].
  exact (proj1 (excluir_despesa_twice (λ _, ""%string) _ ∅ _ _ _ Hrun)).
Defined.

(** *** Categories *)

Lemma find_app_first {A} (f : A → bool) (l l' : list A) :
  List.find f (l ++ l')
  = match List.find f l with Some x => Some x | None => List.find f l' end.
Proof.
  induction l as [|x l IH]; [done|]. simpl. by destruct (f x).
Qed.

Lemma lower_empty (s : string) : lower s = ""%string → s = ""%string.
Proof. by destruct s. Qed.

Lemma filter_nil_false {A} (f : A → bool) (l : list A) (x : A) :
  List.filter f l = [] → x ∈ l → f x = false.
Proof.
  intros E Hx. destruct (f x) eqn:Hf; [|done].
  assert (Hin : In x (List.filter f l)).
  { apply filter_In. split; [by apply list_elem_of_In|done]. }
  rewrite E in Hin. destruct Hin.
Qed.

Lemma criar_categoria_cases (p : gmap string pyval) (w : World) :
  (∃ e, criar_categoria p w = (Raise e, w)) ∨
  (∃ n, or_empty_strip (dict_get p "nome") = Ret n ∧ n ≠ ""%string ∧
     ((∃ c, same_name n w = [c] ∧
         criar_categoria p w
         = (Ret (PDict {[ "id" := PStr (uuid_str (cat_id c));
                          "nome" := PStr (nome c) ]}), w))
      ∨ (same_name n w = [] ∧
         criar_categoria p w
         = (Ret (PDict {[ "id" := PStr (uuid_str (next_uuid w));
                          "nome" := PStr n ]}),
            mkworld (despesas w) (categorias w ++ [mkCategoria (next_uuid w) n])
                    (next_uuid w + 1) (today w) (now w))))).
Proof.
  unfold criar_categoria, mbind, M_bind, lift, raise, gets, mret, M_ret.
  destruct (or_empty_strip (dict_get p "nome")) as [n|] eqn:Hn;
    [|left; eauto].
  destruct (String.eqb_spec n ""); [left; eauto|].
  destruct (same_name n w) as [|c [|c' l]] eqn:E; cbn [scalar_one_or_none].
  - right. exists n. split; [done|]. split; [done|]. right. done.
  - right. exists n. split; [done|]. split; [done|]. left. by exists c.
  - left. eauto.
Qed.

Lemma same_name_lower (n n' : string) (w : World) :
  lower n' = lower n → same_name n' w = same_name n w.
Proof. unfold same_name. by intros ->. Qed.

(** X16.  The creation of a category is idempotent, whatever the case of
    the letters: once a name has been accepted, a request with a name that
    differs from it by case only gets the same answer and stores nothing. *)
Theorem criar_categoria_reuses_name
  (p p' : gmap string pyval) (w w' : World) (resp : pyval) (n n' : string) :
  or_empty_strip (dict_get p "nome") = Ret n →
  or_empty_strip (dict_get p' "nome") = Ret n' →
  lower n' = lower n →
  criar_categoria p w = (Ret resp, w') →
  criar_categoria p' w' = (Ret resp, w').
Proof.
  intros Hn Hn' Hlow Hrun.
  destruct (criar_categoria_cases p w) as [[e He]|(n0 & Hn0 & Hne & H)];
    [congruence|].
  assert (n0 = n) as -> by congruence.
  assert (Hne' : n' ≠ ""%string).
  { intros ->. apply Hne, lower_empty. by rewrite <- Hlow. }
  assert (Hsame : ∀ c, same_name n' w' = [c] →
            criar_categoria p' w'
            = (Ret (PDict {[ "id" := PStr (uuid_str (cat_id c));
                             "nome" := PStr (nome c) ]}), w')).
  { intros c E.
    unfold criar_categoria, mbind, M_bind, lift, raise, gets, mret, M_ret.
    rewrite Hn'. destruct (String.eqb_spec n' ""); [done|]. by rewrite E. }
  destruct H as [(c & E & H)|[E H]].
  - rewrite H in Hrun. injection Hrun as <- <-.
    apply Hsame. by rewrite (same_name_lower n n' w Hlow).
  - rewrite H in Hrun. injection Hrun as <- <-.
    apply (Hsame (mkCategoria (next_uuid w) n)).
    rewrite (same_name_lower n n' _ Hlow). unfold same_name in *.
    cbn [categorias]. rewrite List.filter_app, E. cbn [List.filter nome].
    by rewrite String.eqb_refl.
Qed.

Lemma criar_categoria_reuses_name_witness :
  ∃ resp w',
    criar_categoria {[ "nome" := PStr " Aluguel " ]} livro = (Ret resp, w') ∧
    criar_categoria {[ "nome" := PStr "ALUGUEL" ]} w' = (Ret resp, w').
Proof.
  destruct (criar_categoria {[ "nome" := PStr " Aluguel " ]} livro)
    as [r w'] eqn:Hrun.
  assert (Hr : ∃ resp, r = Ret resp).
  { assert (is_Ret r); [|destruct r; [by eexists|done]].
    replace r with (criar_categoria {[ "nome" := PStr " Aluguel " ]} livro).1
      by (by rewrite Hrun).
    by vm_compute. }
  destruct Hr as [resp ->]. exists resp, w'. split; [reflexivity|].
  assert (H1 : or_empty_strip (dict_get {[ "nome" := PStr " Aluguel " ]} "nome")
               = Ret "Aluguel"%string) by reflexivity.
  assert (H2 : or_empty_strip (dict_get {[ "nome" := PStr "ALUGUEL" ]} "nome")
               = Ret "ALUGUEL"%string) by reflexivity.
  exact (criar_categoria_reuses_name _ _ _ _ _ _ _ H1 H2 eq_refl Hrun).
Defined.

(** X17.  The category endpoint never stores a second category whose name
    differs from a stored one by case only: names that are distinct in
    lower case stay so after any request. *)
Theorem criar_categoria_keeps_names_distinct
  (p : gmap string pyval) (w : World) :
  NoDup ((λ c, lower (nome c)) <$> categorias w) →
  NoDup ((λ c, lower (nome c)) <$> categorias (criar_categoria p w).2).
Proof.
  intros Hnd.
  destruct (criar_categoria_cases p w) as [[e ->]|(n & _ & _ & H)]; [done|].
  destruct H as [(c & _ & ->)|[E ->]]; [done|].
  cbn [snd categorias]. rewrite fmap_app. apply NoDup_app.
  split; [done|]. split; [|apply NoDup_singleton].
  intros x Hx Hx'. apply list_elem_of_fmap in Hx' as (c' & -> & Hc').
  apply list_elem_of_singleton in Hc' as ->. cbn [nome] in Hx.
  apply list_elem_of_fmap in Hx as (c & Hc & Hin).
  pose proof (filter_nil_false _ _ c E Hin) as Hno. simpl in Hno.
  rewrite <- Hc, String.eqb_refl in Hno. done.
Qed.

Lemma criar_categoria_keeps_names_distinct_witness :
  NoDup ((λ c, lower (nome c)) <$> categorias livro) ∧
  NoDup ((λ c, lower (nome c))
           <$> categorias (criar_categoria {[ "nome" := PStr "luz" ]} livro).2).
Proof.
  assert (H : NoDup ((λ c, lower (nome c)) <$> categorias livro)).
  { apply (bool_decide_unpack _). by vm_compute. }
  split; [exact H|].
  exact (criar_categoria_keeps_names_distinct {[ "nome" := PStr "luz" ]} livro H).
Defined.

End DespesasMore.

(** ** The text of an identifier *)

Module UuidText.
Import Despesas UuidChars.

Lemma hex_char_spec n :
  hex_val (hex_char n) = Some (n mod 16)
  ∧ is_number_space (hex_char n) = false
  ∧ is_brace (hex_char n) = false
  ∧ Ascii.eqb "u" (hex_char n) = false
  ∧ Ascii.eqb "-" (hex_char n) = false
  ∧ Ascii.eqb (hex_char n) "+" = false
  ∧ Ascii.eqb (hex_char n) "x" = false
  ∧ Ascii.eqb (hex_char n) "X" = false.
Proof.
  unfold hex_char.
  pose proof (Z.mod_pos_bound n 16 eq_refl) as Hr.
  set (r := n mod 16) in *.
  assert (H : r = 0 ∨ r = 1 ∨ r = 2 ∨ r = 3 ∨ r = 4 ∨ r = 5 ∨ r = 6
              ∨ r = 7 ∨ r = 8 ∨ r = 9 ∨ r = 10 ∨ r = 11 ∨ r = 12
              ∨ r = 13 ∨ r = 14 ∨ r = 15) by lia.
  clearbody r.
  repeat (destruct H as [->|H]; [done|]). by subst.
Qed.

Lemma hex_padded_hexish width n : Forall hexish (hex_padded width n).
Proof.
  revert n. induction width as [|k IH]; intros n; simpl; [constructor|].
  apply Forall_app. split; [apply IH|]. repeat constructor. by exists n.
Qed.

Lemma hex_padded_length width n : length (hex_padded width n) = width.
Proof.
  revert n. induction width as [|k IH]; intros n; simpl; [done|].
  rewrite length_app, IH. simpl. lia.
Qed.

Lemma remove_all_absent (p0 : ascii) (pat l : list ascii) :
  Forall (λ c, Ascii.eqb p0 c = false) l → remove_all (p0 :: pat) 0 l = l.
Proof.
  induction 1 as [|c l Hc _ IH]; [done|].
  cbn [remove_all is_prefix]. rewrite Hc. cbn [andb]. by rewrite IH.
Qed.

Lemma remove_all_hyphens (l : list ascii) :
  remove_all ["-"%char] 0 l
  = List.filter (λ c, negb (Ascii.eqb "-" c)) l.
Proof.
  induction l as [|c l IH]; [done|].
  cbn [remove_all is_prefix List.filter length Nat.sub].
  destruct (Ascii.eqb "-" c); cbn [andb negb]; by rewrite IH.
Qed.

Lemma filter_hexish (l : list ascii) :
  Forall hexish l → List.filter (λ c, negb (Ascii.eqb "-" c)) l = l.
Proof.
  induction 1 as [|c l [n ->] _ IH]; [done|]. cbn [List.filter].
  destruct (hex_char_spec n) as (_ & _ & _ & _ & -> & _). cbn [negb].
  by rewrite IH.
Qed.

Lemma lstrip_braces_head (c : ascii) (l : list ascii) :
  is_brace c = false → lstrip_braces (c :: l) = c :: l.
Proof. intros H. simpl. by rewrite H. Qed.

Lemma lstrip_number_head (c : ascii) (l : list ascii) :
  is_number_space c = false → lstrip_number (c :: l) = c :: l.
Proof. intros H. simpl. by rewrite H. Qed.

(** The digits of [hex_padded] are read back as the number they write. *)
Lemma hex_digits_app st acc l k :
  Forall hexish l → l ≠ [] →
  hex_digits st acc (l ++ k)
  = hex_digits AfterDigit
      (fold_left (λ a c, 16 * a + default 0 (hex_val c)) l acc) k.
Proof.
  intros Hl. revert st acc. induction Hl as [|c l [n ->] Hl IH];
    intros st acc Hne; [done|].
  cbn [app hex_digits fold_left].
  destruct (hex_char_spec n) as (-> & _). cbn [default].
  destruct l as [|c' l']; [done|]. by apply IH.
Qed.

Lemma fold_hex_padded width n acc :
  fold_left (λ a c, 16 * a + default 0 (hex_val c)) (hex_padded width n) acc
  = acc * 16 ^ Z.of_nat width + n mod 16 ^ Z.of_nat width.
Proof.
  revert n acc. induction width as [|k IH]; intros n acc.
  - simpl. rewrite Z.mod_1_r. lia.
  - cbn [hex_padded]. rewrite fold_left_app, IH. cbn [fold_left].
    destruct (hex_char_spec n) as (-> & _). cbn [default].
    assert (Hp : 0 < 16 ^ Z.of_nat k) by (apply Z.pow_pos_nonneg; lia).
    rewrite Nat2Z.inj_succ, Z.pow_succ_r by lia.
    rewrite (Z.rem_mul_r n 16 (16 ^ Z.of_nat k)) by lia.
    unfold Datatypes.id. ring.
Qed.

Lemma take_drop_groups {A} (h : list A) :
  take 8 h ++ take 4 (drop 8 h) ++ take 4 (drop 12 h)
  ++ take 4 (drop 16 h) ++ drop 20 h = h.
Proof.
  change 20%nat with (16 + 4)%nat. rewrite <- (drop_drop h 4 16), take_drop.
  change 16%nat with (12 + 4)%nat. rewrite <- (drop_drop h 4 12), take_drop.
  change 12%nat with (8 + 4)%nat. rewrite <- (drop_drop h 4 8), take_drop.
  apply take_drop.
Qed.

Lemma strip_ends (p : ascii → bool) (strip : list ascii → list ascii) :
  strip [] = [] →
  (∀ c l, p c = false → strip (c :: l) = c :: l) →
  ∀ l, Forall (λ c, p c = false) l → rev (strip (rev (strip l))) = l.
Proof.
  intros Hnil Hs l Hl. destruct l as [|c m].
  { rewrite Hnil. simpl. by rewrite Hnil. }
  rewrite Hs by (by inversion Hl).
  destruct (exists_last (l := c :: m)) as (m' & c' & E); [done|].
  rewrite E in *. rewrite rev_unit, Hs.
  - simpl. by rewrite rev_involutive.
  - apply Forall_app in Hl as [_ Hl]. by inversion Hl.
Qed.

(** [uuid.UUID(str(u)) == u] *)
Lemma UUID_uuid_str (u : uuid) :
  0 ≤ u < 2 ^ 128 → UUID (uuid_str u) = Ret u.
Proof.
  intros Hu. unfold UUID, uuid_str.
  rewrite list_ascii_of_string_of_list_ascii. cbv zeta.
  pose proof (hex_padded_hexish 32 u) as Hh.
  pose proof (hex_padded_length 32 u) as Hlen.
  pose proof (fold_hex_padded 32 u 0) as Hval.
  pose proof (hex_digits_app AtStart 0 (hex_padded 32 u) [] Hh) as Hdig.
  rewrite app_nil_r in Hdig.
  set (h := hex_padded 32 u) in *. clearbody h.
  set (l := take 8 h ++ _).
  assert (Hplain : Forall plain l).
  { assert (Hpl : ∀ k, Forall hexish k → Forall plain k).
    { intros k Hk. eapply Forall_impl; [exact Hk|]. intros c Hc. by left. }
    unfold l. rewrite !Forall_app, !Forall_singleton.
    repeat split; try (by right); apply Hpl;
      auto using Forall_take, Forall_drop. }
  assert (Hu' : Forall (λ c, Ascii.eqb "u" c = false) l).
  { eapply Forall_impl; [exact Hplain|]. intros c [[n ->]| ->]; [|done].
    by destruct (hex_char_spec n) as (_ & _ & _ & -> & _). }
  assert (Hb : Forall (λ c, is_brace c = false) l).
  { eapply Forall_impl; [exact Hplain|]. intros c [[n ->]| ->]; [|done].
    by destruct (hex_char_spec n) as (_ & _ & -> & _). }
  assert (Hs : Forall (λ c, is_number_space c = false) h).
  { eapply Forall_impl; [exact Hh|]. intros c [n ->].
    by destruct (hex_char_spec n) as (_ & -> & _). }
  change (list_ascii_of_string "urn:")
    with ("u"%char :: list_ascii_of_string "rn:").
  change (list_ascii_of_string "uuid:")
    with ("u"%char :: list_ascii_of_string "uid:").
  rewrite (remove_all_absent "u" (list_ascii_of_string "rn:") l Hu').
  rewrite (remove_all_absent "u" (list_ascii_of_string "uid:") l Hu').
  rewrite (strip_ends is_brace lstrip_braces eq_refl lstrip_braces_head l Hb).
  rewrite remove_all_hyphens. unfold l. rewrite !List.filter_app.
  assert (Hd : List.filter (λ c, negb (Ascii.eqb "-" c)) ["-"%char] = [])
    by done.
  rewrite !Hd. cbn [app].
  rewrite !filter_hexish
    by (try (by apply Forall_take); try (by apply Forall_drop);
        by apply Forall_take, Forall_drop).
  rewrite take_drop_groups, Hlen, bool_decide_eq_true_2 by done.
  unfold int16, strip_number. cbv zeta.
  rewrite (strip_ends is_number_space lstrip_number eq_refl
             lstrip_number_head h Hs).
  destruct h as [|c0 [|c1 m]]; [done..|].
  apply Forall_cons in Hh as [[n0 ->] Hh].
  apply Forall_cons in Hh as [[n1 ->] Hh].
  destruct (hex_char_spec n0) as (_ & _ & _ & _ & _ & -> & _).
  destruct (hex_char_spec n1) as (_ & _ & _ & _ & _ & _ & -> & ->).
  cbn [orb]. rewrite andb_false_r.
  rewrite Hdig by done. cbn [hex_digits]. rewrite Hval. f_equal.
  change (16 ^ Z.of_nat 32) with (2 ^ 128). rewrite Z.mod_small; lia.
Qed.

End UuidText.

(** ** Round trips of the expense router *)

Module DespesasRoundTrips.
Import Despesas DespesasMore UuidText.

Lemma find_absent (did : uuid) (l : list DespesaRecorrente) :
  (∀ d, d ∈ l → id d ≠ did) → List.find (λ d, id d =? did) l = None.
Proof.
  induction l as [|x l IH]; intros H; [done|]. simpl.
  destruct (Z.eqb_spec (id x) did) as [E|_].
  - exfalso. apply (H x); [by left|done].
  - apply IH. intros d Hd. apply H. by right.
Qed.

Lemma filter_keeps_others (did : uuid) (l : list DespesaRecorrente) :
  (∀ d, d ∈ l → id d ≠ did) →
  List.filter (λ d, negb (id d =? did)) l = l.
Proof.
  induction l as [|x l IH]; intros H; [done|]. simpl.
  destruct (Z.eqb_spec (id x) did) as [E|_].
  - exfalso. apply (H x); [by left|done].
  - simpl. f_equal. apply IH. intros d Hd. apply H. by right.
Qed.

(** X18.  The identifier in the answer of a creation designates the new
    expense: it is a text that [uuid.UUID] reads as the identifier the
    database gave, and deleting by it removes the new row and leaves the
    rows that were there. *)
Theorem created_expense_can_be_deleted
  (p : gmap string pyval) (w w' : World) (resp : pyval) :
  0 ≤ next_uuid w < 2 ^ 128 →
  (∀ d, d ∈ despesas w → id d ≠ next_uuid w) →
  criar_despesa p w = (Ret resp, w') →
  ∃ s w'',
    item resp "id" = Some (PStr s) ∧
    UUID s = Ret (next_uuid w) ∧
    excluir_despesa s w' = (Ret (PDict {[ "ok" := PBool true ]}), w'') ∧
    despesas w'' = despesas w.
Proof.
  intros Hu Hfresh Hrun.
  destruct (criar_despesa_cases p w) as [[e He]|H]; [congruence|].
  destruct H as (t & c & d & vf & dp & dv & _ & _ & _ & _ & _ & _ & _ & _ & _
                 & H).
  cbv zeta in H. rewrite H in Hrun. clear H. injection Hrun as <- <-.
  pose proof (UUID_uuid_str (next_uuid w) Hu) as Hid.
  exists (uuid_str (next_uuid w)).
  set (obj := mkDespesa (next_uuid w) _ _ _ _ _ _ _ _ _ _ _).
  pose proof (excluir_despesa_run (uuid_str (next_uuid w))
                (mkworld (despesas w ++ [obj]) (categorias w)
                   (next_uuid w + 1) (today w) (now w))) as Hdel.
  rewrite Hid in Hdel. cbn [despesas] in Hdel.
  rewrite find_app_first, (find_absent _ _ Hfresh) in Hdel.
  cbn [List.find] in Hdel.
  replace (id obj =? next_uuid w) with true in Hdel
    by (symmetry; apply Z.eqb_refl).
  destruct Hdel as (w'' & Hdel & Hrows & _).
  exists w''. split; [done|]. split; [done|]. split; [done|].
  rewrite Hrows, List.filter_app, (filter_keeps_others _ _ Hfresh).
  cbn [List.filter].
  replace (id obj =? next_uuid w) with true by (symmetry; apply Z.eqb_refl).
  cbn [negb]. apply app_nil_r.
Qed.

Lemma created_expense_can_be_deleted_witness :
  ∃ resp w' s w'',
    criar_despesa sample_payload sample_world = (Ret resp, w') ∧
    item resp "id" = Some (PStr s) ∧
    excluir_despesa s w' = (Ret (PDict {[ "ok" := PBool true ]}), w'') ∧
    despesas w'' = despesas sample_world.
Proof.
  destruct (criar_despesa sample_payload sample_world) as [r w'] eqn:Hrun.
  assert (Hr : ∃ resp, r = Ret resp).
  { assert (is_Ret r); [|destruct r; [by eexists|done]].
    replace r with (criar_despesa sample_payload sample_world).1
      by (by rewrite Hrun).
    by vm_compute. }
  destruct Hr as [resp ->].
  assert (Hu : 0 ≤ next_uuid sample_world < 2 ^ 128) by (by vm_compute).
  assert (Hf : ∀ d, d ∈ despesas sample_world → id d ≠ next_uuid sample_world).
  { intros d Hd. by apply elem_of_nil in Hd. }
  destruct (created_expense_can_be_deleted _ _ _ _ Hu Hf Hrun)
    as (s & w'' & H1 & _ & H2 & H3).
  by exists resp, w', s, w''.
Defined.

Lemma isoformat_not_empty (d : date) : String.eqb (isoformat d) "" = false.
Proof.
  unfold isoformat. cbn [zero_padded app]. done.
Qed.

Lemma _parse_date_isoformat (d : date) (field : string) :
  valid d → _parse_date (PStr (isoformat d)) field = Ret (Some d).
Proof.
  intros Hd. unfold _parse_date.
  by rewrite isoformat_not_empty, (fromisoformat_isoformat d Hd).
Qed.

Lemma _parse_date_valid (v : pyval) (field : string) (d : date) :
  _parse_date v field = Ret (Some d) → valid d.
Proof.
  destruct v; simpl; try done.
  destruct (String.eqb s ""); [done|].
  destruct (fromisoformat s) as [x|] eqn:E; simpl; [|done].
  intros [= <-]. by eapply fromisoformat_valid.
Qed.

(** X19.  The dates of a new expense are calendar dates and survive the
    round trip through the answer: when the server's day is a calendar
    date, the payment and due dates in the answer of a creation are read
    by [_parse_date] as the dates that were stored. *)
Theorem created_dates_parse_back
  (p : gmap string pyval) (w w' : World) (resp : pyval) :
  valid (today w) →
  criar_despesa p w = (Ret resp, w') →
  ∃ obj dp dv v1 v2,
    last (despesas w') = Some obj ∧
    data_pagamento obj = Some dp ∧ data_vencimento obj = Some dv ∧
    valid dp ∧ valid dv ∧
    item resp "data_pagamento" = Some v1 ∧
    _parse_date v1 "data_pagamento" = Ret (Some dp) ∧
    item resp "data_vencimento" = Some v2 ∧
    _parse_date v2 "data_vencimento" = Ret (Some dv).
Proof.
  intros Htoday Hrun.
  destruct (criar_despesa_cases p w) as [[e He]|H]; [congruence|].
  destruct H as (t & c & d & vf & dp & dv & _ & _ & _ & _ & _ & _ & _ & Hp & Hq
                 & H).
  cbv zeta in H. rewrite H in Hrun. clear H. injection Hrun as <- <-.
  assert (Hdp : valid (default (today w) dp)).
  { destruct dp as [x|]; [|done]. by eapply _parse_date_valid. }
  assert (Hdv : valid (default (default (today w) dp) dv)).
  { destruct dv as [x|]; [|done]. by eapply _parse_date_valid. }
  eexists _, _, _, _, _. split; [apply last_snoc|].
  cbn [data_pagamento data_vencimento despesas].
  split; [done|]. split; [done|]. split; [done|]. split; [done|].
  split; [done|]. split; [by apply _parse_date_isoformat|].
  split; [done|]. by apply _parse_date_isoformat.
Qed.

Lemma created_dates_parse_back_witness :
  ∃ resp w' v1 dp,
    criar_despesa sample_payload sample_world = (Ret resp, w') ∧
    item resp "data_pagamento" = Some v1 ∧
    _parse_date v1 "data_pagamento" = Ret (Some dp) ∧ valid dp.
Proof.
  destruct (criar_despesa sample_payload sample_world) as [r w'] eqn:Hrun.
  assert (Hr : ∃ resp, r = Ret resp).
  { assert (is_Ret r); [|destruct r; [by eexists|done]].
    replace r with (criar_despesa sample_payload sample_world).1
      by (by rewrite Hrun).
    by vm_compute. }
  destruct Hr as [resp ->].
  assert (Hv : valid (today sample_world)) by reflexivity.
  destruct (created_dates_parse_back _ _ _ _ Hv Hrun)
    as (obj & dp & dv & v1 & v2 & _ & _ & _ & Hdp & _ & H1 & H2 & _).
  exists resp, w', v1, dp. split; [reflexivity|]. split; [exact H1|].
  split; [exact H2|exact Hdp].
Defined.

End DespesasRoundTrips.

(** ** Listings and totals of the expense router *)

Module ConsultasTheory.
Import Despesas Consultas.

Lemma created_compare_ok : compare_ok created_compare.
Proof.
  pose proof datetime_compare_ok as Hc. split.
  - intros [x|] [y|] H; simpl in H; try done.
    by rewrite (c_eq _ Hc x y H).
  - intros [x|]; simpl; [apply (c_refl _ Hc)|done].
  - intros [x|] [y|]; simpl; try done. apply (c_antisym _ Hc).
  - intros [x|] [y|] [z|]; simpl; try done. apply (c_trans _ Hc).
Qed.

Lemma desc_leb_total a b : desc_leb a b = true ∨ desc_leb b a = true.
Proof.
  unfold desc_leb. rewrite (c_antisym _ created_compare_ok a b).
  destruct (created_compare a b); simpl; auto.
Qed.

Lemma desc_leb_trans a b c :
  desc_leb a b = true → desc_leb b c = true → desc_leb a c = true.
Proof.
  pose proof created_compare_ok as Hc. unfold desc_leb.
  destruct (created_compare a b) eqn:E1; [| done |].
  - apply (c_eq _ Hc) in E1. by subst.
  - destruct (created_compare b c) eqn:E2; [| done |].
    + apply (c_eq _ Hc) in E2. subst. by rewrite E1.
    + intros _ _.
      rewrite (c_antisym _ Hc) in E1. rewrite (c_antisym _ Hc) in E2.
      rewrite (c_antisym _ Hc).
      destruct (created_compare b a) eqn:F1; try done.
      destruct (created_compare c b) eqn:F2; try done.
      by rewrite (c_trans _ Hc c b a F2 F1).
Qed.

Lemma desc_leb_spec a b :
  desc_leb a b = true ↔ created_compare a b ≠ Lt.
Proof. unfold desc_leb. destruct (created_compare a b); naive_solver. Qed.


Lemma listar_despesas_run (f : Z) (c t a b : option string)
  (di df : option date) (w : World) :
  _parse_date (param a) "data_inicio" = Ret di →
  _parse_date (param b) "data_fim" = Ret df →
  listar_despesas f c t a b w
  = (Ret (PList (_serialize_despesa
                   <$> rows_of (listing_query f c t di df) (despesas w))), w).
Proof.
  intros Ha Hb.
  unfold listar_despesas, execute, mbind, M_bind, lift, gets, mret, M_ret.
  by rewrite Ha, Hb.
Qed.

Lemma date_ge_spec p x :
  match date_compare p x with Lt => false | _ => true end = true
  ↔ date_compare p x ≠ Lt.
Proof. destruct (date_compare p x); naive_solver. Qed.

Lemma date_le_spec p x :
  match date_compare p x with Gt => false | _ => true end = true
  ↔ date_compare p x ≠ Gt.
Proof. destruct (date_compare p x); naive_solver. Qed.

(** The rows a listing selects. *)
Lemma listing_query_holds (f : Z) (c t : option string) (di df : option date)
  (d : DespesaRecorrente) :
  forallb (holds d) (where_ (listing_query f c t di df)) = true
  ↔ fechada d = (f =? 1)
    ∧ (∀ x, if_text c = Some x → categoria d = x)
    ∧ (∀ x, if_text t = Some x → tipo d = x)
    ∧ (∀ x, di = Some x →
         ∃ p, data_pagamento d = Some p ∧ date_compare p x ≠ Lt)
    ∧ (∀ x, df = Some x →
         ∃ p, data_pagamento d = Some p ∧ date_compare p x ≠ Gt).
Proof.
  unfold listing_query.
  destruct (if_text c) as [c'|], (if_text t) as [t'|], di as [x|], df as [y|];
    cbn [where_ where' order_by_desc select_despesas app forallb holds];
    rewrite ?andb_true_iff, ?andb_true_r, ?String.eqb_eq, ?eqb_true_iff;
    (destruct (data_pagamento d) as [pg|];
     [rewrite ?date_ge_spec, ?date_le_spec|]);
    naive_solver.
Qed.

Lemma listing_rows (f : Z) (c t : option string) (di df : option date)
  (table : list DespesaRecorrente) :
  rows_of (listing_query f c t di df) table
  = Cleanup.sorted_by desc_leb created_at
      (List.filter (λ d, forallb (holds d) (where_ (listing_query f c t di df)))
                   table).
Proof.
  unfold rows_of.
  assert (order_by_desc_created_at (listing_query f c t di df) = true) as ->.
  { unfold listing_query.
    by destruct (if_text c), (if_text t), di, df. }
  assert (limit_ (listing_query f c t di df) = None) as ->; [|done].
  unfold listing_query. by destruct (if_text c), (if_text t), di, df.
Qed.

(** X20.  What a listing holds: when the two dates are read, the answer is
    the serialization of the stored expenses that pass every filter given
    (closed or open as asked, category and type equal to the texts given,
    payment date within the two dates, an expense without payment date
    passing no date filter), no stored expense being left out, and the
    newest comes first. *)
Theorem listar_despesas_lists_matching_rows (f : Z) (c t a b : option string)
  (di df : option date) (w : World) :
  _parse_date (param a) "data_inicio" = Ret di →
  _parse_date (param b) "data_fim" = Ret df →
  ∃ rows,
    listar_despesas f c t a b w
    = (Ret (PList (_serialize_despesa <$> rows)), w) ∧
    (∀ d, d ∈ rows ↔
          d ∈ despesas w
          ∧ fechada d = (f =? 1)
          ∧ (∀ x, if_text c = Some x → categoria d = x)
          ∧ (∀ x, if_text t = Some x → tipo d = x)
          ∧ (∀ x, di = Some x →
               ∃ p, data_pagamento d = Some p ∧ date_compare p x ≠ Lt)
          ∧ (∀ x, df = Some x →
               ∃ p, data_pagamento d = Some p ∧ date_compare p x ≠ Gt)) ∧
    (∀ i j x y, (i < j)%nat → rows !! i = Some x → rows !! j = Some y →
                created_compare (created_at x) (created_at y) ≠ Lt).
Proof.
  intros Ha Hb. eexists. split; [by apply listar_despesas_run|].
  rewrite listing_rows. split.
  - intros d. rewrite sorted_by_elem_of.
    rewrite list_elem_of_In, filter_In, <- list_elem_of_In.
    by rewrite listing_query_holds.
  - intros i j x y Hij Hx Hy. apply desc_leb_spec.
    eapply (StronglySorted_lookup
              (λ a b, desc_leb (created_at a) (created_at b) = true));
      [|exact Hij|exact Hx|exact Hy].
    apply sorted_by_StronglySorted;
      [apply desc_leb_total|apply desc_leb_trans].
Qed.

Lemma listar_despesas_lists_matching_rows_witness :
  ∃ rows,
    listar_despesas 0 (Some "Luz"%string) None (Some "2025-03-01"%string) None
                    livro
    = (Ret (PList (_serialize_despesa <$> rows)), livro) ∧
    (luz ∈ rows ∧ agua ∉ rows).
Proof.
  assert (Ha : _parse_date (param (Some "2025-03-01"%string)) "data_inicio"
               = Ret (Some (mkdate 2025 3 1))) by reflexivity.
  assert (Hb : _parse_date (param None) "data_fim" = Ret None) by reflexivity.
  destruct (listar_despesas_lists_matching_rows 0 (Some "Luz"%string) None
              _ _ _ _ livro Ha Hb) as (rows & Hrun & Hin & _).
  exists rows. split; [exact Hrun|]. split.
  - apply Hin. split; [by left|]. split; [done|].
    split; [by intros ? [= <-]|]. split; [done|]. split; [|done].
    intros x [= <-]. by eexists.
  - intros Hagua. apply Hin in Hagua as (_ & Hf & _). discriminate Hf.
Defined.

(** X21.  The listing is lenient with its parameters: only the value 1
    of [fechada] asks for the closed expenses, every other value giving
    the open ones, for the total as well; and a filter given as the empty
    text counts as no filter. *)
Theorem listar_despesas_lenient_parameters (f : Z) (c t a b : option string)
  (w : World) :
  listar_despesas f c t a b w
  = listar_despesas (if f =? 1 then 1 else 0)
      (if_text c) (if_text t) (if_text a) (if_text b) w
  ∧ total_despesas f w = total_despesas (if f =? 1 then 1 else 0) w.
Proof.
  assert (Hi : ∀ x, if_text (if_text x) = if_text x).
  { intros [s|]; [|done]. simpl. destruct (String.eqb s "") eqn:E; [done|].
    simpl. by rewrite E. }
  assert (Hp : ∀ x fld, _parse_date (param (if_text x)) fld
                        = _parse_date (param x) fld).
  { intros [s|] fld; [|done]. simpl.
    destruct (String.eqb s "") eqn:E; simpl; by rewrite ?E. }
  assert (Hf : ((if f =? 1 then 1 else 0) =? 1) = (f =? 1)).
  { by destruct (f =? 1). }
  unfold listar_despesas, total_despesas, listing_query, holds.
  by rewrite !Hp, !Hi, Hf.
Qed.

Lemma filter_all {A} (l : list A) : List.filter (λ _, true) l = l.
Proof. induction l as [|x l IH]; simpl; congruence. Qed.

(** X24.  The history shows the newest expenses, open and closed alike:
    for a limit the framework accepts, it lists stored expenses, as many
    as the limit allows, newest first, and every expense it leaves out is
    no newer than any expense it shows. *)
Theorem historico_despesas_newest (n : Z) (w : World) :
  1 ≤ n ≤ 2000 →
  ∃ rows,
    historico_despesas n w = (Ret (PList (_serialize_despesa <$> rows)), w) ∧
    length rows = Nat.min (Z.to_nat n) (length (despesas w)) ∧
    (∀ d, d ∈ rows → d ∈ despesas w) ∧
    (∀ i j x y, (i < j)%nat → rows !! i = Some x → rows !! j = Some y →
                created_compare (created_at x) (created_at y) ≠ Lt) ∧
    (∀ r d, r ∈ rows → d ∈ despesas w → d ∉ rows →
            created_compare (created_at r) (created_at d) ≠ Lt).
Proof.
  intros Hn. eexists. split; [reflexivity|].
  unfold rows_of.
  cbn [limit order_by_desc select_despesas where_ order_by_desc_created_at
       limit_ forallb].
  rewrite filter_all.
  set (sorted := Cleanup.sorted_by desc_leb created_at (despesas w)).
  assert (Hs : StronglySorted
                 (λ a b, desc_leb (created_at a) (created_at b) = true) sorted).
  { apply sorted_by_StronglySorted;
      [apply desc_leb_total|apply desc_leb_trans]. }
  assert (Hperm : sorted ≡ₚ despesas w) by apply sorted_by_Permutation.
  split; [|split; [|split]].
  - by rewrite length_take, (Permutation_length Hperm).
  - intros d Hd. rewrite <- Hperm.
    apply elem_of_take in Hd as (i & Hi & _).
    by eapply list_elem_of_lookup_2.
  - intros i j x y Hij Hx Hy. apply desc_leb_spec.
    apply lookup_take_Some in Hx as [Hx _].
    apply lookup_take_Some in Hy as [Hy _].
    exact (StronglySorted_lookup
             (λ a b, desc_leb (created_at a) (created_at b) = true)
             sorted i j x y Hs Hij Hx Hy).
  - intros r d Hr Hd Hout. apply desc_leb_spec.
    apply list_elem_of_lookup in Hr as [i Hi].
    apply lookup_take_Some in Hi as [Hi Hlt].
    rewrite <- Hperm, <- (take_drop (Z.to_nat n) sorted) in Hd.
    apply elem_of_app in Hd as [Hd|Hd]; [done|].
    apply list_elem_of_lookup in Hd as [j Hj].
    rewrite lookup_drop in Hj.
    apply (StronglySorted_lookup
             (λ a b, desc_leb (created_at a) (created_at b) = true)
             sorted i (Z.to_nat n + j) r d Hs); [lia|done..].
Qed.

Lemma historico_despesas_newest_witness :
  ∃ rows,
    historico_despesas 2 livro
    = (Ret (PList (_serialize_despesa <$> rows)), livro) ∧
    length rows = 2%nat.
Proof.
  assert (Hn : 1 ≤ 2 ≤ 2000) by lia.
  destruct (historico_despesas_newest 2 livro Hn) as (rows & Hrun & Hlen & _).
  exists rows. split; [exact Hrun|exact Hlen].
Defined.

End ConsultasTheory.

(** ** More on the choice of the sale to keep *)

Module CleanupMore.
Import Cleanup CleanupTheory.

Lemma rank_lt_Ret a b r :
  rank_lt a b = Ret r → a.1 = b.1 → aware a.2 = aware b.2.
Proof.
  rewrite rank_lt_cases. intros H E. rewrite E, Z.eqb_refl in H.
  cbn [andb] in H.
  by destruct (aware a.2), (aware b.2).
Qed.

Lemma rank_lt_Raise a b e : rank_lt a b = Raise e → e = TypeError.
Proof. rewrite rank_lt_cases. destruct (_ && _); congruence. Qed.

Lemma rank_leb_first a b : rank_leb a b = true → a.1 ≤ b.1.
Proof.
  unfold rank_leb. rewrite rank_compare_eq.
  destruct (Z.compare_spec a.1 b.1); simpl; [lia|lia|done].
Qed.

Lemma rank_leb_total a b : rank_leb a b = true ∨ rank_leb b a = true.
Proof. rewrite !rank_leb_le. apply rank_le_total. Qed.

Lemma rank_leb_trans a b c :
  rank_leb a b = true → rank_leb b c = true → rank_leb a c = true.
Proof. rewrite !rank_leb_le. apply rank_le_trans. Qed.

(** An insertion that does not fail has compared the new sale with the
    first sale of its class, if there is one. *)
Lemma insert_lt_Ret now (x : Venda) (l s : list Venda) :
  StronglySorted (λ a b, rank_leb (rank now a) (rank now b) = true) l →
  comparable now l →
  insert_lt rank_lt (rank now) x l = Ret s →
  ∀ y, y ∈ l → (rank now y).1 = (rank now x).1 →
       aware (rank now y).2 = aware (rank now x).2.
Proof.
  intros Hs. revert s. induction Hs as [|y l Hl IH Hy]; intros s Hc Hi z Hz E.
  - by apply elem_of_nil in Hz.
  - cbn [insert_lt] in Hi.
    destruct (rank_lt (rank now y) (rank now x)) as [b|] eqn:Hlt; [|done].
    cbn [mbind result_bind] in Hi.
    destruct (Z.eq_dec (rank now y).1 (rank now x).1) as [Ey|Ny].
    + rewrite <- (rank_lt_Ret _ _ _ Hlt Ey).
      apply Hc; [done|set_solver|congruence].
    + apply elem_of_cons in Hz as [->|Hz]; [done|].
      destruct b.
      * destruct (insert_lt rank_lt (rank now) x l) as [s'|] eqn:Hrest;
          [|done].
        apply (IH s'); [|done..].
        intros a b Ha Hb. apply Hc; set_solver.
      * exfalso. rewrite rank_lt_cases in Hlt.
        destruct (Z.eqb_spec (rank now y).1 (rank now x).1) as [|_]; [done|].
        cbn [andb] in Hlt. injection Hlt as Hlt.
        apply negb_false_iff, rank_leb_first in Hlt.
        pose proof (proj1 (Forall_forall _ _) Hy z Hz) as Hyz.
        apply rank_leb_first in Hyz. lia.
Qed.

(** A sort that does not fail has found the times to compare. *)
Lemma sorted_Ret_comparable now (l s : list Venda) :
  sorted rank_lt (rank now) l = Ret s → comparable now l.
Proof.
  revert s. induction l as [|x l IH]; intros s Hs.
  { intros a b Ha. by apply elem_of_nil in Ha. }
  cbn [sorted] in Hs.
  destruct (sorted rank_lt (rank now) l) as [s'|] eqn:E; [|done].
  cbn [mbind result_bind] in Hs. pose proof (IH s' eq_refl) as Hc.
  rewrite (sorted_comparable now l Hc) in E. injection E as <-.
  assert (Hx : ∀ y, y ∈ l → (rank now y).1 = (rank now x).1 →
                    aware (rank now y).2 = aware (rank now x).2).
  { intros y Hy.
    apply (insert_lt_Ret now x (sorted_by rank_leb (rank now) l) s).
    - apply sorted_by_StronglySorted;
        [apply rank_leb_total|apply rank_leb_trans].
    - intros a b Ha%sorted_by_elem_of Hb%sorted_by_elem_of. by apply Hc.
    - exact Hs.
    - by apply sorted_by_elem_of. }
  intros a b [->|Ha]%elem_of_cons [->|Hb]%elem_of_cons Eab.
  - done.
  - symmetry. by apply Hx.
  - by apply Hx.
  - by apply Hc.
Qed.

Lemma insert_lt_Raise now (x : Venda) (l : list Venda) e :
  insert_lt rank_lt (rank now) x l = Raise e → e = TypeError.
Proof.
  induction l as [|y l IH]; [done|]. cbn [insert_lt].
  destruct (rank_lt (rank now y) (rank now x)) as [b|e'] eqn:Hlt.
  - cbn [mbind result_bind]. destruct b; [|done].
    destruct (insert_lt rank_lt (rank now) x l); [done|].
    intros [= <-]. by apply IH.
  - intros [= <-]. by eapply rank_lt_Raise.
Qed.

Lemma sorted_Raise now (l : list Venda) e :
  sorted rank_lt (rank now) l = Raise e → e = TypeError.
Proof.
  induction l as [|x l IH]; [done|]. cbn [sorted].
  destruct (sorted rank_lt (rank now) l) as [s|e'].
  - cbn [mbind result_bind]. apply insert_lt_Raise.
  - intros [= <-]. by apply IH.
Qed.

(** What [choose_to_keep] gives is a sale of the group, of the smallest
    rank, the times of the group comparing. *)
Lemma choose_to_keep_Ret now (lst : list Venda) keep :
  choose_to_keep now lst = Ret keep →
  comparable now lst ∧ keep ∈ lst
  ∧ ∀ v, v ∈ lst → rank_compare (rank now keep) (rank now v) ≠ Gt.
Proof.
  unfold choose_to_keep. intros H.
  destruct (sorted rank_lt (rank now) lst) as [s|] eqn:E; [|done].
  pose proof (sorted_Ret_comparable now lst s E) as Hc.
  rewrite (sorted_comparable now lst Hc) in E. injection E as <-.
  cbn [mbind result_bind] in H.
  destruct lst as [|a lst].
  { simpl in H. done. }
  destruct (sorted_by_rank_head now (a :: lst)) as (k & rest & Es & Hk & Hmin);
    [done|].
  rewrite Es in H. injection H as <-. done.
Qed.

Lemma choose_to_keep_comparable now (lst : list Venda) :
  lst ≠ [] → comparable now lst →
  ∃ keep, choose_to_keep now lst = Ret keep.
Proof.
  intros Hne Hc. unfold choose_to_keep.
  rewrite (sorted_comparable now lst Hc). cbn [mbind result_bind].
  destruct (sorted_by_rank_head now lst Hne) as (k & rest & -> & _).
  by exists k.
Qed.

Lemma choose_to_keep_Raise now (lst : list Venda) e :
  lst ≠ [] → choose_to_keep now lst = Raise e →
  e = TypeError ∧ ¬ comparable now lst.
Proof.
  intros Hne H. split.
  - unfold choose_to_keep in H.
    destruct (sorted rank_lt (rank now) lst) as [s|e'] eqn:E.
    + pose proof (sorted_Ret_comparable now lst s E) as Hc.
      destruct (choose_to_keep_comparable now lst Hne Hc) as [k Hk].
      unfold choose_to_keep in Hk. rewrite E in Hk.
      cbn [mbind result_bind] in H, Hk. congruence.
    + injection H as <-. by eapply sorted_Raise.
  - intros Hc. destruct (choose_to_keep_comparable now lst Hne Hc) as [k Hk].
    congruence.
Qed.

(** X31.  The keep rule, where the times compare.  In a group of sales
    whose operator, when there is one, is a non-empty text (the text of a
    UUID), and in which no two sales of one class, with or without
    operator, have one an aware and the other a naive time, the sale kept
    has an operator whenever some sale of the group has one, whatever the
    creation times; and among the sales that have an operator exactly when
    the kept one has, none was created before it (a missing creation time
    counts as the time of the run). *)
Theorem choose_to_keep_rule (now : datetime) (group : list Venda) :
  group ≠ [] →
  (∀ v, v ∈ group → usuario_id v ≠ Some ""%string) →
  comparable now group →
  ∃ keep,
    choose_to_keep now group = Ret keep ∧
    keep ∈ group ∧
    (∀ v, v ∈ group → usuario_id v ≠ None → usuario_id keep ≠ None) ∧
    (∀ v, v ∈ group →
       (usuario_id v = None ↔ usuario_id keep = None) →
       datetime_le (instant (ranked_at now keep))
                   (instant (ranked_at now v))).
Proof. apply keep_rule. Qed.

Lemma choose_to_keep_rule_witness :
  [sale_a; sale_b] ≠ [] ∧
  (∀ v, v ∈ [sale_a; sale_b] → usuario_id v ≠ Some ""%string) ∧
  comparable (mkdatetime (mkdate 2025 3 12) 0) [sale_a; sale_b] ∧
  ∃ keep,
    choose_to_keep (mkdatetime (mkdate 2025 3 12) 0) [sale_a; sale_b]
    = Ret keep ∧
    usuario_id keep ≠ None.
Proof.
  assert (H2 : ∀ v, v ∈ [sale_a; sale_b] → usuario_id v ≠ Some ""%string).
  { intros v Hv. apply elem_of_cons in Hv as [->|Hv]; [done|].
    apply list_elem_of_singleton in Hv as ->. done. }
  assert (H3 : comparable (mkdatetime (mkdate 2025 3 12) 0) [sale_a; sale_b]).
  { apply (sorted_Ret_comparable _ _ [sale_b; sale_a]). reflexivity. }
  split; [done|]. split; [exact H2|]. split; [exact H3|].
  destruct (choose_to_keep_rule (mkdatetime (mkdate 2025 3 12) 0)
              [sale_a; sale_b]) as (keep & Hk & _ & Hop & _);
    [done|exact H2|exact H3|].
  exists keep. split; [exact Hk|].
  apply (Hop sale_b); [|done].
  apply list_elem_of_further, list_elem_of_here.
Defined.

(** X32.  When [choose_to_keep] fails.  On a group that is not empty it
    returns a sale exactly when the times of the group compare; else, two
    sales of one class having one an aware and the other a naive time, it
    ends in a [TypeError]. *)
Theorem choose_to_keep_fails_on_mixed_times
  (now : datetime) (group : list Venda) :
  group ≠ [] →
  (is_Ret (choose_to_keep now group) ↔ comparable now group) ∧
  (¬ comparable now group → choose_to_keep now group = Raise TypeError).
Proof.
  intros Hne. split; [split|].
  - destruct (choose_to_keep now group) as [k|] eqn:E; [|done].
    intros _. by apply (choose_to_keep_Ret now group k).
  - intros Hc. by destruct (choose_to_keep_comparable now group Hne Hc) as [k ->].
  - intros Hn. destruct (choose_to_keep now group) as [k|e] eqn:E.
    + destruct Hn. by apply (choose_to_keep_Ret now group k).
    + by destruct (choose_to_keep_Raise now group e Hne E) as [-> _].
Qed.

Lemma choose_to_keep_fails_on_mixed_times_witness :
  [sale_a; sale_c] ≠ [] ∧
  ¬ comparable (mkdatetime (mkdate 2025 3 12) 0) [sale_a; sale_c] ∧
  choose_to_keep (mkdatetime (mkdate 2025 3 12) 0) [sale_a; sale_c]
  = Raise TypeError.
Proof.
  assert (Hne : [sale_a; sale_c] ≠ []) by done.
  assert (Hn : ¬ comparable (mkdatetime (mkdate 2025 3 12) 0) [sale_a; sale_c]).
  { intros Hc. specialize (Hc sale_a sale_c).
    assert (H : false = true); [|discriminate H].
    apply Hc; [by left|right; by left|done]. }
  split; [exact Hne|]. split; [exact Hn|].
  exact (proj2 (choose_to_keep_fails_on_mixed_times _ _ Hne) Hn).
Defined.

End CleanupMore.

(** ** The clean-up script *)

Module LimpezaTheory.
Import Cleanup Limpeza.

(** *** Grouping *)

Section classes.
Context {K A : Type} `{EqDecision K} (key : A → K).

Lemma class_append_keys (k : K) (v : A) (g : list (K * list A)) :
  (class_append k v g).*1 = if decide (k ∈ g.*1) then g.*1 else g.*1 ++ [k].
Proof.
  induction g as [|[k' lst] g IH].
  - destruct (decide (k ∈ ([] : list (K * list A)).*1)) as [H0|_]; [|done].
    by apply elem_of_nil in H0.
  - cbn [class_append]. destruct (decide (k' = k)) as [->|Hne].
    + destruct (decide (k ∈ ((k, lst) :: g).*1)) as [_|H0]; [done|].
      exfalso. apply H0. by left.
    + change (((k', lst) :: class_append k v g).*1)
        with (k' :: (class_append k v g).*1).
      rewrite IH.
      destruct (decide (k ∈ g.*1)) as [Hin|Hout],
               (decide (k ∈ ((k', lst) :: g).*1)) as [Hin'|Hout']; try done.
      * exfalso. apply Hout'. by right.
      * apply elem_of_cons in Hin' as [E|?]; [simpl in E; congruence|done].
Qed.

Lemma class_append_elem (k : K) (v : A) (g : list (K * list A)) k' lst' :
  NoDup g.*1 →
  ((k', lst') ∈ class_append k v g) ↔
  ((k' ≠ k ∧ (k', lst') ∈ g)
   ∨ (k' = k ∧ (((k ∉ g.*1) ∧ lst' = [v])
                ∨ ∃ lst, (k, lst) ∈ g ∧ lst' = lst ++ [v]))).
Proof.
  induction g as [|[k0 lst0] g IH]; intros Hnd.
  - cbn [class_append]. rewrite list_elem_of_singleton. split.
    + intros [= -> ->]. right. split; [done|]. left.
      split; [apply not_elem_of_nil|done].
    + intros [[_ Hin]|[-> [[_ ->]|(lst & Hin & _)]]];
        [by apply elem_of_nil in Hin|done|by apply elem_of_nil in Hin].
  - rewrite fmap_cons in Hnd. apply NoDup_cons in Hnd as [Hk0 Hnd].
    cbn [fst] in Hk0. rewrite fmap_cons. cbn [fst class_append].
    assert (Hfst : ∀ x l, (x, l) ∈ g → x ∈ g.*1).
    { intros x l Hin. apply list_elem_of_fmap. by exists (x, l). }
    destruct (decide (k0 = k)) as [->|Hne].
    + rewrite !elem_of_cons. split.
      * intros [[= -> ->]|Hin].
        -- right. split; [done|]. right. exists lst0. split; [by left|done].
        -- left. split; [|by right]. intros ->. by apply Hk0, (Hfst k lst').
      * intros [[Hne [[= ? ?]|Hin]]|[-> [[Hout _]|(lst & Hin & ->)]]].
        -- done.
        -- by right.
        -- exfalso. apply Hout. by left.
        -- apply elem_of_cons in Hin as [[= ->]|Hin]; [by left|].
           exfalso. by apply Hk0, (Hfst k lst).
    + rewrite !elem_of_cons, (IH Hnd). split.
      * intros [[= -> ->]|[[Hk Hin]|[-> Hcase]]].
        -- left. split; [done|by left].
        -- left. split; [done|by right].
        -- right. split; [done|].
           destruct Hcase as [[Hout ->]|(lst & Hin & ->)].
           ++ left. split; [|done].
              intros [E|E]; [by subst|done].
           ++ right. exists lst. split; [by right|done].
      * intros [[Hk [[= -> ->]|Hin]]|[-> [[Hout ->]|(lst & Hin & ->)]]].
        -- by left.
        -- right. left. done.
        -- right. right. split; [done|]. left. split; [|done].
           intros Hin. apply Hout. by right.
        -- apply elem_of_cons in Hin as [[= ? ?]|Hin]; [congruence|].
           right. right. split; [done|]. right. by exists lst.
Qed.

(** The classes of the key, each in the order of the list. *)
Lemma classes_spec (l : list A) :
  NoDup (classes key l).*1
  ∧ (∀ k lst, (k, lst) ∈ classes key l →
       lst = List.filter (λ v, bool_decide (key v = k)) l ∧ lst ≠ [])
  ∧ (∀ v, v ∈ l → key v ∈ (classes key l).*1).
Proof.
  unfold classes. induction l as [|x l IH] using rev_ind.
  - simpl. split; [constructor|]. split; [by intros ?? ?%elem_of_nil|].
    by intros ? ?%elem_of_nil.
  - rewrite fold_left_app. simpl.
    set (g := fold_left _ l []) in *. destruct IH as (Hnd & Hg & Hkeys).
    split; [|split].
    + rewrite class_append_keys. destruct (decide (key x ∈ g.*1)); [done|].
      apply NoDup_app. split; [done|]. split; [|apply NoDup_singleton].
      intros k Hk ->%list_elem_of_singleton. done.
    + intros k lst. rewrite (class_append_elem _ _ _ _ _ Hnd).
      rewrite List.filter_app. simpl.
      intros [[Hne Hin]|[-> [[Hout ->]|(lst0 & Hin & ->)]]].
      * destruct (Hg _ _ Hin) as [-> Hnil].
        rewrite bool_decide_eq_false_2 by done. by rewrite app_nil_r.
      * rewrite bool_decide_eq_true_2 by done. split; [|done].
        assert (List.filter (λ v, bool_decide (key v = key x)) l = []) as ->;
          [|done].
        destruct (List.filter _ l) as [|y ys] eqn:E; [done|]. exfalso.
        assert (Hy : In y (List.filter (λ v, bool_decide (key v = key x)) l))
          by (rewrite E; by left).
        apply filter_In in Hy as [Hy1 Hy2]. apply bool_decide_eq_true in Hy2.
        apply Hout. rewrite <- Hy2. apply Hkeys. by apply list_elem_of_In.
      * destruct (Hg _ _ Hin) as [-> Hnil].
        rewrite bool_decide_eq_true_2 by done. split; [done|].
        by destruct (List.filter _ l).
    + intros v [Hv| ->%list_elem_of_singleton]%elem_of_app;
        rewrite class_append_keys; destruct (decide (key x ∈ g.*1)) as [Hin|Hout].
      * by apply Hkeys.
      * apply elem_of_app. left. by apply Hkeys.
      * done.
      * apply elem_of_app. right. by left.
Qed.

End classes.

(** *** Grouping by [==] *)

Lemma filter_filter {A} (p q : A → bool) (l : list A) :
  List.filter q (List.filter p l) = List.filter (λ x, p x && q x) l.
Proof.
  induction l as [|x l IH]; [done|]. simpl.
  destruct (p x); simpl; [destruct (q x)|]; by rewrite ?IH.
Qed.

Lemma filter_ext_elem {A} (p q : A → bool) (l : list A) :
  (∀ x, x ∈ l → p x = q x) → List.filter p l = List.filter q l.
Proof.
  induction l as [|x l IH]; [done|]. intros H. simpl.
  rewrite (H x) by (by left). rewrite IH; [done|].
  intros y Hy. apply H. by right.
Qed.

Section grouped.
Context {K A : Type} `{EqDecision K} (eqb : K → K → bool) (key : A → K).
Hypothesis eqb_spec : ∀ a b, eqb a b = true ↔ a = b ∧ eqb a a = true.

(** A key that is not equal to itself opens a group at each use. *)
Lemma append_to_alone (k : K) (v : A) (g : list (K * list A)) :
  eqb k k = false → append_to eqb k v g = g ++ [(k, [v])].
Proof.
  intros Hk. induction g as [|[k' lst] g IH]; [done|]. cbn [append_to].
  destruct (eqb k' k) eqn:E.
  - apply eqb_spec in E as [-> E]. congruence.
  - by rewrite IH.
Qed.

Lemma append_to_class (k : K) (v : A) (g : list (K * list A)) :
  eqb k k = true →
  List.filter (λ x, eqb x.1 x.1) (append_to eqb k v g)
  = class_append k v (List.filter (λ x, eqb x.1 x.1) g).
Proof.
  intros Hk. induction g as [|[k' lst] g IH].
  - cbn [append_to List.filter fst]. by rewrite Hk.
  - cbn [append_to]. destruct (eqb k' k) eqn:E.
    + apply eqb_spec in E as [-> _]. cbn [List.filter fst]. rewrite Hk.
      cbn [class_append]. by rewrite decide_True.
    + cbn [List.filter fst]. destruct (eqb k' k') eqn:E'.
      * cbn [class_append]. rewrite decide_False; [by rewrite IH|].
        intros ->. congruence.
      * exact IH.
Qed.

Lemma append_to_others (k : K) (v : A) (g : list (K * list A)) :
  eqb k k = true →
  List.filter (λ x, negb (eqb x.1 x.1)) (append_to eqb k v g)
  = List.filter (λ x, negb (eqb x.1 x.1)) g.
Proof.
  intros Hk. induction g as [|[k' lst] g IH].
  - cbn [append_to List.filter fst]. by rewrite Hk.
  - cbn [append_to]. destruct (eqb k' k) eqn:E.
    + apply eqb_spec in E as [-> _]. cbn [List.filter fst]. by rewrite Hk.
    + cbn [List.filter fst]. by rewrite IH.
Qed.

Lemma grouped_snoc (l : list A) (x : A) :
  grouped eqb key (l ++ [x]) = append_to eqb (key x) x (grouped eqb key l).
Proof. unfold grouped. by rewrite fold_left_app. Qed.

Lemma classes_snoc (l : list A) (x : A) :
  classes key (l ++ [x]) = class_append (key x) x (classes key l).
Proof. unfold classes. by rewrite fold_left_app. Qed.

(** The groups of the keys that are equal to themselves are the classes
    of these keys. *)
Lemma grouped_classes (l : list A) :
  List.filter (λ x, eqb x.1 x.1) (grouped eqb key l)
  = classes key (List.filter (λ v, eqb (key v) (key v)) l).
Proof.
  induction l as [|x l IH] using rev_ind; [done|].
  rewrite grouped_snoc, List.filter_app. cbn [List.filter].
  destruct (eqb (key x) (key x)) eqn:E.
  - by rewrite classes_snoc, append_to_class, IH.
  - rewrite append_to_alone, List.filter_app by done.
    cbn [List.filter fst]. by rewrite E, !app_nil_r.
Qed.

(** The other groups have one member each. *)
Lemma grouped_alone (l : list A) (k : K) (lst : list A) :
  (k, lst) ∈ grouped eqb key l → eqb k k = false → length lst = 1%nat.
Proof.
  revert k lst. induction l as [|x l IH] using rev_ind; intros k lst.
  { by intros ?%elem_of_nil. }
  rewrite grouped_snoc. destruct (eqb (key x) (key x)) eqn:E.
  - intros Hin Hk. apply (IH k lst); [|done].
    assert (H1 : (k, lst) ∈ List.filter (λ x, negb (eqb x.1 x.1))
                               (append_to eqb (key x) x (grouped eqb key l))).
    { apply list_elem_of_In, filter_In. split; [by apply list_elem_of_In|].
      cbn [fst]. by rewrite Hk. }
    rewrite append_to_others in H1 by done.
    apply list_elem_of_In, filter_In in H1 as [H1 _].
    by apply list_elem_of_In.
  - rewrite append_to_alone by done.
    intros [Hin|Hin]%elem_of_app Hk; [by apply (IH k lst)|].
    apply list_elem_of_singleton in Hin. by injection Hin as -> ->.
Qed.

(** So the groups of more than one member are classes. *)
Lemma grouped_duplicates (l : list A) :
  List.filter (λ g, bool_decide (1 < length g.2)%nat) (grouped eqb key l)
  = List.filter (λ g, bool_decide (1 < length g.2)%nat)
      (classes key (List.filter (λ v, eqb (key v) (key v)) l)).
Proof.
  rewrite <- grouped_classes, filter_filter.
  apply filter_ext_elem. intros [k lst] Hin. cbn [fst snd].
  destruct (eqb k k) eqn:E; [done|].
  rewrite (grouped_alone l k lst Hin E). cbn [andb].
  apply bool_decide_eq_false_2. lia.
Qed.

End grouped.

(** [==] on signatures. *)
Lemma float_eqb_spec (x y : pyfloat) :
  float_eqb x y = true ↔ x = y ∧ float_eqb x x = true.
Proof.
  destruct x as [a|s|], y as [b|t|]; simpl; try (split; [done|by intros [? ?]]).
  - rewrite !bool_decide_eq_true. split; [by intros ->|by intros [[= ->] _]].
  - destruct s, t; simpl; split; try done; by intros [[= ?] _].
Qed.

Lemma key_eqb_spec (a b : item_key) :
  key_eqb a b = true ↔ a = b ∧ key_eqb a a = true.
Proof.
  destruct a as [[[[p1 q1] w1] u1] s1], b as [[[[p2 q2] w2] u2] s2].
  unfold key_eqb.
  rewrite !andb_true_iff, !String.eqb_eq, !Z.eqb_eq.
  rewrite (float_eqb_spec w1 w2), (float_eqb_spec u1 u2),
    (float_eqb_spec s1 s2).
  split.
  - intros ((((-> & ->) & -> & ?) & -> & ?) & -> & ?). done.
  - intros [[= -> -> -> -> ->] ((((_ & _) & ?) & ?) & ?)]. done.
Qed.

Lemma keys_eqb_spec (l l' : list item_key) :
  keys_eqb l l' = true ↔ l = l' ∧ keys_eqb l l = true.
Proof.
  revert l'. induction l as [|a l IH]; intros [|b l']; simpl;
    try (split; [done|by intros [? ?]]).
  rewrite !andb_true_iff, (key_eqb_spec a b), (IH l'). split.
  - intros [[-> ?] [-> ?]]. done.
  - intros [[= -> ->] [? ?]]. done.
Qed.

Lemma signature_eqb_spec (s t : signature) :
  signature_eqb s t = true ↔ s = t ∧ signature_eqb s s = true.
Proof.
  destruct s as [[x f] l], t as [[y g] l']. unfold signature_eqb.
  cbn [fst snd].
  rewrite !andb_true_iff, !String.eqb_eq, (float_eqb_spec x y),
    (keys_eqb_spec l l').
  split.
  - intros [[[-> ?] ->] [-> ?]]. done.
  - intros [[= -> -> ->] [[? _] ?]]. done.
Qed.


(** *** Reading the sales *)

Lemma has_key_spec (vid : string) (vs : list Venda) :
  has_key vid vs = true ↔ vid ∈ id <$> vs.
Proof.
  unfold has_key. rewrite existsb_exists, list_elem_of_fmap. split.
  - intros (v & Hin & E). exists v. apply String.eqb_eq in E.
    split; [done|by apply list_elem_of_In].
  - intros (v & -> & Hin). exists v. split; [by apply list_elem_of_In|].
    apply String.eqb_refl.
Qed.

(** With one dict per sale, adding a line changes the dict of that sale
    only. *)
Lemma append_item_map (vid : string) (it : Item) (vs : list Venda) :
  NoDup (id <$> vs) →
  append_item vid it vs
  = (λ v, if String.eqb (id v) vid
          then with_itens (default [] (itens v) ++ [it]) v else v) <$> vs.
Proof.
  induction vs as [|v vs IH]; [done|]. rewrite fmap_cons. intros Hnd.
  apply NoDup_cons in Hnd as [Hv Hnd]. cbn [append_item fmap list_fmap].
  destruct (String.eqb_spec (id v) vid) as [E|_].
  - f_equal. symmetry. etransitivity; [|apply list_fmap_id].
    apply list_fmap_ext. intros i x Hx. simpl.
    destruct (String.eqb_spec (id x) vid) as [E'|_]; [|done].
    exfalso. apply Hv. rewrite E, <- E'. apply list_elem_of_fmap.
    exists x. split; [done|]. by eapply list_elem_of_lookup_2.
  - f_equal. by apply IH.
Qed.

Lemma find_row_absent (vid : string) (rows : list Row) :
  vid ∉ r_venda_id <$> rows →
  List.find (λ r, String.eqb (r_venda_id r) vid) rows = None
  ∧ List.filter (adds_line vid) rows = [].
Proof.
  induction rows as [|r rows IH]; [done|]. rewrite fmap_cons.
  intros Hout. apply not_elem_of_cons in Hout as [Hne Hout].
  destruct (IH Hout) as [IH1 IH2]. unfold adds_line in *. simpl.
  destruct (String.eqb_spec (r_venda_id r) vid) as [E|_]; [by subst|].
  by rewrite IH1, IH2.
Qed.

(** What the loop of [fetch_vendas_and_itens] gathers: one dict per sale
    identifier, in the order of first appearance, made from the first row
    of the sale, with one line per row of the sale that has a product. *)
Lemma gather_spec (rows : list Row) :
  NoDup (id <$> gather rows)
  ∧ (∀ vid, vid ∈ id <$> gather rows ↔ vid ∈ r_venda_id <$> rows)
  ∧ (∀ v, v ∈ gather rows →
       ∃ r0, List.find (λ r, String.eqb (r_venda_id r) (id v)) rows = Some r0
             ∧ v = with_itens (item_of <$> List.filter (adds_line (id v)) rows)
                              (new_venda r0)).
Proof.
  unfold gather. induction rows as [|r rows IH] using rev_ind.
  - simpl. split; [constructor|]. split; [done|].
    by intros v ?%elem_of_nil.
  - rewrite fold_left_app. cbn [fold_left].
    set (vs := fold_left fetch_step rows []) in *.
    destruct IH as (Hnd & Hids & Hvs).
    set (vid := r_venda_id r).
    set (vs1 := if has_key vid vs then vs else vs ++ [new_venda r]).
    assert (Hnd1 : NoDup (id <$> vs1)).
    { unfold vs1. destruct (has_key vid vs) eqn:Hk; [done|].
      rewrite fmap_app. apply NoDup_app. split; [done|].
      split; [|apply NoDup_singleton].
      intros x Hx ->%list_elem_of_singleton.
      apply has_key_spec in Hx. change (id (new_venda r)) with vid in Hx.
      congruence. }
    assert (Hids1 : ∀ x, x ∈ id <$> vs1 ↔ x ∈ r_venda_id <$> rows ++ [r]).
    { intros x. unfold vs1. rewrite fmap_app, elem_of_app.
      rewrite <- Hids. cbn [fmap list_fmap]. rewrite list_elem_of_singleton.
      fold vid. destruct (has_key vid vs) eqn:Hk.
      - apply has_key_spec in Hk. naive_solver.
      - rewrite fmap_app, elem_of_app. cbn [fmap list_fmap].
        rewrite list_elem_of_singleton. done. }
    assert (Hvs1 : ∀ v, v ∈ vs1 →
      ∃ r0, List.find (λ r, String.eqb (r_venda_id r) (id v)) (rows ++ [r])
            = Some r0
            ∧ v = with_itens (item_of <$> List.filter (adds_line (id v)) rows)
                             (new_venda r0)).
    { intros v. unfold vs1. destruct (has_key vid vs) eqn:Hk.
      - intros Hv. destruct (Hvs v Hv) as (r0 & Hf & Ev).
        exists r0. by rewrite DespesasMore.find_app_first, Hf.
      - intros [Hv| ->%list_elem_of_singleton]%elem_of_app.
        + destruct (Hvs v Hv) as (r0 & Hf & Ev).
          exists r0. by rewrite DespesasMore.find_app_first, Hf.
        + assert (Hout : vid ∉ r_venda_id <$> rows).
          { rewrite <- Hids. intros Hin. apply has_key_spec in Hin.
            congruence. }
          destruct (find_row_absent vid rows Hout) as [Hf Hl].
          exists r. cbn [id new_venda]. fold vid.
          rewrite DespesasMore.find_app_first, Hf, Hl. cbn [List.find].
          fold vid. by rewrite String.eqb_refl. }
    assert (Hstep : fetch_step vs r
                    = if truthy_text (r_produto_id r)
                      then append_item vid (item_of r) vs1 else vs1) by done.
    rewrite Hstep. clear Hstep.
    destruct (truthy_text (r_produto_id r)) eqn:Ht.
    + rewrite (append_item_map _ _ _ Hnd1).
      assert (Hsame : id <$> ((λ v, if String.eqb (id v) vid
                 then with_itens (default [] (itens v) ++ [item_of r]) v
                 else v) <$> vs1) = id <$> vs1).
      { rewrite <- list_fmap_compose. apply list_fmap_ext. intros i x _.
        simpl. by destruct (String.eqb (id x) vid). }
      rewrite Hsame. split; [done|]. split; [done|].
      intros v' (v & -> & Hv)%list_elem_of_fmap.
      destruct (Hvs1 v Hv) as (r0 & Hf & Ev).
      destruct (String.eqb_spec (id v) vid) as [E|Hne].
      * exists r0. cbn [id with_itens]. split; [done|].
        rewrite List.filter_app, fmap_app. cbn [List.filter].
        unfold adds_line at 2. fold vid.
        rewrite Ht, E, String.eqb_refl. cbn [andb fmap list_fmap].
        rewrite E in Ev. rewrite Ev. done.
      * exists r0. split; [done|].
        rewrite List.filter_app. cbn [List.filter].
        unfold adds_line at 2. fold vid.
        destruct (String.eqb_spec vid (id v)) as [E|_]; [by subst|].
        cbn [andb]. by rewrite app_nil_r.
    + split; [done|]. split; [done|].
      intros v Hv. destruct (Hvs1 v Hv) as (r0 & Hf & Ev).
      exists r0. split; [done|].
      rewrite List.filter_app. cbn [List.filter]. unfold adds_line at 2.
      rewrite Ht, andb_false_r. by rewrite app_nil_r.
Qed.

(** *** The rows of the [SELECT] *)

Lemma rows_of_sale_id (db : DB) (v : VendaRow) (r : Row) :
  r ∈ rows_of_sale db v → r_venda_id r = v_id v.
Proof.
  unfold rows_of_sale. destruct (List.filter _ _) as [|i its].
  - by intros ->%list_elem_of_singleton.
  - by intros (j & -> & _)%list_elem_of_fmap.
Qed.

Lemma rows_of_sale_head (db : DB) (v : VendaRow) :
  ∃ r0 rest, rows_of_sale db v = r0 :: rest ∧ new_venda r0 = sale_of v.
Proof.
  unfold rows_of_sale. destruct (List.filter _ _) as [|i its].
  - by eexists _, _.
  - by eexists _, _.
Qed.


Lemma filter_fmap {A B} (f : A → B) (p : B → bool) (l : list A) :
  List.filter p (f <$> l) = f <$> List.filter (λ x, p (f x)) l.
Proof.
  induction l as [|x l IH]; [done|]. cbn [fmap list_fmap List.filter].
  destruct (p (f x)); cbn [fmap list_fmap]; by rewrite IH.
Qed.

(** The lines that the rows of a sale add are the lines of the sale that
    have a product. *)
Lemma rows_of_sale_lines (db : DB) (v : VendaRow) :
  item_of <$> List.filter (adds_line (v_id v)) (rows_of_sale db v)
  = line_of <$> List.filter (is_line_of (v_id v)) (itens_venda db).
Proof.
  unfold rows_of_sale, is_line_of.
  rewrite <- (filter_filter (λ i, String.eqb (i_venda_id i) (v_id v))
                            (λ i, truthy_text (i_produto_id i))).
  destruct (List.filter _ (itens_venda db)) as [|i its].
  { cbn [List.filter]. unfold adds_line. cbn [r_venda_id r_produto_id join_row].
    by rewrite String.eqb_refl. }
  rewrite filter_fmap, <- list_fmap_compose.
  erewrite (List.filter_ext (λ x, adds_line _ _)); [done|].
  intros j. unfold adds_line. simpl. by rewrite String.eqb_refl.
Qed.

Lemma bind_other_sales (db : DB) (vid : string) (vs : list VendaRow) :
  (∀ x, x ∈ vs → v_id x ≠ vid) →
  List.find (λ r, String.eqb (r_venda_id r) vid) (vs ≫= rows_of_sale db) = None
  ∧ List.filter (adds_line vid) (vs ≫= rows_of_sale db) = [].
Proof.
  intros Hne. apply find_row_absent.
  intros (r & -> & (x & Hr & Hx)%list_elem_of_bind)%list_elem_of_fmap.
  apply (Hne x Hx). symmetry. by eapply rows_of_sale_id.
Qed.

Lemma filter_same_sale (db : DB) (v : VendaRow) (l : list Row) :
  (∀ r, r ∈ l → r_venda_id r ≠ v_id v) →
  List.find (λ r, String.eqb (r_venda_id r) (v_id v)) l = None
  ∧ List.filter (adds_line (v_id v)) l = [].
Proof.
  intros H. apply find_row_absent.
  intros (r & E & Hr)%list_elem_of_fmap. by apply (H r Hr).
Qed.

(** In the rows of sales of distinct identifiers, the rows of one sale
    are those made for it. *)
Lemma bind_one_sale (db : DB) (v : VendaRow) (vs : list VendaRow) :
  NoDup (v_id <$> vs) → v ∈ vs →
  (∃ r0, List.find (λ r, String.eqb (r_venda_id r) (v_id v))
                   (vs ≫= rows_of_sale db) = Some r0
         ∧ new_venda r0 = sale_of v)
  ∧ List.filter (adds_line (v_id v)) (vs ≫= rows_of_sale db)
    = List.filter (adds_line (v_id v)) (rows_of_sale db v).
Proof.
  induction vs as [|x vs IH]; [by intros _ ?%elem_of_nil|].
  rewrite fmap_cons. intros [Hx Hnd]%NoDup_cons Hin.
  rewrite bind_cons.
  rewrite List.filter_app, DespesasMore.find_app_first.
  apply elem_of_cons in Hin as [->|Hin].
  - assert (Hrest : ∀ y, y ∈ vs → v_id y ≠ v_id x).
    { intros y Hy E. apply Hx. rewrite <- E. apply list_elem_of_fmap.
      by exists y. }
    destruct (bind_other_sales db (v_id x) vs Hrest) as [_ ->].
    rewrite app_nil_r. split; [|done].
    destruct (rows_of_sale_head db x) as (r0 & rest & E & Hr0).
    exists r0. split; [|done]. rewrite E. cbn [List.find].
    assert (r_venda_id r0 = v_id x) as ->.
    { apply (rows_of_sale_id db). rewrite E. by left. }
    by rewrite String.eqb_refl.
  - assert (Hne : v_id x ≠ v_id v).
    { intros E. apply Hx. rewrite E. apply list_elem_of_fmap. by exists v. }
    assert (Hxrows : ∀ r, r ∈ rows_of_sale db x → r_venda_id r ≠ v_id v).
    { intros r Hr. by rewrite (rows_of_sale_id _ _ _ Hr). }
    destruct (filter_same_sale db v _ Hxrows) as [-> ->].
    by apply IH.
Qed.

Lemma NoDup_fmap_filter {A B} `{EqDecision B} (f : A → B) (p : A → bool)
  (l : list A) :
  NoDup (f <$> l) → NoDup (f <$> List.filter p l).
Proof.
  induction l as [|x l IH]; [done|]. rewrite fmap_cons.
  intros [Hx Hnd]%NoDup_cons. simpl. destruct (p x); [|by apply IH].
  rewrite fmap_cons. apply NoDup_cons. split; [|by apply IH].
  intros (y & E & Hy)%list_elem_of_fmap. apply Hx. rewrite E.
  apply list_elem_of_fmap. exists y. split; [done|].
  apply list_elem_of_In in Hy. apply filter_In in Hy as [Hy _].
  by apply list_elem_of_In.
Qed.

Lemma active_spec (db : DB) (v : VendaRow) :
  v ∈ active db ↔ v ∈ vendas db ∧ v_cancelada v = false.
Proof.
  unfold active. rewrite sorted_by_elem_of.
  rewrite !list_elem_of_In, filter_In, negb_true_iff. done.
Qed.

Lemma active_NoDup (db : DB) :
  NoDup (v_id <$> vendas db) → NoDup (v_id <$> active db).
Proof.
  intros Hnd. unfold active.
  rewrite (fmap_Permutation v_id _ _ (sorted_by_Permutation _ _ _)).
  by apply NoDup_fmap_filter.
Qed.

Lemma NoDup_fmap_eq {A B} (f : A → B) (l : list A) (x y : A) :
  NoDup (f <$> l) → x ∈ l → y ∈ l → f x = f y → x = y.
Proof.
  induction l as [|z l IH]; [by intros _ ?%elem_of_nil|].
  rewrite fmap_cons. intros [Hz Hnd]%NoDup_cons Hx Hy E.
  apply elem_of_cons in Hx as [->|Hx]; apply elem_of_cons in Hy as [->|Hy].
  - done.
  - exfalso. apply Hz. rewrite E. apply list_elem_of_fmap. by exists y.
  - exfalso. apply Hz. rewrite <- E. apply list_elem_of_fmap. by exists x.
  - by apply IH.
Qed.

(** What the script reads from a database whose sales have distinct
    identifiers. *)
Lemma fetched_spec (db : DB) :
  NoDup (v_id <$> vendas db) →
  NoDup (id <$> gather (sql_rows db))
  ∧ (∀ vid, vid ∈ id <$> gather (sql_rows db)
            ↔ ∃ v, v ∈ active db ∧ v_id v = vid)
  ∧ (∀ s, s ∈ gather (sql_rows db) →
       ∃ v, v ∈ active db ∧ v_id v = id s
            ∧ s = with_itens
                    (line_of <$> List.filter (is_line_of (id s))
                                             (itens_venda db))
                    (sale_of v)).
Proof.
  intros Hnd. pose proof (active_NoDup db Hnd) as Hact.
  destruct (gather_spec (sql_rows db)) as (H1 & H2 & H3).
  assert (Hids : ∀ vid, vid ∈ r_venda_id <$> sql_rows db
                        ↔ ∃ v, v ∈ active db ∧ v_id v = vid).
  { intros vid. unfold sql_rows. rewrite list_elem_of_fmap. split.
    - intros (r & -> & (v & Hr & Hv)%list_elem_of_bind).
      exists v. split; [done|]. symmetry. by eapply rows_of_sale_id.
    - intros (v & Hv & <-).
      destruct (rows_of_sale_head db v) as (r0 & rest & E & _).
      assert (Hr0 : r0 ∈ rows_of_sale db v) by (rewrite E; by left).
      exists r0. split; [symmetry; by eapply rows_of_sale_id|].
      apply list_elem_of_bind. by exists v. }
  split; [done|]. split.
  - intros vid. by rewrite H2, Hids.
  - intros s Hs. destruct (H3 s Hs) as (r0 & Hf & Es).
    assert (Hin : id s ∈ id <$> gather (sql_rows db)).
    { apply list_elem_of_fmap. by exists s. }
    apply H2, Hids in Hin as (v & Hv & Ev).
    exists v. split; [done|]. split; [done|].
    destruct (bind_one_sale db v (active db) Hact Hv) as [(r1 & Hf1 & Hr1) Hl].
    fold (sql_rows db) in Hf1, Hl. rewrite Ev in Hf1, Hl.
    rewrite Hf in Hf1. injection Hf1 as <-.
    etransitivity; [exact Es|]. rewrite Hl, Hr1. f_equal.
    rewrite <- Ev. apply rows_of_sale_lines.
Qed.

(** The dict of each sale that is not cancelled is among those read. *)
Lemma fetched_has (db : DB) (v : VendaRow) :
  NoDup (v_id <$> vendas db) → v ∈ active db →
  with_itens (line_of <$> List.filter (is_line_of (v_id v)) (itens_venda db))
             (sale_of v) ∈ gather (sql_rows db).
Proof.
  intros Hnd Hact. destruct (fetched_spec db Hnd) as (H1 & H2 & H3).
  assert (Hin : v_id v ∈ id <$> gather (sql_rows db)).
  { apply H2. by exists v. }
  apply list_elem_of_fmap in Hin as (s & Es & Hs).
  destruct (H3 s Hs) as (v' & Hv' & Ev' & Es').
  assert (v' = v) as ->.
  { apply (NoDup_fmap_eq v_id (active db)); [by apply active_NoDup|done..|].
    by rewrite Ev'. }
  rewrite Es, <- Es'. exact Hs.
Qed.

Lemma filter_Permutation_list {A} (p : A → bool) (l l' : list A) :
  l ≡ₚ l' → List.filter p l ≡ₚ List.filter p l'.
Proof.
  induction 1 as [|x l l' _ IH|x y l|l l' l'' _ IH1 _ IH2]; simpl.
  - done.
  - destruct (p x); by rewrite IH.
  - destruct (p x), (p y); try done. apply perm_swap.
  - by etrans.
Qed.

Lemma rows_of_sale_new (db : DB) (v : VendaRow) (r : Row) :
  r ∈ rows_of_sale db v → new_venda r = sale_of v.
Proof.
  unfold rows_of_sale. destruct (List.filter _ _) as [|i its].
  - by intros ->%list_elem_of_singleton.
  - by intros (j & -> & _)%list_elem_of_fmap.
Qed.

(** What the loop gathers from the rows of the [SELECT] in any order. *)
Lemma gathered_spec (db : DB) (rows : list Row) :
  NoDup (v_id <$> vendas db) → rows ≡ₚ sql_rows db →
  NoDup (id <$> gather rows)
  ∧ (∀ vid, vid ∈ id <$> gather rows ↔ ∃ v, v ∈ active db ∧ v_id v = vid)
  ∧ (∀ s, s ∈ gather rows →
       ∃ v, v ∈ active db ∧ v_id v = id s
            ∧ ∃ lines,
                lines ≡ₚ line_of <$> List.filter (is_line_of (id s))
                                                 (itens_venda db)
                ∧ s = with_itens lines (sale_of v)).
Proof.
  intros Hnd Hp. pose proof (active_NoDup db Hnd) as Hact.
  destruct (gather_spec rows) as (H1 & H2 & H3).
  assert (Hin : ∀ r, r ∈ rows → ∃ v, v ∈ active db ∧ r ∈ rows_of_sale db v).
  { intros r Hr. rewrite Hp in Hr. unfold sql_rows in Hr.
    apply list_elem_of_bind in Hr as (v & Hr & Hv). by exists v. }
  assert (Hids : ∀ vid, vid ∈ r_venda_id <$> rows
                        ↔ ∃ v, v ∈ active db ∧ v_id v = vid).
  { intros vid. rewrite list_elem_of_fmap. split.
    - intros (r & -> & Hr). destruct (Hin r Hr) as (v & Hv & Hrv).
      exists v. split; [done|]. symmetry. by eapply rows_of_sale_id.
    - intros (v & Hv & <-).
      destruct (rows_of_sale_head db v) as (r0 & rest & E & _).
      assert (Hr0 : r0 ∈ rows_of_sale db v) by (rewrite E; by left).
      exists r0. split; [symmetry; by eapply rows_of_sale_id|].
      rewrite Hp. apply list_elem_of_bind. by exists v. }
  split; [done|]. split.
  - intros vid. by rewrite H2, Hids.
  - intros s Hs. destruct (H3 s Hs) as (r0 & Hf & Es).
    apply find_some in Hf as [Hr0 Eid]. apply String.eqb_eq in Eid.
    apply list_elem_of_In in Hr0.
    destruct (Hin r0 Hr0) as (v & Hv & Hrv).
    assert (Ev : v_id v = id s).
    { rewrite <- Eid. symmetry. by eapply rows_of_sale_id. }
    exists v. split; [done|]. split; [done|].
    exists (item_of <$> List.filter (adds_line (id s)) rows).
    split; [|by rewrite <- (rows_of_sale_new db v r0 Hrv)].
    rewrite (filter_Permutation_list _ _ _ Hp).
    destruct (bind_one_sale db v (active db) Hact Hv) as [_ Hl].
    fold (sql_rows db) in Hl. rewrite <- Ev, Hl.
    by rewrite rows_of_sale_lines.
Qed.

(** X25.  The script reads each sale that is not cancelled once, whatever
    the order of the rows.  From a database whose sales have distinct
    identifiers, [fetch_vendas_and_itens] changes nothing; and from the
    rows of its [SELECT] taken in any order, its loop makes one dict per
    sale that is not cancelled and none for a cancelled one, each with one
    line per line of the sale that has a product, in some order, a sale
    without such a line having an empty list. *)
Theorem fetch_reads_each_sale_once (db : DB) (rows : list Row) :
  NoDup (v_id <$> vendas db) →
  rows ≡ₚ sql_rows db →
  fetch_vendas_and_itens (connect db)
  = (Ret (gather (sql_rows db)), connect db) ∧
  NoDup (id <$> gather rows) ∧
  (∀ v, v ∈ vendas db → v_cancelada v = false →
     ∃ lines,
       lines ≡ₚ line_of <$> List.filter (is_line_of (v_id v)) (itens_venda db)
       ∧ with_itens lines (sale_of v) ∈ gather rows) ∧
  (∀ s, s ∈ gather rows →
     ∃ v, v ∈ vendas db ∧ v_cancelada v = false ∧ id s = v_id v).
Proof.
  intros Hnd Hp. split; [done|].
  destruct (gathered_spec db rows Hnd Hp) as (H1 & H2 & H3).
  split; [done|]. split.
  - intros v Hv Hc.
    assert (Hact : v ∈ active db) by (by apply active_spec).
    assert (Hin : v_id v ∈ id <$> gather rows) by (apply H2; by exists v).
    apply list_elem_of_fmap in Hin as (s & Es & Hs).
    destruct (H3 s Hs) as (v' & Hv' & Ev' & lines & Hl & Es').
    assert (v' = v) as ->.
    { apply (NoDup_fmap_eq v_id (active db)); [by apply active_NoDup|done..|].
      by rewrite Ev'. }
    exists lines. split; [by rewrite Es|]. by rewrite <- Es'.
  - intros s Hs. destruct (H3 s Hs) as (v & Hv & Ev & _).
    apply active_spec in Hv as [Hv Hc]. by exists v.
Qed.

Lemma fetch_reads_each_sale_once_witness :
  NoDup (v_id <$> vendas loja) ∧
  reverse (sql_rows loja) ≡ₚ sql_rows loja ∧
  NoDup (id <$> gather (reverse (sql_rows loja))) ∧
  length (gather (reverse (sql_rows loja))) = 3%nat.
Proof.
  assert (Hnd : NoDup (v_id <$> vendas loja)).
  { apply (bool_decide_unpack _). by vm_compute. }
  split; [exact Hnd|]. split; [apply reverse_Permutation|].
  split; [|by vm_compute].
  exact (proj1 (proj2 (fetch_reads_each_sale_once loja
                         (reverse (sql_rows loja)) Hnd
                         (reverse_Permutation _)))).
Defined.

(** The lines of the sample in the order of the table, and in the other
    order. *)
Example gather_sample :
  (λ v, (id v, length (default [] (itens v)))) <$> gather (sql_rows loja)
  = [("a", 2%nat); ("c", 1%nat); ("b", 2%nat)]
  ∧ (λ v, (id v, length (default [] (itens v))))
      <$> gather (reverse (sql_rows loja))
    = [("b", 2%nat); ("c", 1%nat); ("a", 2%nat)].
Proof. by vm_compute. Qed.

(** *** Removing sales *)

Lemma not_in_singleton (x vid : string) :
  bool_decide (x ∉ [vid]) = negb (String.eqb x vid).
Proof.
  destruct (String.eqb_spec x vid) as [->|Hne]; simpl.
  - apply bool_decide_eq_false_2. intros H. apply H. by left.
  - apply bool_decide_eq_true_2. by intros ->%list_elem_of_singleton.
Qed.

Lemma not_in_app (x : string) (a b : list string) :
  bool_decide (x ∉ a ++ b) = bool_decide (x ∉ a) && bool_decide (x ∉ b).
Proof.
  destruct (decide (x ∈ a)) as [Ha|Ha], (decide (x ∈ b)) as [Hb|Hb];
    rewrite ?(bool_decide_eq_false_2 (x ∉ a)), ?(bool_decide_eq_false_2 (x ∉ b)),
      ?(bool_decide_eq_true_2 (x ∉ a)), ?(bool_decide_eq_true_2 (x ∉ b))
      by tauto; simpl;
    [apply bool_decide_eq_false_2..|apply bool_decide_eq_true_2];
    rewrite elem_of_app; tauto.
Qed.

Lemma without_nil (db : DB) : without [] db = db.
Proof.
  destruct db as [vs its]. unfold without. cbn [vendas itens_venda]. f_equal.
  - etransitivity; [|apply ConsultasTheory.filter_all].
    apply List.filter_ext. intros v. apply bool_decide_eq_true_2.
    apply not_elem_of_nil.
  - etransitivity; [|apply ConsultasTheory.filter_all].
    apply List.filter_ext. intros v. apply bool_decide_eq_true_2.
    apply not_elem_of_nil.
Qed.

Lemma without_app (a b : list string) (db : DB) :
  without b (without a db) = without (a ++ b) db.
Proof.
  unfold without. cbn [vendas itens_venda]. rewrite !filter_filter.
  f_equal; apply List.filter_ext; intros x; by rewrite not_in_app.
Qed.

Lemma delete_venda_run (vid : string) (c : Conn) :
  delete_venda vid c
  = (Ret tt, mkConn (committed c) (without [vid] (session c))).
Proof.
  unfold delete_venda, mbind, M_bind, modify, without. cbn [session committed
    vendas itens_venda]. do 2 f_equal.
  f_equal; apply List.filter_ext; intros x; by rewrite not_in_singleton.
Qed.

Lemma delete_each_run (l : list Venda) (n : nat) (c : Conn) :
  delete_each l n c
  = (Ret (n + length l)%nat,
     mkConn (committed c) (without (id <$> l) (session c))).
Proof.
  revert n c. induction l as [|v l IH]; intros n c.
  - cbn [delete_each]. unfold mret, M_ret. rewrite without_nil.
    destruct c. simpl. by rewrite Nat.add_0_r.
  - cbn [delete_each]. unfold mbind, M_bind. rewrite delete_venda_run.
    rewrite IH. cbn [committed session]. rewrite without_app.
    cbn [length fmap list_fmap app]. do 2 f_equal. lia.
Qed.

(** Where the times compare in every group, all groups are gone
    through. *)
Lemma remove_groups_run (now : datetime)
  (dups : list (signature * list Venda)) (n : nat) (c : Conn) :
  Forall (λ g, g.2 ≠ []) dups →
  Forall (λ g, comparable now g.2) dups →
  remove_groups now dups n c
  = (Ret (n + length (dups ≫= (λ g, to_remove_of now g.2)))%nat,
     mkConn (committed c)
       (without (id <$> (dups ≫= (λ g, to_remove_of now g.2))) (session c))).
Proof.
  intros Hd. revert n c.
  induction Hd as [|[k lst] dups Hne _ IH]; intros n c Hc.
  - cbn [remove_groups]. unfold mret, M_ret. simpl. rewrite without_nil.
    destruct c. simpl. by rewrite Nat.add_0_r.
  - apply Forall_cons in Hc as [Hc1 Hc].
    cbn [remove_groups]. rewrite bind_cons. cbn [snd] in *.
    destruct (CleanupMore.choose_to_keep_comparable now lst Hne Hc1)
      as (keep & Ek).
    unfold to_remove_of at 1 3. unfold mbind at 1 2, M_bind at 1 2, lift.
    rewrite Ek, delete_each_run, (IH _ _ Hc). cbn [committed session].
    rewrite without_app, fmap_app, length_app. do 2 f_equal. lia.
Qed.

(** Where they do not, the loop ends in a [TypeError], with nothing
    committed. *)
Lemma remove_groups_fail (now : datetime)
  (dups : list (signature * list Venda)) (n : nat) (c : Conn) :
  Forall (λ g, g.2 ≠ []) dups →
  ¬ Forall (λ g, comparable now g.2) dups →
  ∃ s, remove_groups now dups n c = (Raise TypeError, mkConn (committed c) s).
Proof.
  intros Hd. revert n c.
  induction Hd as [|[k lst] dups Hne _ IH]; intros n c Hn.
  - destruct Hn. constructor.
  - cbn [remove_groups]. cbn [snd] in *.
    unfold mbind at 1 2, M_bind at 1 2, lift.
    destruct (choose_to_keep now lst) as [keep|e] eqn:Ek.
    + destruct (CleanupMore.choose_to_keep_Ret now lst keep Ek) as (Hc & _).
      rewrite delete_each_run.
      apply (IH _ (mkConn (committed c) _)).
      intros Hall. apply Hn. by constructor.
    + destruct (CleanupMore.choose_to_keep_Raise now lst e Hne Ek) as [-> _].
      exists (session c). by destruct c.
Qed.

Lemma duplicates_nonempty (vs : list Venda) :
  Forall (λ g : signature * list Venda, g.2 ≠ []) (duplicates vs).
Proof.
  apply Forall_forall. intros g Hg. unfold duplicates in Hg.
  apply list_elem_of_In, filter_In in Hg as [_ Hg].
  apply bool_decide_eq_true in Hg. intros E. rewrite E in Hg. simpl in Hg.
  lia.
Qed.

Lemma main_run (now : datetime) (db : DB) :
  times_compare now (gather (sql_rows db)) →
  main now (connect db)
  = (Ret (match duplicates (gather (sql_rows db)) with
          | [] => Nenhuma_duplicada
          | _ :: _ => Removidas (length (removed now (gather (sql_rows db))))
          end),
     connect (without (id <$> removed now (gather (sql_rows db))) db)).
Proof.
  intros Hc. apply Forall_forall in Hc.
  unfold main, try_finally, fetch_vendas_and_itens, removed.
  unfold mbind at 1, M_bind at 1, gets. cbn [session connect].
  fold (duplicates (gather (sql_rows db))).
  pose proof (duplicates_nonempty (gather (sql_rows db))) as Hd.
  destruct (duplicates (gather (sql_rows db))) as [|g dups'] eqn:E.
  - unfold mret, M_ret, close, modify. simpl. by rewrite without_nil.
  - unfold mbind, M_bind. rewrite (remove_groups_run _ _ _ _ Hd Hc).
    unfold commit, close, modify, mret, M_ret. cbn [committed session connect].
    done.
Qed.

Lemma main_fail (now : datetime) (db : DB) :
  ¬ times_compare now (gather (sql_rows db)) →
  main now (connect db) = (Raise TypeError, connect db).
Proof.
  intros Hn.
  assert (Hn' : ¬ Forall (λ g : signature * list Venda, comparable now g.2)
                         (duplicates (gather (sql_rows db)))).
  { intros H. apply Hn. intros g Hg.
    by apply (proj1 (Forall_forall _ _) H g). }
  unfold main, try_finally, fetch_vendas_and_itens.
  unfold mbind at 1, M_bind at 1, gets. cbn [session connect].
  fold (duplicates (gather (sql_rows db))).
  pose proof (duplicates_nonempty (gather (sql_rows db))) as Hd.
  destruct (duplicates (gather (sql_rows db))) as [|g dups'] eqn:E.
  - destruct Hn'. constructor.
  - unfold mbind, M_bind.
    destruct (remove_groups_fail now (g :: dups') 0 (connect db) Hd Hn')
      as [s Hs].
    rewrite Hs.
    by unfold close, modify.
Qed.

(** Whether the times compare in every group can be computed. *)
Lemma keeps_all_spec (now : datetime) (vs : list Venda) :
  keeps_all now vs = true ↔ times_compare now vs.
Proof.
  unfold keeps_all, times_compare. rewrite forallb_forall.
  pose proof (duplicates_nonempty vs) as Hd.
  rewrite Forall_forall in Hd. split.
  - intros H g Hg. specialize (H g (proj1 (list_elem_of_In _ _) Hg)).
    destruct (choose_to_keep now g.2) as [k|] eqn:E; [|done].
    by apply (CleanupMore.choose_to_keep_Ret now g.2 k).
  - intros H g Hg%list_elem_of_In.
    by destruct (CleanupMore.choose_to_keep_comparable now g.2 (Hd g Hg)
                   (H g Hg)) as [k ->].
Qed.

Lemma times_compare_cases (now : datetime) (vs : list Venda) :
  times_compare now vs ∨ ¬ times_compare now vs.
Proof.
  rewrite <- keeps_all_spec. destruct (keeps_all now vs); [by left|by right].
Qed.

(** *** The sales that are removed *)

Lemma duplicates_classes (vs : list Venda) :
  duplicates vs
  = List.filter (λ g, bool_decide (1 < length g.2)%nat)
      (classes build_signature (List.filter has_signature vs)).
Proof.
  apply (grouped_duplicates signature_eqb build_signature signature_eqb_spec).
Qed.

(** A group of duplicates: the sales whose signature is equal to its
    key. *)
Lemma dup_members (vs : list Venda) (k : signature) (lst : list Venda) :
  (k, lst) ∈ duplicates vs →
  (1 < length lst)%nat ∧ signature_eqb k k = true
  ∧ lst = List.filter (λ v, signature_eqb k (build_signature v)) vs.
Proof.
  rewrite duplicates_classes. intros Hg.
  apply list_elem_of_In, filter_In in Hg as [Hg Hlen].
  apply list_elem_of_In in Hg. apply bool_decide_eq_true in Hlen.
  cbn [snd] in Hlen. split; [done|].
  destruct (classes_spec build_signature (List.filter has_signature vs))
    as (_ & Hs & _).
  destruct (Hs k lst Hg) as [E Hne].
  assert (Hk : signature_eqb k k = true).
  { destruct lst as [|y ys]; [done|].
    assert (Hy : In y (y :: ys)) by (by left).
    rewrite E in Hy. apply filter_In in Hy as [Hy Ey].
    apply filter_In in Hy as [_ Hy]. apply bool_decide_eq_true in Ey.
    by rewrite <- Ey. }
  split; [done|]. rewrite E, filter_filter. apply List.filter_ext.
  intros v. apply Bool.eq_iff_eq_true.
  rewrite andb_true_iff, bool_decide_eq_true, signature_eqb_spec.
  unfold has_signature. split.
  - intros [H <-]. done.
  - intros [-> H]. done.
Qed.

Lemma dup_elem (vs : list Venda) (k : signature) (lst : list Venda) :
  (k, lst) ∈ duplicates vs →
  ∀ v, v ∈ lst ↔ v ∈ vs ∧ signature_eqb k (build_signature v) = true.
Proof.
  intros (_ & _ & ->)%dup_members v.
  by rewrite !list_elem_of_In, filter_In.
Qed.

Lemma dup_unique (vs : list Venda) (k : signature) (l1 l2 : list Venda) :
  (k, l1) ∈ duplicates vs → (k, l2) ∈ duplicates vs → l1 = l2.
Proof. intros (_ & _ & ->)%dup_members (_ & _ & ->)%dup_members. done. Qed.

Lemma two_members {A} (l : list A) (a b : A) :
  a ∈ l → b ∈ l → a ≠ b → (1 < length l)%nat.
Proof.
  destruct l as [|x [|y l]]; simpl; [by intros ?%elem_of_nil| |lia].
  intros ->%list_elem_of_singleton ->%list_elem_of_singleton. done.
Qed.

(** Two sales of the same signature are in a group of duplicates. *)
Lemma dup_of (vs : list Venda) (a b : Venda) :
  a ∈ vs → b ∈ vs → a ≠ b → same_signature a b →
  ∃ k lst, (k, lst) ∈ duplicates vs ∧ a ∈ lst ∧ b ∈ lst.
Proof.
  intros Ha Hb Hab Hs. pose proof Hs as Hs'.
  apply signature_eqb_spec in Hs' as [Eab Hok].
  destruct (classes_spec build_signature (List.filter has_signature vs))
    as (_ & Hcl & Hk).
  assert (Ha' : a ∈ List.filter has_signature vs).
  { apply list_elem_of_In, filter_In. split; [by apply list_elem_of_In|done]. }
  pose proof (Hk a Ha') as Hkey.
  apply list_elem_of_fmap in Hkey as ([k lst] & E & Hg). simpl in E. subst k.
  destruct (Hcl _ _ Hg) as [El _].
  assert (Hla : a ∈ lst).
  { rewrite El. apply list_elem_of_In, filter_In.
    split; [by apply list_elem_of_In|]. by apply bool_decide_eq_true. }
  assert (Hlb : b ∈ lst).
  { rewrite El. apply list_elem_of_In, filter_In. split.
    - apply filter_In. split; [by apply list_elem_of_In|].
      unfold has_signature. by rewrite <- Eab.
    - by apply bool_decide_eq_true. }
  exists (build_signature a), lst. split; [|done].
  rewrite duplicates_classes. apply list_elem_of_In, filter_In.
  split; [by apply list_elem_of_In|]. apply bool_decide_eq_true. cbn [snd].
  by apply (two_members lst a b).
Qed.

Lemma removed_elem (now : datetime) (vs : list Venda) (u : Venda) :
  u ∈ removed now vs ↔
  ∃ k lst keep,
    (k, lst) ∈ duplicates vs ∧
    choose_to_keep now lst = Ret keep ∧ u ∈ lst ∧ id u ≠ id keep.
Proof.
  unfold removed. rewrite list_elem_of_bind. split.
  - intros ([k lst] & Hu & Hg). cbn [snd] in Hu. unfold to_remove_of in Hu.
    destruct (choose_to_keep now lst) as [keep|] eqn:Ek;
      [|by apply elem_of_nil in Hu].
    apply list_elem_of_In, filter_In in Hu as [Hu Hid].
    exists k, lst, keep. repeat split; try done; [by apply list_elem_of_In|].
    apply negb_true_iff in Hid. by apply String.eqb_neq.
  - intros (k & lst & keep & Hg & Ek & Hu & Hid).
    exists (k, lst). split; [|done].
    cbn [snd]. unfold to_remove_of. rewrite Ek.
    apply list_elem_of_In, filter_In. split; [by apply list_elem_of_In|].
    apply negb_true_iff. by apply String.eqb_neq.
Qed.

(** Every sale that is removed leaves behind a sale of the same signature,
    which [choose_to_keep] ranks no later. *)
Lemma removed_has_twin (now : datetime) (vs : list Venda) (u : Venda) :
  u ∈ removed now vs →
  u ∈ vs ∧
  ∃ keep, keep ∈ vs ∧ (keep ∉ removed now vs) ∧ id keep ≠ id u
          ∧ same_signature keep u
          ∧ rank_compare (rank now keep) (rank now u) ≠ Gt.
Proof.
  intros (k & lst & keep & Hg & Ek & Hu & Hid)%removed_elem.
  pose proof (dup_elem vs k lst Hg) as Hm.
  destruct (CleanupMore.choose_to_keep_Ret now lst keep Ek)
    as (_ & Hk & Hmin).
  pose proof (Hmin u Hu) as Hrank.
  apply Hm in Hu as [Hu Hsu]. apply Hm in Hk as [Hk Hsk].
  apply signature_eqb_spec in Hsu as [Eu Hok].
  apply signature_eqb_spec in Hsk as [Ekeep _].
  split; [done|]. exists keep. split; [done|]. split; [|split; [done|split]].
  - intros (k2 & lst2 & keep2 & Hg2 & Ek2 & Hu2 & Hid2)%removed_elem.
    apply (dup_elem vs k2 lst2 Hg2) in Hu2 as [_ Hs2].
    apply signature_eqb_spec in Hs2 as [E2 _].
    assert (k2 = k) as -> by congruence.
    rewrite (dup_unique vs k lst2 lst Hg2 Hg) in Ek2. congruence.
  - unfold same_signature. by rewrite <- Ekeep, <- Eu.
  - done.
Qed.

(** Two sales that both stay have different signatures. *)
Lemma kept_are_distinct (now : datetime) (vs : list Venda) (a b : Venda) :
  NoDup (id <$> vs) → times_compare now vs → a ∈ vs → b ∈ vs →
  a ∉ removed now vs → b ∉ removed now vs →
  same_signature a b → a = b.
Proof.
  intros Hnd Hc Ha Hb Hra Hrb E.
  destruct (String.eqb_spec (id a) (id b)) as [Eid|Hid].
  { by apply (NoDup_fmap_eq id vs). }
  exfalso.
  assert (Hab : a ≠ b) by (by intros ->).
  destruct (dup_of vs a b Ha Hb Hab E) as (k & lst & Hg & Hla & Hlb).
  assert (Hne : lst ≠ []) by (intros ->; by apply elem_of_nil in Hla).
  destruct (CleanupMore.choose_to_keep_comparable now lst Hne (Hc _ Hg))
    as (keep & Ek).
  destruct (String.eqb_spec (id a) (id keep)) as [Ea|Na].
  - apply Hrb, removed_elem. exists k, lst, keep.
    repeat split; try done. congruence.
  - apply Hra, removed_elem. by exists k, lst, keep.
Qed.

Lemma removed_id (now : datetime) (vs : list Venda) (v : Venda) :
  NoDup (id <$> vs) → v ∈ vs →
  id v ∈ id <$> removed now vs ↔ v ∈ removed now vs.
Proof.
  intros Hnd Hv. rewrite list_elem_of_fmap. split.
  - intros (u & E & Hu). pose proof (removed_has_twin now vs u Hu) as [Hu' _].
    by rewrite (NoDup_fmap_eq id vs v u Hnd Hv Hu' E).
  - intros Hr. by exists v.
Qed.

(** The times of the sample compare. *)
Lemma loja_times_compare : times_compare run_time (gather (sql_rows loja)).
Proof. apply keeps_all_spec. by vm_compute. Qed.

(** X26.  The script removes duplicates only and keeps the best of each,
    or removes nothing.  From a database whose sales have distinct
    identifiers: when in every group of more than one sale the times
    compare, [main] commits and leaves the database without some sales and
    their lines; each sale it removes has a signature equal to that of a
    sale it keeps, and [choose_to_keep] ranks the one kept no later than
    the one removed.  When in some group they do not compare, two sales of
    one class having one an aware and the other a naive time, [main] ends
    in a [TypeError] and the database is as it was. *)
Theorem main_removes_only_duplicates (now : datetime) (db : DB) :
  NoDup (v_id <$> vendas db) →
  ∃ vs,
    fetch_vendas_and_itens (connect db) = (Ret vs, connect db) ∧
    ((times_compare now vs ∧
      ∃ report ids,
        main now (connect db) = (Ret report, connect (without ids db)) ∧
        ∀ vid, vid ∈ ids →
          ∃ gone kept,
            gone ∈ vs ∧ kept ∈ vs ∧ id gone = vid ∧ (id kept ∉ ids) ∧
            same_signature kept gone ∧
            rank_compare (rank now kept) (rank now gone) ≠ Gt)
     ∨ (¬ times_compare now vs ∧
        main now (connect db) = (Raise TypeError, connect db))).
Proof.
  intros Hnd. destruct (fetched_spec db Hnd) as (Hids & _).
  exists (gather (sql_rows db)). split; [reflexivity|].
  destruct (times_compare_cases now (gather (sql_rows db))) as [Hc|Hn];
    [left|right; split; [done|by apply main_fail]].
  split; [done|].
  eexists _, (id <$> removed now (gather (sql_rows db))).
  split; [by apply main_run|].
  intros vid (gone & -> & Hgone)%list_elem_of_fmap.
  destruct (removed_has_twin now _ gone Hgone)
    as (Hin & kept & Hk & Hkr & _ & Hs & Hr).
  exists gone, kept. repeat split; try done.
  by rewrite (removed_id now _ kept Hids Hk).
Qed.

Lemma main_removes_only_duplicates_witness :
  NoDup (v_id <$> vendas loja) ∧
  ∃ vs,
    fetch_vendas_and_itens (connect loja) = (Ret vs, connect loja) ∧
    ((times_compare run_time vs ∧
      ∃ report ids,
        main run_time (connect loja)
        = (Ret report, connect (without ids loja)) ∧
        ∀ vid, vid ∈ ids →
          ∃ gone kept,
            gone ∈ vs ∧ kept ∈ vs ∧ id gone = vid ∧ (id kept ∉ ids) ∧
            same_signature kept gone ∧
            rank_compare (rank run_time kept) (rank run_time gone) ≠ Gt)
     ∨ (¬ times_compare run_time vs ∧
        main run_time (connect loja) = (Raise TypeError, connect loja))).
Proof.
  assert (Hnd : NoDup (v_id <$> vendas loja)).
  { apply (bool_decide_unpack _). by vm_compute. }
  split; [exact Hnd|].
  exact (main_removes_only_duplicates run_time loja Hnd).
Defined.

(** The sale of the sample that is removed. *)
Example main_sample :
  main run_time (connect loja)
  = (Ret (Removidas 1), connect (without ["a"%string] loja)).
Proof. rewrite (main_run _ _ loja_times_compare). by vm_compute. Qed.

(** A duplicate without creation time, the other times being naive: the
    run fails and removes nothing, not even the duplicate of the first
    group. *)
Example main_sample_sem_data :
  ¬ times_compare run_time (gather (sql_rows loja_sem_data))
  ∧ main run_time (connect loja_sem_data)
    = (Raise TypeError, connect loja_sem_data).
Proof.
  assert (Hn : ¬ times_compare run_time (gather (sql_rows loja_sem_data))).
  { rewrite <- keeps_all_spec. by vm_compute. }
  split; [exact Hn|]. by apply main_fail.
Qed.

(** Sales whose total is NaN are duplicates of nothing. *)
Example main_sample_nan :
  main run_time (connect loja_nan)
  = (Ret (Removidas 1), connect (without ["a"%string] loja_nan)).
Proof.
  rewrite main_run; [by vm_compute|].
  apply keeps_all_spec. by vm_compute.
Qed.

(** X27.  After a run that does not fail no two sales the script has read
    and kept have equal signatures: from a database whose sales have
    distinct identifiers, the times comparing in every group of more than
    one sale, [main] commits, and of the sales it does not remove no two
    are equal in signature. *)
Theorem main_leaves_distinct_signatures (now : datetime) (db : DB) :
  NoDup (v_id <$> vendas db) →
  times_compare now (gather (sql_rows db)) →
  ∃ report ids vs,
    fetch_vendas_and_itens (connect db) = (Ret vs, connect db) ∧
    main now (connect db) = (Ret report, connect (without ids db)) ∧
    ∀ a b, a ∈ vs → b ∈ vs → id a ∉ ids → id b ∉ ids →
           same_signature a b → a = b.
Proof.
  intros Hnd Hc. destruct (fetched_spec db Hnd) as (Hids & _).
  eexists _, (id <$> removed now (gather (sql_rows db))), _.
  split; [reflexivity|]. split; [by apply main_run|].
  intros a b Ha Hb Hra Hrb.
  apply (kept_are_distinct now (gather (sql_rows db))); try done.
  - by rewrite <- (removed_id now (gather (sql_rows db)) a Hids Ha).
  - by rewrite <- (removed_id now (gather (sql_rows db)) b Hids Hb).
Qed.

Lemma main_leaves_distinct_signatures_witness :
  NoDup (v_id <$> vendas loja) ∧
  times_compare run_time (gather (sql_rows loja)) ∧
  ∃ report ids vs,
    fetch_vendas_and_itens (connect loja) = (Ret vs, connect loja) ∧
    main run_time (connect loja) = (Ret report, connect (without ids loja)) ∧
    ∀ a b, a ∈ vs → b ∈ vs → id a ∉ ids → id b ∉ ids →
           same_signature a b → a = b.
Proof.
  assert (Hnd : NoDup (v_id <$> vendas loja)).
  { apply (bool_decide_unpack _). by vm_compute. }
  assert (Hc : times_compare run_time (gather (sql_rows loja))).
  { apply keeps_all_spec. by vm_compute. }
  split; [exact Hnd|]. split; [exact Hc|].
  exact (main_leaves_distinct_signatures run_time loja Hnd Hc).
Defined.

Lemma without_vendas (ids : list string) (db : DB) (row : VendaRow) :
  row ∈ vendas (without ids db) ↔ row ∈ vendas db ∧ v_id row ∉ ids.
Proof.
  unfold without. cbn [vendas].
  by rewrite list_elem_of_In, filter_In, bool_decide_eq_true,
    <- list_elem_of_In.
Qed.

Lemma without_itens (ids : list string) (db : DB) (i : ItemRow) :
  i ∈ itens_venda (without ids db) ↔ i ∈ itens_venda db ∧ i_venda_id i ∉ ids.
Proof.
  unfold without. cbn [itens_venda].
  by rewrite list_elem_of_In, filter_In, bool_decide_eq_true,
    <- list_elem_of_In.
Qed.

(** X28.  What the script leaves alone, whether it fails or not: from a
    database whose sales have distinct identifiers, [main] either returns
    or ends in a [TypeError] with the database as it was; it removes the
    sales it names and all their lines, and nothing else; a cancelled sale
    is never removed, nor is a sale to whose signature that of no other
    sale is equal. *)
Theorem main_spares_the_rest (now : datetime) (db : DB) :
  NoDup (v_id <$> vendas db) →
  ∃ r (ids : list string) vs db',
    fetch_vendas_and_itens (connect db) = (Ret vs, connect db) ∧
    main now (connect db) = (r, connect db') ∧
    (is_Ret r ∨ (r = Raise TypeError ∧ db' = db)) ∧
    (∀ row, row ∈ vendas db' ↔ row ∈ vendas db ∧ v_id row ∉ ids) ∧
    (∀ i, i ∈ itens_venda db' ↔ i ∈ itens_venda db ∧ i_venda_id i ∉ ids) ∧
    (∀ row, row ∈ vendas db → v_cancelada row = true → v_id row ∉ ids) ∧
    (∀ s, s ∈ vs →
          (∀ s', s' ∈ vs → same_signature s' s → s' = s) →
          id s ∉ ids).
Proof.
  intros Hnd. destruct (fetched_spec db Hnd) as (Hids & _ & Hrows).
  set (vs := gather (sql_rows db)) in *.
  destruct (times_compare_cases now vs) as [Hc|Hn].
  - eexists _, (id <$> removed now vs), vs,
         (without (id <$> removed now vs) db).
    split; [reflexivity|]. split; [by apply main_run|].
    split; [by left|].
    split; [apply without_vendas|]. split; [apply without_itens|]. split.
    + intros row Hrow Hcan (u & E & Hu)%list_elem_of_fmap.
      destruct (removed_has_twin now vs u Hu) as [Hin _].
      destruct (Hrows u Hin) as (v & Hv & Ev & _).
      apply active_spec in Hv as [Hv Hcv].
      assert (row = v) as ->; [|congruence].
      apply (NoDup_fmap_eq v_id (vendas db)); [done..|congruence].
    + intros s Hs Huniq Hin. apply (removed_id now vs s Hids Hs) in Hin.
      destruct (removed_has_twin now vs s Hin)
        as (_ & keep & Hk & _ & Hid & Hsig & _).
      apply Hid. by rewrite (Huniq keep Hk Hsig).
  - exists (Raise TypeError), [], vs, db.
    split; [reflexivity|]. split; [by apply main_fail|].
    split; [by right|].
    assert (Hnil : ∀ x : string, x ∉ []) by (intros x; apply not_elem_of_nil).
    split; [intros row; split; [done|by intros [? _]]|].
    split; [intros i; split; [done|by intros [? _]]|].
    split; [intros row _ _; apply Hnil|intros s _ _; apply Hnil].
Qed.

Lemma main_spares_the_rest_witness :
  NoDup (v_id <$> vendas loja) ∧
  ∃ r (ids : list string) db',
    main run_time (connect loja) = (r, connect db') ∧
    (∀ row, row ∈ vendas db' ↔ row ∈ vendas loja ∧ v_id row ∉ ids) ∧
    (∀ row, row ∈ vendas loja → v_cancelada row = true → v_id row ∉ ids).
Proof.
  assert (Hnd : NoDup (v_id <$> vendas loja)).
  { apply (bool_decide_unpack _). by vm_compute. }
  split; [exact Hnd|].
  destruct (main_spares_the_rest run_time loja Hnd)
    as (r & ids & vs & db' & _ & Hrun & _ & Hv & _ & Hc & _).
  exists r, ids, db'. split; [exact Hrun|]. split; [exact Hv|exact Hc].
Defined.

Lemma NoDup_all_equal {A} (l : list A) :
  NoDup l → (∀ a b, a ∈ l → b ∈ l → a = b) → (length l ≤ 1)%nat.
Proof.
  destruct l as [|x [|y l]]; simpl; [lia..|].
  intros [Hx _]%NoDup_cons Heq. exfalso. apply Hx.
  rewrite (Heq x y); [by left|by left|right; by left].
Qed.

Lemma NoDup_List_filter {A} (p : A → bool) (l : list A) :
  NoDup l → NoDup (List.filter p l).
Proof.
  induction 1 as [|x l Hx _ IH]; simpl; [constructor|].
  destruct (p x); [|done]. constructor; [|done].
  intros Hin. apply Hx. apply list_elem_of_In in Hin.
  apply filter_In in Hin as [Hin _]. by apply list_elem_of_In.
Qed.

(** No group of more than one sale is left where no two sales are equal
    in signature. *)
Lemma no_duplicates (vs : list Venda) :
  NoDup (id <$> vs) →
  (∀ a b, a ∈ vs → b ∈ vs → same_signature a b → a = b) →
  duplicates vs = [].
Proof.
  intros Hnd Hdist.
  destruct (duplicates vs) as [|[k lst] gs] eqn:E; [done|]. exfalso.
  assert (Hg : (k, lst) ∈ duplicates vs) by (rewrite E; by left).
  pose proof (dup_elem vs k lst Hg) as Hm.
  destruct (dup_members vs k lst Hg) as (Hlen & Hok & El).
  assert (Hl : NoDup lst).
  { rewrite El. apply NoDup_List_filter. by eapply NoDup_fmap_1. }
  pose proof (NoDup_all_equal lst Hl) as Hle.
  assert (length lst ≤ 1)%nat; [|lia]. apply Hle.
  intros a b [Ha Hsa]%Hm [Hb Hsb]%Hm. apply Hdist; [done..|].
  unfold same_signature. apply signature_eqb_spec in Hsa as [<- _].
  done.
Qed.

(** X29.  A second run finds nothing to do: after a run that did not
    fail, the times comparing in every group of more than one sale, [main]
    reports no duplicate on the database it left, and changes nothing, at
    whatever time it runs. *)
Theorem main_is_idempotent (now now' : datetime) (db : DB) :
  NoDup (v_id <$> vendas db) →
  times_compare now (gather (sql_rows db)) →
  ∃ report db',
    main now (connect db) = (Ret report, connect db') ∧
    main now' (connect db') = (Ret Nenhuma_duplicada, connect db').
Proof.
  intros Hnd Hc. destruct (fetched_spec db Hnd) as (Hids & _ & _).
  set (vs := gather (sql_rows db)) in *.
  set (ids := id <$> removed now vs).
  set (db' := without ids db).
  eexists _, db'. split; [by apply main_run|].
  assert (Hnd' : NoDup (v_id <$> vendas db')).
  { unfold db', without. cbn [vendas]. by apply NoDup_fmap_filter. }
  destruct (fetched_spec db' Hnd') as (Hids' & _ & Hrows').
  set (vs' := gather (sql_rows db')) in *.
  assert (Hsub : ∀ s, s ∈ vs' → s ∈ vs ∧ s ∉ removed now vs).
  { intros s Hs. destruct (Hrows' s Hs) as (v & Hv & Ev & Es).
    apply active_spec in Hv as [Hv Hcv].
    apply without_vendas in Hv as [Hv Hout].
    assert (Hact : v ∈ active db) by (by apply active_spec).
    assert (Hlines : List.filter (is_line_of (id s)) (itens_venda db')
                     = List.filter (is_line_of (id s)) (itens_venda db)).
    { unfold db', without. cbn [itens_venda]. rewrite filter_filter.
      apply List.filter_ext. intros i. unfold is_line_of.
      destruct (String.eqb_spec (i_venda_id i) (id s)) as [E|_];
        [|by rewrite andb_false_r].
      rewrite bool_decide_eq_true_2; [done|]. by rewrite E, <- Ev. }
    rewrite Hlines, <- Ev in Es.
    assert (Hs' : s ∈ vs) by (rewrite Es; by apply fetched_has).
    split; [done|]. intros Hr. apply Hout. rewrite Ev.
    by apply (removed_id now vs s Hids Hs'). }
  assert (Hdist : ∀ a b, a ∈ vs' → b ∈ vs' → same_signature a b → a = b).
  { intros a b [Ha Hra]%Hsub [Hb Hrb]%Hsub.
    by apply (kept_are_distinct now vs). }
  pose proof (no_duplicates vs' Hids' Hdist) as Hno.
  rewrite main_run.
  - fold vs'. unfold removed. rewrite Hno. cbn [mbind list_bind fmap list_fmap].
    by rewrite without_nil.
  - intros g Hg. fold vs' in Hg. rewrite Hno in Hg.
    by apply elem_of_nil in Hg.
Qed.

Lemma main_is_idempotent_witness :
  NoDup (v_id <$> vendas loja) ∧
  times_compare run_time (gather (sql_rows loja)) ∧
  ∃ report db',
    main run_time (connect loja) = (Ret report, connect db') ∧
    main run_time (connect db') = (Ret Nenhuma_duplicada, connect db').
Proof.
  assert (Hnd : NoDup (v_id <$> vendas loja)).
  { apply (bool_decide_unpack _). by vm_compute. }
  assert (Hc : times_compare run_time (gather (sql_rows loja))).
  { apply keeps_all_spec. by vm_compute. }
  split; [exact Hnd|]. split; [exact Hc|].
  exact (main_is_idempotent run_time run_time loja Hnd Hc).
Defined.

End LimpezaTheory.

(** ** Finding the database *)

Module ConexaoTheory.
Import Conexao.

Lemma some_text_spec (x : option string) :
  some_text x = true ↔ ∃ s, x = Some s ∧ s ≠ ""%string.
Proof.
  destruct x as [s|]; simpl.
  - rewrite negb_true_iff, String.eqb_neq. naive_solver.
  - naive_solver.
Qed.

Lemma replace_prefix (pat rep : list ascii) (c : ascii) (l : list ascii) :
  is_prefix pat (c :: l) = true →
  replace pat rep 0 (c :: l) = rep ++ replace pat rep (length pat - 1) l.
Proof. intros H. cbn [replace]. by rewrite H. Qed.

(** What [get_db_url] makes of the text it has found. *)
Lemma converted (u0 u : string) :
  u0 ≠ ""%string →
  (if startswith u0 asyncpg then
     Return (string_of_list_ascii
               (replace (list_ascii_of_string asyncpg)
                        (list_ascii_of_string "postgresql://") 0
                        (list_ascii_of_string u0)))
   else Return u0) = Return u →
  u ≠ ""%string ∧ startswith u asyncpg = false.
Proof.
  intros Hne. destruct (startswith u0 asyncpg) eqn:Hp.
  - intros [= <-]. unfold startswith in Hp.
    destruct (list_ascii_of_string u0) as [|c l] eqn:E; [done|].
    rewrite (replace_prefix _ _ _ _ Hp).
    generalize (replace (list_ascii_of_string asyncpg)
                  (list_ascii_of_string "postgresql://")
                  (length (list_ascii_of_string asyncpg) - 1) l).
    intros rest. split; [done|]. unfold startswith.
    by rewrite list_ascii_of_string_of_list_ascii.
  - by intros [= <-].
Qed.

(** X30.  How the script finds its database: [get_db_url] either returns a
    URL that is not empty and does not start with
    [postgresql+asyncpg://], or it exits with status 1, which it does only
    when the environment gives neither variable a value; and a value of
    [DATABASE_PUBLIC_URL] in the environment decides the answer alone,
    whatever [DATABASE_URL] and the files hold. *)
Theorem get_db_url_result (e : Env) :
  (∀ u, get_db_url e = Return u →
        u ≠ ""%string ∧ startswith u asyncpg = false) ∧
  (∀ code, get_db_url e = SystemExit code →
           code = 1
           ∧ some_text (environ e !! "DATABASE_PUBLIC_URL") = false
           ∧ some_text (environ e !! "DATABASE_URL") = false) ∧
  (∀ u0 e', environ e !! "DATABASE_PUBLIC_URL" = Some u0 → u0 ≠ ""%string →
            environ e' !! "DATABASE_PUBLIC_URL" = Some u0 →
            get_db_url e' = get_db_url e).
Proof.
  split; [|split].
  - intros u. unfold get_db_url.
    destruct (if some_text _ then _ else _) as [u0|]; [|done].
    destruct (String.eqb_spec u0 ""); [done|]. by apply converted.
  - intros code. unfold get_db_url, or_text.
    destruct (some_text (environ e !! "DATABASE_PUBLIC_URL")) eqn:H1.
    + rewrite H1. apply some_text_spec in H1 as (s & -> & Hs).
      destruct (String.eqb_spec s ""); [done|].
      by destruct (startswith s asyncpg).
    + destruct (some_text (environ e !! "DATABASE_URL")) eqn:H2.
      * apply some_text_spec in H2 as (s & -> & Hs).
        destruct (String.eqb_spec s ""); [done|].
        by destruct (startswith s asyncpg).
      * destruct (scan_candidates _ _) as [u0|]; [|by intros [= <-]].
        destruct (String.eqb_spec u0 ""); [by intros [= <-]|].
        by destruct (startswith u0 asyncpg).
  - intros u0 e' H1 Hne H1'. unfold get_db_url, or_text.
    rewrite H1, H1'.
    assert (Hs : some_text (Some u0) = true).
    { apply some_text_spec. by exists u0. }
    rewrite !Hs. cbv beta iota. by rewrite ?Hs.
Qed.

(** In a file the first of the two kinds of line decides, and its value
    is converted: the sample file gives the internal URL. *)
Example get_db_url_from_file :
  get_db_url env_files_only = Return "postgresql://u:p@db/loja".
Proof. by vm_compute. Qed.

Example get_db_url_from_environment :
  get_db_url env_both = Return "postgresql://public/loja".
Proof. by vm_compute. Qed.

End ConexaoTheory.
